(* ===== verification/_CoqProject ===== *)
-Q . S2P
Prelude.v
Text.v
Protocol.v
Settings.v
Queue.v
Broker.v
Postgres.v
WalletDb.v
WalletRepository.v
WalletProcessor.v
WalletSpec.v
WalletStatements.v
WalletRefinement.v
WalletHandlers.v
WalletRuns.v
WalletErrors.v
WalletTotal.v
WalletTheorems.v
WalletOwners.v
WalletExamples.v
Ledger.v
LedgerTheorems.v
Timeseries.v
TimeseriesTheorems.v
FeedExamples.v
WalletOutbox.v
WalletOutboxTheorems.v
WalletQueue.v
WalletQueueTheorems.v
WalletQueueExamples.v
EngineIngress.v
EngineIngressTheorems.v
ProjectorMath.v
ProjectorPositions.v
ProjectorPositionsTheorems.v
ProjectorBook.v
ProjectorBookTheorems.v
ProjectorDb.v
Projector.v
ProjectorTrades.v
ProjectorStatements.v
ProjectorInvariant.v
ProjectorProgress.v
ProjectorTheorems.v
ProjectorClaims.v
ProjectorExamples.v
WsHub.v
WsHubTheorems.v
WsRouter.v
WsRouterTheorems.v
WsSession.v
WsSessionTheorems.v
WsClaims.v
WsExamples.v
ServerReplies.v
ServerRepliesTheorems.v
ServerHandlers.v
ServerHandlersTheorems.v
ServerAuth.v
ServerAuthTheorems.v
Query.v
ServerReads.v
ServerReadsTheorems.v
ServerRoutes.v
ServerRoutesTheorems.v
OrderFlow.v
OrderBatch.v
BenchDriver.v
BenchDriverTheorems.v
Smoke.v
SmokeTheorems.v
EnginePeer.v
EnginePeerTheorems.v
DbCrate.v
DbCrateTheorems.v
Startup.v
Processes.v
StartupTheorems.v
StartupExamples.v
UnitTests.v
