(* ===== verification/Prelude.v ===== *)
(** * The exchange: a verification of its services

    The repository holds the services around a matching engine: an HTTP server
    ([apps/server]), the wallet ([apps/wallet]), the accounting journal
    ([apps/ledger]), the read models ([apps/projector]), the candles
    ([apps/timeseries]), the websocket server ([apps/ws]), the crates they share
    ([crates/protocol], [crates/db], [crates/config]) and tools. They meet in
    Postgres and over the topics of a broker; the engine is another program.

    A command of a user goes: server (a request is registered, a [WalletCommand] is
    put on [wallet.commands] under the user's key) - wallet (one transaction changes
    balances and reservations, stores the answer under the idempotency key and puts
    events and engine inputs in [wallet_outbox]) - relay (publishes the outbox to
    [wallet.events] and [engine.input]) - engine - its replies back to the server, and
    its events to wallet, projector, candles and websocket sessions; the ledger
    journals the wallet's events, and the reads of the server answer from what the
    projector and the wallet wrote.

    ** Files, and the code they model

    Each service has its model in a file named after it, its lemmas in
    [...Theorems] (or [...Statements], [...Invariant], [...Runs] and the like) and
    concrete runs in [...Examples] or at the end of the lemmas.

    - Prelude: results, the state-and-error monad [M] with [transaction], 64-bit
      integers; Text: Rust's string functions and integer parsing; Query: [ORDER BY]
      and [LIMIT]; Postgres: errors of SQL, BIGINT columns, the table of consumer
      offsets.
    - Protocol: [crates/protocol] (common.rs, wallet.rs, engine.rs), every message.
    - Settings: [crates/config] and the settings.rs of each service; the
      environment is a parameter.
    - Broker, Queue: what every redpanda.rs and consumer.rs has a copy of - brokers,
      topics, partition clients, the joined tasks, the loop over one partition
      (Broker) - and the consumer of a partition as a step relation with crashes
      (Queue).
    - WalletDb (tables and statements), WalletRepository (repository.rs),
      WalletProcessor (processor.rs, router.rs, engine_inputs.rs), WalletSpec (the
      specification), WalletStatements, WalletRefinement, WalletHandlers,
      WalletRuns, WalletErrors, WalletTotal, WalletTheorems, WalletOwners (whose books
      and which reservation a step touches); WalletOutbox (the
      statements on the outbox, the choice of a partition, the relay of
      redpanda.rs); WalletQueue (the commands of an engine event, replies, the two
      consumers of redpanda.rs).
    - Ledger: processor.rs, repository.rs, worker.rs, redpanda.rs of [apps/ledger].
    - Timeseries: the same of [apps/timeseries].
    - ProjectorMath, ProjectorPositions, ProjectorBook, ProjectorDb, Projector,
      ProjectorTrades: repository.rs, processor.rs, worker.rs, redpanda.rs of
      [apps/projector], by table; ProjectorStatements, ProjectorInvariant,
      ProjectorProgress, ProjectorTheorems, ProjectorClaims prove them right.
    - WsHub (hub.rs, messages.rs), WsRouter (router.rs, consumer.rs), WsSession
      (session.rs, main.rs) of [apps/ws], with WsClaims.
    - ServerReplies (replies.rs and the consumers of redpanda.rs), ServerHandlers
      (the handlers that queue commands, hot_path.rs, protocol_map.rs and the
      producer of redpanda.rs), ServerAuth (sign-up, sign-in, the middleware and
      [apps/ws/src/auth.rs]), ServerReads (every handler that reads, its service,
      and its query in [crates/db]), ServerRoutes (main.rs and the routes.rs of every
      module: the tree of services, the middleware in front of it, and what a
      request goes through) of [apps/server].
    - DbCrate: the functions of [crates/db] no service calls, over the tables of
      their migrations.
    - EngineIngress: [tools/engine-ingress]. EnginePeer: the stand-in for the engine of
      [tools/exchange-bench-engine-peer]. BenchDriver:
      [tools/exchange-bench-driver]. Smoke: the run and the checks of
      [tools/e2e-smoke].
    - OrderFlow: an order through server, wallet and replies, composed from the
      components above; OrderBatch: many orders on one balance. Startup: the
      constructors and [run] of every queue, and a deployment of all services.
      Processes: the main.rs of every service, [run] of the workers and
      [crates/db/src/pool.rs], with its theorems.
    - UnitTests: the repository's own unit tests, run against the definitions.

    Rust's [Result] is [Result]; a function that changes a database or a table is of
    type [M], explicit state passing with an error, and [transaction] undoes a failed
    one; a concurrent component (relay, hub, sessions, consumers) is a step relation
    over its shared state. A definition has the name of its function; where two
    services use one name, a prefix tells them apart.

    ** What is shown

    - Wallet: every command refines a specification on balances, reservations and
      ledger; in every reachable state no balance is negative or overdrawn, what is
      locked is what reservations hold and what the engine's deltas locked, and every
      total is its ledger entries; a reservation ends once; a command that fails
      leaves the tables alone, while what earlier commands of the same event committed
      stays; a command repeated under its key gets the answer of the first time; what
      an answer announces is in the outbox of the same transaction.
    - Outbox: a message marked published is on the broker where its row says,
      through crashes and side-by-side relays; a lone relay can always drain it; its
      metrics count every message under its status.
    - Ledger, candles, projector: their consumers apply each record of a partition
      exactly once, in order; the journal has the entries of each logical event
      once, and they are the changes of the wallet's books; a candle summarises the
      trades of its bucket, in whatever order they came; a trade is projected as its
      specification says, counted once, nothing recorded is lost; a position follows
      its fills; the order book is the replay of its deltas.
    - Websocket: in every reachable state the user index is the live sessions and each
      live session is listed under the markets it listens to; an account's
      messages reach its own sessions only, a market's its subscribers; an event
      reaches whom it names; the window of delivered events is that of a reference.
    - Server: a handler queues one well-formed command of its own caller or answers
      an error and leaves no waiter; a waiter gets the first final reply to its
      request; the reads are the caller's own; a token opens both services as its
      user; every handler but five stands behind the middleware, and what the wallet
      makes of the commands a request queues moves no funds of a user whose token it
      does not carry (what the engine makes of them is its own).
    - Database crate: closing a position moves it with the fills the caller names or
      changes nothing.
    - Together: an order is granted or refused and its caller answered accordingly;
      one that is cancelled gives its margin back, from the wallet over the
      engine's stand-in to the wallet again, whatever else the wallet handles in
      between; a batch of orders that fits in a balance
      is granted whole, as the benchmark needs; the processes that are up in one
      environment have migrated the databases they use and are a deployment; in one
      every partition that is written is read; the loops of the
      services are the consumers of the exactly-once theorems, and the ledger's
      reads a finite log, in as many fetches as it has records, to its end or to the
      first record it cannot book, where it stops.
    - The consumers that store no offset, those of the server's replies and of the
      websocket server, start at the latest record and take every later one once, in
      order, until the client fails; a reply of the server's topic reaches the waiter
      that registered before it.
    - Unit tests: the definitions pass the tests the repository has for the functions
      they stand for.
    - Smoke test: its scan of a topic ends and finds every record of its requests,
      its check of the stored offsets means that the consumers are past them, and the
      check of the journal passes in every state of the ledger's consumer.

    Theorems that show a flaw of the code (a fee that stops the wallet's consumer, a
    release applied twice after a crash, a session that leaks, a sign-up that
    replaces a user, a consumer of replies that ends for good) say so in their comments.

    ** Bounds and fuel

    A BIGINT or [i64] is a [Z] in its range: where Rust or Postgres would overflow, the
    model wraps ([i64_wrap]) or fails ([pg_int8], [in_i64b]) as the code does, and
    products of [i128] are checked against [i128]. Every recursion is structural,
    over lists and strings; the one that descends into an abstract JSON value
    ([matching_request_ids]) has the depth of the value as fuel, which is shown to be
    enough; loops that never end are step relations, or functions of the finite list of answers they
    got. An [f64] appears once, as the rank of a percentile, and is rounded by hand
    ([f64_round]). Serial ids are unbounded: the exhaustion of a sequence is not modelled.

    ** What is a parameter, and what is not modelled

    Third-party code is a parameter: serde (the class [Serde], with its round-trip
    laws in [SerdeLaws] and the instance [tagged_serde] that has them), the broker's
    client ([Connect], the outcome of each produce and fetch), JSON web tokens and
    password hashes, UUIDs, random numbers and clocks, the order of a hash set, a
    session's mailbox. Timestamps are integers (microseconds in the outbox,
    milliseconds elsewhere); columns [created_at], [updated_at] and [closed_at] that only
    order rows are orders given as parameters. Text is ASCII. A transaction runs
    without interleaving. For most the database has it so: a balance changes in an
    UPDATE or upsert that carries its own guard, a position is read FOR UPDATE, and
    unique indexes refuse the second of two inserts. A release or settlement of a
    reservation does not ([reservation_in_tx] is a plain SELECT, and the UPDATE after
    it has no guard on the status): two of one reservation are one after the other
    because the engine's events of a market are in one partition, which one task of the
    wallet handles; releases and settlements that come over [wallet.commands] are not
    covered by that. The three queries of an order book snapshot are not one
    transaction in the code, and are read from one state. Errors of the connection to Postgres are those of the
    readers ([None] for the database) and of the crash steps.

    Matching a path against a pattern, extracting arguments from a request and
    answering a preflight are a class ([ActixWeb]); connecting to a database, running
    a migrator and binding a port are parameters of Processes.

    Not modelled: the log lines, but for the identifiers they name; the unit tests
    that parse or print JSON or that look for phrases in the text of a statement; the scheduling of tokio beyond the steps named
    above; and the floating-point fields of the benchmark's report, which are
    printed only, and what the tools print.

    This file has the vocabulary all others share. *)

From Stdlib Require Import ZArith Lia.
From stdpp Require Export base gmap strings list fin_maps pretty sorting.

#[global] Open Scope Z_scope.

(** ** Fallible computations: Rust's [Result] *)

Inductive Result (E A : Type) : Type :=
| Ok (a : A)
| Err (e : E).
Arguments Ok {E A} a.
Arguments Err {E A} e.

Definition rbind {E A B} (m : Result E A) (k : A -> Result E B) : Result E B :=
  match m with Ok a => k a | Err e => Err e end.

Definition map_err {E F A} (f : E -> F) (m : Result E A) : Result F A :=
  match m with Ok a => Ok a | Err e => Err (f e) end.

Definition is_ok {E A} (m : Result E A) : bool :=
  match m with Ok _ => true | Err _ => false end.

Definition ok_or {E A} (e : E) (o : option A) : Result E A :=
  match o with Some a => Ok a | None => Err e end.

(** ** Stateful, fallible computations

    A database routine maps the state it starts in to a result and the state it
    leaves; an error also leaves a state, because the sequences of the database
    keep the values they handed out. *)

Definition M (S E A : Type) : Type := S -> Result E A * S.

Definition ret {S E A} (a : A) : M S E A := fun s => (Ok a, s).
Definition throw {S E A} (e : E) : M S E A := fun s => (Err e, s).
Definition bind {S E A B} (m : M S E A) (k : A -> M S E B) : M S E B :=
  fun s => match m s with
           | (Ok a, s') => k a s'
           | (Err e, s') => (Err e, s')
           end.
Definition gets {S E A} (f : S -> A) : M S E A := fun s => (Ok (f s), s).
Definition modify {S E} (f : S -> S) : M S E unit := fun s => (Ok tt, f s).
Definition lift {S E A} (r : Result E A) : M S E A := fun s => (r, s).

Declare Scope exchange_scope.
Delimit Scope exchange_scope with exchange.
Notation "'let*' x := m 'in' k" := (bind m (fun x => k))
  (at level 10, x pattern, m at level 100, k at level 200) : exchange_scope.
Notation "'do*' m 'in' k" := (bind m (fun _ => k))
  (at level 10, m at level 100, k at level 200) : exchange_scope.
Notation "'let?' x := m 'in' k" := (rbind m (fun x => k))
  (at level 10, x pattern, m at level 100, k at level 200) : exchange_scope.
#[global] Open Scope exchange_scope.

(** A [for] loop whose body is a database routine. *)
Fixpoint for_each {S E A} (l : list A) (body : A -> M S E unit) : M S E unit :=
  match l with
  | [] => ret tt
  | x :: l' => do* body x in for_each l' body
  end.

(** *** Transactions

    [rollback before after] is the state a failed transaction leaves: the
    tables of [before], the sequences of [after]. *)
Class Rollback (S : Type) := rollback : S -> S -> S.

Definition transaction {S E A} `{Rollback S} (m : M S E A) : M S E A :=
  fun s => match m s with
           | (Ok a, s') => (Ok a, s')
           | (Err e, s') => (Err e, rollback s s')
           end.

(** *** Two routines are equal when they agree on every state *)

#[export] Instance m_equiv {S E A} : Equiv (M S E A) := fun m m' => forall s, m s = m' s.

#[export] Instance m_equiv_equivalence {S E A} : Equivalence (≡@{M S E A}).
Proof.
  split; [done|by intros m m' H s; rewrite H|by intros m1 m2 m3 H1 H2 s; rewrite H1, H2].
Qed.

#[export] Instance bind_proper {S E A B} :
  Proper ((≡) ==> pointwise_relation A (≡) ==> (≡)) (@bind S E A B).
Proof.
  intros m m' Hm k k' Hk s. unfold bind. rewrite (Hm s).
  destruct (m' s) as [[a|e] s1]; [apply Hk|done].
Qed.

#[export] Instance transaction_proper {S E A} `{Rollback S} :
  Proper ((≡) ==> (≡)) (@transaction S E A _).
Proof. intros m m' Hm s. unfold transaction. by rewrite (Hm s). Qed.

Lemma bind_assoc {S E A B C} (m : M S E A) (k : A -> M S E B) (h : B -> M S E C) :
  bind (bind m k) h ≡ bind m (fun a => bind (k a) h).
Proof. intros s. unfold bind. by destruct (m s) as [[a|e] s1]. Qed.

Lemma bind_ret_l {S E A B} (a : A) (k : A -> M S E B) : bind (ret a) k ≡ k a.
Proof. done. Qed.

Lemma bind_throw_l {S E A B} (e : E) (k : A -> M S E B) : bind (throw e) k ≡ throw e.
Proof. done. Qed.

(** A rollback forgets an earlier rollback to the same state. *)
Class RollbackLaws (S : Type) `{Rollback S} :=
  rollback_idemp (s s' : S) : rollback s (rollback s s') = rollback s s'.

Lemma transaction_nest {S E A B} `{RollbackLaws S} (m : M S E A) (k : A -> M S E B) :
  transaction (bind (transaction m) k) ≡ transaction (bind m k).
Proof.
  intros s. unfold transaction, bind.
  destruct (m s) as [[a|e] s1]; [done|]. by rewrite rollback_idemp.
Qed.

Lemma bind_ok {S E A B} (m : M S E A) (k : A -> M S E B) s b s' :
  bind m k s = (Ok b, s') ->
  exists a s1, m s = (Ok a, s1) /\ k a s1 = (Ok b, s').
Proof. unfold bind. destruct (m s) as [[a|e] s1]; [eauto|discriminate]. Qed.

Lemma bind_lift_ok {S E A B} (m : Result E A) (k : A -> M S E B) s b s' :
  bind (lift m) k s = (Ok b, s') -> exists a, m = Ok a /\ k a s = (Ok b, s').
Proof. unfold bind, lift. destruct m as [a|e]; [eauto|done]. Qed.

Lemma bind_err {S E A B} (m : M S E A) (k : A -> M S E B) s e s' :
  bind m k s = (Err e, s') ->
  m s = (Err e, s') \/
  exists a s1, m s = (Ok a, s1) /\ k a s1 = (Err e, s').
Proof.
  unfold bind. destruct (m s) as [[a|e'] s1]; [eauto|].
  intros [= -> ->]; eauto.
Qed.

Lemma rbind_ok {E A B} (m : Result E A) (k : A -> Result E B) b :
  rbind m k = Ok b -> exists a, m = Ok a /\ k a = Ok b.
Proof. destruct m; [by eauto|done]. Qed.

Lemma bind_run {S E A B} (m : M S E A) (k : A -> M S E B) s a s1 :
  m s = (Ok a, s1) -> bind m k s = k a s1.
Proof. unfold bind. by intros ->. Qed.

Lemma bind_run_err {S E A B} (m : M S E A) (k : A -> M S E B) s e s1 :
  m s = (Err e, s1) -> bind m k s = (Err e, s1).
Proof. unfold bind. by intros ->. Qed.

Lemma transaction_ok {S E A} `{Rollback S} (m : M S E A) s a s' :
  transaction m s = (Ok a, s') -> m s = (Ok a, s').
Proof. unfold transaction. by destruct (m s) as [[]]. Qed.

Lemma transaction_run {S E A} `{Rollback S} (m : M S E A) s a s' :
  m s = (Ok a, s') -> transaction m s = (Ok a, s').
Proof. unfold transaction. by intros ->. Qed.

Lemma transaction_run_err {S E A} `{Rollback S} (m : M S E A) s e s' :
  m s = (Err e, s') -> transaction m s = (Err e, rollback s s').
Proof. unfold transaction. by intros ->. Qed.

Lemma transaction_err {S E A} `{Rollback S} (m : M S E A) s e s' :
  transaction m s = (Err e, s') -> exists s1, m s = (Err e, s1) /\ s' = rollback s s1.
Proof. unfold transaction. destruct (m s) as [[] ]; [done|]. intros [= <- <-]; eauto. Qed.

(** [inv_m H] walks a successful run [H : m s = (Ok a, s')] back through its
    binds, returns and matches, one goal for each way it can have gone. *)
Ltac inv_m H :=
  cbn beta iota zeta in H;
  lazymatch type of H with
  | bind _ _ _ = (Ok _, _) =>
      let a := fresh "a" in let s1 := fresh "s" in
      let H1 := fresh "Hm" in
      apply bind_ok in H as (a & s1 & H1 & H); inv_m H1; inv_m H
  | transaction _ _ = (Ok _, _) => apply transaction_ok in H; inv_m H
  | ret _ _ = (Ok _, _) => unfold ret in H; simplify_eq
  | gets _ _ = (Ok _, _) => unfold gets in H; simplify_eq
  | modify _ _ = (Ok _, _) => unfold modify in H; simplify_eq
  | (match ?x with _ => _ end) _ = (Ok _, _) => destruct x eqn:?; inv_m H
  | _ => try discriminate H
  end.

(** *** Measures that no step lowers, whether it succeeds or fails *)

Section Grows.
Context {S E : Type} (f : S -> Z).

Definition grows {A} (m : M S E A) : Prop := forall s, f s <= f (m s).2.

Lemma grows_bind {A B} (m : M S E A) (k : A -> M S E B) :
  grows m -> (forall a, grows (k a)) -> grows (bind m k).
Proof.
  intros Hm Hk s. unfold bind. specialize (Hm s). destruct (m s) as [[a|e] s1]; [|done].
  specialize (Hk a s1). cbn in *. lia.
Qed.
Lemma grows_gets {A} (g : S -> A) : grows (gets g).
Proof. intros s. cbn. lia. Qed.
Lemma grows_ret {A} (a : A) : grows (ret a).
Proof. intros s. cbn. lia. Qed.
Lemma grows_throw {A} (e : E) : grows (throw e : M S E A).
Proof. intros s. cbn. lia. Qed.
Lemma grows_lift {A} (r : Result E A) : grows (lift r).
Proof. intros s. cbn. lia. Qed.
Lemma grows_modify (g : S -> S) : (forall s, f s <= f (g s)) -> grows (modify g).
Proof. intros Hg s. apply Hg. Qed.
Lemma grows_for_each {A} (l : list A) (body : A -> M S E unit) :
  (forall a, grows (body a)) -> grows (for_each l body).
Proof.
  intros Hb. induction l as [|a l IH]; [apply grows_ret|].
  apply grows_bind; [apply Hb|]. by intros _.
Qed.
End Grows.

Create HintDb grows.
#[export] Hint Resolve grows_bind grows_gets grows_ret grows_throw grows_lift grows_for_each
  : grows.
#[export] Hint Extern 1 (grows _ (modify _)) =>
  (apply grows_modify; intros []; cbn; lia) : grows.
#[export] Hint Extern 2 (grows _ (match ?x with _ => _ end)) => destruct x : grows.
#[export] Hint Extern 2 (grows _ (let '(_, _) := ?x in _)) => destruct x : grows.

(** *** Routines that keep a part of the state, whether they succeed or fail *)

Section Keeps.
Context {S E T : Type} (f : S -> T).

Definition keeps {A} (m : M S E A) : Prop := forall s, f (m s).2 = f s.

Lemma routine_keeps_bind {A B} (m : M S E A) (k : A -> M S E B) :
  keeps m -> (forall a, keeps (k a)) -> keeps (bind m k).
Proof.
  intros Hm Hk s. unfold bind. specialize (Hm s). destruct (m s) as [[a|e] s1]; [|done].
  cbn in *. by rewrite Hk.
Qed.
Lemma keeps_modify (g : S -> S) : (forall s, f (g s) = f s) -> keeps (modify g).
Proof. intros Hg s. apply Hg. Qed.
Lemma keeps_result {A} (r : S -> Result E A) : keeps (fun s => (r s, s)).
Proof. done. Qed.
Lemma keeps_transaction `{Rollback S} {A} (m : M S E A) :
  (forall s s', f (rollback s s') = f s) -> keeps m -> keeps (transaction m).
Proof.
  intros Hr Hm s. unfold transaction. specialize (Hm s).
  destruct (m s) as [[a|e] s1]; [done|]. apply Hr.
Qed.
Lemma keeps_for_each {A} (l : list A) (body : A -> M S E unit) :
  (forall a, keeps (body a)) -> keeps (for_each l body).
Proof. intros Hb. induction l; cbn; [done|]. by apply routine_keeps_bind. Qed.
End Keeps.

Create HintDb keeps.
#[export] Hint Resolve routine_keeps_bind keeps_result : keeps.
#[export] Hint Extern 2 (keeps _ (modify _)) => apply keeps_modify; by intros [] : keeps.
#[export] Hint Extern 2 (keeps _ (ret _)) => apply keeps_result : keeps.
#[export] Hint Extern 2 (keeps _ (gets _)) => apply keeps_result : keeps.

(** Take a routine apart down to what it reads and writes, or to what is known of
    its parts. *)
Ltac keep :=
  cbv zeta;
  repeat first
    [ done
    | solve [auto 2 with keeps nocore]
    | apply routine_keeps_bind; [|intros ?]
    | apply keeps_transaction; [by intros [] []|]
    | apply keeps_for_each; intros ?
    | match goal with
      | |- keeps _ (match ?x with _ => _ end) => destruct x
      end ].

(** Split every [if] on an integer comparison, keeping the comparison as an
    order fact for [lia]. *)
Ltac split_bool :=
  repeat match goal with
  | H : _ && _ = true |- _ => apply andb_true_iff in H as [??]
  | H : _ || _ = false |- _ => apply orb_false_iff in H as [??]
  | H : negb _ = true |- _ => apply negb_true_iff in H
  | H : negb _ = false |- _ => apply negb_false_iff in H
  | H : (_ <=? _) = true |- _ => apply Z.leb_le in H
  | H : (_ <=? _) = false |- _ => apply Z.leb_gt in H
  | H : (_ <? _) = true |- _ => apply Z.ltb_lt in H
  | H : (_ <? _) = false |- _ => apply Z.ltb_ge in H
  | H : (_ =? _) = true |- _ => apply Z.eqb_eq in H
  | H : (_ =? _) = false |- _ => apply Z.eqb_neq in H
  | H : bool_decide _ = true |- _ => apply bool_decide_eq_true in H
  | H : bool_decide _ = false |- _ => apply bool_decide_eq_false in H
  end.

Ltac case_if :=
  match goal with
  | |- context [if ?b then _ else _] => destruct b eqn:?; split_bool
  end.
Ltac case_if_in H :=
  match type of H with
  | context [if ?b then _ else _] => destruct b eqn:?; split_bool
  end.

(** ** Machine integers *)

Definition i64_min : Z := -9223372036854775808.
Definition i64_max : Z := 9223372036854775807.
Definition i128_min : Z := -170141183460469231731687303715884105728.
Definition i128_max : Z := 170141183460469231731687303715884105727.

Definition in_i64 (z : Z) : Prop := i64_min <= z <= i64_max.
Definition in_i128 (z : Z) : Prop := i128_min <= z <= i128_max.
Definition in_i64b (z : Z) : bool := (i64_min <=? z) && (z <=? i64_max).

#[export] Instance in_i64_dec z : Decision (in_i64 z).
Proof. unfold in_i64. apply _. Defined.

Lemma in_i64b_spec z : in_i64b z = true <-> in_i64 z.
Proof. unfold in_i64b, in_i64. rewrite andb_true_iff, !Z.leb_le. lia. Qed.

Lemma in_i64b_false z : in_i64b z = false <-> ~ in_i64 z.
Proof. rewrite <- in_i64b_spec. by destruct (in_i64b z). Qed.

(** Two's-complement wrap-around of the [i64] arithmetic of a release build. *)
Definition i64_wrap (z : Z) : Z := (z - i64_min) mod 2 ^ 64 + i64_min.

Lemma i64_wrap_id z : in_i64 z -> i64_wrap z = z.
Proof.
  unfold in_i64, i64_wrap, i64_min, i64_max. intros.
  rewrite Z.mod_small by lia. lia.
Qed.

Lemma i64_wrap_range z : in_i64 (i64_wrap z).
Proof.
  unfold i64_wrap, in_i64, i64_min, i64_max.
  pose proof (Z.mod_pos_bound (z - -9223372036854775808) (2 ^ 64)). lia.
Qed.

(** ** Sums over finite maps *)

Section MapSum.
Context {K : Type} `{Countable K} {A : Type}.
Implicit Types (m : gmap K A) (f : K -> A -> Z).

Definition map_sum f m : Z := map_fold (fun k a acc => f k a + acc) 0 m.

Lemma map_sum_empty f : map_sum f (∅ : gmap K A) = 0.
Proof. apply map_fold_empty. Qed.

Lemma map_sum_insert_fresh f m k a :
  m !! k = None -> map_sum f (<[k := a]> m) = f k a + map_sum f m.
Proof.
  intros. unfold map_sum.
  apply (map_fold_insert_L (fun k a acc => f k a + acc)); [|done]. intros. lia.
Qed.

Lemma map_sum_delete f m k a :
  m !! k = Some a -> map_sum f m = f k a + map_sum f (delete k m).
Proof.
  intros. unfold map_sum.
  apply (map_fold_delete_L (fun k a acc => f k a + acc)); [|done]. intros. lia.
Qed.

Lemma map_sum_insert f m k a a' :
  m !! k = Some a -> map_sum f (<[k := a']> m) = map_sum f m - f k a + f k a'.
Proof.
  intros Hk. rewrite (map_sum_delete f m k a Hk), <- insert_delete_eq,
    map_sum_insert_fresh by apply lookup_delete_eq. lia.
Qed.

Lemma map_sum_nonneg f m :
  (forall k a, m !! k = Some a -> 0 <= f k a) -> 0 <= map_sum f m.
Proof.
  induction m as [|k a m Hk IH] using map_ind; intros Hf.
  - rewrite map_sum_empty. lia.
  - rewrite map_sum_insert_fresh by done.
    assert (0 <= f k a) by (apply Hf; apply lookup_insert_eq).
    assert (0 <= map_sum f m); [|lia]. apply IH. intros k' a' Hk'.
    apply Hf. rewrite lookup_insert_ne; [done|]. by intros ->; simplify_eq.
Qed.

Lemma map_sum_ge f m k a :
  (forall k a, m !! k = Some a -> 0 <= f k a) ->
  m !! k = Some a -> f k a <= map_sum f m.
Proof.
  intros Hf Hk. rewrite (map_sum_delete f m k a Hk).
  assert (0 <= map_sum f (delete k m)); [|lia].
  apply map_sum_nonneg. intros k' a' [_ ?]%lookup_delete_Some. eauto.
Qed.

(** Maps that differ at one key only. *)
Lemma map_sum_agree f m m' k :
  (forall k', k' <> k -> m' !! k' = m !! k') ->
  map_sum f m' = map_sum f m - from_option (f k) 0 (m !! k) + from_option (f k) 0 (m' !! k).
Proof.
  intros Hk. assert (forall m, map_sum f m = from_option (f k) 0 (m !! k) + map_sum f (delete k m)) as Hd.
  { intros m0. destruct (m0 !! k) as [a|] eqn:E; [by apply map_sum_delete|].
    by rewrite delete_id. }
  rewrite (Hd m), (Hd m'). replace (delete k m') with (delete k m); [lia|].
  apply map_eq. intros k'. destruct (decide (k' = k)) as [->|Hne].
  - by rewrite !lookup_delete_eq.
  - by rewrite !lookup_delete_ne, Hk.
Qed.

Lemma map_sum_ext f g m :
  (forall k a, m !! k = Some a -> f k a = g k a) -> map_sum f m = map_sum g m.
Proof.
  induction m as [|k a m Hk IH] using map_ind; intros Hf.
  - by rewrite !map_sum_empty.
  - rewrite !map_sum_insert_fresh by done. f_equal.
    + apply Hf. apply lookup_insert_eq.
    + apply IH. intros k' a' Hk'. apply Hf.
      rewrite lookup_insert_ne; [done|]. by intros ->; simplify_eq.
Qed.

Lemma map_sum_add f g m : map_sum f m + map_sum g m = map_sum (fun k a => f k a + g k a) m.
Proof.
  induction m as [|k a m Hk IH] using map_ind; [by rewrite !map_sum_empty|].
  rewrite !map_sum_insert_fresh by done. lia.
Qed.

Lemma map_sum_one m : map_sum (fun _ _ => 1) m = Z.of_nat (size m).
Proof.
  induction m as [|k a m Hk IH] using map_ind; [by rewrite map_sum_empty, map_size_empty|].
  rewrite map_sum_insert_fresh, map_size_insert_None by done. lia.
Qed.

Lemma map_sum_le f g m :
  (forall k a, m !! k = Some a -> f k a <= g k a) -> map_sum f m <= map_sum g m.
Proof.
  intros Hfg. assert (map_sum g m = map_sum f m + map_sum (fun k a => g k a - f k a) m) as ->.
  { rewrite map_sum_add. apply map_sum_ext. intros. lia. }
  assert (0 <= map_sum (fun k a => g k a - f k a) m); [|lia].
  apply map_sum_nonneg. intros k a Hk. specialize (Hfg k a Hk). lia.
Qed.
End MapSum.

(** ** Ordered sets: [BTreeSet<i64>]

    The set is the strictly increasing list its iterator yields. *)

Fixpoint btree_insert (x : Z) (l : list Z) : list Z :=
  match l with
  | [] => [x]
  | y :: l' => if x <? y then x :: l else if x =? y then l else y :: btree_insert x l'
  end.
Definition btree_extend (set : list Z) (xs : list Z) : list Z :=
  foldl (fun set x => btree_insert x set) set xs.
Definition btree_collect (xs : list Z) : list Z := btree_extend [] xs.

Lemma elem_of_btree_insert x y l : y ∈ btree_insert x l <-> y = x \/ y ∈ l.
Proof.
  induction l as [|z l IH]; cbn; [set_solver|].
  case_if; [set_solver|]. case_if; [subst; set_solver|].
  rewrite !elem_of_cons, IH. tauto.
Qed.

Lemma btree_insert_sorted x l :
  StronglySorted Z.lt l -> StronglySorted Z.lt (btree_insert x l).
Proof.
  induction 1 as [|y l Hl IH Hy]; cbn; [by repeat constructor|].
  case_if; [|case_if; [by constructor|]].
  - repeat constructor; try done. eapply Forall_impl; [exact Hy|]. cbn. lia.
  - constructor; [done|]. apply Forall_forall. intros z Hz%elem_of_btree_insert.
    rewrite Forall_forall in Hy. destruct Hz as [->|Hz]; [lia|by apply Hy].
Qed.

Lemma elem_of_btree_extend y xs set : y ∈ btree_extend set xs <-> y ∈ set \/ y ∈ xs.
Proof.
  unfold btree_extend. revert set. induction xs as [|x xs IH]; intros set; cbn; [set_solver|].
  rewrite IH, elem_of_btree_insert, elem_of_cons. tauto.
Qed.

Lemma btree_extend_sorted xs set :
  StronglySorted Z.lt set -> StronglySorted Z.lt (btree_extend set xs).
Proof. unfold btree_extend. revert set. induction xs; cbn; auto using btree_insert_sorted. Qed.

Lemma sorted_nil_lt : StronglySorted Z.lt [].
Proof. constructor. Qed.

Create HintDb btree.
#[export] Hint Resolve btree_insert_sorted btree_extend_sorted sorted_nil_lt : btree.

(** ** Text

    [z.to_string()] of a Rust integer is [pretty z]. *)

Definition to_string (z : Z) : string := pretty z.

Lemma to_string_inj z1 z2 : to_string z1 = to_string z2 -> z1 = z2.
Proof. apply pretty_Z_inj. Qed.

Lemma string_app_inj_l (p s t : string) : p +:+ s = p +:+ t -> s = t.
Proof. induction p; cbn; intros [=]; eauto. Qed.

Lemma string_app_assoc (s t u : string) : (s +:+ t) +:+ u = s +:+ (t +:+ u).
Proof. induction s as [|a s IH]; [reflexivity|]. exact (f_equal (String a) IH). Qed.

(** A string none of whose characters is [c]. *)
Fixpoint free_of (c : Ascii.ascii) (s : string) : Prop :=
  match s with
  | EmptyString => True
  | String d s' => d <> c /\ free_of c s'
  end.

(** Two strings joined by a separator the first part does not contain split
    back into their parts. *)
Lemma separator_inj c s1 t1 s2 t2 :
  free_of c s1 -> free_of c s2 ->
  s1 +:+ String c t1 = s2 +:+ String c t2 -> s1 = s2 /\ t1 = t2.
Proof.
  revert s2; induction s1 as [|a s1 IH]; intros [|b s2]; cbn.
  - intros _ _ [=]; auto.
  - intros _ [? _] [=]; congruence.
  - intros [? _] _ [=]; congruence.
  - intros [_ ?] [_ ?] [= -> ?]. destruct (IH s2) as [-> ->]; auto.
Qed.

Lemma free_of_app c s t : free_of c (s +:+ t) <-> free_of c s /\ free_of c t.
Proof.
  induction s as [|a s IH]; [cbn; tauto|].
  change (String a s +:+ t) with (String a (s +:+ t)). cbn. tauto.
Qed.

(** The decimal form of an integer holds only digits and a minus sign. *)
Definition colon : Ascii.ascii := Ascii.ascii_of_nat 58.

Lemma pretty_N_char_not_colon n : pretty_N_char n <> colon.
Proof. unfold pretty_N_char. by repeat case_match. Qed.

Lemma pretty_N_go_free_of_colon n s : free_of colon s -> free_of colon (pretty_N_go n s).
Proof.
  revert s. induction (N.lt_wf_0 n) as [n _ IH]; intros s Hs.
  destruct (decide (0 < n)%N) as [Hn|Hn].
  - rewrite pretty_N_go_step by done. apply IH.
    + apply N.div_lt; lia.
    + split; [apply pretty_N_char_not_colon|done].
  - by replace n with 0%N by lia.
Qed.

Lemma pretty_N_free_of_colon (n : N) : free_of colon (pretty n).
Proof.
  unfold pretty, pretty_N. case_decide; [by split|].
  by apply pretty_N_go_free_of_colon.
Qed.

Lemma to_string_free_of_colon z : free_of colon (to_string z).
Proof.
  destruct z; [by split|apply pretty_N_free_of_colon|].
  split; [done|apply pretty_N_free_of_colon].
Qed.
