(* ===== verification/Text.v ===== *)
(** * Text: the string functions of the Rust standard library the services use

    Splitting, trimming, prefixes and the parsing of an [i64]. The strings are
    the ASCII ones: header values, query strings, broker lists, flags. *)

From S2P Require Import Prelude.

(** ** Trimming and splitting *)

(** The ASCII characters [char::is_whitespace] holds of. *)
Definition is_whitespace (c : Ascii.ascii) : bool :=
  let n := Ascii.nat_of_ascii c in ((9 <=? n) && (n <=? 13) || (n =? 32))%nat.

Fixpoint trim_start (s : string) : string :=
  match s with
  | EmptyString => s
  | String c s' => if is_whitespace c then trim_start s' else s
  end.
Fixpoint trim_end (s : string) : string :=
  match s with
  | EmptyString => s
  | String c s' =>
      match trim_end s' with
      | EmptyString => if is_whitespace c then EmptyString else String c EmptyString
      | s'' => String c s''
      end
  end.
Definition trim (s : string) : string := trim_end (trim_start s).

(** [s.split(c)]: one part more than there are separators. *)
Fixpoint split (c : Ascii.ascii) (s : string) : list string :=
  match s with
  | EmptyString => [EmptyString]
  | String d s' =>
      if Ascii.eqb c d then EmptyString :: split c s'
      else match split c s' with
           | part :: parts => String d part :: parts
           | [] => [String d EmptyString]
           end
  end.

(** [s.split_once(c)] *)
Fixpoint split_once (c : Ascii.ascii) (s : string) : option (string * string) :=
  match s with
  | EmptyString => None
  | String d s' =>
      if Ascii.eqb c d then Some (EmptyString, s')
      else match split_once c s' with
           | Some (key, value) => Some (String d key, value)
           | None => None
           end
  end.

Fixpoint strip_prefix (p s : string) : option string :=
  match p, s with
  | EmptyString, _ => Some s
  | String a p', String b s' => if Ascii.eqb a b then strip_prefix p' s' else None
  | String _ _, EmptyString => None
  end.
Definition starts_with (p s : string) : bool := bool_decide (is_Some (strip_prefix p s)).

Definition is_empty (s : string) : bool := bool_decide (s = "").

Lemma strip_prefix_app p s : strip_prefix p (p +:+ s) = Some s.
Proof.
  induction p as [|c p IH]; [done|]. change (String c p +:+ s) with (String c (p +:+ s)). cbn.
  by rewrite Ascii.eqb_refl.
Qed.

Lemma strip_prefix_Some p s rest : strip_prefix p s = Some rest <-> s = p +:+ rest.
Proof.
  split; [|intros ->; apply strip_prefix_app].
  revert s. induction p as [|c p IH]; intros s; cbn; [by intros [= ->]|].
  destruct s as [|d s]; [done|]. destruct (Ascii.eqb c d) eqn:E; [|done].
  apply Ascii.eqb_eq in E as ->. intros ->%IH. done.
Qed.

(** ** [str::parse] to an integer *)

Record IntType := mkIntType { int_min : Z; int_max : Z }.
Definition i64 : IntType := mkIntType i64_min i64_max.
Definition i32 : IntType := mkIntType (- 2 ^ 31) (2 ^ 31 - 1).
Definition u16 : IntType := mkIntType 0 (2 ^ 16 - 1).
Definition u64 : IntType := mkIntType 0 (2 ^ 64 - 1).

Definition in_type (ty : IntType) (z : Z) : Prop := int_min ty <= z <= int_max ty.
Definition in_typeb (ty : IntType) (z : Z) : bool := (int_min ty <=? z) && (z <=? int_max ty).
Definition is_signed (ty : IntType) : bool := int_min ty <? 0.

Lemma in_typeb_spec ty z : in_typeb ty z = true <-> in_type ty z.
Proof. unfold in_typeb, in_type. lia. Qed.

Inductive IntErrorKind :=
| IntErrorKind_Empty
| IntErrorKind_InvalidDigit
| IntErrorKind_PosOverflow
| IntErrorKind_NegOverflow.

Definition to_digit (c : Ascii.ascii) : option Z :=
  let n := Z.of_nat (Ascii.nat_of_ascii c) in
  if (48 <=? n) && (n <=? 57) then Some (n - 48) else None.

(** The digits after the sign; every product and sum is checked. *)
Fixpoint parse_digits (ty : IntType) (negative : bool) (result : Z) (s : string) : Result IntErrorKind Z :=
  match s with
  | EmptyString => Ok result
  | String c s' =>
      let overflow := if negative then IntErrorKind_NegOverflow else IntErrorKind_PosOverflow in
      match to_digit c with
      | None => Err IntErrorKind_InvalidDigit
      | Some d =>
          let product := result * 10 in
          if negb (in_typeb ty product) then Err overflow
          else
            let sum := if negative then product - d else product + d in
            if negb (in_typeb ty sum) then Err overflow else parse_digits ty negative sum s'
      end
  end.

Definition plus_sign : Ascii.ascii := Ascii.ascii_of_nat 43.
Definition minus_sign : Ascii.ascii := Ascii.ascii_of_nat 45.

(** A minus sign is one of a signed type only. *)
Definition parse_int (ty : IntType) (s : string) : Result IntErrorKind Z :=
  match s with
  | EmptyString => Err IntErrorKind_Empty
  | String c rest =>
      if Ascii.eqb c plus_sign || Ascii.eqb c minus_sign then
        match rest with
        | EmptyString => Err IntErrorKind_InvalidDigit
        | _ =>
            if Ascii.eqb c minus_sign then
              if is_signed ty then parse_digits ty true 0 rest else parse_digits ty false 0 s
            else parse_digits ty false 0 rest
        end
      else parse_digits ty false 0 s
  end.

Definition parse_i64 : string -> Result IntErrorKind Z := parse_int i64.

(** *** Parsing what was printed *)

Lemma to_digit_pretty d : (d < 10)%N -> to_digit (pretty_N_char d) = Some (Z.of_N d).
Proof. intros. assert (d ∈ [0;1;2;3;4;5;6;7;8;9]%N) by (rewrite !elem_of_cons; lia). set_unfold. naive_solver. Qed.

Definition signed (negative : bool) (x : N) : Z := if negative then - Z.of_N x else Z.of_N x.

Lemma parse_digits_pretty ty negative x : forall s,
  in_type ty 0 -> in_type ty (signed negative x) ->
  parse_digits ty negative 0 (pretty_N_go x s) = parse_digits ty negative (signed negative x) s.
Proof.
  induction (N.lt_wf_0 x) as [x _ IH]; intros s H0 Hx.
  destruct (decide (x = 0%N)) as [->|Hne].
  { rewrite pretty_N_go_0. by destruct negative. }
  assert (x = 10 * (x / 10) + x mod 10)%N as Hdiv by (apply N.div_mod'; lia).
  assert (x mod 10 < 10)%N as Hmod by (apply N.mod_lt; lia).
  rewrite pretty_N_go_step by lia.
  assert (x / 10 < x)%N as Hlt by (apply N.div_lt; lia).
  revert Hdiv Hmod Hlt. generalize (x / 10)%N (x mod 10)%N. intros q r Hdiv Hmod Hlt.
  assert (in_type ty (signed negative q)) as Hq
    by (unfold in_type, signed in *; destruct negative; lia).
  rewrite IH by done. cbn [parse_digits]. rewrite to_digit_pretty by done.
  assert (in_typeb ty (signed negative q * 10) = true) as ->
    by (apply in_typeb_spec; unfold in_type, signed in *; destruct negative; lia).
  replace (if negative then signed negative q * 10 - Z.of_N r
           else signed negative q * 10 + Z.of_N r) with (signed negative x)
    by (unfold signed; destruct negative; lia).
  assert (in_typeb ty (signed negative x) = true) as -> by (by apply in_typeb_spec).
  done.
Qed.

Lemma pretty_N_go_head x : forall s, (0 < x)%N ->
  exists d s', (d < 10)%N /\ pretty_N_go x s = String (pretty_N_char d) s'.
Proof.
  induction (N.lt_wf_0 x) as [x _ IH]; intros s Hx. rewrite pretty_N_go_step by done.
  destruct (decide (x / 10 = 0)%N) as [->|Hne].
  - rewrite pretty_N_go_0. exists (x mod 10)%N, s. split; [apply N.mod_lt; lia|done].
  - apply IH; [apply N.div_lt; lia|by apply N.neq_0_lt_0].
Qed.

Lemma pretty_N_char_not_sign d :
  (Ascii.eqb (pretty_N_char d) plus_sign || Ascii.eqb (pretty_N_char d) minus_sign) = false.
Proof. unfold pretty_N_char. by repeat case_match. Qed.

Lemma parse_int_to_string ty z :
  in_type ty 0 -> in_type ty z -> parse_int ty (to_string z) = Ok z.
Proof.
  intros H0 Hz. unfold to_string, pretty, pretty_Z. destruct z as [|p|p].
  - assert (in_typeb ty 0 = true) as E by (by apply in_typeb_spec).
    change (parse_digits ty false 0 "0" = Ok 0). cbn [parse_digits].
    change (to_digit _) with (Some 0). cbv iota. rewrite Z.mul_0_l, Z.add_0_r. by rewrite E.
  - destruct (pretty_N_go_head (N.pos p) "" eq_refl) as (d & s' & Hd & Heq).
    change (parse_int ty (pretty_N_go (N.pos p) "") = Ok (Z.pos p)). rewrite Heq. unfold parse_int.
    rewrite pretty_N_char_not_sign, <- Heq. by rewrite (parse_digits_pretty ty false).
  - destruct (pretty_N_go_head (N.pos p) "" eq_refl) as (d & s' & Hd & Heq).
    change (parse_int ty (String minus_sign (pretty_N_go (N.pos p) "")) = Ok (Z.neg p)).
    assert (is_signed ty = true) as Hs by (unfold is_signed, in_type in *; lia).
    unfold parse_int. cbn [orb Ascii.eqb]. rewrite Heq at 1. change (Ascii.eqb minus_sign minus_sign) with true. cbv iota. rewrite Hs.
    by rewrite (parse_digits_pretty ty true).
Qed.

Lemma parse_i64_to_string z : in_i64 z -> parse_i64 (to_string z) = Ok z.
Proof. intros Hz. apply parse_int_to_string; [|exact Hz]. by split; vm_compute. Qed.

(** What parses is in range. *)
Lemma parse_digits_range ty negative : forall s acc z,
  in_type ty acc -> parse_digits ty negative acc s = Ok z -> in_type ty z.
Proof.
  induction s as [|c s IH]; intros acc z Hacc; cbn; [by intros [= <-]|].
  destruct (to_digit c); [|done]. destruct (in_typeb ty (acc * 10)); [|done]. cbn.
  destruct (in_typeb ty _) eqn:E; [|done]. apply IH. by apply in_typeb_spec.
Qed.

Lemma parse_int_range ty s z : in_type ty 0 -> parse_int ty s = Ok z -> in_type ty z.
Proof.
  intros H0. unfold parse_int. destruct s as [|c rest]; [done|].
  destruct (_ || _); [destruct rest; [done|]|]; repeat case_match; by apply parse_digits_range.
Qed.

Lemma parse_i64_range s z : parse_i64 s = Ok z -> in_i64 z.
Proof. apply (parse_int_range i64). by split; vm_compute. Qed.
