(* ===== verification/Protocol.v ===== *)
(** * Protocol: the messages the services exchange

    The records and tagged unions of [crates/protocol/src/common.rs],
    [engine.rs] and [wallet.rs], with the functions those files define on them,
    and the interface of the JSON encoder the services store messages with.

    A variant [Enum::Variant] of the source is the constructor [Enum_Variant];
    a field [f] of a struct is the projection [x_f], where [x] abbreviates the
    struct's name. *)

From S2P Require Import Prelude.

(** ** Common types: [common.rs] *)

Inductive Asset :=
| Asset_USDC
| Asset_USDT
| Asset_SOL
| Asset_ETH
| Asset_BTC
| Asset_PERP
| Asset_HYP.
#[export] Instance Asset_eq_dec : EqDecision Asset.
Proof. solve_decision. Defined.

Inductive Side :=
| Side_LONG
| Side_SHORT.
#[export] Instance Side_eq_dec : EqDecision Side.
Proof. solve_decision. Defined.

Inductive PositionSide :=
| PositionSide_LONG
| PositionSide_SHORT
| PositionSide_FLAT.
#[export] Instance PositionSide_eq_dec : EqDecision PositionSide.
Proof. solve_decision. Defined.

Inductive OrderType :=
| OrderType_LIMIT
| OrderType_MARKET.
#[export] Instance OrderType_eq_dec : EqDecision OrderType.
Proof. solve_decision. Defined.

Record CommandEnvelope := mkCommandEnvelope {
  env_request_id : string;
  env_idempotency_key : string;
  env_user_id : Z;
  env_reply_partition : Z
}.
#[export] Instance CommandEnvelope_eq_dec : EqDecision CommandEnvelope.
Proof. solve_decision. Defined.

(** ** The engine protocol: [engine.rs] *)

Inductive ExecutionReason :=
| ExecutionReason_TRADE
| ExecutionReason_LIQUIDATION.
#[export] Instance ExecutionReason_eq_dec : EqDecision ExecutionReason.
Proof. solve_decision. Defined.

Record AssetAmount := mkAssetAmount {
  aa_asset : Asset;
  aa_amount : Z
}.
#[export] Instance AssetAmount_eq_dec : EqDecision AssetAmount.
Proof. solve_decision. Defined.

Record FeeDelta := mkFeeDelta {
  fd_user_id : Z;
  fd_asset : Asset;
  fd_amount : Z;
  fd_fee_type : string
}.
#[export] Instance FeeDelta_eq_dec : EqDecision FeeDelta.
Proof. solve_decision. Defined.

Record TradeSettlement := mkTradeSettlement {
  ts_reservation_id : string;
  ts_debit_asset : Asset;
  ts_debit_amount : Z;
  ts_credit_asset : Asset;
  ts_credit_amount : Z
}.
#[export] Instance TradeSettlement_eq_dec : EqDecision TradeSettlement.
Proof. solve_decision. Defined.

Record OrderBookLevel := mkOrderBookLevel {
  obl_price : Z;
  obl_quantity : Z
}.
#[export] Instance OrderBookLevel_eq_dec : EqDecision OrderBookLevel.
Proof. solve_decision. Defined.

Record FundingPayment := mkFundingPayment {
  fp_user_id : Z;
  fp_position_id : string;
  fp_side : PositionSide;
  fp_asset : Asset;
  fp_amount : Z
}.
#[export] Instance FundingPayment_eq_dec : EqDecision FundingPayment.
Proof. solve_decision. Defined.

Record ReservedPlaceOrder := mkReservedPlaceOrder {
  rpo_input_id : option string;
  rpo_envelope : CommandEnvelope;
  rpo_order_id : Z;
  rpo_reservation_id : string;
  rpo_market_id : Z;
  rpo_market_name : string;
  rpo_side : Side;
  rpo_order_type : OrderType;
  rpo_quantity : Z;
  rpo_price : Z;
  rpo_reduce_only : bool;
  rpo_margin_asset : Asset;
  rpo_reserved_margin_amount : Z;
  rpo_leverage : Z
}.
#[export] Instance ReservedPlaceOrder_eq_dec : EqDecision ReservedPlaceOrder.
Proof. solve_decision. Defined.

Record CancelOrder := mkCancelOrder {
  co_input_id : option string;
  co_envelope : CommandEnvelope;
  co_market_id : Z;
  co_order_id : Z
}.
#[export] Instance CancelOrder_eq_dec : EqDecision CancelOrder.
Proof. solve_decision. Defined.

Record LiquidatePosition := mkLiquidatePosition {
  lp_input_id : option string;
  lp_envelope : CommandEnvelope;
  lp_liquidation_id : string;
  lp_market_id : Z;
  lp_market_name : string;
  lp_liquidated_user_id : Z;
  lp_position_side : Side;
  lp_quantity : Z;
  lp_price : Z;
  lp_request_source : option string
}.
#[export] Instance LiquidatePosition_eq_dec : EqDecision LiquidatePosition.
Proof. solve_decision. Defined.

Record MarkPriceUpdatedInput := mkMarkPriceUpdatedInput {
  mpi_input_id : option string;
  mpi_market_id : Z;
  mpi_mark_price : Z;
  mpi_index_price : Z;
  mpi_source_timestamp_ms : Z;
  mpi_published_at_ms : Z;
  mpi_valid_until_ms : Z;
  mpi_source_sequence : Z;
  mpi_source_status : string
}.
#[export] Instance MarkPriceUpdatedInput_eq_dec : EqDecision MarkPriceUpdatedInput.
Proof. solve_decision. Defined.

Record FundingRateUpdatedInput := mkFundingRateUpdatedInput {
  fri_input_id : option string;
  fri_market_id : Z;
  fri_funding_interval_id : string;
  fri_rate : Z;
  fri_rate_scale : Z;
  fri_interval_start_ms : Z;
  fri_interval_end_ms : Z;
  fri_source_timestamp_ms : Z
}.
#[export] Instance FundingRateUpdatedInput_eq_dec : EqDecision FundingRateUpdatedInput.
Proof. solve_decision. Defined.

Record FundingSettlementTickInput := mkFundingSettlementTickInput {
  fst_input_id : option string;
  fst_market_id : Z;
  fst_funding_interval_id : string;
  fst_settle_at_ms : Z
}.
#[export] Instance FundingSettlementTickInput_eq_dec : EqDecision FundingSettlementTickInput.
Proof. solve_decision. Defined.

Record OrderAccepted := mkOrderAccepted {
  oa_request_id : string;
  oa_source_input_id : option string;
  oa_source_input_offset : option Z;
  oa_order_id : Z;
  oa_reservation_id : string
}.
#[export] Instance OrderAccepted_eq_dec : EqDecision OrderAccepted.
Proof. solve_decision. Defined.

Record OrderRejected := mkOrderRejected {
  orj_request_id : string;
  orj_source_input_id : option string;
  orj_source_input_offset : option Z;
  orj_reservation_id : option string;
  orj_reason : string
}.
#[export] Instance OrderRejected_eq_dec : EqDecision OrderRejected.
Proof. solve_decision. Defined.

Record CancelAccepted := mkCancelAccepted {
  cac_request_id : string;
  cac_source_input_id : option string;
  cac_source_input_offset : option Z;
  cac_order_id : Z
}.
#[export] Instance CancelAccepted_eq_dec : EqDecision CancelAccepted.
Proof. solve_decision. Defined.

Record CancelRejected := mkCancelRejected {
  crj_request_id : string;
  crj_source_input_id : option string;
  crj_source_input_offset : option Z;
  crj_order_id : Z;
  crj_reason : string
}.
#[export] Instance CancelRejected_eq_dec : EqDecision CancelRejected.
Proof. solve_decision. Defined.

Record LiquidationAccepted := mkLiquidationAccepted {
  la_request_id : string;
  la_source_input_id : option string;
  la_source_input_offset : option Z;
  la_liquidation_id : string;
  la_order_id : Z
}.
#[export] Instance LiquidationAccepted_eq_dec : EqDecision LiquidationAccepted.
Proof. solve_decision. Defined.

Record LiquidationRejected := mkLiquidationRejected {
  lrj_request_id : string;
  lrj_source_input_id : option string;
  lrj_source_input_offset : option Z;
  lrj_liquidation_id : string;
  lrj_reason : string
}.
#[export] Instance LiquidationRejected_eq_dec : EqDecision LiquidationRejected.
Proof. solve_decision. Defined.

Record OrderOpened := mkOrderOpened {
  oo_engine_event_id : option string;
  oo_engine_sequence : Z;
  oo_engine_timestamp_ms : Z;
  oo_source_input_id : option string;
  oo_source_input_offset : option Z;
  oo_order_id : Z;
  oo_reservation_id : string;
  oo_user_id : Z;
  oo_market_id : Z
}.
#[export] Instance OrderOpened_eq_dec : EqDecision OrderOpened.
Proof. solve_decision. Defined.

Record OrderCancelled := mkOrderCancelled {
  oc_engine_event_id : option string;
  oc_engine_sequence : Z;
  oc_engine_timestamp_ms : Z;
  oc_source_input_id : option string;
  oc_source_input_offset : option Z;
  oc_order_id : Z;
  oc_reservation_id : string;
  oc_user_id : Z;
  oc_market_id : Z;
  oc_released_amount : Z
}.
#[export] Instance OrderCancelled_eq_dec : EqDecision OrderCancelled.
Proof. solve_decision. Defined.

Record OrderExpired := mkOrderExpired {
  oe_engine_event_id : option string;
  oe_market_id : Z;
  oe_engine_sequence : Z;
  oe_engine_timestamp_ms : Z;
  oe_source_input_id : option string;
  oe_source_input_offset : option Z;
  oe_order_id : Z;
  oe_reservation_id : string;
  oe_user_id : Z;
  oe_expired_quantity : Z;
  oe_released_amount : Z;
  oe_reason : string
}.
#[export] Instance OrderExpired_eq_dec : EqDecision OrderExpired.
Proof. solve_decision. Defined.

Record ReservationReleased := mkReservationReleased {
  rrl_engine_event_id : option string;
  rrl_market_id : Z;
  rrl_engine_sequence : Z;
  rrl_engine_timestamp_ms : Z;
  rrl_source_input_id : option string;
  rrl_source_input_offset : option Z;
  rrl_reservation_id : string;
  rrl_user_id : Z;
  rrl_asset : Asset;
  rrl_released_amount : Z;
  rrl_reason : string
}.
#[export] Instance ReservationReleased_eq_dec : EqDecision ReservationReleased.
Proof. solve_decision. Defined.

Record TradeExecuted := mkTradeExecuted {
  te_engine_event_id : option string;
  te_engine_sequence : Z;
  te_engine_timestamp_ms : Z;
  te_source_input_id : option string;
  te_source_input_offset : option Z;
  te_fill_id : Z;
  te_market_id : Z;
  te_price : Z;
  te_quantity : Z;
  te_maker_order_id : Z;
  te_taker_order_id : Z;
  te_maker_user_id : Z;
  te_taker_user_id : Z;
  te_maker_reservation_id : option string;
  te_taker_reservation_id : option string;
  te_execution_reason : ExecutionReason;
  te_liquidation_id : option string;
  te_liquidated_user_id : option Z;
  te_position_side : option Side;
  te_liquidation_fee : option AssetAmount;
  te_fee_deltas : list FeeDelta;
  te_settlements : list TradeSettlement
}.
#[export] Instance TradeExecuted_eq_dec : EqDecision TradeExecuted.
Proof. solve_decision. Defined.

Record OrderBookDelta := mkOrderBookDelta {
  obd_engine_event_id : option string;
  obd_engine_sequence : Z;
  obd_engine_timestamp_ms : Z;
  obd_source_input_id : option string;
  obd_source_input_offset : option Z;
  obd_market_id : Z;
  obd_bids : list OrderBookLevel;
  obd_asks : list OrderBookLevel
}.
#[export] Instance OrderBookDelta_eq_dec : EqDecision OrderBookDelta.
Proof. solve_decision. Defined.

Record MarkPriceUpdated := mkMarkPriceUpdated {
  mpu_engine_event_id : option string;
  mpu_market_id : Z;
  mpu_engine_sequence : Z;
  mpu_engine_timestamp_ms : Z;
  mpu_source_input_id : option string;
  mpu_source_input_offset : option Z;
  mpu_mark_price : Z;
  mpu_index_price : Z;
  mpu_valid_until_ms : Z;
  mpu_source_sequence : Z;
  mpu_source_status : string
}.
#[export] Instance MarkPriceUpdated_eq_dec : EqDecision MarkPriceUpdated.
Proof. solve_decision. Defined.

Record FundingRateUpdated := mkFundingRateUpdated {
  fru_engine_event_id : option string;
  fru_market_id : Z;
  fru_engine_sequence : Z;
  fru_engine_timestamp_ms : Z;
  fru_source_input_id : option string;
  fru_source_input_offset : option Z;
  fru_funding_interval_id : string;
  fru_rate : Z;
  fru_rate_scale : Z;
  fru_interval_start_ms : Z;
  fru_interval_end_ms : Z
}.
#[export] Instance FundingRateUpdated_eq_dec : EqDecision FundingRateUpdated.
Proof. solve_decision. Defined.

Record FundingPaymentApplied := mkFundingPaymentApplied {
  fpa_engine_event_id : option string;
  fpa_market_id : Z;
  fpa_engine_sequence : Z;
  fpa_engine_timestamp_ms : Z;
  fpa_source_input_id : option string;
  fpa_source_input_offset : option Z;
  fpa_funding_interval_id : string;
  fpa_payments : list FundingPayment
}.
#[export] Instance FundingPaymentApplied_eq_dec : EqDecision FundingPaymentApplied.
Proof. solve_decision. Defined.

Record PositionChanged := mkPositionChanged {
  pc_engine_event_id : option string;
  pc_market_id : Z;
  pc_engine_sequence : Z;
  pc_engine_timestamp_ms : Z;
  pc_source_input_id : option string;
  pc_source_input_offset : option Z;
  pc_user_id : Z;
  pc_position_id : string;
  pc_side : PositionSide;
  pc_quantity : Z;
  pc_entry_price : Z;
  pc_mark_price : Z;
  pc_isolated_margin : Z;
  pc_realized_pnl : Z;
  pc_unrealized_pnl : Z;
  pc_maintenance_margin : Z;
  pc_liquidation_price : Z;
  pc_reason : string
}.
#[export] Instance PositionChanged_eq_dec : EqDecision PositionChanged.
Proof. solve_decision. Defined.

Record RiskStateUpdated := mkRiskStateUpdated {
  rsu_engine_event_id : option string;
  rsu_market_id : Z;
  rsu_engine_sequence : Z;
  rsu_engine_timestamp_ms : Z;
  rsu_source_input_id : option string;
  rsu_source_input_offset : option Z;
  rsu_user_id : Z;
  rsu_position_id : string;
  rsu_mark_price : Z;
  rsu_equity : Z;
  rsu_maintenance_margin : Z;
  rsu_margin_ratio : Z;
  rsu_status : string
}.
#[export] Instance RiskStateUpdated_eq_dec : EqDecision RiskStateUpdated.
Proof. solve_decision. Defined.

Record LiquidationStarted := mkLiquidationStarted {
  ls_engine_event_id : option string;
  ls_market_id : Z;
  ls_engine_sequence : Z;
  ls_engine_timestamp_ms : Z;
  ls_source_input_id : option string;
  ls_source_input_offset : option Z;
  ls_liquidation_id : string;
  ls_user_id : Z;
  ls_position_id : string;
  ls_side : Side;
  ls_quantity : Z;
  ls_mark_price : Z;
  ls_maintenance_margin : Z;
  ls_equity : Z;
  ls_reason : string
}.
#[export] Instance LiquidationStarted_eq_dec : EqDecision LiquidationStarted.
Proof. solve_decision. Defined.

Record LiquidationExecuted := mkLiquidationExecuted {
  le_engine_event_id : option string;
  le_market_id : Z;
  le_engine_sequence : Z;
  le_engine_timestamp_ms : Z;
  le_source_input_id : option string;
  le_source_input_offset : option Z;
  le_liquidation_id : string;
  le_user_id : Z;
  le_position_id : string;
  le_fill_id : Z;
  le_price : Z;
  le_quantity : Z;
  le_execution_reason : ExecutionReason
}.
#[export] Instance LiquidationExecuted_eq_dec : EqDecision LiquidationExecuted.
Proof. solve_decision. Defined.

Record LiquidationCompleted := mkLiquidationCompleted {
  lc_engine_event_id : option string;
  lc_market_id : Z;
  lc_engine_sequence : Z;
  lc_engine_timestamp_ms : Z;
  lc_source_input_id : option string;
  lc_source_input_offset : option Z;
  lc_liquidation_id : string;
  lc_user_id : Z;
  lc_position_id : string;
  lc_final_status : string;
  lc_remaining_quantity : Z;
  lc_insurance_fund_delta : Z;
  lc_bad_debt : Z
}.
#[export] Instance LiquidationCompleted_eq_dec : EqDecision LiquidationCompleted.
Proof. solve_decision. Defined.

Record AdlExecuted := mkAdlExecuted {
  adl_engine_event_id : option string;
  adl_market_id : Z;
  adl_engine_sequence : Z;
  adl_engine_timestamp_ms : Z;
  adl_source_input_id : option string;
  adl_source_input_offset : option Z;
  adl_adl_id : string;
  adl_liquidation_id : string;
  adl_liquidated_user_id : Z;
  adl_deleveraged_user_id : Z;
  adl_position_side : Side;
  adl_quantity : Z;
  adl_price : Z;
  adl_rank : Z;
  adl_reason : string
}.
#[export] Instance AdlExecuted_eq_dec : EqDecision AdlExecuted.
Proof. solve_decision. Defined.

Record AccountDelta := mkAccountDelta {
  ad_engine_event_id : option string;
  ad_market_id : Z;
  ad_engine_sequence : Z;
  ad_engine_timestamp_ms : Z;
  ad_source_input_id : option string;
  ad_source_input_offset : option Z;
  ad_account_delta_id : string;
  ad_user_id : Z;
  ad_asset : Asset;
  ad_total_delta : Z;
  ad_locked_delta : Z;
  ad_reason : string;
  ad_reference_id : string
}.
#[export] Instance AccountDelta_eq_dec : EqDecision AccountDelta.
Proof. solve_decision. Defined.

Inductive EngineCommand :=
| EngineCommand_PlaceOrder (payload : ReservedPlaceOrder)
| EngineCommand_CancelOrder (payload : CancelOrder)
| EngineCommand_LiquidatePosition (payload : LiquidatePosition)
| EngineCommand_MarkPriceUpdated (payload : MarkPriceUpdatedInput)
| EngineCommand_FundingRateUpdated (payload : FundingRateUpdatedInput)
| EngineCommand_FundingSettlementTick (payload : FundingSettlementTickInput).
#[export] Instance EngineCommand_eq_dec : EqDecision EngineCommand.
Proof. solve_decision. Defined.

Inductive EngineReply :=
| EngineReply_OrderAccepted (payload : OrderAccepted)
| EngineReply_OrderRejected (payload : OrderRejected)
| EngineReply_CancelAccepted (payload : CancelAccepted)
| EngineReply_CancelRejected (payload : CancelRejected)
| EngineReply_LiquidationAccepted (payload : LiquidationAccepted)
| EngineReply_LiquidationRejected (payload : LiquidationRejected).
#[export] Instance EngineReply_eq_dec : EqDecision EngineReply.
Proof. solve_decision. Defined.

Inductive EngineEvent :=
| EngineEvent_OrderOpened (payload : OrderOpened)
| EngineEvent_OrderCancelled (payload : OrderCancelled)
| EngineEvent_OrderExpired (payload : OrderExpired)
| EngineEvent_ReservationReleased (payload : ReservationReleased)
| EngineEvent_TradeExecuted (payload : TradeExecuted)
| EngineEvent_OrderBookDelta (payload : OrderBookDelta)
| EngineEvent_MarkPriceUpdated (payload : MarkPriceUpdated)
| EngineEvent_FundingRateUpdated (payload : FundingRateUpdated)
| EngineEvent_FundingPaymentApplied (payload : FundingPaymentApplied)
| EngineEvent_PositionChanged (payload : PositionChanged)
| EngineEvent_RiskStateUpdated (payload : RiskStateUpdated)
| EngineEvent_LiquidationStarted (payload : LiquidationStarted)
| EngineEvent_LiquidationExecuted (payload : LiquidationExecuted)
| EngineEvent_LiquidationCompleted (payload : LiquidationCompleted)
| EngineEvent_AdlExecuted (payload : AdlExecuted)
| EngineEvent_AccountDelta (payload : AccountDelta).
#[export] Instance EngineEvent_eq_dec : EqDecision EngineEvent.
Proof. solve_decision. Defined.

(** ** The wallet protocol: [wallet.rs] *)

Record PlaceOrderIntent := mkPlaceOrderIntent {
  poi_envelope : CommandEnvelope;
  poi_order_id : Z;
  poi_market_id : Z;
  poi_market_name : string;
  poi_side : Side;
  poi_order_type : OrderType;
  poi_quantity : Z;
  poi_price : Z;
  poi_margin_asset : Asset;
  poi_required_margin : Z;
  poi_leverage : Z;
  poi_reduce_only : bool
}.
#[export] Instance PlaceOrderIntent_eq_dec : EqDecision PlaceOrderIntent.
Proof. solve_decision. Defined.

Record CancelOrderIntent := mkCancelOrderIntent {
  coi_envelope : CommandEnvelope;
  coi_market_id : Z;
  coi_order_id : Z
}.
#[export] Instance CancelOrderIntent_eq_dec : EqDecision CancelOrderIntent.
Proof. solve_decision. Defined.

Record Deposit := mkDeposit {
  dep_envelope : CommandEnvelope;
  dep_asset : Asset;
  dep_amount : Z;
  dep_reference_id : string
}.
#[export] Instance Deposit_eq_dec : EqDecision Deposit.
Proof. solve_decision. Defined.

Record Withdraw := mkWithdraw {
  wdr_envelope : CommandEnvelope;
  wdr_asset : Asset;
  wdr_amount : Z;
  wdr_destination : string
}.
#[export] Instance Withdraw_eq_dec : EqDecision Withdraw.
Proof. solve_decision. Defined.

Record ReleaseReservation := mkReleaseReservation {
  rr_reservation_id : string;
  rr_amount : Z;
  rr_reason : string
}.
#[export] Instance ReleaseReservation_eq_dec : EqDecision ReleaseReservation.
Proof. solve_decision. Defined.

Record SettleTrade := mkSettleTrade {
  st_fill_id : Z;
  st_reservation_id : string;
  st_debit_asset : Asset;
  st_debit_amount : Z;
  st_credit_asset : Asset;
  st_credit_amount : Z
}.
#[export] Instance SettleTrade_eq_dec : EqDecision SettleTrade.
Proof. solve_decision. Defined.

Record FundsReserved := mkFundsReserved {
  fr_request_id : string;
  fr_reservation_id : string;
  fr_asset : Asset;
  fr_amount : Z
}.
#[export] Instance FundsReserved_eq_dec : EqDecision FundsReserved.
Proof. solve_decision. Defined.

Record InsufficientFunds := mkInsufficientFunds {
  inf_request_id : string;
  inf_asset : Asset;
  inf_required : Z;
  inf_available : Z
}.
#[export] Instance InsufficientFunds_eq_dec : EqDecision InsufficientFunds.
Proof. solve_decision. Defined.

Record BalanceUpdated := mkBalanceUpdated {
  bu_request_id : string;
  bu_asset : Asset;
  bu_total : Z;
  bu_locked : Z
}.
#[export] Instance BalanceUpdated_eq_dec : EqDecision BalanceUpdated.
Proof. solve_decision. Defined.

Record CommandAccepted := mkCommandAccepted {
  ca_request_id : string
}.
#[export] Instance CommandAccepted_eq_dec : EqDecision CommandAccepted.
Proof. solve_decision. Defined.

Record CommandRejected := mkCommandRejected {
  cr_request_id : string;
  cr_reason : string
}.
#[export] Instance CommandRejected_eq_dec : EqDecision CommandRejected.
Proof. solve_decision. Defined.

Record WalletFundsReserved := mkWalletFundsReserved {
  wfr_event_id : option string;
  wfr_request_id : string;
  wfr_user_id : Z;
  wfr_reservation_id : string;
  wfr_asset : Asset;
  wfr_amount : Z
}.
#[export] Instance WalletFundsReserved_eq_dec : EqDecision WalletFundsReserved.
Proof. solve_decision. Defined.

Record WalletFundsReleased := mkWalletFundsReleased {
  wfl_event_id : option string;
  wfl_user_id : Z;
  wfl_reservation_id : string;
  wfl_asset : Asset;
  wfl_amount : Z;
  wfl_reason : string
}.
#[export] Instance WalletFundsReleased_eq_dec : EqDecision WalletFundsReleased.
Proof. solve_decision. Defined.

Record WalletTradeSettled := mkWalletTradeSettled {
  wts_event_id : option string;
  wts_user_id : Z;
  wts_fill_id : Z;
  wts_reservation_id : string;
  wts_debit_asset : Asset;
  wts_debit_amount : Z;
  wts_credit_asset : Asset;
  wts_credit_amount : Z
}.
#[export] Instance WalletTradeSettled_eq_dec : EqDecision WalletTradeSettled.
Proof. solve_decision. Defined.

Record WalletDepositApplied := mkWalletDepositApplied {
  wda_event_id : option string;
  wda_request_id : string;
  wda_user_id : Z;
  wda_asset : Asset;
  wda_amount : Z;
  wda_reference_id : string;
  wda_total : Z;
  wda_locked : Z
}.
#[export] Instance WalletDepositApplied_eq_dec : EqDecision WalletDepositApplied.
Proof. solve_decision. Defined.

Record WalletWithdrawalApplied := mkWalletWithdrawalApplied {
  wwa_event_id : option string;
  wwa_request_id : string;
  wwa_user_id : Z;
  wwa_asset : Asset;
  wwa_amount : Z;
  wwa_destination : string;
  wwa_total : Z;
  wwa_locked : Z
}.
#[export] Instance WalletWithdrawalApplied_eq_dec : EqDecision WalletWithdrawalApplied.
Proof. solve_decision. Defined.

Record WalletAccountDeltaApplied := mkWalletAccountDeltaApplied {
  wad_event_id : option string;
  wad_user_id : Z;
  wad_asset : Asset;
  wad_total_delta : Z;
  wad_locked_delta : Z;
  wad_kind : string;
  wad_reference_id : string;
  wad_total : Z;
  wad_locked : Z
}.
#[export] Instance WalletAccountDeltaApplied_eq_dec : EqDecision WalletAccountDeltaApplied.
Proof. solve_decision. Defined.

Inductive WalletCommand :=
| WalletCommand_PlaceOrderIntent (payload : PlaceOrderIntent)
| WalletCommand_CancelOrderIntent (payload : CancelOrderIntent)
| WalletCommand_Deposit (payload : Deposit)
| WalletCommand_Withdraw (payload : Withdraw)
| WalletCommand_ReleaseReservation (payload : ReleaseReservation)
| WalletCommand_SettleTrade (payload : SettleTrade).
#[export] Instance WalletCommand_eq_dec : EqDecision WalletCommand.
Proof. solve_decision. Defined.

Inductive WalletReply :=
| WalletReply_FundsReserved (payload : FundsReserved)
| WalletReply_InsufficientFunds (payload : InsufficientFunds)
| WalletReply_BalanceUpdated (payload : BalanceUpdated)
| WalletReply_CommandAccepted (payload : CommandAccepted)
| WalletReply_CommandRejected (payload : CommandRejected).
#[export] Instance WalletReply_eq_dec : EqDecision WalletReply.
Proof. solve_decision. Defined.

Inductive WalletEvent :=
| WalletEvent_FundsReserved (payload : WalletFundsReserved)
| WalletEvent_FundsReleased (payload : WalletFundsReleased)
| WalletEvent_TradeSettled (payload : WalletTradeSettled)
| WalletEvent_DepositApplied (payload : WalletDepositApplied)
| WalletEvent_WithdrawalApplied (payload : WalletWithdrawalApplied)
| WalletEvent_AccountDeltaApplied (payload : WalletAccountDeltaApplied).
#[export] Instance WalletEvent_eq_dec : EqDecision WalletEvent.
Proof. solve_decision. Defined.

(** ** Constants and functions of the protocol crate *)

Definition WALLET_COMMANDS_TOPIC : string := "wallet.commands".
Definition WALLET_REPLIES_TOPIC : string := "wallet.replies".
Definition WALLET_EVENTS_TOPIC : string := "wallet.events".
Definition ENGINE_INPUT_TOPIC : string := "engine.input".
Definition ENGINE_REPLIES_TOPIC : string := "engine.replies".
Definition ENGINE_EVENTS_TOPIC : string := "engine.events".

Definition engine_input_id (kind : string) (envelope : CommandEnvelope) : string :=
  "engine-input:" +:+ kind +:+ ":" +:+ to_string (env_user_id envelope)
  +:+ ":" +:+ env_idempotency_key envelope.

Definition into_reserved_order (self : PlaceOrderIntent) (reservation_id : string)
    : ReservedPlaceOrder := {|
  rpo_input_id := Some (engine_input_id "place-order" (poi_envelope self));
  rpo_envelope := poi_envelope self;
  rpo_order_id := poi_order_id self;
  rpo_reservation_id := reservation_id;
  rpo_market_id := poi_market_id self;
  rpo_market_name := poi_market_name self;
  rpo_side := poi_side self;
  rpo_order_type := poi_order_type self;
  rpo_quantity := poi_quantity self;
  rpo_price := poi_price self;
  rpo_reduce_only := poi_reduce_only self;
  rpo_margin_asset := poi_margin_asset self;
  rpo_reserved_margin_amount := poi_required_margin self;
  rpo_leverage := poi_leverage self
|}.

Definition into_engine_cancel_order (self : CancelOrderIntent) : CancelOrder := {|
  co_input_id := Some (engine_input_id "cancel-order" (coi_envelope self));
  co_envelope := coi_envelope self;
  co_market_id := coi_market_id self;
  co_order_id := coi_order_id self
|}.

Definition event_id (self : WalletEvent) : option string :=
  let event_id :=
    match self with
    | WalletEvent_FundsReserved event => wfr_event_id event
    | WalletEvent_FundsReleased event => wfl_event_id event
    | WalletEvent_TradeSettled event => wts_event_id event
    | WalletEvent_DepositApplied event => wda_event_id event
    | WalletEvent_WithdrawalApplied event => wwa_event_id event
    | WalletEvent_AccountDeltaApplied event => wad_event_id event
    end in
  match event_id with
  | Some id => if bool_decide (id = "") then None else Some id
  | None => None
  end.

(** ** The JSON encoder

    [serde_json] is a library the services call: its value type and its
    conversions are operations of a class, and what the code relies on is the
    second class: serialising a message succeeds, and reading a stored reply
    back gives the reply that was stored. *)

Class Serde := {
  Value : Type;
  Value_eq_dec :: EqDecision Value;
  reply_to_value : WalletReply -> option Value;
  reply_from_value : Value -> option WalletReply;
  wallet_event_to_value : WalletEvent -> option Value;
  engine_command_to_value : EngineCommand -> option Value;
  engine_event_to_value : EngineEvent -> option Value
}.

Class SerdeLaws `{!Serde} := {
  reply_roundtrip r : exists v, reply_to_value r = Some v /\ reply_from_value v = Some r;
  wallet_event_total e : is_Some (wallet_event_to_value e);
  engine_command_total c : is_Some (engine_command_to_value c);
  engine_event_total e : is_Some (engine_event_to_value e)
}.

(** A concrete encoder: the JSON value of a message is the message itself. *)
Inductive TaggedValue :=
| TaggedValue_Reply (r : WalletReply)
| TaggedValue_WalletEvent (e : WalletEvent)
| TaggedValue_EngineCommand (c : EngineCommand)
| TaggedValue_EngineEvent (e : EngineEvent).
#[export] Instance TaggedValue_eq_dec : EqDecision TaggedValue.
Proof. solve_decision. Defined.

Definition tagged_serde : Serde := {|
  Value := TaggedValue;
  reply_to_value r := Some (TaggedValue_Reply r);
  reply_from_value v := match v with TaggedValue_Reply r => Some r | _ => None end;
  wallet_event_to_value e := Some (TaggedValue_WalletEvent e);
  engine_command_to_value c := Some (TaggedValue_EngineCommand c);
  engine_event_to_value e := Some (TaggedValue_EngineEvent e)
|}.

Lemma tagged_serde_laws : @SerdeLaws tagged_serde.
Proof. split; cbn; eauto. Qed.

(** ** Lemmas *)

(** Two envelopes give the same engine input id only when they are the same
    user's and carry the same idempotency key: a decimal number has no colon. *)
Lemma engine_input_id_inj kind e1 e2 :
  engine_input_id kind e1 = engine_input_id kind e2 ->
  env_user_id e1 = env_user_id e2 /\ env_idempotency_key e1 = env_idempotency_key e2.
Proof.
  unfold engine_input_id. intros H.
  apply string_app_inj_l, string_app_inj_l, string_app_inj_l in H.
  apply separator_inj in H as [?%to_string_inj ?];
    auto using to_string_free_of_colon.
Qed.
