(* ===== verification/Queue.v ===== *)
(** * Queue: consumers of a partition

    The loop the consumers of [apps/ledger], [apps/timeseries] and
    [apps/projector] run over one partition of a topic ([redpanda.rs] of each):
    start from the stored offset, or the earliest one; handle the next record;
    stop on an error; and, at any point, crash and start again. The loop is a
    step relation over a log of records, so that what a crash can cut short is
    explicit. *)

From S2P Require Import Prelude.

Section Consumer.
Context {Db Payload Error : Type}.

(** What may happen to the database beside this partition's records: what a
    failed transaction leaves, and what consumers of other partitions do. *)
Variable same_tables : Db -> Db -> Prop.
(** The offset stored for this partition. *)
Variable load_offset : Db -> option Z.
(** One turn of the loop body on a record: its offset and payload. *)
Variable handle : Z -> Payload -> Db -> Result Error unit * Db.
(** The records of the partition, and the offset [OffsetAt::Earliest] names. *)
Variable log : list (Z * Payload).
Variable earliest : Z.

(** The records come in strictly increasing offsets, from the earliest on; an
    offset is a non-negative [i64]. *)
Fixpoint offsets_from (n : Z) (l : list (Z * Payload)) : Prop :=
  match l with
  | [] => True
  | (o, _) :: l' => n <= o /\ 0 <= o <= i64_max /\ offsets_from (o + 1) l'
  end.

(** The first record at or after an offset. *)
Fixpoint next_record (n : Z) (l : list (Z * Payload)) : option (Z * Payload) :=
  match l with
  | [] => None
  | (o, p) :: l' => if n <=? o then Some (o, p) else next_record n l'
  end.

(** A consumer is down, or it runs with its in-memory [next_offset]. *)
Inductive Consumer :=
| Stopped
| Running (next_offset : Z).

Inductive consumer_step : Db * Consumer -> Db * Consumer -> Prop :=
| consumer_other db db' c :
    same_tables db db' -> load_offset db' = load_offset db -> consumer_step (db, c) (db', c)
| consumer_start db :
    consumer_step (db, Stopped) (db, Running (default earliest (load_offset db)))
| consumer_handle db n o p db' :
    next_record n log = Some (o, p) -> handle o p db = (Ok tt, db') ->
    consumer_step (db, Running n) (db', Running (o + 1))
| consumer_fail db n o p e db' :
    next_record n log = Some (o, p) -> handle o p db = (Err e, db') ->
    consumer_step (db, Running n) (db', Stopped)
(** A crash before the record's transaction commits, and one after it. *)
| consumer_crash db n : consumer_step (db, Running n) (db, Stopped)
| consumer_crash_after db n o p db' :
    next_record n log = Some (o, p) -> handle o p db = (Ok tt, db') ->
    consumer_step (db, Running n) (db', Stopped).

(** The records handled once each, in order, with other transactions and failed
    attempts in between. *)
Inductive handled_all : Db -> list (Z * Payload) -> Db -> Prop :=
| handled_nil db : handled_all db [] db
| handled_cons db o p l db1 db2 :
    handle o p db = (Ok tt, db1) -> handled_all db1 l db2 ->
    handled_all db ((o, p) :: l) db2
| handled_failed db db1 l db2 :
    same_tables db db1 -> handled_all db1 l db2 -> handled_all db l db2.

(** Where the consumer stands after a list of records. *)
Fixpoint offset_after (n : Z) (l : list (Z * Payload)) : Z :=
  match l with
  | [] => n
  | (o, _) :: l' => offset_after (o + 1) l'
  end.

Lemma handled_app db l1 db1 l2 db2 :
  handled_all db l1 db1 -> handled_all db1 l2 db2 -> handled_all db (l1 ++ l2) db2.
Proof.
  induction 1; cbn; [done|..]; intros.
  - eapply handled_cons; eauto.
  - eapply handled_failed; eauto.
Qed.

Lemma offset_after_app n l o p : offset_after n (l ++ [(o, p)]) = o + 1.
Proof. revert n; induction l as [|[] l IH]; cbn; auto. Qed.

Lemma offset_after_ge n l : offsets_from n l -> n <= offset_after n l.
Proof.
  revert n; induction l as [|[o p] l IH]; cbn; intros n; [lia|].
  intros (? & _ & H%IH). lia.
Qed.

Lemma next_record_at n l1 l2 :
  offsets_from n (l1 ++ l2) -> next_record (offset_after n l1) (l1 ++ l2) = head l2.
Proof.
  intros Hl. assert (forall m, offset_after n l1 = m -> next_record m (l1 ++ l2) = head l2) as H;
    [|by apply H].
  intros m Hm. revert n Hl Hm. induction l1 as [|[o p] l1 IH]; cbn; intros n Hl Hm.
  - subst m. destruct l2 as [|[o p] l2]; cbn in *; [done|]. by case_if; [|lia].
  - destruct Hl as (_ & _ & Hl). case_if.
    + exfalso. assert (offsets_from (o + 1) l1) as Hl1.
      { revert Hl. generalize (o + 1). clear. induction l1 as [|[o' p'] l1 IH]; cbn; [done|].
        intros m (? & ? & ?). split; [done|]. split; [done|]. by apply IH. }
      apply offset_after_ge in Hl1. lia.
    + by apply (IH (o + 1)).
Qed.

(** *** Transactional consumers

    When one transaction both applies a record and saves the offset after it,
    and a failed one changes nothing, the records before the stored offset have
    been applied exactly once each. *)

Hypothesis handle_saves : forall o p db db',
  0 <= o <= i64_max -> default earliest (load_offset db) <= o ->
  handle o p db = (Ok tt, db') -> load_offset db' = Some (o + 1).
Hypothesis handle_atomic : forall o p db e db',
  handle o p db = (Err e, db') -> load_offset db' = load_offset db /\ same_tables db db'.

Lemma offsets_from_next n done o p rest :
  offsets_from n (done ++ (o, p) :: rest) -> offset_after n done <= o /\ 0 <= o <= i64_max.
Proof.
  revert n. induction done as [|[o' p'] done IH]; cbn; intros n (? & ? & ?); [done|by apply IH].
Qed.

Record exactly_once (db0 : Db) (s : Db * Consumer) (done rest : list (Z * Payload)) : Prop := {
  eo_log : log = done ++ rest;
  eo_handled : handled_all db0 done s.1;
  eo_stored : default earliest (load_offset s.1) = offset_after earliest done;
  eo_running n : s.2 = Running n -> n = offset_after earliest done
}.

Lemma exactly_once_step db0 s s' done rest :
  offsets_from earliest log -> exactly_once db0 s done rest -> consumer_step s s' ->
  exists done' rest', exactly_once db0 s' done' rest'.
Proof.
  intros Hlog [Hl Hh Hst Hrun] Hs.
  assert (forall db n o p db', s = (db, Running n) -> next_record n log = Some (o, p) ->
    handle o p db = (Ok tt, db') -> exists rest', rest = (o, p) :: rest' /\
      handled_all db0 (done ++ [(o, p)]) db' /\
      default earliest (load_offset db') = offset_after earliest (done ++ [(o, p)])) as Hok.
  { intros db n o p db' -> Hn Hd. cbn in *. rewrite (Hrun n eq_refl), Hl in Hn.
    rewrite next_record_at in Hn by (by rewrite <- Hl).
    destruct rest as [|r rest]; [done|]. injection Hn as ->. exists rest.
    rewrite offset_after_app. split; [done|]. split.
    - eapply handled_app; [exact Hh|]. eapply handled_cons; [done|constructor].
    - rewrite Hl in Hlog. apply offsets_from_next in Hlog as [Hle Ho].
      rewrite (handle_saves o p db db' Ho); [done|by rewrite Hst|done]. }
  destruct Hs as [db db' c Hsame Hload|db|db n o p db' Hn Hd|db n o p e db' Hn Hd|db n|db n o p db' Hn Hd].
  - cbn in *. exists done, rest. split; cbn; try done; [|by rewrite Hload].
    rewrite <- (app_nil_r done). eapply handled_app; [exact Hh|].
    eapply handled_failed; [exact Hsame|constructor].
  - exists done, rest. split; try done. cbn in *. by intros n [= <-].
  - destruct (Hok _ _ _ _ _ eq_refl Hn Hd) as (rest' & -> & ? & ?).
    exists (done ++ [(o, p)]), rest'. split; try done.
    + by rewrite <- app_assoc.
    + intros m [= <-]. by rewrite offset_after_app.
  - destruct (handle_atomic _ _ _ _ _ Hd) as [Hload Hsame]. cbn in *. exists done, rest.
    split; cbn; try done; [|by rewrite Hload].
    rewrite <- (app_nil_r done). eapply handled_app; [exact Hh|].
    eapply handled_failed; [exact Hsame|constructor].
  - by exists done, rest.
  - destruct (Hok _ _ _ _ _ eq_refl Hn Hd) as (rest' & -> & ? & ?).
    exists (done ++ [(o, p)]), rest'. split; try done. by rewrite <- app_assoc.
Qed.

Lemma exactly_once_reachable db0 s :
  offsets_from earliest log -> load_offset db0 = None ->
  rtc consumer_step (db0, Stopped) s ->
  exists done rest, exactly_once db0 s done rest.
Proof.
  intros Hlog H0 Hs.
  assert (exists done rest, exactly_once db0 (db0, Stopped) done rest) as Hinit.
  { exists [], log. split; try done; [constructor|cbn; by rewrite H0]. }
  revert s Hs. apply rtc_ind_r; [done|].
  intros s1 s2 _ Hstep (done & rest & H). by eapply exactly_once_step.
Qed.
End Consumer.
