(* ===== verification/Broker.v ===== *)
(** * Broker: what every service does with the broker's client

    [parse_brokers], [topic_partitions], [partition_clients], the [JoinSet] that
    [run] waits on, and the loop over the records of one partition: each service
    has a copy of them in its [redpanda.rs] or [consumer.rs], with an error type of
    its own, so that the errors are parameters here. The client itself is the
    rskafka package: its answers are parameters too. *)

From S2P Require Import Prelude Text Queue.

(** The topics a broker lists, each with its partitions. *)
Definition Topics : Type := list (string * list Z).

(** A client that has connected: what it answers to [list_topics], and whether
    it gives a client for a partition of a topic; errors are texts. *)
Record Cluster := mkCluster {
  list_topics : Result string Topics;
  partition_client : string -> Z -> Result string unit
}.

(** [ClientBuilder::new(brokers).build()] *)
Definition Connect : Type := list string -> Result string Cluster.

Section Client.
Context {E : Type}.
Variable client_error : string -> E.
Variable empty_broker_list : E.
Variable topic_not_found topic_has_no_partitions : string -> E.

Definition brokers_in (brokers : string) : Result E (list string) :=
  let brokers := filter (fun broker => is_empty broker = false)
                   (map trim (split (Ascii.ascii_of_nat 44) brokers)) in
  if bool_decide (brokers = []) then Err empty_broker_list else Ok brokers.

Definition partitions_in (topics : Topics) (topic : string) : Result E (list Z) :=
  match List.find (fun candidate => bool_decide (candidate.1 = topic)) topics with
  | None => Err (topic_not_found topic)
  | Some (_, partitions) =>
      if bool_decide (partitions = []) then Err (topic_has_no_partitions topic) else Ok partitions
  end.

(** A client for each partition, until the first that fails. *)
Fixpoint clients_for (cluster : Cluster) (topic : string) (partitions : list Z) : Result E (list Z) :=
  match partitions with
  | [] => Ok []
  | partition :: partitions =>
      let? _ := map_err client_error (partition_client cluster topic partition) in
      let? clients := clients_for cluster topic partitions in
      Ok (partition :: clients)
  end.

Definition clients_in (cluster : Cluster) (topics : Topics) (topic : string) : Result E (list Z) :=
  let? partitions := partitions_in topics topic in
  clients_for cluster topic partitions.

(** *** What they answer *)

Lemma brokers_in_ok brokers l :
  brokers_in brokers = Ok l -> l <> [] /\ (forall b, b ∈ l -> b <> "").
Proof.
  unfold brokers_in. case_bool_decide as Hl; [done|]. intros [= <-]. split; [done|].
  intros b [Hb _]%list_elem_of_filter. by apply bool_decide_eq_false in Hb.
Qed.

Lemma partitions_in_ok topics topic l :
  partitions_in topics topic = Ok l -> l <> [] /\ (topic, l) ∈ topics.
Proof.
  unfold partitions_in. destruct (List.find _ topics) as [[t ps]|] eqn:Hf; [|done].
  apply find_some in Hf as [Hin Ht%bool_decide_eq_true]. cbn in Ht. subst t.
  case_bool_decide; [done|]. intros [= <-]. split; [done|]. by apply list_elem_of_In.
Qed.

Lemma clients_for_ok cluster topic : forall partitions l,
  clients_for cluster topic partitions = Ok l -> l = partitions.
Proof.
  induction partitions as [|p ps IH]; intros l; cbn; [by intros [= <-]|].
  destruct (partition_client cluster topic p); [|done]. cbn.
  destruct (clients_for cluster topic ps) as [l'|]; [|done]. cbn. intros [= <-].
  by rewrite (IH l').
Qed.

Lemma clients_for_run cluster topic : forall partitions,
  (forall p, p ∈ partitions -> partition_client cluster topic p = Ok tt) ->
  clients_for cluster topic partitions = Ok partitions.
Proof.
  induction partitions as [|p ps IH]; intros H; [done|]. cbn.
  rewrite H by apply list_elem_of_here. cbn. rewrite IH; [done|].
  intros q Hq. by apply H, list_elem_of_further.
Qed.

Lemma clients_in_ok cluster topics topic l :
  clients_in cluster topics topic = Ok l -> partitions_in topics topic = Ok l.
Proof.
  unfold clients_in. destruct (partitions_in topics topic) as [ps|]; [|done]. cbn.
  by intros ->%clients_for_ok.
Qed.
End Client.

(** The same topics and the same client serve everyone: whether the partitions of
    a topic are had does not depend on the errors. *)
Lemma partitions_in_any {E E'} (nf np : string -> E) (nf' np' : string -> E') topics topic l :
  partitions_in nf np topics topic = Ok l -> partitions_in nf' np' topics topic = Ok l.
Proof.
  unfold partitions_in. destruct (List.find _ topics) as [[t ps]|]; [|done].
  destruct (bool_decide (ps = [])); [done|]. by intros [= ->].
Qed.

Lemma clients_in_any {E E'} (ce nf np : string -> E) (ce' nf' np' : string -> E') cluster topics topic l :
  clients_in ce nf np cluster topics topic = Ok l ->
  clients_in ce' nf' np' cluster topics topic = Ok l.
Proof.
  unfold clients_in. destruct (partitions_in nf np topics topic) as [ps|] eqn:Hp; [|done].
  rewrite (partitions_in_any _ _ nf' np' _ _ _ Hp). cbn. clear Hp.
  revert l. induction ps as [|p ps IH]; intros l; cbn; [by intros [= <-]|].
  destruct (partition_client cluster topic p); [|done]. cbn.
  destruct (clients_for ce cluster topic ps) as [l'|]; [|done]. cbn.
  intros [= <-]. by rewrite (IH l').
Qed.

Lemma brokers_in_any {E E'} (e : E) (e' : E') brokers l :
  brokers_in e brokers = Ok l -> brokers_in e' brokers = Ok l.
Proof. unfold brokers_in. destruct (bool_decide _); [done|]. by intros [= ->]. Qed.

(** ** The tasks of a service *)

(** How a task ended; a panic leaves a text of the [JoinError]. *)
Inductive Finished (E : Type) :=
| Finished_Ok
| Finished_Err (error : E)
| Finished_Panic (error : string).
Arguments Finished_Ok {E}.
Arguments Finished_Err {E} error.
Arguments Finished_Panic {E} error.

(** [while let Some(result) = tasks.join_next().await]: the tasks that ended, in
    the order they did, of [n] that were spawned; [None] while it waits. *)
Fixpoint join_tasks {E} (task : string -> E) (n : nat) (finished : list (Finished E))
    : option (Result E unit) :=
  match n, finished with
  | O, _ => Some (Ok tt)
  | S n, [] => None
  | S n, Finished_Ok :: finished => join_tasks task n finished
  | S n, Finished_Err error :: _ => Some (Err error)
  | S n, Finished_Panic error :: _ => Some (Err (task error))
  end.

(** A service stops with the error of the first task that fails. *)
Lemma join_first_failure {E} (task : string -> E) n k f rest e :
  f = Finished_Err e \/ (exists text, f = Finished_Panic text /\ e = task text) ->
  (k < n)%nat ->
  join_tasks task n (replicate k Finished_Ok ++ f :: rest) = Some (Err e).
Proof.
  intros Hf. revert k. induction n as [|n IH]; intros [|k] Hk; try lia; cbn.
  - by destruct Hf as [->|(text & -> & ->)].
  - apply IH. lia.
Qed.

(** ** The loop over one partition *)

(** What ends the task of a partition: the client, or the handling of a record. *)
Inductive TaskError (Error : Type) :=
| TaskError_Client (error : string)
| TaskError_Worker (error : Error).
Arguments TaskError_Client {Error} error.
Arguments TaskError_Worker {Error} error.

Section Partition.
Context {Db Payload Error : Type}.
Variable handle : Z -> Payload -> Db -> Result Error unit * Db.
(** After such an error the record is fetched again. *)
Variable retry : Error -> bool.

(** The records of one fetch: the offset of the next one, or the error that ends
    the task. *)
Fixpoint handle_records (next_offset : Z) (records : list (Z * Payload)) (db : Db)
    : Result (TaskError Error) Z * Db :=
  match records with
  | [] => (Ok next_offset, db)
  | (offset, payload) :: records =>
      match handle offset payload db with
      | (Ok _, db') => handle_records (offset + 1) records db'
      | (Err e, db') => if retry e then (Ok next_offset, db') else (Err (TaskError_Worker e), db')
      end
  end.

(** The answers of [fetch_records], in order: the loop has no end of its own. *)
Fixpoint handle_fetches (next_offset : Z) (answers : list (Result string (list (Z * Payload))))
    (db : Db) : Result (TaskError Error) Z * Db :=
  match answers with
  | [] => (Ok next_offset, db)
  | Err e :: _ => (Err (TaskError_Client e), db)
  | Ok records :: answers =>
      match handle_records next_offset records db with
      | (Ok next_offset, db') => handle_fetches next_offset answers db'
      | (Err e, db') => (Err e, db')
      end
  end.

(** From the stored offset, or where [get_offset] says. *)
Definition run_partition (load_offset : Db -> option Z) (get_offset : Result string Z)
    (answers : list (Result string (list (Z * Payload)))) (db : Db) : Result (TaskError Error) Z * Db :=
  match load_offset db with
  | Some offset => handle_fetches offset answers db
  | None =>
      match get_offset with
      | Ok offset => handle_fetches offset answers db
      | Err e => (Err (TaskError_Client e), db)
      end
  end.

(** *** The loop is a run of the consumers of Queue *)

Variable same_tables : Db -> Db -> Prop.
Variable load_offset : Db -> option Z.
Variable log : list (Z * Payload).
Variable earliest : Z.

(** A fetch at an offset gives the records of the log from there on, as many as
    it likes. *)
Fixpoint fetched (next_offset : Z) (records : list (Z * Payload)) : Prop :=
  match records with
  | [] => True
  | (offset, payload) :: records =>
      next_record next_offset log = Some (offset, payload) /\ fetched (offset + 1) records
  end.

(** The answers to a loop that stands at [next_offset] in [db]. *)
Fixpoint answered (next_offset : Z) (answers : list (Result string (list (Z * Payload)))) (db : Db)
    : Prop :=
  match answers with
  | [] => True
  | Err _ :: _ => True
  | Ok records :: answers =>
      fetched next_offset records /\
      match handle_records next_offset records db with
      | (Ok next_offset, db') => answered next_offset answers db'
      | (Err _, _) => True
      end
  end.

Definition standing (r : Result (TaskError Error) Z) : Consumer :=
  match r with Ok n => Running n | Err _ => Stopped end.

Hypothesis handle_atomic : forall o p db e db',
  handle o p db = (Err e, db') -> load_offset db' = load_offset db /\ same_tables db db'.

Notation step := (consumer_step same_tables load_offset handle log earliest).

Lemma handle_records_steps : forall records n db r db',
  fetched n records -> handle_records n records db = (r, db') ->
  rtc step (db, Running n) (db', standing r).
Proof.
  induction records as [|[o p] records IH]; cbn; intros n db r db'.
  - intros _ [= <- <-]. done.
  - intros [Hn Hf]. destruct (handle o p db) as [[[]|e] db1] eqn:Hh.
    + intros H. eapply rtc_l; [by eapply consumer_handle|]. by apply IH.
    + destruct (handle_atomic _ _ _ _ _ Hh) as [Hload Hsame].
      destruct (retry e); intros [= <- <-]; eapply rtc_once.
      * by apply consumer_other.
      * by eapply consumer_fail.
Qed.

Lemma handle_fetches_steps : forall answers n db r db',
  answered n answers db -> handle_fetches n answers db = (r, db') ->
  rtc step (db, Running n) (db', standing r).
Proof.
  induction answers as [|[records|e] answers IH]; cbn; intros n db r db'.
  - intros _ [= <- <-]. done.
  - intros [Hf Ha] H. destruct (handle_records n records db) as [[m|e] db1] eqn:Hr.
    + etrans; [by eapply handle_records_steps|]. by apply IH.
    + injection H as <- <-. by eapply (handle_records_steps _ _ _ (Err e)).
  - intros _ [= <- <-]. eapply rtc_once, consumer_crash.
Qed.

(** *** The loop gets to the end of the log *)

(** The records at or after an offset. *)
Definition pending (n : Z) : list (Z * Payload) := filter (fun record => n <= record.1) log.

(** A broker that answers every fetch, with a record at least while there is one. *)
Fixpoint served (next_offset : Z) (answers : list (Result string (list (Z * Payload)))) : Prop :=
  match answers with
  | [] => True
  | Err _ :: _ => False
  | Ok records :: answers =>
      fetched next_offset records /\ (records = [] -> pending next_offset = []) /\
      served (offset_after next_offset records) answers
  end.

Lemma next_record_pending n : next_record n log = head (pending n).
Proof.
  unfold pending. clear. induction log as [|[o p] l IH]; [done|]. cbn [next_record].
  rewrite filter_cons. cbn [fst]. rewrite IH. by destruct (Z.leb_spec n o); case_decide; try lia.
Qed.

Lemma next_record_some n o p : next_record n log = Some (o, p) -> n <= o /\ (o, p) ∈ log.
Proof.
  rewrite next_record_pending. intros H%head_Some_elem_of.
  by apply list_elem_of_filter in H.
Qed.

Lemma pending_after n o p :
  next_record n log = Some (o, p) -> (length (pending (o + 1)) < length (pending n))%nat.
Proof.
  intros [Hle Hin]%next_record_some. unfold pending.
  apply list_elem_of_split in Hin as (l1 & l2 & ->).
  assert (forall l, Nat.le (length (filter (fun record : Z * Payload => o + 1 <= record.1) l))
    (length (filter (fun record : Z * Payload => n <= record.1) l))) as Hmono.
  { clear -Hle. induction l as [|r l IH]; [done|]. rewrite !filter_cons.
    repeat case_decide; cbn [length]; lia. }
  rewrite !filter_app, !length_app, !filter_cons. cbn [fst].
  rewrite decide_False, decide_True by lia. cbn [length].
  pose proof (Hmono l1). pose proof (Hmono l2). lia.
Qed.

Lemma pending_fetched : forall records n,
  fetched n records -> (length (pending (offset_after n records)) + length records <= length (pending n))%nat.
Proof.
  induction records as [|[o p] records IH]; intros n; cbn; [lia|].
  intros [Hn Hf]. apply IH in Hf. apply pending_after in Hn. lia.
Qed.

Section Progress.
Hypothesis never_retried : forall e, retry e = false.

(** From here the loop comes to a record that cannot be handled, and ends there. *)
Definition stuck_from (n : Z) (db : Db) (error : Error) (db' : Db) : Prop :=
  exists m o p db1, rtc step (db, Running n) (db1, Running m) /\
    next_record m log = Some (o, p) /\ handle o p db1 = (Err error, db').

Lemma stuck_later n db m db1 error db' :
  rtc step (db, Running n) (db1, Running m) -> stuck_from m db1 error db' ->
  stuck_from n db error db'.
Proof. intros Hs (k & o & p & db2 & Hs2 & H). exists k, o, p, db2. split; [by etrans|done]. Qed.

Lemma handle_records_ends : forall records n db, fetched n records ->
  (exists db', handle_records n records db = (Ok (offset_after n records), db') /\
     rtc step (db, Running n) (db', Running (offset_after n records))) \/
  (exists error db', handle_records n records db = (Err (TaskError_Worker error), db') /\
     stuck_from n db error db').
Proof.
  induction records as [|[o p] records IH]; intros n db; cbn; [left; by exists db|].
  intros [Hn Hf]. destruct (handle o p db) as [[[]|error] db1] eqn:Hh.
  - assert (rtc step (db, Running n) (db1, Running (o + 1))) as Hone
      by by eapply rtc_once, consumer_handle.
    destruct (IH (o + 1) db1 Hf) as [(db' & Hrun & Hs)|(error & db' & Hrun & Hs)].
    + left. exists db'. split; [done|by etrans].
    + right. exists error, db'. split; [done|by eapply stuck_later].
  - right. rewrite never_retried. exists error, db1. split; [done|]. by exists n, o, p, db.
Qed.

(** With as many fetches as records are left, none is left, or one cannot be handled. *)
Lemma handle_fetches_ends : forall answers n db,
  served n answers -> (length (pending n) <= length answers)%nat ->
  (exists m db', handle_fetches n answers db = (Ok m, db') /\ next_record m log = None /\
     rtc step (db, Running n) (db', Running m)) \/
  (exists error db', handle_fetches n answers db = (Err (TaskError_Worker error), db') /\
     stuck_from n db error db').
Proof.
  induction answers as [|[records|e] answers IH]; intros n db; cbn [served length handle_fetches].
  - intros _ Hl. left. exists n, db. rewrite next_record_pending.
    destruct (pending n); [done|cbn in Hl; lia].
  - intros (Hf & Hmore & Hs) Hl.
    destruct (handle_records_ends records n db Hf) as [(db1 & -> & Hone)|(error & db' & -> & Hst)];
      [|right; by exists error, db'].
    destruct (IH (offset_after n records) db1 Hs) as [(m & db' & Hrun & Hm & Hrest)|(error & db' & Hrun & Hst)].
    + pose proof (pending_fetched _ _ Hf) as Hle. destruct records as [|r records]; cbn [length] in *; [|lia].
      cbn [offset_after]. rewrite (Hmore eq_refl). cbn. lia.
    + left. exists m, db'. split_and!; [done..|by etrans].
    + right. exists error, db'. split; [done|by eapply stuck_later].
  - done.
Qed.

(** The same of a task that starts at the stored offset or the earliest one. *)
Lemma run_partition_ends answers db :
  served (default earliest (load_offset db)) answers -> (length log <= length answers)%nat ->
  (exists m db', run_partition load_offset (Ok earliest) answers db = (Ok m, db') /\
     next_record m log = None /\ rtc step (db, Stopped) (db', Running m)) \/
  (exists error db' m o p db1,
     run_partition load_offset (Ok earliest) answers db = (Err (TaskError_Worker error), db') /\
     rtc step (db, Stopped) (db1, Running m) /\
     next_record m log = Some (o, p) /\ handle o p db1 = (Err error, db')).
Proof.
  intros Hs Hl. set (n := default earliest (load_offset db)) in *.
  assert (run_partition load_offset (Ok earliest) answers db = handle_fetches n answers db) as ->.
  { unfold run_partition, n. by destruct (load_offset db). }
  assert (step (db, Stopped) (db, Running n)) as Hstart by apply consumer_start.
  destruct (handle_fetches_ends answers n db Hs) as [(m & db' & ? & ? & ?)|(error & db' & ? & Hst)].
  - etrans; [|exact Hl]. apply length_filter.
  - left. exists m, db'. split_and!; [done..|by eapply rtc_l].
  - right. destruct Hst as (m & o & p & db1 & ? & ? & ?). exists error, db', m, o, p, db1.
    split_and!; [done| |done..]. by eapply rtc_l.
Qed.
End Progress.

(** From a stop to wherever it gets. *)
Lemma run_partition_steps get_offset answers db r db' :
  (load_offset db = None -> forall n, get_offset = Ok n -> n = earliest) ->
  answered (default earliest (load_offset db)) answers db ->
  run_partition load_offset get_offset answers db = (r, db') ->
  rtc step (db, Stopped) (db', standing r).
Proof.
  intros Hget Ha H. unfold run_partition in H.
  destruct (load_offset db) as [n|] eqn:Hload.
  - eapply rtc_l; [apply consumer_start|]. rewrite Hload. by eapply handle_fetches_steps.
  - destruct get_offset as [n|e].
    + eapply rtc_l; [apply consumer_start|]. rewrite Hload.
      rewrite (Hget eq_refl n eq_refl) in H. by eapply handle_fetches_steps.
    + by injection H as <- <-.
Qed.

(** A task that was started, and ended or was cut short: it read the log, from
    [OffsetAt::Earliest] when nothing was stored. *)
Definition one_run
    (run : Result string Z -> list (Result string (list (Z * Payload))) -> Db ->
           Result (TaskError Error) Z * Db)
    (db db' : Db) : Prop :=
  exists get_offset answers r,
    (load_offset db = None -> forall n, get_offset = Ok n -> n = earliest) /\
    answered (default earliest (load_offset db)) answers db /\
    run get_offset answers db = (r, db').

(** All the runs of the task, one after the other. *)
Lemma runs_are_consumers db db' :
  rtc (one_run (run_partition load_offset)) db db' -> rtc step (db, Stopped) (db', Stopped).
Proof.
  induction 1 as [|db db1 db' (get_offset & answers & r & Hget & Ha & Hrun) _ IH]; [done|].
  etrans; [by eapply run_partition_steps|]. destruct r as [n|e]; [|exact IH].
  eapply rtc_l; [apply consumer_crash|exact IH].
Qed.
End Partition.
