(* ===== verification/Postgres.v ===== *)
(** * Postgres: the parts of the database every service uses

    The errors a statement raises, the check a BIGINT column makes, and the
    offset tables ([wallet_queue_offsets], [ledger_offsets],
    [timeseries_offsets], [projector_offsets]), whose guarded upsert the four
    repositories share. *)

From S2P Require Import Prelude.

Inductive SqlError :=
| CheckViolation
| UniqueViolation
| ForeignKeyViolation
| NumericValueOutOfRange
| RowNotFound.
#[export] Instance SqlError_eq_dec : EqDecision SqlError.
Proof. solve_decision. Defined.

(** A BIGINT column keeps 64-bit integers; storing anything else is an error. *)
Definition pg_int8 (z : Z) : Result SqlError Z :=
  if in_i64b z then Ok z else Err NumericValueOutOfRange.

Lemma pg_int8_ok z z' : pg_int8 z = Ok z' <-> z' = z /\ in_i64 z.
Proof.
  unfold pg_int8. rewrite <- in_i64b_spec.
  destruct (in_i64b z); split; [by intros [= ->]|by intros [-> _]|done|by intros [_ ?]].
Qed.

(** What [TO_TIMESTAMP] accepts, in milliseconds: 4714 BC to the year 294276. *)
Definition to_timestamp_ok (ms : Z) : bool :=
  (-210866803200000 <=? ms) && (ms <? 9224318016000000).

(** ** Offset tables *)

Abbreviation Offsets := (gmap (string * Z) Z).

(** [INSERT ... ON CONFLICT(topic, partition) DO UPDATE SET
    next_offset=EXCLUDED.next_offset WHERE next_offset < EXCLUDED.next_offset],
    on a table with [CHECK(next_offset >= 0)]. *)
Definition upsert_offset (topic : string) (partition next_offset : Z) (t : Offsets)
    : Result SqlError Offsets :=
  if next_offset <? 0 then Err CheckViolation
  else match t !! (topic, partition) with
       | None => Ok (<[(topic, partition) := next_offset]> t)
       | Some current =>
           if current <? next_offset then Ok (<[(topic, partition) := next_offset]> t)
           else Ok t
       end.

Definition offset_of (topic : string) (partition : Z) (t : Offsets) : Z :=
  default 0 (t !! (topic, partition)).

(** Saving keeps the larger of the stored and the new offset, and touches no
    other partition. *)
Lemma upsert_offset_spec topic partition n t t' :
  upsert_offset topic partition n t = Ok t' ->
  0 <= n /\
  t' !! (topic, partition) = Some (match t !! (topic, partition) with
                                   | Some c => Z.max c n | None => n end) /\
  forall k, k <> (topic, partition) -> t' !! k = t !! k.
Proof.
  unfold upsert_offset. intros H. case_if_in H; [done|].
  destruct (t !! (topic, partition)) as [c|] eqn:E.
  - case_if_in H; simplify_eq.
    + rewrite lookup_insert_eq. split_and!; [lia|f_equal; lia|].
      intros k Hk. by rewrite lookup_insert_ne.
    + rewrite E. split_and!; [lia|f_equal; lia|done].
  - simplify_eq. rewrite lookup_insert_eq. split_and!; [lia|done|].
    intros k Hk. by rewrite lookup_insert_ne.
Qed.

Lemma upsert_offset_total topic partition n t :
  0 <= n -> exists t', upsert_offset topic partition n t = Ok t'.
Proof.
  intros Hn. unfold upsert_offset. case_if; [lia|].
  destruct (t !! _); [case_if|]; eauto.
Qed.

(** A consumer that saves the offset after its record stores exactly that. *)
Lemma upsert_next_offset earliest topic partition o t t' :
  0 <= o <= i64_max -> default earliest (t !! (topic, partition)) <= o ->
  upsert_offset topic partition (i64_wrap (o + 1)) t = Ok t' ->
  t' !! (topic, partition) = Some (o + 1).
Proof.
  intros Ho Hle (Hpos & Hs & _)%upsert_offset_spec. rewrite Hs.
  assert (i64_wrap (o + 1) = o + 1) as ->.
  { destruct (decide (o = i64_max)) as [->|]; [by cbn in Hpos|].
    apply i64_wrap_id. unfold in_i64, i64_min, i64_max in *. lia. }
  destruct (t !! (topic, partition)); cbn in *; f_equal; lia.
Qed.
