(* ===== verification/WalletDb.v ===== *)
(** * WalletDb: the wallet's tables and the statements that touch them

    The tables of [crates/db/migrations] the wallet owns, as finite maps from
    their keys, and the SQL statements of [apps/wallet/src/repository.rs] as
    routines that check the constraints of the table they write. *)

From S2P Require Import Prelude Protocol Postgres.

(** ** Assets of the database: [crates/db/src/dto.rs] *)

Inductive AssetType :=
| AssetType_USDC | AssetType_USDT | AssetType_SOL | AssetType_ETH
| AssetType_BTC | AssetType_PERP | AssetType_HYP.
#[export] Instance AssetType_eq_dec : EqDecision AssetType.
Proof. solve_decision. Defined.

Definition asset_to_db (asset : Asset) : AssetType :=
  match asset with
  | Asset_USDC => AssetType_USDC
  | Asset_USDT => AssetType_USDT
  | Asset_SOL => AssetType_SOL
  | Asset_ETH => AssetType_ETH
  | Asset_BTC => AssetType_BTC
  | Asset_PERP => AssetType_PERP
  | Asset_HYP => AssetType_HYP
  end.

Definition asset_from_db (asset : AssetType) : Asset :=
  match asset with
  | AssetType_USDC => Asset_USDC
  | AssetType_USDT => Asset_USDT
  | AssetType_SOL => Asset_SOL
  | AssetType_ETH => Asset_ETH
  | AssetType_BTC => Asset_BTC
  | AssetType_PERP => Asset_PERP
  | AssetType_HYP => Asset_HYP
  end.

Lemma asset_from_to_db a : asset_from_db (asset_to_db a) = a.
Proof. by destruct a. Qed.
Lemma asset_to_from_db a : asset_to_db (asset_from_db a) = a.
Proof. by destruct a. Qed.

Definition AssetType_index (a : AssetType) : nat :=
  match a with
  | AssetType_USDC => 0 | AssetType_USDT => 1 | AssetType_SOL => 2
  | AssetType_ETH => 3 | AssetType_BTC => 4 | AssetType_PERP => 5
  | AssetType_HYP => 6
  end%nat.
Definition AssetType_of_index (n : nat) : AssetType :=
  match n with
  | 0 => AssetType_USDC | 1 => AssetType_USDT | 2 => AssetType_SOL
  | 3 => AssetType_ETH | 4 => AssetType_BTC | 5 => AssetType_PERP
  | _ => AssetType_HYP
  end%nat.
#[export] Instance AssetType_countable : Countable AssetType.
Proof.
  apply (inj_countable' AssetType_index AssetType_of_index). by intros [].
Defined.

(** ** Rows *)

Record BalanceSnapshot := mkBalanceSnapshot { bs_total : Z; bs_locked : Z }.
#[export] Instance BalanceSnapshot_eq_dec : EqDecision BalanceSnapshot.
Proof. solve_decision. Defined.

Definition available (self : BalanceSnapshot) : Z :=
  i64_wrap (bs_total self - bs_locked self).

Record ReservationRecord := mkReservationRecord {
  rec_reservation_id : string;
  rec_user_id : Z;
  rec_asset : Asset;
  rec_amount : Z;
  rec_remaining : Z;
  rec_status : string
}.

(** A row of [wallet_reservations], without its key [reservation_id]. *)
Record ReservationRow := mkReservationRow {
  row_user_id : Z;
  row_asset : AssetType;
  row_amount : Z;
  row_remaining : Z;
  row_status : string;
  row_idempotency_key : string;
  row_request_id : string
}.

Section WithSerde.
Context {SD : Serde}.

Record NewWalletOutboxMessage := mkNewWalletOutboxMessage {
  new_dedupe_key : string;
  new_topic : string;
  new_partition : option Z;
  new_message_key : string;
  new_payload_type : string;
  new_payload : Value
}.

(** A row of [wallet_outbox], without its unique key [dedupe_key]. Times are in
    microseconds. *)
Record OutboxRow := mkOutboxRow {
  ob_outbox_id : Z;
  ob_topic : string;
  ob_partition : option Z;
  ob_message_key : string;
  ob_payload_type : string;
  ob_payload : Value;
  ob_status : string;
  ob_attempts : Z;
  ob_next_attempt_at : Z;
  ob_last_error : option string;
  ob_published_partition : option Z;
  ob_published_offset : option Z;
  ob_published_at : option Z;
  ob_created_at : Z;
  ob_updated_at : Z
}.

(** The wallet's database. [users] is the table the foreign keys refer to;
    [outbox_seq] is the next value of the sequence behind [outbox_id]. *)
Record WalletDb := mkWalletDb {
  users : gset Z;
  user_collaterals : gmap (Z * AssetType) BalanceSnapshot;
  wallet_reservations : gmap string ReservationRow;
  wallet_ledger : gmap (Z * AssetType * string * string) Z;
  wallet_idempotency : gmap (Z * string * string) (string * Value);
  wallet_outbox : gmap string OutboxRow;
  outbox_seq : Z;
  wallet_queue_offsets : Offsets
}.

Definition set_collaterals f (db : WalletDb) : WalletDb :=
  mkWalletDb (users db) (f (user_collaterals db)) (wallet_reservations db)
    (wallet_ledger db) (wallet_idempotency db) (wallet_outbox db) (outbox_seq db)
    (wallet_queue_offsets db).
Definition set_reservations f (db : WalletDb) : WalletDb :=
  mkWalletDb (users db) (user_collaterals db) (f (wallet_reservations db))
    (wallet_ledger db) (wallet_idempotency db) (wallet_outbox db) (outbox_seq db)
    (wallet_queue_offsets db).
Definition set_ledger f (db : WalletDb) : WalletDb :=
  mkWalletDb (users db) (user_collaterals db) (wallet_reservations db)
    (f (wallet_ledger db)) (wallet_idempotency db) (wallet_outbox db) (outbox_seq db)
    (wallet_queue_offsets db).
Definition set_idempotency f (db : WalletDb) : WalletDb :=
  mkWalletDb (users db) (user_collaterals db) (wallet_reservations db)
    (wallet_ledger db) (f (wallet_idempotency db)) (wallet_outbox db) (outbox_seq db)
    (wallet_queue_offsets db).
Definition set_outbox f (db : WalletDb) : WalletDb :=
  mkWalletDb (users db) (user_collaterals db) (wallet_reservations db)
    (wallet_ledger db) (wallet_idempotency db) (f (wallet_outbox db)) (outbox_seq db)
    (wallet_queue_offsets db).
Definition set_outbox_seq n (db : WalletDb) : WalletDb :=
  mkWalletDb (users db) (user_collaterals db) (wallet_reservations db)
    (wallet_ledger db) (wallet_idempotency db) (wallet_outbox db) n
    (wallet_queue_offsets db).
Definition set_offsets o (db : WalletDb) : WalletDb :=
  mkWalletDb (users db) (user_collaterals db) (wallet_reservations db)
    (wallet_ledger db) (wallet_idempotency db) (wallet_outbox db) (outbox_seq db) o.

(** A rolled-back transaction keeps the sequence values it drew. *)
#[export] Instance WalletDb_rollback : Rollback WalletDb :=
  fun before after => set_outbox_seq (outbox_seq after) before.

#[export] Instance WalletDb_rollback_laws : RollbackLaws WalletDb.
Proof. by intros [] []. Qed.

(** ** Errors *)

Inductive WalletRepositoryError :=
| WalletRepositoryError_InsufficientFunds (available : Z)
| WalletRepositoryError_IdempotencyConflict
| WalletRepositoryError_ReservationNotFound
| WalletRepositoryError_InvalidReservationState
| WalletRepositoryError_InvalidAccountDelta
| WalletRepositoryError_Storage (error : SqlError)
| WalletRepositoryError_Serialization.

Definition Db (A : Type) : Type := M WalletDb WalletRepositoryError A.

Definition storage {A} (error : SqlError) : Db A :=
  throw (WalletRepositoryError_Storage error).

(** ** Statements on [user_collaterals] *)

(** The column types and the CHECKs: [total >= 0], [locked >= 0],
    [locked <= total]. *)
Definition collateral_ok (b : BalanceSnapshot) : Result SqlError unit :=
  if negb (in_i64b (bs_total b) && in_i64b (bs_locked b)) then Err NumericValueOutOfRange
  else if (0 <=? bs_total b) && (0 <=? bs_locked b) && (bs_locked b <=? bs_total b)
  then Ok tt else Err CheckViolation.

Definition write_collateral (k : Z * AssetType) (b : BalanceSnapshot) : Db BalanceSnapshot :=
  match collateral_ok b with
  | Err e => storage e
  | Ok _ => do* modify (set_collaterals (fun m => <[k := b]> m)) in ret b
  end.

(** [UPDATE user_collaterals SET ... WHERE user_id=$1 AND asset=$2 AND guard
    RETURNING total, locked]: the row updated, if there is one. *)
Definition update_collateral (k : Z * AssetType) (guard : BalanceSnapshot -> bool)
    (set : BalanceSnapshot -> BalanceSnapshot) : Db (option BalanceSnapshot) :=
  let* row := gets (fun db => user_collaterals db !! k) in
  match row with
  | Some b => if guard b then let* b' := write_collateral k (set b) in ret (Some b')
              else ret None
  | None => ret None
  end.

Definition lock_collateral user_id asset (amount : Z) : Db (option BalanceSnapshot) :=
  update_collateral (user_id, asset)
    (fun b => amount <=? bs_total b - bs_locked b)
    (fun b => mkBalanceSnapshot (bs_total b) (bs_locked b + amount)).

Definition debit_available_collateral user_id asset (amount : Z)
    : Db (option BalanceSnapshot) :=
  update_collateral (user_id, asset)
    (fun b => amount <=? bs_total b - bs_locked b)
    (fun b => mkBalanceSnapshot (bs_total b - amount) (bs_locked b)).

Definition unlock_collateral user_id asset (amount : Z) : Db (option BalanceSnapshot) :=
  update_collateral (user_id, asset)
    (fun b => amount <=? bs_locked b)
    (fun b => mkBalanceSnapshot (bs_total b) (bs_locked b - amount)).

Definition debit_locked_collateral user_id asset (amount : Z)
    : Db (option BalanceSnapshot) :=
  update_collateral (user_id, asset)
    (fun b => (amount <=? bs_locked b) && (amount <=? bs_total b))
    (fun b => mkBalanceSnapshot (bs_total b - amount) (bs_locked b - amount)).

Definition check_user (user_id : Z) : Db unit :=
  let* us := gets users in
  if bool_decide (user_id ∈ us) then ret tt else storage ForeignKeyViolation.

(** [INSERT INTO user_collaterals VALUES($1,$2,$3,$4) ON CONFLICT(user_id, asset)
    DO UPDATE SET total=total+EXCLUDED.total, locked=locked+EXCLUDED.locked WHERE
    guard RETURNING total, locked]. The CHECKs apply to the proposed row first,
    also when it conflicts; the foreign key applies to a row that is inserted. *)
Definition upsert_collateral (k : Z * AssetType) (excluded : BalanceSnapshot)
    (guard : BalanceSnapshot -> bool) : Db (option BalanceSnapshot) :=
  let* row := gets (fun db => user_collaterals db !! k) in
  match collateral_ok excluded with
  | Err e => storage e
  | Ok _ =>
      match row with
      | None => do* check_user k.1 in
                let* b := write_collateral k excluded in ret (Some b)
      | Some b =>
          let sum := mkBalanceSnapshot (bs_total b + bs_total excluded)
                       (bs_locked b + bs_locked excluded) in
          if negb (in_i64b (bs_total sum) && in_i64b (bs_locked sum))
          then storage NumericValueOutOfRange
          else if guard sum then let* b' := write_collateral k sum in ret (Some b')
          else ret None
      end
  end.

(** The deposit's upsert, which has no guard and so always returns its row. *)
Definition credit_collateral user_id asset (amount : Z) : Db BalanceSnapshot :=
  let* row := upsert_collateral (user_id, asset) (mkBalanceSnapshot amount 0)
                (fun _ => true) in
  match row with Some b => ret b | None => storage RowNotFound end.

(** The account delta's [INSERT ... SELECT $1,$2,$3,$4 WHERE $3 >= 0 AND $4 >= 0
    AND $4 <= $3 ON CONFLICT ... DO UPDATE ... WHERE ... RETURNING]: the SELECT
    proposes no row at all for a delta outside its guard, so then nothing
    conflicts and nothing is updated. *)
Definition delta_collateral user_id asset (total_delta locked_delta : Z)
    : Db (option BalanceSnapshot) :=
  if (0 <=? total_delta) && (0 <=? locked_delta) && (locked_delta <=? total_delta) then
    upsert_collateral (user_id, asset) (mkBalanceSnapshot total_delta locked_delta)
      (fun b => (0 <=? bs_total b) && (0 <=? bs_locked b) && (bs_locked b <=? bs_total b))
  else ret None.

(** [SELECT total, locked FROM user_collaterals], as [current_available_in_tx]. *)
Definition current_available_in_tx (user_id : Z) (asset : AssetType) : Db Z :=
  let* row := gets (fun db => user_collaterals db !! (user_id, asset)) in
  match row with
  | None => ret 0
  | Some snapshot => ret (available snapshot)
  end.

(** ** Statements on [wallet_reservations] *)

Definition reservation_from_row (reservation_id : string) (row : ReservationRow)
    : ReservationRecord :=
  mkReservationRecord reservation_id (row_user_id row) (asset_from_db (row_asset row))
    (row_amount row) (row_remaining row) (row_status row).

Definition reservation_ok (row : ReservationRow) : Result SqlError unit :=
  if negb (in_i64b (row_amount row) && in_i64b (row_remaining row))
  then Err NumericValueOutOfRange
  else if (0 <? row_amount row) && (0 <=? row_remaining row)
          && (row_remaining row <=? row_amount row)
          && bool_decide (row_status row ∈ ["ACTIVE"; "RELEASED"; "SETTLED"])
  then Ok tt else Err CheckViolation.

(** Some reservation of the user carries this idempotency key. *)
Definition reservation_key_used (user_id : Z) (key : string)
    (m : gmap string ReservationRow) : bool :=
  existsb (fun '(_, r) => (row_user_id r =? user_id)
                          && bool_decide (row_idempotency_key r = key))
    (map_to_list m).

Definition insert_reservation (reservation_id : string) (row : ReservationRow) : Db unit :=
  match reservation_ok row with
  | Err e => storage e
  | Ok _ =>
      let* m := gets wallet_reservations in
      if bool_decide (is_Some (m !! reservation_id))
         || reservation_key_used (row_user_id row) (row_idempotency_key row) m
      then storage UniqueViolation
      else do* check_user (row_user_id row) in
           modify (set_reservations (fun m => <[reservation_id := row]> m))
  end.

(** [SELECT ... FROM wallet_reservations WHERE reservation_id=$1], without FOR UPDATE:
    no lock is held between this read and [update_reservation], which asks nothing
    about the status. Two transactions on one reservation are one after the other
    only as long as one task has both, as it does for the events of a market. *)
Definition reservation_in_tx (reservation_id : string) : Db ReservationRecord :=
  let* row := gets (fun db => wallet_reservations db !! reservation_id) in
  match row with
  | None => throw WalletRepositoryError_ReservationNotFound
  | Some row => ret (reservation_from_row reservation_id row)
  end.

(** [UPDATE wallet_reservations SET remaining=$2, status=$3 WHERE
    reservation_id=$1 RETURNING ...], fetched as exactly one row. *)
Definition update_reservation (reservation_id : string) (remaining : Z) (status : string)
    : Db ReservationRecord :=
  let* row := gets (fun db => wallet_reservations db !! reservation_id) in
  match row with
  | None => storage RowNotFound
  | Some row =>
      let row' := mkReservationRow (row_user_id row) (row_asset row) (row_amount row)
                    remaining status (row_idempotency_key row) (row_request_id row) in
      match reservation_ok row' with
      | Err e => storage e
      | Ok _ => do* modify (set_reservations (fun m => <[reservation_id := row']> m)) in
                ret (reservation_from_row reservation_id row')
      end
  end.

(** ** Statements on [wallet_ledger] *)

Definition insert_ledger_in_tx (user_id : Z) (asset : AssetType) (amount : Z)
    (kind reference_id : string) : Db unit :=
  let* m := gets wallet_ledger in
  if bool_decide (is_Some (m !! (user_id, asset, kind, reference_id)))
  then storage UniqueViolation
  else do* check_user user_id in
       modify (set_ledger (fun m => <[(user_id, asset, kind, reference_id) := amount]> m)).

(** The account delta's [INSERT ... ON CONFLICT DO NOTHING RETURNING ledger_id]:
    whether a row was inserted. *)
Definition insert_ledger_once (user_id : Z) (asset : AssetType) (amount : Z)
    (kind reference_id : string) : Db bool :=
  let* m := gets wallet_ledger in
  if bool_decide (is_Some (m !! (user_id, asset, kind, reference_id)))
  then ret false
  else do* check_user user_id in
       do* modify (set_ledger (fun m => <[(user_id, asset, kind, reference_id) := amount]> m)) in
       ret true.

(** ** Statements on [wallet_idempotency] *)

Definition get_idempotent_reply (user_id : Z) (command_type idempotency_key : string)
    : Db (option Value) :=
  let* row := gets (fun db => wallet_idempotency db !! (user_id, command_type, idempotency_key)) in
  ret (snd <$> row).

Definition record_idempotent_reply_in_tx (user_id : Z)
    (command_type idempotency_key request_id : string) (reply_payload : Value) : Db unit :=
  let k := (user_id, command_type, idempotency_key) in
  let* row := gets (fun db => wallet_idempotency db !! k) in
  match row with
  | Some (_, stored) => modify (set_idempotency (fun m => <[k := (request_id, stored)]> m))
  | None => do* check_user user_id in
            modify (set_idempotency (fun m => <[k := (request_id, reply_payload)]> m))
  end.

(** ** Statements on [wallet_outbox] *)

(** The next value of a BIGSERIAL: drawn by every INSERT, kept by none that
    conflicts. *)
Definition next_outbox_id : Db Z :=
  let* n := gets outbox_seq in
  do* modify (set_outbox_seq (n + 1)) in
  ret n.

Definition new_outbox_row (outbox_id now : Z) (message : NewWalletOutboxMessage) : OutboxRow := {|
  ob_outbox_id := outbox_id;
  ob_topic := new_topic message;
  ob_partition := new_partition message;
  ob_message_key := new_message_key message;
  ob_payload_type := new_payload_type message;
  ob_payload := new_payload message;
  ob_status := "PENDING";
  ob_attempts := 0;
  ob_next_attempt_at := now;
  ob_last_error := None;
  ob_published_partition := None;
  ob_published_offset := None;
  ob_published_at := None;
  ob_created_at := now;
  ob_updated_at := now
|}.

(** [INSERT INTO wallet_outbox ... ON CONFLICT(dedupe_key) DO NOTHING RETURNING
    outbox_id]. *)
Definition insert_outbox (now : Z) (message : NewWalletOutboxMessage) : Db (option Z) :=
  let* outbox_id := next_outbox_id in
  if match new_partition message with Some p => p <? 0 | None => false end
  then storage CheckViolation
  else
    let* row := gets (fun db => wallet_outbox db !! new_dedupe_key message) in
    match row with
    | Some _ => ret None
    | None =>
        do* modify (set_outbox (fun m =>
              <[new_dedupe_key message := new_outbox_row outbox_id now message]> m)) in
        ret (Some outbox_id)
    end.

Definition row_matches (message : NewWalletOutboxMessage) (row : OutboxRow) : bool :=
  bool_decide (ob_topic row = new_topic message)
  && bool_decide (ob_partition row = new_partition message)
  && bool_decide (ob_message_key row = new_message_key message)
  && bool_decide (ob_payload_type row = new_payload_type message)
  && bool_decide (ob_payload row = new_payload message).

Definition outbox_duplicate_matches (message : NewWalletOutboxMessage) : Db bool :=
  let* row := gets (fun db => wallet_outbox db !! new_dedupe_key message) in
  ret (match row with Some row => row_matches message row | None => false end).

Definition enqueue_outbox_messages_in_tx (now : Z) (messages : list NewWalletOutboxMessage)
    : Db unit :=
  for_each messages (fun message =>
    let* inserted := insert_outbox now message in
    match inserted with
    | Some _ => ret tt
    | None =>
        let* matches := outbox_duplicate_matches message in
        if matches then ret tt else throw WalletRepositoryError_IdempotencyConflict
    end).
End WithSerde.
