(* ===== verification/WalletRepository.v ===== *)
(** * WalletRepository: the transactions of the wallet

    The operations of [apps/wallet/src/repository.rs] on balances, reservations
    and stored replies, each as the transaction the source runs. [uuid] is the
    value of [Uuid::new_v4()] and [now] that of [NOW()] in the transaction. *)

From S2P Require Import Prelude Protocol Postgres WalletDb.

Section WithSerde.
Context {SD : Serde}.

(** [NewWalletOutboxMessage::json] *)
Definition json (dedupe_key topic : string) (partition : option Z)
    (message_key payload_type : string) (payload : option Value)
    : Result WalletRepositoryError NewWalletOutboxMessage :=
  let? payload := ok_or WalletRepositoryError_Serialization payload in
  Ok (mkNewWalletOutboxMessage dedupe_key topic partition message_key payload_type payload).

Record AccountDeltaUpdate := mkAccountDeltaUpdate {
  adu_user_id : Z;
  adu_asset : Asset;
  adu_total_delta : Z;
  adu_locked_delta : Z;
  adu_kind : string;
  adu_reference_id : string
}.

(** ** Stored replies *)

Definition record_idempotent_reply (user_id : Z)
    (command_type idempotency_key request_id : string) (reply_payload : Value) : Db unit :=
  transaction
    (record_idempotent_reply_in_tx user_id command_type idempotency_key request_id
       reply_payload).

Definition record_idempotent_reply_with_outbox (now : Z) (user_id : Z)
    (command_type idempotency_key request_id : string) (reply_payload : Value)
    (outbox_messages : list NewWalletOutboxMessage) : Db unit :=
  transaction (
    do* record_idempotent_reply_in_tx user_id command_type idempotency_key request_id
          reply_payload in
    enqueue_outbox_messages_in_tx now outbox_messages).

(** ** Reservations *)

Definition reserve_funds (uuid : string) (user_id : Z)
    (request_id idempotency_key : string) (asset : Asset) (amount : Z) : Db FundsReserved :=
  transaction (
    let db_asset := asset_to_db asset in
    let* balance := lock_collateral user_id db_asset amount in
    match balance with
    | None =>
        let* available := current_available_in_tx user_id db_asset in
        throw (WalletRepositoryError_InsufficientFunds available)
    | Some _ =>
        let reservation_id := "res_" +:+ uuid in
        do* insert_reservation reservation_id
              (mkReservationRow user_id db_asset amount amount "ACTIVE" idempotency_key
                 request_id) in
        ret (mkFundsReserved request_id reservation_id asset amount)
    end).

Definition reserve_funds_with_outbox (uuid : string) (now : Z) (user_id : Z)
    (request_id idempotency_key : string) (asset : Asset) (amount : Z)
    (command_type : string)
    (outbox_builder : FundsReserved ->
       Result WalletRepositoryError (Value * list NewWalletOutboxMessage))
    : Db FundsReserved :=
  transaction (
    let db_asset := asset_to_db asset in
    let* balance := lock_collateral user_id db_asset amount in
    match balance with
    | None =>
        let* available := current_available_in_tx user_id db_asset in
        throw (WalletRepositoryError_InsufficientFunds available)
    | Some _ =>
        let reservation_id := "res_" +:+ uuid in
        do* insert_reservation reservation_id
              (mkReservationRow user_id db_asset amount amount "ACTIVE" idempotency_key
                 request_id) in
        let reserved := mkFundsReserved request_id reservation_id asset amount in
        let* built := lift (outbox_builder reserved) in
        let '(reply_payload, outbox_messages) := built in
        do* record_idempotent_reply_in_tx user_id command_type idempotency_key request_id
              reply_payload in
        do* enqueue_outbox_messages_in_tx now outbox_messages in
        ret reserved
    end).

(** ** Deposits and withdrawals *)

Definition apply_deposit (deposit : Deposit) : Db BalanceUpdated :=
  transaction (
    let db_asset := asset_to_db (dep_asset deposit) in
    let user_id := env_user_id (dep_envelope deposit) in
    let* row := credit_collateral user_id db_asset (dep_amount deposit) in
    do* insert_ledger_in_tx user_id db_asset (dep_amount deposit) "DEPOSIT"
          (dep_reference_id deposit) in
    ret (mkBalanceUpdated (env_request_id (dep_envelope deposit)) (dep_asset deposit)
           (bs_total row) (bs_locked row))).

Definition apply_deposit_with_outbox (now : Z) (deposit : Deposit) (command_type : string)
    (outbox_builder : BalanceUpdated ->
       Result WalletRepositoryError (Value * list NewWalletOutboxMessage))
    : Db BalanceUpdated :=
  transaction (
    let db_asset := asset_to_db (dep_asset deposit) in
    let user_id := env_user_id (dep_envelope deposit) in
    let* row := credit_collateral user_id db_asset (dep_amount deposit) in
    do* insert_ledger_in_tx user_id db_asset (dep_amount deposit) "DEPOSIT"
          (dep_reference_id deposit) in
    let balance := mkBalanceUpdated (env_request_id (dep_envelope deposit))
                     (dep_asset deposit) (bs_total row) (bs_locked row) in
    let* built := lift (outbox_builder balance) in
    let '(reply_payload, outbox_messages) := built in
    do* record_idempotent_reply_in_tx user_id command_type
          (env_idempotency_key (dep_envelope deposit))
          (env_request_id (dep_envelope deposit)) reply_payload in
    do* enqueue_outbox_messages_in_tx now outbox_messages in
    ret balance).

Definition apply_withdraw (withdraw : Withdraw) : Db BalanceUpdated :=
  transaction (
    let db_asset := asset_to_db (wdr_asset withdraw) in
    let user_id := env_user_id (wdr_envelope withdraw) in
    let* row := debit_available_collateral user_id db_asset (wdr_amount withdraw) in
    match row with
    | None =>
        let* available := current_available_in_tx user_id db_asset in
        throw (WalletRepositoryError_InsufficientFunds available)
    | Some row =>
        do* insert_ledger_in_tx user_id db_asset (i64_wrap (- wdr_amount withdraw))
              "WITHDRAW" (env_idempotency_key (wdr_envelope withdraw)) in
        ret (mkBalanceUpdated (env_request_id (wdr_envelope withdraw)) (wdr_asset withdraw)
               (bs_total row) (bs_locked row))
    end).

Definition apply_withdraw_with_outbox (now : Z) (withdraw : Withdraw)
    (command_type : string)
    (outbox_builder : BalanceUpdated ->
       Result WalletRepositoryError (Value * list NewWalletOutboxMessage))
    : Db BalanceUpdated :=
  transaction (
    let db_asset := asset_to_db (wdr_asset withdraw) in
    let user_id := env_user_id (wdr_envelope withdraw) in
    let* row := debit_available_collateral user_id db_asset (wdr_amount withdraw) in
    match row with
    | None =>
        let* available := current_available_in_tx user_id db_asset in
        throw (WalletRepositoryError_InsufficientFunds available)
    | Some row =>
        do* insert_ledger_in_tx user_id db_asset (i64_wrap (- wdr_amount withdraw))
              "WITHDRAW" (env_idempotency_key (wdr_envelope withdraw)) in
        let balance := mkBalanceUpdated (env_request_id (wdr_envelope withdraw))
                         (wdr_asset withdraw) (bs_total row) (bs_locked row) in
        let* built := lift (outbox_builder balance) in
        let '(reply_payload, outbox_messages) := built in
        do* record_idempotent_reply_in_tx user_id command_type
              (env_idempotency_key (wdr_envelope withdraw))
              (env_request_id (wdr_envelope withdraw)) reply_payload in
        do* enqueue_outbox_messages_in_tx now outbox_messages in
        ret balance
    end).

(** ** Releases *)

Definition release_reservation (release : ReleaseReservation) : Db ReservationRecord :=
  transaction (
    let* reservation := reservation_in_tx (rr_reservation_id release) in
    if negb (bool_decide (rec_status reservation = "ACTIVE"))
       || (rr_amount release <=? 0)
       || (rec_remaining reservation <? rr_amount release)
    then throw WalletRepositoryError_InvalidReservationState
    else
      let db_asset := asset_to_db (rec_asset reservation) in
      do* unlock_collateral (rec_user_id reservation) db_asset (rr_amount release) in
      let remaining := i64_wrap (rec_remaining reservation - rr_amount release) in
      let status := if remaining =? 0 then "RELEASED" else "ACTIVE" in
      update_reservation (rr_reservation_id release) remaining status).

Definition release_reservation_with_outbox (now : Z) (release : ReleaseReservation)
    (outbox_builder : ReservationRecord ->
       Result WalletRepositoryError (list NewWalletOutboxMessage))
    : Db ReservationRecord :=
  transaction (
    let* reservation := reservation_in_tx (rr_reservation_id release) in
    if negb (bool_decide (rec_status reservation = "ACTIVE"))
       || (rr_amount release <=? 0)
       || (rec_remaining reservation <? rr_amount release)
    then throw WalletRepositoryError_InvalidReservationState
    else
      let db_asset := asset_to_db (rec_asset reservation) in
      do* unlock_collateral (rec_user_id reservation) db_asset (rr_amount release) in
      let remaining := i64_wrap (rec_remaining reservation - rr_amount release) in
      let status := if remaining =? 0 then "RELEASED" else "ACTIVE" in
      let* updated := update_reservation (rr_reservation_id release) remaining status in
      let* outbox_messages := lift (outbox_builder updated) in
      do* enqueue_outbox_messages_in_tx now outbox_messages in
      ret updated).

(** ** Settlements *)

Inductive SettlementCollateralEffect :=
| UnlockReservedOnly (amount : Z)
| TransferDebitToCredit (debit_amount credit_amount : Z).

Definition is_same_asset_reservation_consumption (settle : SettleTrade) : bool :=
  bool_decide (st_debit_asset settle = st_credit_asset settle)
  && (st_debit_amount settle =? st_credit_amount settle).

Definition settlement_collateral_effect (settle : SettleTrade) : SettlementCollateralEffect :=
  if is_same_asset_reservation_consumption settle
  then UnlockReservedOnly (st_debit_amount settle)
  else TransferDebitToCredit (st_debit_amount settle) (st_credit_amount settle).

(** The [match] on the effect, common to both settlement transactions. *)
Definition apply_settlement_effect (user_id : Z) (debit_asset credit_asset : AssetType)
    (effect : SettlementCollateralEffect) : Db unit :=
  match effect with
  | UnlockReservedOnly amount =>
      do* unlock_collateral user_id debit_asset amount in ret tt
  | TransferDebitToCredit debit_amount credit_amount =>
      do* debit_locked_collateral user_id debit_asset debit_amount in
      do* credit_collateral user_id credit_asset credit_amount in
      ret tt
  end.

Definition settle_trade (settle : SettleTrade) : Db ReservationRecord :=
  transaction (
    let* reservation := reservation_in_tx (st_reservation_id settle) in
    if negb (bool_decide (rec_status reservation = "ACTIVE"))
       || negb (bool_decide (rec_asset reservation = st_debit_asset settle))
       || (st_debit_amount settle <=? 0)
       || (rec_remaining reservation <? st_debit_amount settle)
    then throw WalletRepositoryError_InvalidReservationState
    else
      let debit_asset := asset_to_db (st_debit_asset settle) in
      let credit_asset := asset_to_db (st_credit_asset settle) in
      do* apply_settlement_effect (rec_user_id reservation) debit_asset credit_asset
            (settlement_collateral_effect settle) in
      let reference_id := to_string (st_fill_id settle) in
      do* insert_ledger_in_tx (rec_user_id reservation) debit_asset
            (i64_wrap (- st_debit_amount settle)) "TRADE_DEBIT" reference_id in
      do* insert_ledger_in_tx (rec_user_id reservation) credit_asset
            (st_credit_amount settle) "TRADE_CREDIT" reference_id in
      let remaining := i64_wrap (rec_remaining reservation - st_debit_amount settle) in
      let status := if remaining =? 0 then "SETTLED" else "ACTIVE" in
      update_reservation (st_reservation_id settle) remaining status).

Definition settle_trade_with_outbox (now : Z) (settle : SettleTrade)
    (outbox_builder : ReservationRecord ->
       Result WalletRepositoryError (list NewWalletOutboxMessage))
    : Db ReservationRecord :=
  transaction (
    let* reservation := reservation_in_tx (st_reservation_id settle) in
    if negb (bool_decide (rec_status reservation = "ACTIVE"))
       || negb (bool_decide (rec_asset reservation = st_debit_asset settle))
       || (st_debit_amount settle <=? 0)
       || (rec_remaining reservation <? st_debit_amount settle)
    then throw WalletRepositoryError_InvalidReservationState
    else
      let debit_asset := asset_to_db (st_debit_asset settle) in
      let credit_asset := asset_to_db (st_credit_asset settle) in
      do* apply_settlement_effect (rec_user_id reservation) debit_asset credit_asset
            (settlement_collateral_effect settle) in
      let reference_id := to_string (st_fill_id settle) in
      do* insert_ledger_in_tx (rec_user_id reservation) debit_asset
            (i64_wrap (- st_debit_amount settle)) "TRADE_DEBIT" reference_id in
      do* insert_ledger_in_tx (rec_user_id reservation) credit_asset
            (st_credit_amount settle) "TRADE_CREDIT" reference_id in
      let remaining := i64_wrap (rec_remaining reservation - st_debit_amount settle) in
      let status := if remaining =? 0 then "SETTLED" else "ACTIVE" in
      let* updated := update_reservation (st_reservation_id settle) remaining status in
      let* outbox_messages := lift (outbox_builder updated) in
      do* enqueue_outbox_messages_in_tx now outbox_messages in
      ret updated).

(** ** Account deltas *)

Definition apply_account_delta (delta : AccountDeltaUpdate) : Db (option BalanceSnapshot) :=
  if (adu_total_delta delta =? 0) && (adu_locked_delta delta =? 0) then ret None
  else transaction (
    let db_asset := asset_to_db (adu_asset delta) in
    let* inserted := insert_ledger_once (adu_user_id delta) db_asset
                       (adu_total_delta delta) (adu_kind delta) (adu_reference_id delta) in
    if negb inserted then ret None
    else
      let* balance := delta_collateral (adu_user_id delta) db_asset
                        (adu_total_delta delta) (adu_locked_delta delta) in
      match balance with
      | None => throw WalletRepositoryError_InvalidAccountDelta
      | Some balance => ret (Some balance)
      end).

Definition apply_account_delta_with_outbox (now : Z) (delta : AccountDeltaUpdate)
    (outbox_builder : BalanceSnapshot ->
       Result WalletRepositoryError (list NewWalletOutboxMessage))
    : Db (option BalanceSnapshot) :=
  if (adu_total_delta delta =? 0) && (adu_locked_delta delta =? 0) then ret None
  else transaction (
    let db_asset := asset_to_db (adu_asset delta) in
    let* inserted := insert_ledger_once (adu_user_id delta) db_asset
                       (adu_total_delta delta) (adu_kind delta) (adu_reference_id delta) in
    if negb inserted then ret None
    else
      let* balance := delta_collateral (adu_user_id delta) db_asset
                        (adu_total_delta delta) (adu_locked_delta delta) in
      match balance with
      | None => throw WalletRepositoryError_InvalidAccountDelta
      | Some snapshot =>
          let* outbox_messages := lift (outbox_builder snapshot) in
          do* enqueue_outbox_messages_in_tx now outbox_messages in
          ret (Some snapshot)
      end).

(** ** Replies for insufficient funds, and the queue offsets *)

Definition insufficient_funds_reply (request_id : string) (asset : Asset)
    (required available : Z) : InsufficientFunds :=
  mkInsufficientFunds request_id asset required available.

Definition load_queue_offset (topic : string) (partition : Z) : Db (option Z) :=
  gets (fun db => wallet_queue_offsets db !! (topic, partition)).

Definition save_queue_offset (topic : string) (partition next_offset : Z) : Db unit :=
  let* t := gets wallet_queue_offsets in
  match upsert_offset topic partition next_offset t with
  | Ok t' => modify (set_offsets t')
  | Err e => storage e
  end.
End WithSerde.
