(* ===== verification/WalletProcessor.v ===== *)
(** * WalletProcessor: the wallet's commands

    [apps/wallet/src/router.rs], [engine_inputs.rs] and [processor.rs]: how a
    command is routed, which transaction it runs, which replies, wallet events
    and engine inputs it returns, and which outbox messages it stores. *)

From S2P Require Import Prelude Protocol Postgres WalletDb WalletRepository.

(** ** Routing: [router.rs] *)

Inductive WalletAction :=
| WalletAction_ReserveAndForward (intent : PlaceOrderIntent)
| WalletAction_ForwardCancel (intent : CancelOrderIntent)
| WalletAction_ApplyDeposit (deposit : Deposit)
| WalletAction_ApplyWithdrawal (withdraw : Withdraw)
| WalletAction_ReleaseReservation (release : ReleaseReservation)
| WalletAction_SettleTrade (settle : SettleTrade).

Definition route_command (command : WalletCommand) : WalletAction :=
  match command with
  | WalletCommand_PlaceOrderIntent intent => WalletAction_ReserveAndForward intent
  | WalletCommand_CancelOrderIntent intent => WalletAction_ForwardCancel intent
  | WalletCommand_Deposit deposit => WalletAction_ApplyDeposit deposit
  | WalletCommand_Withdraw withdraw => WalletAction_ApplyWithdrawal withdraw
  | WalletCommand_ReleaseReservation release => WalletAction_ReleaseReservation release
  | WalletCommand_SettleTrade settle => WalletAction_SettleTrade settle
  end.

(** ** Engine inputs: [engine_inputs.rs] *)

Definition engine_input_market_id (input : EngineCommand) : Z :=
  match input with
  | EngineCommand_PlaceOrder command => rpo_market_id command
  | EngineCommand_CancelOrder command => co_market_id command
  | EngineCommand_LiquidatePosition command => lp_market_id command
  | EngineCommand_MarkPriceUpdated command => mpi_market_id command
  | EngineCommand_FundingRateUpdated command => fri_market_id command
  | EngineCommand_FundingSettlementTick command => fst_market_id command
  end.

Definition engine_input_key (input : EngineCommand) : string :=
  to_string (engine_input_market_id input).

Record EngineInputPublication := mkEngineInputPublication {
  eip_key : string;
  eip_input : EngineCommand
}.

Definition EngineInputPublication_new (input : EngineCommand) : EngineInputPublication :=
  mkEngineInputPublication (engine_input_key input) input.
Definition mark_price_updated (input : MarkPriceUpdatedInput) : EngineInputPublication :=
  EngineInputPublication_new (EngineCommand_MarkPriceUpdated input).
Definition funding_rate_updated (input : FundingRateUpdatedInput) : EngineInputPublication :=
  EngineInputPublication_new (EngineCommand_FundingRateUpdated input).
Definition funding_settlement_tick (input : FundingSettlementTickInput) : EngineInputPublication :=
  EngineInputPublication_new (EngineCommand_FundingSettlementTick input).

(** ** Results and engine commands of the wallet: [processor.rs] *)

Record WalletProcessResult := mkWalletProcessResult {
  wallet_replies : list WalletReply;
  wallet_events : list WalletEvent;
  engine_inputs : list EngineCommand
}.

Record ApplyAccountDelta := mkApplyAccountDelta {
  apd_user_id : Z;
  apd_asset : Asset;
  apd_total_delta : Z;
  apd_locked_delta : Z;
  apd_kind : string;
  apd_reference_id : string
}.

Inductive EngineWalletCommand :=
| EngineWalletCommand_ReleaseReservation (release : ReleaseReservation)
| EngineWalletCommand_SettleTrade (settle : SettleTrade)
| EngineWalletCommand_ApplyAccountDelta (delta : ApplyAccountDelta).

(** The processor's topics; its repository is the database state. *)
Record WalletProcessor := mkWalletProcessor {
  wallet_events_topic : string;
  engine_input_topic : string
}.

Definition WalletProcessor_new : WalletProcessor :=
  mkWalletProcessor WALLET_EVENTS_TOPIC ENGINE_INPUT_TOPIC.

(** What one call draws from outside the program: [Uuid::new_v4()] and
    [NOW()]. *)
Record Draw := mkDraw { draw_uuid : string; draw_now : Z }.

Definition reply_with_request_id (reply : WalletReply) (request_id : string) : WalletReply :=
  match reply with
  | WalletReply_FundsReserved r =>
      WalletReply_FundsReserved
        (mkFundsReserved request_id (fr_reservation_id r) (fr_asset r) (fr_amount r))
  | WalletReply_InsufficientFunds r =>
      WalletReply_InsufficientFunds
        (mkInsufficientFunds request_id (inf_asset r) (inf_required r) (inf_available r))
  | WalletReply_BalanceUpdated r =>
      WalletReply_BalanceUpdated
        (mkBalanceUpdated request_id (bu_asset r) (bu_total r) (bu_locked r))
  | WalletReply_CommandAccepted r => WalletReply_CommandAccepted (mkCommandAccepted request_id)
  | WalletReply_CommandRejected r =>
      WalletReply_CommandRejected (mkCommandRejected request_id (cr_reason r))
  end.

Definition reply_result (reply : WalletReply) : WalletProcessResult :=
  mkWalletProcessResult [reply] [] [].

(** *** The events of the processor *)

Definition funds_reserved_event (event_id : string) (intent : PlaceOrderIntent)
    (reserved : FundsReserved) : WalletEvent :=
  WalletEvent_FundsReserved {|
    wfr_event_id := Some event_id;
    wfr_request_id := fr_request_id reserved;
    wfr_user_id := env_user_id (poi_envelope intent);
    wfr_reservation_id := fr_reservation_id reserved;
    wfr_asset := fr_asset reserved;
    wfr_amount := fr_amount reserved |}.

Definition deposit_applied_event (event_id : string) (deposit : Deposit)
    (balance : BalanceUpdated) : WalletEvent :=
  WalletEvent_DepositApplied {|
    wda_event_id := Some event_id;
    wda_request_id := bu_request_id balance;
    wda_user_id := env_user_id (dep_envelope deposit);
    wda_asset := bu_asset balance;
    wda_amount := dep_amount deposit;
    wda_reference_id := dep_reference_id deposit;
    wda_total := bu_total balance;
    wda_locked := bu_locked balance |}.

Definition withdrawal_applied_event (event_id : string) (withdraw : Withdraw)
    (balance : BalanceUpdated) : WalletEvent :=
  WalletEvent_WithdrawalApplied {|
    wwa_event_id := Some event_id;
    wwa_request_id := bu_request_id balance;
    wwa_user_id := env_user_id (wdr_envelope withdraw);
    wwa_asset := bu_asset balance;
    wwa_amount := wdr_amount withdraw;
    wwa_destination := wdr_destination withdraw;
    wwa_total := bu_total balance;
    wwa_locked := bu_locked balance |}.

Definition funds_released_event (event_id : string) (release : ReleaseReservation)
    (reservation : ReservationRecord) : WalletEvent :=
  WalletEvent_FundsReleased {|
    wfl_event_id := Some event_id;
    wfl_user_id := rec_user_id reservation;
    wfl_reservation_id := rec_reservation_id reservation;
    wfl_asset := rec_asset reservation;
    wfl_amount := rr_amount release;
    wfl_reason := rr_reason release |}.

Definition trade_settled_event (event_id : string) (settle : SettleTrade)
    (reservation : ReservationRecord) : WalletEvent :=
  WalletEvent_TradeSettled {|
    wts_event_id := Some event_id;
    wts_user_id := rec_user_id reservation;
    wts_fill_id := st_fill_id settle;
    wts_reservation_id := rec_reservation_id reservation;
    wts_debit_asset := st_debit_asset settle;
    wts_debit_amount := st_debit_amount settle;
    wts_credit_asset := st_credit_asset settle;
    wts_credit_amount := st_credit_amount settle |}.

Definition account_delta_applied_event (event_id : string) (delta : ApplyAccountDelta)
    (balance : BalanceSnapshot) : WalletEvent :=
  WalletEvent_AccountDeltaApplied {|
    wad_event_id := Some event_id;
    wad_user_id := apd_user_id delta;
    wad_asset := apd_asset delta;
    wad_total_delta := apd_total_delta delta;
    wad_locked_delta := apd_locked_delta delta;
    wad_kind := apd_kind delta;
    wad_reference_id := apd_reference_id delta;
    wad_total := bs_total balance;
    wad_locked := bs_locked balance |}.

(** [format!("{:?}", asset)] *)
Definition asset_debug (asset : Asset) : string :=
  match asset with
  | Asset_USDC => "USDC" | Asset_USDT => "USDT" | Asset_SOL => "SOL" | Asset_ETH => "ETH"
  | Asset_BTC => "BTC" | Asset_PERP => "PERP" | Asset_HYP => "HYP"
  end.

(** *** Deduplication keys *)

Definition deposit_dedupe_key (deposit : Deposit) : string :=
  "wallet-event:deposit-applied:" +:+ to_string (env_user_id (dep_envelope deposit))
  +:+ ":" +:+ env_idempotency_key (dep_envelope deposit).

Definition withdrawal_dedupe_key (withdraw : Withdraw) : string :=
  "wallet-event:withdrawal-applied:" +:+ to_string (env_user_id (wdr_envelope withdraw))
  +:+ ":" +:+ env_idempotency_key (wdr_envelope withdraw).

Definition funds_reserved_dedupe_key (reservation_id : string) : string :=
  "wallet-event:funds-reserved:" +:+ reservation_id.

Definition funds_released_dedupe_key (release : ReleaseReservation) : string :=
  "wallet-event:funds-released:" +:+ rr_reservation_id release +:+ ":"
  +:+ rr_reason release +:+ ":" +:+ to_string (rr_amount release).

Definition trade_settled_dedupe_key (settle : SettleTrade) : string :=
  "wallet-event:trade-settled:" +:+ to_string (st_fill_id settle)
  +:+ ":" +:+ st_reservation_id settle.

Definition account_delta_dedupe_key (delta : ApplyAccountDelta) : string :=
  "wallet-event:account-delta-applied:" +:+ apd_kind delta +:+ ":"
  +:+ apd_reference_id delta +:+ ":" +:+ to_string (apd_user_id delta)
  +:+ ":" +:+ asset_debug (apd_asset delta).

Definition place_order_dedupe_key (envelope : CommandEnvelope) : string :=
  "engine-input:place-order:" +:+ to_string (env_user_id envelope)
  +:+ ":" +:+ env_idempotency_key envelope.

Definition cancel_order_dedupe_key (envelope : CommandEnvelope) : string :=
  "engine-input:cancel-order:" +:+ to_string (env_user_id envelope)
  +:+ ":" +:+ env_idempotency_key envelope.

Definition storage_error_reply (request_id reason : string) : WalletReply :=
  WalletReply_CommandRejected (mkCommandRejected request_id reason).

Section WithSerde.
Context {SD : Serde}.

(** ** Outbox messages and stored replies *)

Definition engine_command_outbox_message (topic dedupe_key : string)
    (command : EngineCommand) : Result WalletRepositoryError NewWalletOutboxMessage :=
  let publication := EngineInputPublication_new command in
  json dedupe_key topic None (eip_key publication) "EngineCommand"
    (engine_command_to_value (eip_input publication)).

Definition wallet_event_outbox_message (topic dedupe_key message_key : string)
    (event : WalletEvent) : Result WalletRepositoryError NewWalletOutboxMessage :=
  json dedupe_key topic None message_key "WalletEvent" (wallet_event_to_value event).

(** [serde_json::to_value(reply)?] *)
Definition reply_value (reply : WalletReply) : Result WalletRepositoryError Value :=
  ok_or WalletRepositoryError_Serialization (reply_to_value reply).

Definition existing_reply (existing : option Value) (request_id : string)
    : Result WalletRepositoryError (option WalletReply) :=
  match existing with
  | None => Ok None
  | Some v =>
      let? reply := ok_or WalletRepositoryError_Serialization (reply_from_value v) in
      Ok (Some (reply_with_request_id reply request_id))
  end.

Definition record_reply (user_id : Z) (command_type idempotency_key request_id : string)
    (reply : WalletReply) : Db unit :=
  let* v := lift (reply_value reply) in
  record_idempotent_reply user_id command_type idempotency_key request_id v.

(** A transaction refused for lack of funds is an answer, not an error. *)
Definition catch_insufficient {A} (m : Db A) : Db (A + Z) :=
  fun db => match m db with
            | (Ok a, db') => (Ok (inl a), db')
            | (Err (WalletRepositoryError_InsufficientFunds available), db') =>
                (Ok (inr available), db')
            | (Err e, db') => (Err e, db')
            end.

(** ** Handlers *)

Section Handlers.
Variable self : WalletProcessor.
Variable d : Draw.

Definition reserve_and_forward (intent : PlaceOrderIntent) : Db WalletProcessResult :=
  let envelope := poi_envelope intent in
  let user_id := env_user_id envelope in
  let* existing := get_idempotent_reply user_id "PlaceOrderIntent"
                     (env_idempotency_key envelope) in
  let* reply := lift (existing_reply existing (env_request_id envelope)) in
  match reply with
  | Some reply => ret (reply_result reply)
  | None =>
      let wallet_key := to_string user_id in
      let* outcome := catch_insufficient (
        reserve_funds_with_outbox (draw_uuid d) (draw_now d) user_id
          (env_request_id envelope) (env_idempotency_key envelope)
          (poi_margin_asset intent) (poi_required_margin intent) "PlaceOrderIntent"
          (fun reserved =>
             let reply := WalletReply_FundsReserved reserved in
             let wallet_event_id := funds_reserved_dedupe_key (fr_reservation_id reserved) in
             let event := funds_reserved_event wallet_event_id intent reserved in
             let engine_command :=
               EngineCommand_PlaceOrder
                 (into_reserved_order intent (fr_reservation_id reserved)) in
             let? wallet_outbox := wallet_event_outbox_message (wallet_events_topic self)
                                     wallet_event_id wallet_key event in
             let? engine_outbox := engine_command_outbox_message (engine_input_topic self)
                                     (place_order_dedupe_key envelope) engine_command in
             let? v := reply_value reply in
             Ok (v, [wallet_outbox; engine_outbox]))) in
      match outcome with
      | inr available =>
          let reply := WalletReply_InsufficientFunds
                         (insufficient_funds_reply (env_request_id envelope)
                            (poi_margin_asset intent) (poi_required_margin intent)
                            available) in
          do* record_reply user_id "PlaceOrderIntent" (env_idempotency_key envelope)
                (env_request_id envelope) reply in
          ret (reply_result reply)
      | inl reserved =>
          let reply := WalletReply_FundsReserved reserved in
          let event := funds_reserved_event
                         (funds_reserved_dedupe_key (fr_reservation_id reserved))
                         intent reserved in
          let engine_command :=
            EngineCommand_PlaceOrder
              (into_reserved_order intent (fr_reservation_id reserved)) in
          ret (mkWalletProcessResult [reply] [event] [engine_command])
      end
  end.

Definition forward_cancel (intent : CancelOrderIntent) : Db WalletProcessResult :=
  let envelope := coi_envelope intent in
  let user_id := env_user_id envelope in
  let* existing := get_idempotent_reply user_id "CancelOrderIntent"
                     (env_idempotency_key envelope) in
  let* reply := lift (existing_reply existing (env_request_id envelope)) in
  match reply with
  | Some reply => ret (reply_result reply)
  | None =>
      let reply := WalletReply_CommandAccepted
                     (mkCommandAccepted (env_request_id envelope)) in
      let engine_command := EngineCommand_CancelOrder (into_engine_cancel_order intent) in
      let* engine_outbox := lift (engine_command_outbox_message (engine_input_topic self)
                                    (cancel_order_dedupe_key envelope) engine_command) in
      let* v := lift (reply_value reply) in
      do* record_idempotent_reply_with_outbox (draw_now d) user_id "CancelOrderIntent"
            (env_idempotency_key envelope) (env_request_id envelope) v [engine_outbox] in
      ret (mkWalletProcessResult [reply] [] [engine_command])
  end.

Definition process_deposit (deposit : Deposit) : Db WalletProcessResult :=
  let envelope := dep_envelope deposit in
  let user_id := env_user_id envelope in
  let* existing := get_idempotent_reply user_id "Deposit" (env_idempotency_key envelope) in
  let* reply := lift (existing_reply existing (env_request_id envelope)) in
  match reply with
  | Some reply => ret (reply_result reply)
  | None =>
      let wallet_key := to_string user_id in
      let dedupe_key := deposit_dedupe_key deposit in
      let* balance := apply_deposit_with_outbox (draw_now d) deposit "Deposit"
        (fun balance =>
           let reply := WalletReply_BalanceUpdated balance in
           let event := deposit_applied_event dedupe_key deposit balance in
           let? outbox := wallet_event_outbox_message (wallet_events_topic self)
                            dedupe_key wallet_key event in
           let? v := reply_value reply in
           Ok (v, [outbox])) in
      let reply := WalletReply_BalanceUpdated balance in
      let event := deposit_applied_event dedupe_key deposit balance in
      ret (mkWalletProcessResult [reply] [event] [])
  end.

Definition process_withdrawal (withdraw : Withdraw) : Db WalletProcessResult :=
  let envelope := wdr_envelope withdraw in
  let user_id := env_user_id envelope in
  let* existing := get_idempotent_reply user_id "Withdraw" (env_idempotency_key envelope) in
  let* reply := lift (existing_reply existing (env_request_id envelope)) in
  match reply with
  | Some reply => ret (reply_result reply)
  | None =>
      let wallet_key := to_string user_id in
      let dedupe_key := withdrawal_dedupe_key withdraw in
      let* outcome := catch_insufficient (
        apply_withdraw_with_outbox (draw_now d) withdraw "Withdraw"
          (fun balance =>
             let reply := WalletReply_BalanceUpdated balance in
             let event := withdrawal_applied_event dedupe_key withdraw balance in
             let? outbox := wallet_event_outbox_message (wallet_events_topic self)
                              dedupe_key wallet_key event in
             let? v := reply_value reply in
             Ok (v, [outbox]))) in
      match outcome with
      | inr available =>
          let reply := WalletReply_InsufficientFunds
                         (mkInsufficientFunds (env_request_id envelope) (wdr_asset withdraw)
                            (wdr_amount withdraw) available) in
          do* record_reply user_id "Withdraw" (env_idempotency_key envelope)
                (env_request_id envelope) reply in
          ret (reply_result reply)
      | inl balance =>
          let reply := WalletReply_BalanceUpdated balance in
          let event := withdrawal_applied_event dedupe_key withdraw balance in
          ret (mkWalletProcessResult [reply] [event] [])
      end
  end.

Definition process_release_reservation (release : ReleaseReservation)
    : Db WalletProcessResult :=
  let dedupe_key := funds_released_dedupe_key release in
  let* reservation := release_reservation_with_outbox (draw_now d) release
    (fun reservation =>
       let event := funds_released_event dedupe_key release reservation in
       let? outbox := wallet_event_outbox_message (wallet_events_topic self) dedupe_key
                        (rec_reservation_id reservation) event in
       Ok [outbox]) in
  let event := funds_released_event dedupe_key release reservation in
  ret (mkWalletProcessResult [] [event] []).

Definition process_settle_trade (settle : SettleTrade) : Db WalletProcessResult :=
  let dedupe_key := trade_settled_dedupe_key settle in
  let* reservation := settle_trade_with_outbox (draw_now d) settle
    (fun reservation =>
       let event := trade_settled_event dedupe_key settle reservation in
       let? outbox := wallet_event_outbox_message (wallet_events_topic self) dedupe_key
                        (rec_reservation_id reservation) event in
       Ok [outbox]) in
  let event := trade_settled_event dedupe_key settle reservation in
  ret (mkWalletProcessResult [] [event] []).

Definition process_account_delta (delta : ApplyAccountDelta) : Db WalletProcessResult :=
  let update := mkAccountDeltaUpdate (apd_user_id delta) (apd_asset delta)
                  (apd_total_delta delta) (apd_locked_delta delta) (apd_kind delta)
                  (apd_reference_id delta) in
  let dedupe_key := account_delta_dedupe_key delta in
  let* balance := apply_account_delta_with_outbox (draw_now d) update
    (fun balance =>
       let event := account_delta_applied_event dedupe_key delta balance in
       let? outbox := wallet_event_outbox_message (wallet_events_topic self) dedupe_key
                        (to_string (apd_user_id delta)) event in
       Ok [outbox]) in
  match balance with
  | None => ret (mkWalletProcessResult [] [] [])
  | Some balance =>
      let event := account_delta_applied_event dedupe_key delta balance in
      ret (mkWalletProcessResult [] [event] [])
  end.

(** [WalletProcessor::process_command] *)
Definition process_command (command : WalletCommand) : Db WalletProcessResult :=
  match route_command command with
  | WalletAction_ReserveAndForward intent => reserve_and_forward intent
  | WalletAction_ForwardCancel intent => forward_cancel intent
  | WalletAction_ApplyDeposit deposit => process_deposit deposit
  | WalletAction_ApplyWithdrawal withdraw => process_withdrawal withdraw
  | WalletAction_ReleaseReservation release => process_release_reservation release
  | WalletAction_SettleTrade settle => process_settle_trade settle
  end.

(** [WalletProcessor::process_engine_command] *)
Definition process_engine_command (command : EngineWalletCommand) : Db WalletProcessResult :=
  match command with
  | EngineWalletCommand_ReleaseReservation release => process_release_reservation release
  | EngineWalletCommand_SettleTrade settle => process_settle_trade settle
  | EngineWalletCommand_ApplyAccountDelta delta => process_account_delta delta
  end.
End Handlers.
End WithSerde.
