(* ===== verification/WalletSpec.v ===== *)
(** * WalletSpec: what the wallet promises

    The books of the wallet (balances, reservations, ledger), the effect each
    wallet event stands for, as a step relation on books, and the invariants
    every step keeps. [WalletRefinement] shows that the processor's handlers
    take exactly these steps. *)

From S2P Require Import Prelude Protocol Postgres WalletDb.

Record Books := mkBooks {
  bk_users : gset Z;
  bk_coll : gmap (Z * AssetType) BalanceSnapshot;
  bk_res : gmap string ReservationRow;
  bk_ledger : gmap (Z * AssetType * string * string) Z
}.

Definition books `{!Serde} (db : WalletDb) : Books :=
  mkBooks (users db) (user_collaterals db) (wallet_reservations db) (wallet_ledger db).

(** ** Quantities *)

Definition balance_at (bk : Books) (k : Z * AssetType) : BalanceSnapshot :=
  default (mkBalanceSnapshot 0 0) (bk_coll bk !! k).
Definition total_at (bk : Books) k : Z := bs_total (balance_at bk k).
Definition locked_at (bk : Books) k : Z := bs_locked (balance_at bk k).

Definition reserved_by (k : Z * AssetType) (rid : string) (r : ReservationRow) : Z :=
  if decide ((row_user_id r, row_asset r) = k) then row_remaining r else 0.
(** What the reservations of an account still hold. *)
Definition reserved_at (bk : Books) k : Z := map_sum (reserved_by k) (bk_res bk).

Definition entered_by (k : Z * AssetType) (entry : Z * AssetType * string * string)
    (amount : Z) : Z :=
  if decide (entry.1.1 = k) then amount else 0.
(** What the ledger entries of an account add up to. *)
Definition entered_at (bk : Books) k : Z := map_sum (entered_by k) (bk_ledger bk).

(** ** Invariants *)

Definition balance_wf (b : BalanceSnapshot) : Prop :=
  0 <= bs_locked b /\ bs_locked b <= bs_total b /\ bs_total b <= i64_max.

Definition reservation_wf (r : ReservationRow) : Prop :=
  0 < row_amount r <= i64_max /\ 0 <= row_remaining r <= row_amount r /\
  (row_status r = "ACTIVE" /\ 0 < row_remaining r \/
   (row_status r = "RELEASED" \/ row_status r = "SETTLED") /\ row_remaining r = 0).

Record books_wf (bk : Books) : Prop := {
  wf_balance k b : bk_coll bk !! k = Some b -> balance_wf b /\ k.1 ∈ bk_users bk;
  wf_reservation rid r : bk_res bk !! rid = Some r ->
    reservation_wf r /\ row_user_id r ∈ bk_users bk
}.

(** What an account has locked without a reservation of the same user and asset:
    the locked part of the deltas the engine had applied. *)
Definition unreserved_at (bk : Books) k : Z := locked_at bk k - reserved_at bk k.

(** Every reservation is backed by locked funds of its user and asset. *)
Definition books_backed (bk : Books) : Prop := forall k, 0 <= unreserved_at bk k.

(** Every total is the sum of the account's ledger entries. *)
Definition books_conserved (bk : Books) : Prop := forall k, total_at bk k = entered_at bk k.

Record books_ok (bk : Books) : Prop := {
  ok_wf : books_wf bk;
  ok_backed : books_backed bk;
  ok_conserved : books_conserved bk
}.

(** ** Steps *)

Definition with_balance k b (bk : Books) : Books :=
  mkBooks (bk_users bk) (<[k := b]> (bk_coll bk)) (bk_res bk) (bk_ledger bk).
Definition with_reservation rid r (bk : Books) : Books :=
  mkBooks (bk_users bk) (bk_coll bk) (<[rid := r]> (bk_res bk)) (bk_ledger bk).
Definition with_entry e (amount : Z) (bk : Books) : Books :=
  mkBooks (bk_users bk) (bk_coll bk) (bk_res bk) (<[e := amount]> (bk_ledger bk)).

(** A part of the reservation used up, closed with [closed] when none is left. *)
Definition reservation_less (r : ReservationRow) (amount : Z) (closed : string)
    : ReservationRow :=
  mkReservationRow (row_user_id r) (row_asset r) (row_amount r)
    (row_remaining r - amount)
    (if row_remaining r - amount =? 0 then closed else "ACTIVE")
    (row_idempotency_key r) (row_request_id r).

(** A settlement either unlocks what it consumes, when it debits and credits the
    same amount of one asset, or moves the debit out of the locked balance and
    the credit into the free one. *)
Inductive settle_balances : Z -> Asset -> Z -> Asset -> Z -> Books -> Books -> Prop :=
| settle_unlock user asset amount bk b :
    bk_coll bk !! (user, asset_to_db asset) = Some b -> amount <= bs_locked b ->
    settle_balances user asset amount asset amount bk
      (with_balance (user, asset_to_db asset)
         (mkBalanceSnapshot (bs_total b) (bs_locked b - amount)) bk)
| settle_transfer user debit_asset debit credit_asset credit bk b total locked :
    ~ (debit_asset = credit_asset /\ debit = credit) ->
    let k := (user, asset_to_db debit_asset) in
    let k' := (user, asset_to_db credit_asset) in
    bk_coll bk !! k = Some b -> debit <= bs_locked b ->
    let bk1 := with_balance k
                 (mkBalanceSnapshot (bs_total b - debit) (bs_locked b - debit)) bk in
    0 <= credit -> total = total_at bk1 k' + credit -> total <= i64_max ->
    locked = locked_at bk1 k' ->
    settle_balances user debit_asset debit credit_asset credit bk
      (with_balance k' (mkBalanceSnapshot total locked) bk1).

Inductive book_step : Books -> WalletEvent -> Books -> Prop :=
| step_reserve bk id rq user rid asset amount key b :
    bk_coll bk !! (user, asset_to_db asset) = Some b ->
    0 < amount <= bs_total b - bs_locked b ->
    user ∈ bk_users bk ->
    bk_res bk !! rid = None ->
    book_step bk
      (WalletEvent_FundsReserved (mkWalletFundsReserved id rq user rid asset amount))
      (with_reservation rid
         (mkReservationRow user (asset_to_db asset) amount amount "ACTIVE" key rq)
         (with_balance (user, asset_to_db asset)
            (mkBalanceSnapshot (bs_total b) (bs_locked b + amount)) bk))
| step_deposit bk id rq user asset amount ref total locked :
    let k := (user, asset_to_db asset) in
    user ∈ bk_users bk ->
    0 <= amount -> total = total_at bk k + amount -> total <= i64_max ->
    locked = locked_at bk k ->
    bk_ledger bk !! (user, asset_to_db asset, "DEPOSIT", ref) = None ->
    book_step bk
      (WalletEvent_DepositApplied
         (mkWalletDepositApplied id rq user asset amount ref total locked))
      (with_entry (user, asset_to_db asset, "DEPOSIT", ref) amount
         (with_balance k (mkBalanceSnapshot total locked) bk))
| step_withdraw bk id rq user asset amount dest key total locked :
    let k := (user, asset_to_db asset) in
    is_Some (bk_coll bk !! k) ->
    amount <= total_at bk k - locked_at bk k ->
    total = total_at bk k - amount -> total <= i64_max ->
    locked = locked_at bk k ->
    bk_ledger bk !! (user, asset_to_db asset, "WITHDRAW", key) = None ->
    book_step bk
      (WalletEvent_WithdrawalApplied
         (mkWalletWithdrawalApplied id rq user asset amount dest total locked))
      (with_entry (user, asset_to_db asset, "WITHDRAW", key) (- amount)
         (with_balance k (mkBalanceSnapshot total locked) bk))
| step_release bk id rid r b amount reason :
    let k := (row_user_id r, row_asset r) in
    bk_res bk !! rid = Some r -> row_status r = "ACTIVE" ->
    0 < amount <= row_remaining r ->
    bk_coll bk !! k = Some b -> amount <= bs_locked b ->
    book_step bk
      (WalletEvent_FundsReleased
         (mkWalletFundsReleased id (row_user_id r) rid (asset_from_db (row_asset r))
            amount reason))
      (with_reservation rid (reservation_less r amount "RELEASED")
         (with_balance k (mkBalanceSnapshot (bs_total b) (bs_locked b - amount)) bk))
| step_settle bk bk1 id fill rid r debit_asset debit credit_asset credit :
    let user := row_user_id r in
    let ref := to_string fill in
    bk_res bk !! rid = Some r -> row_status r = "ACTIVE" ->
    row_asset r = asset_to_db debit_asset ->
    0 < debit <= row_remaining r ->
    settle_balances user debit_asset debit credit_asset credit bk bk1 ->
    bk_ledger bk !! (user, asset_to_db debit_asset, "TRADE_DEBIT", ref) = None ->
    bk_ledger bk !! (user, asset_to_db credit_asset, "TRADE_CREDIT", ref) = None ->
    book_step bk
      (WalletEvent_TradeSettled
         (mkWalletTradeSettled id user fill rid debit_asset debit credit_asset credit))
      (with_reservation rid (reservation_less r debit "SETTLED")
         (with_entry (user, asset_to_db credit_asset, "TRADE_CREDIT", ref) credit
            (with_entry (user, asset_to_db debit_asset, "TRADE_DEBIT", ref) (- debit) bk1)))
| step_delta bk id user asset dt dl kind ref total locked :
    let k := (user, asset_to_db asset) in
    user ∈ bk_users bk ->
    0 <= dl <= dt -> ~ (dt = 0 /\ dl = 0) ->
    total = total_at bk k + dt -> locked = locked_at bk k + dl -> total <= i64_max ->
    bk_ledger bk !! (user, asset_to_db asset, kind, ref) = None ->
    book_step bk
      (WalletEvent_AccountDeltaApplied
         (mkWalletAccountDeltaApplied id user asset dt dl kind ref total locked))
      (with_entry (user, asset_to_db asset, kind, ref) dt
         (with_balance k (mkBalanceSnapshot total locked) bk)).

Inductive book_steps : Books -> list WalletEvent -> Books -> Prop :=
| steps_nil bk : book_steps bk [] bk
| steps_cons bk e bk1 es bk2 :
    book_step bk e bk1 -> book_steps bk1 es bk2 -> book_steps bk (e :: es) bk2.

(** ** How the quantities change *)

Section Quantities.
Implicit Types (bk : Books) (k : Z * AssetType).

Lemma balance_at_lookup bk k b : bk_coll bk !! k = Some b -> balance_at bk k = b.
Proof. unfold balance_at. by intros ->. Qed.

Lemma balance_at_with_balance k b bk k' :
  balance_at (with_balance k b bk) k' = if decide (k = k') then b else balance_at bk k'.
Proof.
  unfold balance_at, with_balance; cbn. case_decide as Hk; [subst k'|].
  - by rewrite lookup_insert_eq.
  - by rewrite lookup_insert_ne.
Qed.

Lemma reserved_at_fresh rid r bk k :
  bk_res bk !! rid = None ->
  reserved_at (with_reservation rid r bk) k = reserved_by k rid r + reserved_at bk k.
Proof. apply map_sum_insert_fresh. Qed.

Lemma reserved_at_replace rid r r' bk k :
  bk_res bk !! rid = Some r ->
  reserved_at (with_reservation rid r' bk) k
  = reserved_at bk k - reserved_by k rid r + reserved_by k rid r'.
Proof. apply map_sum_insert. Qed.

Lemma entered_at_fresh e amount bk k :
  bk_ledger bk !! e = None ->
  entered_at (with_entry e amount bk) k = entered_by k e amount + entered_at bk k.
Proof. apply map_sum_insert_fresh. Qed.

Lemma balance_at_wf bk k : books_wf bk -> balance_wf (balance_at bk k).
Proof.
  intros [Hb _]. unfold balance_at. destruct (bk_coll bk !! k) eqn:E; cbn.
  - by apply Hb in E as [? _].
  - unfold balance_wf; cbn; unfold i64_max; lia.
Qed.

Lemma books_wf_with_balance k b bk :
  books_wf bk -> balance_wf b -> k.1 ∈ bk_users bk -> books_wf (with_balance k b bk).
Proof.
  intros [Hb Hr] ??. split; cbn; [|done].
  intros k' b' [[<- <-]|[??]]%lookup_insert_Some; eauto.
Qed.

Lemma books_wf_with_reservation rid r bk :
  books_wf bk -> reservation_wf r -> row_user_id r ∈ bk_users bk ->
  books_wf (with_reservation rid r bk).
Proof.
  intros [Hb Hr] ??. split; cbn; [done|].
  intros rid' r' [[<- <-]|[??]]%lookup_insert_Some; eauto.
Qed.

Lemma books_wf_with_entry e amount bk : books_wf bk -> books_wf (with_entry e amount bk).
Proof. intros [Hb Hr]. by split. Qed.

Lemma reservation_less_wf r amount closed :
  reservation_wf r -> closed = "RELEASED" \/ closed = "SETTLED" ->
  0 < amount <= row_remaining r ->
  reservation_wf (reservation_less r amount closed).
Proof.
  intros (? & ? & _) Hc ?. unfold reservation_wf, reservation_less; cbn.
  split; [done|]. split; [lia|]. case_if; [right|left]; (split; [done|lia]).
Qed.

Lemma reserved_by_less k rid r amount closed :
  reserved_by k rid (reservation_less r amount closed)
  = reserved_by k rid r - if decide ((row_user_id r, row_asset r) = k) then amount else 0.
Proof. unfold reserved_by, reservation_less; cbn. case_decide; lia. Qed.
End Quantities.

(** ** Every step keeps the invariants *)

Lemma settle_balances_frame user da debit ca credit bk bk1 :
  settle_balances user da debit ca credit bk bk1 ->
  bk_users bk1 = bk_users bk /\ bk_res bk1 = bk_res bk /\ bk_ledger bk1 = bk_ledger bk.
Proof. by intros []. Qed.

Lemma settle_balances_wf user da debit ca credit bk bk1 :
  settle_balances user da debit ca credit bk bk1 -> 0 < debit ->
  user ∈ bk_users bk -> books_wf bk -> books_wf bk1.
Proof.
  intros Hs Hd Hu Hwf. destruct Hs as [user a amount bk b Hb Hle|].
  - apply books_wf_with_balance; [done| |done].
    destruct (wf_balance _ Hwf _ _ Hb) as [(?&?&?) _]. unfold balance_wf; cbn; lia.
  - assert (books_wf bk1) as Hwf1.
    { apply books_wf_with_balance; [done| |done].
      destruct (wf_balance _ Hwf _ _ H0) as [(?&?&?) _]. unfold balance_wf; cbn; lia. }
    apply books_wf_with_balance; [done| |done].
    destruct (balance_at_wf _ k' Hwf1) as (?&?&?).
    unfold balance_wf, total_at, locked_at in *; cbn; lia.
Qed.

(** What a settlement does to the balance of each account. *)
Lemma settle_balances_at user da debit ca credit bk bk1 k :
  settle_balances user da debit ca credit bk bk1 ->
  total_at bk1 k = total_at bk k
    - (if decide ((user, asset_to_db da) = k) then debit else 0)
    + (if decide ((user, asset_to_db ca) = k) then credit else 0) /\
  locked_at bk1 k = locked_at bk k
    - (if decide ((user, asset_to_db da) = k) then debit else 0).
Proof.
  intros [user' a amount bk' b Hb Hle|user' da' debit' ca' credit' bk' b total locked
          Hne k0 k0' Hb Hle bk1' Hc -> Ht ->]; unfold total_at, locked_at.
  - rewrite balance_at_with_balance. case_decide; [subst|by split; lia].
    rewrite (balance_at_lookup _ _ _ Hb); cbn. lia.
  - rewrite balance_at_with_balance. unfold total_at, locked_at, bk1'.
    rewrite !balance_at_with_balance. fold k0 k0'.
    apply balance_at_lookup in Hb. clearbody k0 k0'. subst b.
    repeat case_decide; subst; cbn; try (split; lia); congruence.
Qed.

Lemma book_step_wf bk e bk' : book_step bk e bk' -> books_wf bk -> books_wf bk'.
Proof.
  intros Hs Hwf. destruct Hs.
  - destruct (wf_balance _ Hwf _ _ H) as [(?&?&?) _].
    apply books_wf_with_reservation; [|unfold reservation_wf; cbn; lia || idtac|done].
    + apply books_wf_with_balance; [done|unfold balance_wf; cbn; lia|done].
    + split; [lia|]. split; [lia|]. left. split; [done|lia].
  - destruct (balance_at_wf _ k Hwf) as (?&?&?). unfold total_at, locked_at in *.
    apply books_wf_with_entry, books_wf_with_balance; [done| |done].
    unfold balance_wf; cbn; lia.
  - destruct H as [b Hb]. destruct (wf_balance _ Hwf _ _ Hb) as [(?&?&?) ?].
    unfold total_at, locked_at in *. rewrite (balance_at_lookup _ _ _ Hb) in *.
    apply books_wf_with_entry, books_wf_with_balance; [done| |done].
    unfold balance_wf; cbn; lia.
  - destruct (wf_balance _ Hwf _ _ H2) as [(?&?&?) ?].
    destruct (wf_reservation _ Hwf _ _ H) as [Hr ?].
    apply books_wf_with_reservation; [|by apply reservation_less_wf; auto|done].
    apply books_wf_with_balance; [done|unfold balance_wf; cbn; lia|done].
  - destruct (wf_reservation _ Hwf _ _ H) as [Hr ?].
    pose proof (settle_balances_frame _ _ _ _ _ _ _ H3) as (Hu & _ & _).
    apply books_wf_with_reservation;
      [|by apply reservation_less_wf; auto|by cbn; rewrite Hu].
    apply books_wf_with_entry, books_wf_with_entry.
    apply (settle_balances_wf _ _ _ _ _ _ _ H3); auto; lia.
  - destruct (balance_at_wf _ k Hwf) as (?&?&?). unfold total_at, locked_at in *.
    apply books_wf_with_entry, books_wf_with_balance; [done| |done].
    unfold balance_wf; cbn; lia.
Qed.

(** What an event locks in account [k] without a reservation. *)
Definition locks_directly (k : Z * AssetType) (e : WalletEvent) : Z :=
  match e with
  | WalletEvent_AccountDeltaApplied d =>
      if decide ((wad_user_id d, asset_to_db (wad_asset d)) = k)
      then wad_locked_delta d else 0
  | _ => 0
  end.

(** The locked part of the account deltas among [es] that are of account [k]. *)
Definition locked_directly (k : Z * AssetType) (es : list WalletEvent) : Z :=
  foldr (fun e acc => locks_directly k e + acc) 0 es.

Lemma locked_at_with_reservation rid r bk k :
  locked_at (with_reservation rid r bk) k = locked_at bk k.
Proof. done. Qed.
Lemma locked_at_with_entry e amount bk k :
  locked_at (with_entry e amount bk) k = locked_at bk k.
Proof. done. Qed.
Lemma locked_at_with_balance k b bk k' :
  locked_at (with_balance k b bk) k' = if decide (k = k') then bs_locked b else locked_at bk k'.
Proof. unfold locked_at. rewrite balance_at_with_balance. by case_decide. Qed.
Lemma total_at_with_balance k b bk k' :
  total_at (with_balance k b bk) k' = if decide (k = k') then bs_total b else total_at bk k'.
Proof. unfold total_at. rewrite balance_at_with_balance. by case_decide. Qed.

(** Only a delta changes what is locked without a reservation, and only by its
    locked part: reserving locks, and releasing and settling unlock, what the
    reservation gains or loses. *)
Lemma book_step_unreserved bk e bk' k :
  book_step bk e bk' -> unreserved_at bk' k = unreserved_at bk k + locks_directly k e.
Proof.
  rename k into k'. intros Hs. unfold unreserved_at.
  destruct Hs; cbn [locks_directly wad_user_id wad_asset wad_locked_delta];
    rewrite ?locked_at_with_reservation, ?locked_at_with_entry, ?locked_at_with_balance.
  - rewrite reserved_at_fresh by done. unfold reserved_by at 1; cbn.
    change (reserved_at (with_balance _ _ bk) k') with (reserved_at bk k').
    case_decide; [subst|lia]. unfold locked_at in *.
    rewrite (balance_at_lookup _ _ _ H) in *. lia.
  - change (reserved_at _ k') with (reserved_at bk k').
    case_decide; [subst; cbn; lia|lia].
  - change (reserved_at _ k') with (reserved_at bk k').
    case_decide; [subst; cbn; lia|lia].
  - rewrite (reserved_at_replace _ r) by done. rewrite reserved_by_less. fold k.
    change (reserved_at (with_balance _ _ bk) k') with (reserved_at bk k').
    case_decide; [subst k'; unfold locked_at in *;
      rewrite (balance_at_lookup _ _ _ H2) in *; cbn; lia|lia].
  - pose proof (settle_balances_frame _ _ _ _ _ _ _ H3) as (_ & Hr & _).
    destruct (settle_balances_at _ _ _ _ _ _ _ k' H3) as [_ ->].
    rewrite (reserved_at_replace _ r) by (cbn; by rewrite Hr).
    rewrite reserved_by_less, <- H1. fold user.
    replace (reserved_at _ k') with (reserved_at bk k')
      by (unfold reserved_at; cbn; by rewrite Hr). lia.
  - change (reserved_at _ k') with (reserved_at bk k'). fold k.
    case_decide; [subst; cbn; lia|lia].
Qed.

Lemma book_step_locks_nonneg bk e bk' k : book_step bk e bk' -> 0 <= locks_directly k e.
Proof. intros []; cbn; try done. case_decide; lia. Qed.

Lemma book_step_backed bk e bk' : book_step bk e bk' -> books_backed bk -> books_backed bk'.
Proof.
  intros Hs Hb k. rewrite (book_step_unreserved _ _ _ k Hs).
  pose proof (book_step_locks_nonneg _ _ _ k Hs). specialize (Hb k). lia.
Qed.

Lemma total_at_with_reservation rid r bk k :
  total_at (with_reservation rid r bk) k = total_at bk k.
Proof. done. Qed.
Lemma total_at_with_entry e amount bk k : total_at (with_entry e amount bk) k = total_at bk k.
Proof. done. Qed.
Lemma entered_at_with_balance k b bk k' : entered_at (with_balance k b bk) k' = entered_at bk k'.
Proof. done. Qed.
Lemma entered_at_with_reservation rid r bk k :
  entered_at (with_reservation rid r bk) k = entered_at bk k.
Proof. done. Qed.

Lemma book_step_conserved bk e bk' :
  book_step bk e bk' -> books_conserved bk -> books_conserved bk'.
Proof.
  intros Hs Hc k'. specialize (Hc k').
  destruct Hs; rewrite ?total_at_with_reservation, ?entered_at_with_reservation,
    ?total_at_with_entry.
  - rewrite entered_at_with_balance, total_at_with_balance.
    case_decide; [subst|done]. unfold total_at in *.
    by rewrite (balance_at_lookup _ _ _ H) in *.
  - rewrite entered_at_fresh by done. unfold entered_by at 1; cbn.
    rewrite entered_at_with_balance, total_at_with_balance. fold k.
    case_decide; [subst; cbn|]; lia.
  - rewrite entered_at_fresh by done. unfold entered_by at 1; cbn.
    rewrite entered_at_with_balance, total_at_with_balance. fold k.
    case_decide; [subst; cbn|]; lia.
  - rewrite entered_at_with_balance, total_at_with_balance.
    case_decide; [subst k'; cbn|done]. unfold total_at in *.
    by rewrite (balance_at_lookup _ _ _ H2) in *.
  - pose proof (settle_balances_frame _ _ _ _ _ _ _ H3) as (_ & _ & Hl).
    destruct (settle_balances_at _ _ _ _ _ _ _ k' H3) as [-> _].
    rewrite !entered_at_fresh by
      (cbn; rewrite ?Hl, ?lookup_insert_ne by congruence; done).
    unfold entered_by at 1 2; cbn.
    replace (entered_at bk1 k') with (entered_at bk k')
      by (unfold entered_at; by rewrite Hl).
    repeat case_decide; lia.
  - rewrite entered_at_fresh by done. unfold entered_by at 1; cbn.
    rewrite entered_at_with_balance, total_at_with_balance. fold k.
    case_decide; [subst; cbn|]; lia.
Qed.

Lemma book_step_ok bk e bk' : book_step bk e bk' -> books_ok bk -> books_ok bk'.
Proof.
  intros Hs [Hw Hb Hc]. split.
  - by eapply book_step_wf.
  - by eapply book_step_backed.
  - by eapply book_step_conserved.
Qed.

Lemma book_steps_ok bk es bk' : book_steps bk es bk' -> books_ok bk -> books_ok bk'.
Proof. induction 1; eauto using book_step_ok. Qed.

Lemma book_steps_unreserved bk es bk' k :
  book_steps bk es bk' -> unreserved_at bk' k = unreserved_at bk k + locked_directly k es.
Proof.
  unfold locked_directly. induction 1 as [|bk e bk1 es bk2 He _ IH]; cbn; [lia|].
  rewrite IH, (book_step_unreserved _ _ _ k He). lia.
Qed.

Lemma book_steps_app bk es1 bk1 es2 bk2 :
  book_steps bk es1 bk1 -> book_steps bk1 es2 bk2 -> book_steps bk (es1 ++ es2) bk2.
Proof. induction 1; cbn; [done|]. intros. econstructor; eauto. Qed.

Lemma book_steps_single bk e bk' : book_step bk e bk' -> book_steps bk [e] bk'.
Proof. intros. econstructor; [done|constructor]. Qed.
