(* ===== verification/WalletStatements.v ===== *)
(** * WalletStatements: what each statement does when it succeeds

    One inversion lemma for every routine of [WalletDb]: the rows it requires,
    the rows it leaves, and that it touches nothing else. *)

From S2P Require Import Prelude Protocol Postgres WalletDb WalletSpec.

Section WithSerde.
Context {SD : Serde}.
Implicit Types (db : WalletDb).

Lemma collateral_ok_spec b u : collateral_ok b = Ok u <-> balance_wf b.
Proof.
  destruct u. unfold collateral_ok, balance_wf, in_i64b, i64_min, i64_max.
  split.
  - intros H. repeat case_if_in H; try discriminate; lia.
  - intros H. repeat case_if; try done; lia.
Qed.

Lemma write_collateral_ok k b db b' db' :
  write_collateral k b db = (Ok b', db') ->
  b' = b /\ balance_wf b /\ db' = set_collaterals (fun m => <[k := b]> m) db.
Proof.
  unfold write_collateral. intros H. inv_m H.
  split; [done|]. split; [by eapply collateral_ok_spec|done].
Qed.

Lemma update_collateral_ok k guard set db r db' :
  update_collateral k guard set db = (Ok r, db') ->
  (r = None /\ db' = db /\ forall b, user_collaterals db !! k = Some b -> guard b = false) \/
  (exists b, user_collaterals db !! k = Some b /\ guard b = true /\ r = Some (set b) /\
     balance_wf (set b) /\ db' = set_collaterals (fun m => <[k := set b]> m) db).
Proof.
  unfold update_collateral. intros H. inv_m H.
  - apply write_collateral_ok in Hm as (-> & ? & ->). right. eauto 10.
  - left. naive_solver.
  - left. naive_solver.
Qed.

Lemma check_user_ok user db u db' :
  check_user user db = (Ok u, db') -> db' = db /\ user ∈ users db.
Proof. unfold check_user. intros H. inv_m H. by split_bool. Qed.

Definition balance_or_zero (db : WalletDb) k : BalanceSnapshot :=
  default (mkBalanceSnapshot 0 0) (user_collaterals db !! k).

Definition balance_add (b x : BalanceSnapshot) : BalanceSnapshot :=
  mkBalanceSnapshot (bs_total b + bs_total x) (bs_locked b + bs_locked x).

Lemma upsert_collateral_ok k excluded guard db r db' :
  upsert_collateral k excluded guard db = (Ok r, db') ->
  let b' := balance_add (balance_or_zero db k) excluded in
  balance_wf excluded /\
  (r = None /\ db' = db /\ guard b' = false \/
   r = Some b' /\ balance_wf b' /\
   (user_collaterals db !! k = None -> k.1 ∈ users db) /\
   db' = set_collaterals (fun m => <[k := b']> m) db).
Proof.
  unfold upsert_collateral, balance_or_zero, balance_add. intros H. inv_m H; cbn;
    (split; [by eapply collateral_ok_spec|]).
  - apply write_collateral_ok in Hm as (-> & ? & ->). right. cbn in *. by split_and!.
  - left. by split_and!.
  - right. apply check_user_ok in Hm as [-> ?].
    apply write_collateral_ok in Hm0 as (-> & ? & ->). by destruct excluded.
Qed.

Lemma credit_collateral_ok user asset amount db b db' :
  credit_collateral user asset amount db = (Ok b, db') ->
  b = balance_add (balance_or_zero db (user, asset)) (mkBalanceSnapshot amount 0) /\
  0 <= amount /\ balance_wf b /\
  (user_collaterals db !! (user, asset) = None -> user ∈ users db) /\
  db' = set_collaterals (fun m => <[(user, asset) := b]> m) db.
Proof.
  unfold credit_collateral. intros H. inv_m H.
  apply upsert_collateral_ok in Hm as [(Ha & Hb & _) [(_ & _ & ?)|(E & ? & ? & ->)]];
    [done|]. injection E as ->. cbn in *. by split_and!.
Qed.

Lemma insert_reservation_ok rid row db u db' :
  insert_reservation rid row db = (Ok u, db') ->
  wallet_reservations db !! rid = None /\ row_user_id row ∈ users db /\
  0 < row_amount row <= i64_max /\
  db' = set_reservations (fun m => <[rid := row]> m) db.
Proof.
  unfold insert_reservation. intros H. inv_m H.
  apply check_user_ok in Hm as [-> ?]. split_bool.
  split; [by apply eq_None_not_Some|]. split; [done|]. split; [|done].
  match goal with E : reservation_ok _ = Ok _ |- _ => revert E end.
  unfold reservation_ok, in_i64b, i64_min, i64_max. intros E.
  repeat case_if_in E; try discriminate; lia.
Qed.

Lemma reservation_in_tx_ok rid db r db' :
  reservation_in_tx rid db = (Ok r, db') ->
  db' = db /\ exists row, wallet_reservations db !! rid = Some row /\
    r = reservation_from_row rid row.
Proof. unfold reservation_in_tx. intros H. inv_m H. eauto. Qed.

Lemma update_reservation_ok rid remaining status db r db' :
  update_reservation rid remaining status db = (Ok r, db') ->
  exists row, wallet_reservations db !! rid = Some row /\
    let row' := mkReservationRow (row_user_id row) (row_asset row) (row_amount row)
                  remaining status (row_idempotency_key row) (row_request_id row) in
    r = reservation_from_row rid row' /\
    db' = set_reservations (fun m => <[rid := row']> m) db.
Proof. unfold update_reservation. intros H. inv_m H. eauto 10. Qed.

Lemma insert_ledger_in_tx_ok user asset amount kind ref db u db' :
  insert_ledger_in_tx user asset amount kind ref db = (Ok u, db') ->
  wallet_ledger db !! (user, asset, kind, ref) = None /\ user ∈ users db /\
  db' = set_ledger (fun m => <[(user, asset, kind, ref) := amount]> m) db.
Proof.
  unfold insert_ledger_in_tx. intros H. inv_m H.
  apply check_user_ok in Hm as [-> ?]. split_bool.
  split; [by apply eq_None_not_Some|done].
Qed.

Lemma insert_ledger_once_ok user asset amount kind ref db inserted db' :
  insert_ledger_once user asset amount kind ref db = (Ok inserted, db') ->
  (inserted = false /\ db' = db /\
   is_Some (wallet_ledger db !! (user, asset, kind, ref))) \/
  (inserted = true /\ wallet_ledger db !! (user, asset, kind, ref) = None /\
   user ∈ users db /\
   db' = set_ledger (fun m => <[(user, asset, kind, ref) := amount]> m) db).
Proof.
  unfold insert_ledger_once. intros H. inv_m H; split_bool.
  - left. by split_and!.
  - right. apply check_user_ok in Hm as [-> ?].
    split; [done|]. split; [by apply eq_None_not_Some|done].
Qed.

Lemma get_idempotent_reply_ok user ctype key db r db' :
  get_idempotent_reply user ctype key db = (Ok r, db') ->
  db' = db /\ r = snd <$> (wallet_idempotency db !! (user, ctype, key)).
Proof. unfold get_idempotent_reply. intros H. by inv_m H. Qed.

Lemma record_idempotent_reply_in_tx_ok user ctype key request_id v db u db' :
  record_idempotent_reply_in_tx user ctype key request_id v db = (Ok u, db') ->
  let k := (user, ctype, key) in
  db' = set_idempotency (fun m =>
          <[k := (request_id, default v (snd <$> (wallet_idempotency db !! k)))]> m) db.
Proof.
  unfold record_idempotent_reply_in_tx. intros H. inv_m H; cbn.
  - done.
  - by apply check_user_ok in Hm as [-> _].
Qed.

Lemma outbox_duplicate_matches_ok m db r db' :
  outbox_duplicate_matches m db = (Ok r, db') ->
  db' = db /\ r = match wallet_outbox db !! new_dedupe_key m with
                  | Some row => row_matches m row | None => false end.
Proof. unfold outbox_duplicate_matches. intros H. by inv_m H. Qed.
End WithSerde.
