(* ===== verification/WalletRefinement.v ===== *)
(** * WalletRefinement: the wallet's transactions implement its specification

    The [_with_outbox] transactions are the plain ones followed, in the same
    transaction, by the stored reply and the outbox messages; and a transaction
    that succeeds takes exactly the step of [WalletSpec] its event stands for. *)

From S2P Require Import Prelude Protocol Postgres WalletDb WalletRepository WalletProcessor.
From S2P Require Import WalletSpec WalletStatements.

Section WithSerde.
Context {SD : Serde}.
Implicit Types (db : WalletDb).

(** ** The two tails of a transaction *)

Definition finish_with_reply {A} (now user_id : Z)
    (command_type idempotency_key request_id : string)
    (outbox_builder : A -> Result WalletRepositoryError (Value * list NewWalletOutboxMessage))
    (a : A) : Db A :=
  let* built := lift (outbox_builder a) in
  let '(reply_payload, outbox_messages) := built in
  do* record_idempotent_reply_in_tx user_id command_type idempotency_key request_id
        reply_payload in
  do* enqueue_outbox_messages_in_tx now outbox_messages in
  ret a.

Definition finish_with_outbox {A} (now : Z)
    (outbox_builder : A -> Result WalletRepositoryError (list NewWalletOutboxMessage))
    (a : A) : Db A :=
  let* outbox_messages := lift (outbox_builder a) in
  do* enqueue_outbox_messages_in_tx now outbox_messages in
  ret a.

Lemma reserve_funds_with_outbox_eq uuid now user rq key asset amount ctype builder :
  reserve_funds_with_outbox uuid now user rq key asset amount ctype builder ≡
  transaction (bind (reserve_funds uuid user rq key asset amount)
                 (finish_with_reply now user ctype key rq builder)).
Proof.
  unfold reserve_funds_with_outbox, reserve_funds. rewrite transaction_nest.
  apply transaction_proper. cbn zeta. rewrite bind_assoc. apply bind_proper; [done|].
  intros [b|]; by rewrite bind_assoc.
Qed.

Lemma apply_deposit_with_outbox_eq now deposit ctype builder :
  apply_deposit_with_outbox now deposit ctype builder ≡
  transaction (bind (apply_deposit deposit)
                 (finish_with_reply now (env_user_id (dep_envelope deposit)) ctype
                    (env_idempotency_key (dep_envelope deposit))
                    (env_request_id (dep_envelope deposit)) builder)).
Proof.
  unfold apply_deposit_with_outbox, apply_deposit. rewrite transaction_nest.
  apply transaction_proper. cbn zeta. rewrite bind_assoc. apply bind_proper; [done|].
  intros b. by rewrite bind_assoc.
Qed.

Lemma apply_withdraw_with_outbox_eq now withdraw ctype builder :
  apply_withdraw_with_outbox now withdraw ctype builder ≡
  transaction (bind (apply_withdraw withdraw)
                 (finish_with_reply now (env_user_id (wdr_envelope withdraw)) ctype
                    (env_idempotency_key (wdr_envelope withdraw))
                    (env_request_id (wdr_envelope withdraw)) builder)).
Proof.
  unfold apply_withdraw_with_outbox, apply_withdraw. rewrite transaction_nest.
  apply transaction_proper. cbn zeta. rewrite bind_assoc. apply bind_proper; [done|].
  intros [b|]; by rewrite bind_assoc.
Qed.

Lemma release_reservation_with_outbox_eq now release builder :
  release_reservation_with_outbox now release builder ≡
  transaction (bind (release_reservation release) (finish_with_outbox now builder)).
Proof.
  unfold release_reservation_with_outbox, release_reservation. rewrite transaction_nest.
  apply transaction_proper. rewrite bind_assoc. apply bind_proper; [done|].
  intros r. case_match; [done|]. cbn zeta. by rewrite bind_assoc.
Qed.

Lemma settle_trade_with_outbox_eq now settle builder :
  settle_trade_with_outbox now settle builder ≡
  transaction (bind (settle_trade settle) (finish_with_outbox now builder)).
Proof.
  unfold settle_trade_with_outbox, settle_trade. rewrite transaction_nest.
  apply transaction_proper. rewrite bind_assoc. apply bind_proper; [done|].
  intros r. case_match; [done|]. cbn zeta. rewrite !bind_assoc.
  apply bind_proper; [done|]. intros ?. rewrite !bind_assoc.
  apply bind_proper; [done|]. intros ?. by rewrite !bind_assoc.
Qed.

Definition finish_delta (now : Z)
    (outbox_builder : BalanceSnapshot ->
       Result WalletRepositoryError (list NewWalletOutboxMessage))
    (balance : option BalanceSnapshot) : Db (option BalanceSnapshot) :=
  match balance with
  | None => ret None
  | Some b => let* b := finish_with_outbox now outbox_builder b in ret (Some b)
  end.

Lemma apply_account_delta_with_outbox_eq now delta builder :
  apply_account_delta_with_outbox now delta builder ≡
  transaction (bind (apply_account_delta delta) (finish_delta now builder)).
Proof.
  unfold apply_account_delta_with_outbox, apply_account_delta. case_match; [done|].
  rewrite transaction_nest. apply transaction_proper. cbn zeta. rewrite bind_assoc.
  apply bind_proper; [done|]. intros [|]; cbn [negb]; [|done].
  rewrite bind_assoc. apply bind_proper; [done|]. intros [b|]; [|done].
  rewrite bind_ret_l. unfold finish_delta, finish_with_outbox.
  rewrite bind_assoc. apply bind_proper; [done|]. intros ms.
  rewrite bind_assoc. by apply bind_proper.
Qed.

(** ** The tails leave the books alone *)

Lemma insert_outbox_ok now m db r db' :
  insert_outbox now m db = (Ok r, db') ->
  books db' = books db /\ wallet_idempotency db' = wallet_idempotency db /\
  (r = None /\ is_Some (wallet_outbox db !! new_dedupe_key m) /\
     wallet_outbox db' = wallet_outbox db \/
   r = Some (outbox_seq db) /\ wallet_outbox db !! new_dedupe_key m = None /\
     wallet_outbox db' = <[new_dedupe_key m := new_outbox_row (outbox_seq db) now m]>
                           (wallet_outbox db)).
Proof.
  unfold insert_outbox, next_outbox_id. intros H. inv_m H; cbn in *; split_and!; eauto 10.
Qed.

Lemma row_matches_new id now m : row_matches m (new_outbox_row id now m) = true.
Proof. unfold row_matches; cbn. by rewrite !bool_decide_eq_true_2. Qed.

(** After a successful enqueue every message has a matching row, and no row that
    was there has changed. *)
Record enqueued (ms : list NewWalletOutboxMessage) db db' : Prop := {
  enq_books : books db' = books db;
  enq_idempotency : wallet_idempotency db' = wallet_idempotency db;
  enq_stored m : m ∈ ms -> exists row,
    wallet_outbox db' !! new_dedupe_key m = Some row /\ row_matches m row = true;
  enq_old k row : wallet_outbox db !! k = Some row -> wallet_outbox db' !! k = Some row;
  enq_other k : k ∉ new_dedupe_key <$> ms -> wallet_outbox db' !! k = wallet_outbox db !! k
}.

Lemma enqueue_one now m db u db' :
  (let* inserted := insert_outbox now m in
   match inserted with
   | Some _ => ret tt
   | None =>
       let* matches := outbox_duplicate_matches m in
       if matches then ret tt else throw WalletRepositoryError_IdempotencyConflict
   end) db = (Ok u, db') -> enqueued [m] db db'.
Proof.
  intros H. inv_m H; apply insert_outbox_ok in Hm as (Hb & Hi & Hcase).
  - destruct Hcase as [[? _]|(_ & Hnone & Ho)]; [done|]. split; try done.
    + intros m' ->%list_elem_of_singleton. rewrite Ho, lookup_insert_eq.
      eexists; split; [done|]. apply row_matches_new.
    + intros k row Hk. rewrite Ho, lookup_insert_ne; [done|]. by intros <-; simplify_eq.
    + intros k Hk. rewrite Ho, lookup_insert_ne; [done|]. intros <-. apply Hk. by left.
  - destruct Hcase as [(_ & [row Hrow] & Ho)|[? _]]; [|done].
    apply outbox_duplicate_matches_ok in Hm0 as [-> Hmatch]. rewrite Ho, Hrow in Hmatch.
    split; try done; try (by intros; rewrite Ho).
    intros m' ->%list_elem_of_singleton. rewrite Ho. eauto.
Qed.

Lemma enqueue_ok now ms db u db' :
  enqueue_outbox_messages_in_tx now ms db = (Ok u, db') -> enqueued ms db db'.
Proof.
  unfold enqueue_outbox_messages_in_tx. revert db u.
  induction ms as [|m ms IH]; cbn [for_each]; intros db u H.
  - inv_m H. split; try done. by intros m ?%elem_of_nil.
  - apply bind_ok in H as (? & db1 & H1 & H).
    apply enqueue_one in H1. apply IH in H. destruct H1, H. split; try congruence.
    + intros m' [->|?]%elem_of_cons; [|by auto].
      destruct (enq_stored0 m) as (row & ? & ?); [by left|]. eauto.
    + eauto.
    + intros k Hk. rewrite fmap_cons, not_elem_of_cons in Hk. destruct Hk as [??].
      rewrite enq_other1 by done. apply enq_other0.
      by rewrite list_fmap_singleton, list_elem_of_singleton.
Qed.

Definition outbox_extended (ms : list NewWalletOutboxMessage) db db' : Prop :=
  (forall m, m ∈ ms -> exists row,
     wallet_outbox db' !! new_dedupe_key m = Some row /\ row_matches m row = true) /\
  (forall k row, wallet_outbox db !! k = Some row -> wallet_outbox db' !! k = Some row) /\
  (forall k, k ∉ new_dedupe_key <$> ms -> wallet_outbox db' !! k = wallet_outbox db !! k).

Lemma finish_with_reply_ok {A} now user ctype key rq builder (a r : A) db db' :
  finish_with_reply now user ctype key rq builder a db = (Ok r, db') ->
  r = a /\ exists v ms, builder a = Ok (v, ms) /\ books db' = books db /\
    wallet_idempotency db' =
      <[(user, ctype, key) :=
          (rq, default v (snd <$> (wallet_idempotency db !! (user, ctype, key))))]>
        (wallet_idempotency db) /\
    outbox_extended ms db db'.
Proof.
  unfold finish_with_reply. intros H. apply bind_ok in H as ([v ms] & s & Hb & H).
  unfold lift in Hb. injection Hb as Hb <-. inv_m H.
  apply record_idempotent_reply_in_tx_ok in Hm as ->. apply enqueue_ok in Hm0 as [].
  split; [done|]. exists v, ms. split_and!; try done.
Qed.

Lemma finish_with_outbox_ok {A} now builder (a r : A) db db' :
  finish_with_outbox now builder a db = (Ok r, db') ->
  r = a /\ exists ms, builder a = Ok ms /\ books db' = books db /\
    wallet_idempotency db' = wallet_idempotency db /\ outbox_extended ms db db'.
Proof.
  unfold finish_with_outbox. intros H. apply bind_ok in H as (ms & s & Hb & H).
  unfold lift in Hb. injection Hb as Hb <-. inv_m H.
  apply enqueue_ok in Hm as []. split; [done|]. exists ms. by split_and!.
Qed.

(** ** The plain transactions take the steps of the specification *)

(** A transaction on the books leaves the stored replies and the outbox alone. *)
Definition outside_books db db' : Prop :=
  wallet_idempotency db' = wallet_idempotency db /\ wallet_outbox db' = wallet_outbox db.

Lemma reserve_funds_ok uuid user rq key asset amount db r db' id :
  reserve_funds uuid user rq key asset amount db = (Ok r, db') ->
  r = mkFundsReserved rq ("res_" +:+ uuid) asset amount /\
  outside_books db db' /\
  book_step (books db)
    (WalletEvent_FundsReserved
       (mkWalletFundsReserved id rq user ("res_" +:+ uuid) asset amount)) (books db').
Proof.
  unfold reserve_funds. intros H. inv_m H.
  apply insert_reservation_ok in Hm0 as (Hfresh & Hu & Ham & ->); cbn in *.
  apply update_collateral_ok in Hm as [[? _]|(b0 & Hb & Hg & _ & _ & ->)]; [done|].
  split_bool. split; [done|]. split; [done|]. cbn in *.
  apply (step_reserve (books db)); [done|lia|done|done].
Qed.

Lemma apply_deposit_ok deposit db r db' id :
  books_wf (books db) ->
  apply_deposit deposit db = (Ok r, db') ->
  bu_request_id r = env_request_id (dep_envelope deposit) /\
  bu_asset r = dep_asset deposit /\
  outside_books db db' /\
  book_step (books db)
    (WalletEvent_DepositApplied
       (mkWalletDepositApplied id (env_request_id (dep_envelope deposit))
          (env_user_id (dep_envelope deposit)) (dep_asset deposit) (dep_amount deposit)
          (dep_reference_id deposit) (bu_total r) (bu_locked r))) (books db').
Proof.
  unfold apply_deposit. intros Hwf H. inv_m H.
  apply insert_ledger_in_tx_ok in Hm0 as (Hn & Hu & ->).
  apply credit_collateral_ok in Hm as (-> & ? & (? & ? & ?) & _ & ->).
  unfold balance_add in *; cbn in *. rewrite !Z.add_0_r in *. split_and!; try done.
  apply (step_deposit (books db)); done.
Qed.

Lemma apply_withdraw_ok withdraw db r db' id :
  books_wf (books db) ->
  apply_withdraw withdraw db = (Ok r, db') ->
  bu_request_id r = env_request_id (wdr_envelope withdraw) /\
  bu_asset r = wdr_asset withdraw /\
  outside_books db db' /\
  book_step (books db)
    (WalletEvent_WithdrawalApplied
       (mkWalletWithdrawalApplied id (env_request_id (wdr_envelope withdraw))
          (env_user_id (wdr_envelope withdraw)) (wdr_asset withdraw) (wdr_amount withdraw)
          (wdr_destination withdraw) (bu_total r) (bu_locked r))) (books db').
Proof.
  unfold apply_withdraw. intros Hwf H. inv_m H.
  apply insert_ledger_in_tx_ok in Hm0 as (Hn & Hu & ->).
  apply update_collateral_ok in Hm as [[? _]|(b0 & Hb & Hg & Hr & Hw & ->)]; [done|].
  injection Hr as ->. split_bool. destruct Hw as (? & ? & ?).
  destruct (wf_balance _ Hwf _ _ Hb) as [(?&?&?) _]; cbn in *.
  split_and!; try done. rewrite i64_wrap_id by (unfold in_i64, i64_min, i64_max in *; lia).
  pose proof (balance_at_lookup (books db) _ _ Hb) as Hat.
  apply (step_withdraw (books db)); unfold total_at, locked_at; rewrite ?Hat; cbn; eauto; lia.
Qed.

(** The guards of [release_reservation] and [settle_trade]. *)
Lemma reservation_guard (status : string) (c : bool) amount remaining :
  negb (bool_decide (status = "ACTIVE")) || c || (amount <=? 0) || (remaining <? amount)
  = false ->
  status = "ACTIVE" /\ c = false /\ 0 < amount <= remaining.
Proof. intros. split_bool. split_and!; done || lia. Qed.

(** In books that are backed, the balance row a reservation draws on exists and
    holds at least what is left of the reservation. *)
Lemma reservation_funded bk rid r :
  books_wf bk -> books_backed bk -> bk_res bk !! rid = Some r -> 0 < row_remaining r ->
  exists b, bk_coll bk !! (row_user_id r, row_asset r) = Some b /\
            row_remaining r <= bs_locked b.
Proof.
  intros Hwf Hb Hr Hpos. specialize (Hb (row_user_id r, row_asset r)).
  assert (row_remaining r <= reserved_at bk (row_user_id r, row_asset r)) as Hle.
  { unfold reserved_at.
    replace (row_remaining r) with (reserved_by (row_user_id r, row_asset r) rid r)
      by (unfold reserved_by; by rewrite decide_True).
    apply map_sum_ge; [|done]. intros k a Ha. unfold reserved_by.
    apply (wf_reservation _ Hwf) in Ha as [(_ & ? & _) _]. case_decide; lia. }
  unfold unreserved_at, locked_at, balance_at in Hb.
  destruct (bk_coll bk !! _) as [b|]; cbn in Hb; [|lia]. exists b. split; [done|lia].
Qed.

Lemma release_reservation_ok release db r db' id :
  books_wf (books db) -> books_backed (books db) ->
  release_reservation release db = (Ok r, db') ->
  rec_reservation_id r = rr_reservation_id release /\
  outside_books db db' /\
  book_step (books db)
    (WalletEvent_FundsReleased
       (mkWalletFundsReleased id (rec_user_id r) (rr_reservation_id release) (rec_asset r)
          (rr_amount release) (rr_reason release))) (books db').
Proof.
  unfold release_reservation. intros Hwf Hbk H. inv_m H.
  apply reservation_in_tx_ok in Hm as [-> (row & Hrow & ->)].
  assert (rec_status (reservation_from_row (rr_reservation_id release) row) = "ACTIVE" /\
    0 < rr_amount release <= row_remaining row) as [Hst Ham] by (split_bool; cbn in *; split; [done|lia]).
  destruct (wf_reservation _ Hwf _ _ Hrow) as [(Hr1 & Hr2 & _) _].
  destruct (reservation_funded _ _ _ Hwf Hbk Hrow) as (b0 & Hb & Hle); [lia|].
  cbn in *. rewrite asset_to_from_db in *.
  apply update_collateral_ok in Hm0 as [(_ & _ & Hg)|(b1 & Hb1 & _ & _ & Hw & ->)].
  { apply Hg in Hb. split_bool. lia. }
  rewrite i64_wrap_id in H by (unfold in_i64, i64_min, i64_max in *; lia).
  apply update_reservation_ok in H as (row' & Hrow' & -> & ->). cbn in *. simplify_eq.
  split_and!; try done.
  apply (step_release (books db) id (rr_reservation_id release) row); try done. lia.
Qed.

Lemma apply_settlement_effect_ok settle user b db u db' :
  books_wf (books db) ->
  user_collaterals db !! (user, asset_to_db (st_debit_asset settle)) = Some b ->
  st_debit_amount settle <= bs_locked b ->
  apply_settlement_effect user (asset_to_db (st_debit_asset settle))
    (asset_to_db (st_credit_asset settle)) (settlement_collateral_effect settle) db
    = (Ok u, db') ->
  outside_books db db' /\
  settle_balances user (st_debit_asset settle) (st_debit_amount settle)
    (st_credit_asset settle) (st_credit_amount settle) (books db) (books db').
Proof.
  intros Hwf Hb Hle. destruct (wf_balance _ Hwf _ _ Hb) as [(?&?&?) _].
  unfold settlement_collateral_effect, is_same_asset_reservation_consumption.
  case_if; cbn [apply_settlement_effect]; intros Hs.
  - inv_m Hs. apply update_collateral_ok in Hm as
      [(_ & _ & Hg)|(b1 & Hb1 & _ & _ & _ & ->)]; [apply Hg in Hb; split_bool; lia|].
    rewrite Hb1 in Hb. injection Hb as ->. split; [done|].
    replace (st_credit_asset settle) with (st_debit_asset settle) by done.
    replace (st_credit_amount settle) with (st_debit_amount settle) by done.
    by apply (settle_unlock _ _ _ (books db)).
  - inv_m Hs. apply update_collateral_ok in Hm as
      [(_ & _ & Hg)|(b1 & Hb1 & _ & _ & _ & ->)].
    { apply Hg in Hb. apply andb_false_iff in Hb as [?|?]; split_bool; lia. }
    rewrite Hb1 in Hb. injection Hb as ->.
    apply credit_collateral_ok in Hm0 as (-> & ? & (_ & _ & ?) & _ & ->).
    split; [done|]. unfold balance_add in *; cbn in *. rewrite Z.add_0_r in *.
    apply (settle_transfer _ _ _ _ _ (books db) b); try done.
    intros [??]. rewrite bool_decide_eq_true_2, (proj2 (Z.eqb_eq _ _)) in Heqb0 by done.
    done.
Qed.

Lemma settle_trade_ok settle db r db' id :
  books_wf (books db) -> books_backed (books db) ->
  settle_trade settle db = (Ok r, db') ->
  rec_reservation_id r = st_reservation_id settle /\
  outside_books db db' /\
  book_step (books db)
    (WalletEvent_TradeSettled
       (mkWalletTradeSettled id (rec_user_id r) (st_fill_id settle)
          (st_reservation_id settle) (st_debit_asset settle) (st_debit_amount settle)
          (st_credit_asset settle) (st_credit_amount settle))) (books db').
Proof.
  unfold settle_trade. intros Hwf Hbk H. inv_m H.
  apply reservation_in_tx_ok in Hm as [-> (row & Hrow & ->)].
  assert (row_status row = "ACTIVE" /\ row_asset row = asset_to_db (st_debit_asset settle) /\
    0 < st_debit_amount settle <= row_remaining row) as (Hst & Has & Ham).
  { split_bool. cbn in *. split_and!; [done| |lia|lia].
    rewrite <- (asset_to_from_db (row_asset row)). by f_equal. }
  destruct (wf_reservation _ Hwf _ _ Hrow) as [(Hr1 & Hr2 & _) _].
  destruct (reservation_funded _ _ _ Hwf Hbk Hrow) as (b0 & Hb & Hle); [lia|].
  rewrite Has in Hb. cbn [rec_user_id rec_remaining reservation_from_row] in *.
  destruct (apply_settlement_effect_ok _ _ b0 _ _ _ Hwf Hb ltac:(lia) Hm0) as [[Ho1 Ho2] Hs].
  destruct (settle_balances_frame _ _ _ _ _ _ _ Hs) as (Hu & Hres & Hl). cbn in Hu, Hres, Hl.
  apply insert_ledger_in_tx_ok in Hm1 as (Hn1 & _ & ->).
  apply insert_ledger_in_tx_ok in Hm2 as (Hn2 & _ & ->).
  rewrite !i64_wrap_id in * by (unfold in_i64, i64_min, i64_max in *; lia).
  apply update_reservation_ok in H as (row' & Hrow' & -> & ->). cbn in *.
  rewrite Hres, Hrow in Hrow'. injection Hrow' as <-. rewrite Hl in Hn1, Hn2.
  rewrite lookup_insert_ne in Hn2 by congruence.
  split_and!; try done.
  apply (step_settle (books db) (books s0) id (st_fill_id settle)
           (st_reservation_id settle) row); try done.
Qed.

Lemma apply_account_delta_ok delta db r db' id :
  books_wf (books db) ->
  apply_account_delta delta db = (Ok (Some r), db') ->
  outside_books db db' /\
  book_step (books db)
    (WalletEvent_AccountDeltaApplied
       (mkWalletAccountDeltaApplied id (adu_user_id delta) (adu_asset delta)
          (adu_total_delta delta) (adu_locked_delta delta) (adu_kind delta)
          (adu_reference_id delta) (bs_total r) (bs_locked r))) (books db').
Proof.
  unfold apply_account_delta. intros Hwf H. inv_m H.
  apply insert_ledger_once_ok in Hm as [(-> & _)|(-> & Hn & Hu & ->)]; [done|].
  unfold delta_collateral in Hm0. case_if_in Hm0; [|by inv_m Hm0].
  apply upsert_collateral_ok in Hm0 as [_ [(? & _)|(Hr & (?&?&?) & _ & ->)]]; [done|].
  injection Hr as ->. cbn in *. split; [done|].
  apply (step_delta (books db)); try done; try lia.
Qed.

Lemma apply_account_delta_none delta db db' :
  apply_account_delta delta db = (Ok None, db') ->
  db' = db /\
  (adu_total_delta delta = 0 /\ adu_locked_delta delta = 0 \/
   is_Some (wallet_ledger db !! (adu_user_id delta, asset_to_db (adu_asset delta),
                                 adu_kind delta, adu_reference_id delta))).
Proof.
  unfold apply_account_delta. case_if; intros H1.
  - injection H1 as <-. split; [done|]. by left.
  - inv_m H1. apply insert_ledger_once_ok in Hm as [(_ & -> & ?)|(-> & _)]; [|done].
    split; [done|]. by right.
Qed.
End WithSerde.
