(* ===== verification/WalletHandlers.v ===== *)
(** * WalletHandlers: how a handler's run unfolds

    Inversion lemmas for the processor's handlers: a stored reply is answered
    from, a refusal for lack of funds is recorded, and otherwise the
    transaction of the repository decides. *)

From S2P Require Import Prelude Protocol Postgres WalletDb WalletRepository WalletProcessor.
From S2P Require Import WalletSpec WalletStatements WalletRefinement.

Section WithSerde.
Context {SD : Serde}.
Implicit Types (db : WalletDb).

(** The tables agree; only the outbox sequence may have moved on. *)
Definition same_tables db db' : Prop := db' = set_outbox_seq (outbox_seq db') db.

Lemma same_tables_refl db : same_tables db db.
Proof. by destruct db. Qed.
Lemma same_tables_trans db1 db2 db3 :
  same_tables db1 db2 -> same_tables db2 db3 -> same_tables db1 db3.
Proof. unfold same_tables. destruct db1, db2, db3; cbn. intros [=] [=]. by subst. Qed.
Lemma same_tables_books db db' : same_tables db db' -> books db' = books db.
Proof. by intros ->. Qed.

Lemma transaction_err_tables {A} (m : Db A) db e db' :
  transaction m db = (Err e, db') -> same_tables db db'.
Proof. intros (db1 & _ & ->)%transaction_err. by destruct db. Qed.

(** The opening of the four handlers that answer with a stored reply. *)
Definition with_stored_reply user_id ctype key request_id (k : Db WalletProcessResult)
    : Db WalletProcessResult :=
  let* existing := get_idempotent_reply user_id ctype key in
  let* reply := lift (existing_reply existing request_id) in
  match reply with Some reply => ret (reply_result reply) | None => k end.

Definition stored_reply db user_id ctype key : option Value :=
  snd <$> (wallet_idempotency db !! (user_id, ctype, key)).

Lemma with_stored_reply_hit user ctype key rq k db v r :
  stored_reply db user ctype key = Some v -> reply_from_value v = Some r ->
  with_stored_reply user ctype key rq k db
  = (Ok (reply_result (reply_with_request_id r rq)), db).
Proof.
  unfold stored_reply, with_stored_reply, get_idempotent_reply, bind, gets, ret, lift.
  intros -> Hr. cbn. by rewrite Hr.
Qed.

Lemma with_stored_reply_miss user ctype key rq k db :
  stored_reply db user ctype key = None -> with_stored_reply user ctype key rq k db = k db.
Proof.
  unfold stored_reply, with_stored_reply, get_idempotent_reply, bind, gets, ret, lift.
  by intros ->.
Qed.

Lemma with_stored_reply_ok user ctype key rq k db res db' :
  with_stored_reply user ctype key rq k db = (Ok res, db') ->
  (exists v r, stored_reply db user ctype key = Some v /\ reply_from_value v = Some r /\
     res = reply_result (reply_with_request_id r rq) /\ db' = db) \/
  (stored_reply db user ctype key = None /\ k db = (Ok res, db')).
Proof.
  destruct (stored_reply db user ctype key) as [v|] eqn:E.
  - destruct (reply_from_value v) as [r|] eqn:Er.
    + rewrite (with_stored_reply_hit _ _ _ _ _ _ v r) by done. intros [= <- <-].
      left. exists v, r. by split_and!.
    + revert E. unfold stored_reply, with_stored_reply, get_idempotent_reply, bind, gets, ret, lift.
      intros ->. cbn. by rewrite Er.
  - rewrite with_stored_reply_miss by done. by right.
Qed.

Lemma with_stored_reply_err user ctype key rq k db e db' :
  with_stored_reply user ctype key rq k db = (Err e, db') ->
  db' = db \/ (stored_reply db user ctype key = None /\ k db = (Err e, db')).
Proof.
  destruct (stored_reply db user ctype key) as [v|] eqn:E.
  - revert E. unfold stored_reply, with_stored_reply, get_idempotent_reply, bind, gets, ret, lift.
    intros ->. cbn. destruct (reply_from_value v); cbn; [done|]. intros [= _ ->]. by left.
  - rewrite with_stored_reply_miss by done. by right.
Qed.

Lemma catch_insufficient_ok {A} (m : Db A) db r db' :
  catch_insufficient m db = (Ok r, db') ->
  match r with
  | inl a => m db = (Ok a, db')
  | inr n => m db = (Err (WalletRepositoryError_InsufficientFunds n), db')
  end.
Proof. unfold catch_insufficient. repeat case_match; naive_solver. Qed.

Lemma catch_insufficient_err {A} (m : Db A) db e db' :
  catch_insufficient m db = (Err e, db') -> m db = (Err e, db').
Proof. unfold catch_insufficient. repeat case_match; naive_solver. Qed.

Lemma record_reply_ok user ctype key rq reply db u db' :
  record_reply user ctype key rq reply db = (Ok u, db') ->
  exists v, reply_to_value reply = Some v /\
    db' = set_idempotency (fun m =>
            <[(user, ctype, key) := (rq, default v (stored_reply db user ctype key))]> m) db.
Proof.
  unfold record_reply, record_idempotent_reply, reply_value. intros H.
  apply bind_ok in H as (v & s & Hv & H). unfold lift in Hv.
  destruct (reply_to_value reply) as [v'|]; [|done]. injection Hv as <- <-.
  apply transaction_ok, record_idempotent_reply_in_tx_ok in H as ->. eauto.
Qed.

Lemma record_reply_err user ctype key rq reply db e db' :
  record_reply user ctype key rq reply db = (Err e, db') -> same_tables db db'.
Proof.
  unfold record_reply, record_idempotent_reply. intros [H|(v & s & Hv & H)]%bind_err.
  - injection H as _ <-. apply same_tables_refl.
  - injection Hv as _ <-. by apply transaction_err_tables in H.
Qed.

(** Answer with a refusal, or with what the transaction granted. *)
Definition refuse_or_grant {A} (m : Db A) user ctype key rq
    (refusal : Z -> WalletReply) (grant : A -> WalletProcessResult) : Db WalletProcessResult :=
  let* outcome := catch_insufficient m in
  match outcome with
  | inr available =>
      do* record_reply user ctype key rq (refusal available) in
      ret (reply_result (refusal available))
  | inl a => ret (grant a)
  end.

Lemma refuse_or_grant_ok {A} (m : Db A) user ctype key rq refusal grant db res db' :
  refuse_or_grant m user ctype key rq refusal grant db = (Ok res, db') ->
  (exists n db1 v, m db = (Err (WalletRepositoryError_InsufficientFunds n), db1) /\
     reply_to_value (refusal n) = Some v /\ res = reply_result (refusal n) /\
     db' = set_idempotency (fun t =>
             <[(user, ctype, key) := (rq, default v (stored_reply db1 user ctype key))]> t) db1) \/
  (exists a, m db = (Ok a, db') /\ res = grant a).
Proof.
  unfold refuse_or_grant. intros H. apply bind_ok in H as ([a|n] & db1 & Hc & H).
  - right. apply catch_insufficient_ok in Hc. injection H as <- <-. eauto.
  - left. apply catch_insufficient_ok in Hc.
    apply bind_ok in H as (? & db2 & Hr & H). injection H as <- <-.
    apply record_reply_ok in Hr as (v & Hv & ->). exists n, db1, v. by split_and!.
Qed.

Lemma refuse_or_grant_err {A} (m : Db A) user ctype key rq refusal grant db e db' :
  (forall e db1, m db = (Err e, db1) -> same_tables db db1) ->
  refuse_or_grant m user ctype key rq refusal grant db = (Err e, db') -> same_tables db db'.
Proof.
  unfold refuse_or_grant. intros Hm [H|([a|n] & db1 & Hc & H)]%bind_err.
  - apply catch_insufficient_err in H. eauto.
  - done.
  - apply catch_insufficient_ok, Hm in Hc.
    apply bind_err in H as [H|(? & ? & _ & ?)]; [|done].
    apply record_reply_err in H. by eapply same_tables_trans.
Qed.
End WithSerde.
