(* ===== verification/WalletRuns.v ===== *)
(** * WalletRuns: the successful runs of the processor

    For each handler, what a run that answers [Ok] has done to the books, to the
    stored replies and to the outbox. *)

From S2P Require Import Prelude Protocol Postgres WalletDb WalletRepository WalletProcessor.
From S2P Require Import WalletSpec WalletStatements WalletRefinement WalletHandlers.

Section WithSerde.
Context {SD : Serde}.
Implicit Types (db : WalletDb).

(** ** Published messages *)

(** The outbox holds [e] under its event id. *)
Definition event_published (self : WalletProcessor) db (e : WalletEvent) : Prop :=
  exists key row, event_id e = Some key /\ wallet_outbox db !! key = Some row /\
    ob_topic row = wallet_events_topic self /\ ob_payload_type row = "WalletEvent" /\
    wallet_event_to_value e = Some (ob_payload row).

Definition engine_input_id_of (c : EngineCommand) : option string :=
  match c with
  | EngineCommand_PlaceOrder c => rpo_input_id c
  | EngineCommand_CancelOrder c => co_input_id c
  | EngineCommand_LiquidatePosition c => lp_input_id c
  | EngineCommand_MarkPriceUpdated c => mpi_input_id c
  | EngineCommand_FundingRateUpdated c => fri_input_id c
  | EngineCommand_FundingSettlementTick c => fst_input_id c
  end.

(** The outbox holds [c] under its input id, keyed by its market. *)
Definition input_published (self : WalletProcessor) db (c : EngineCommand) : Prop :=
  exists key row, engine_input_id_of c = Some key /\ wallet_outbox db !! key = Some row /\
    ob_topic row = engine_input_topic self /\ ob_payload_type row = "EngineCommand" /\
    ob_message_key row = engine_input_key c /\
    engine_command_to_value c = Some (ob_payload row).

Definition outbox_grows db db' : Prop :=
  forall k row, wallet_outbox db !! k = Some row -> wallet_outbox db' !! k = Some row.

Definition replies_kept db db' : Prop :=
  forall user ctype key v, stored_reply db user ctype key = Some v ->
    stored_reply db' user ctype key = Some v.

(** What a successful run has done. *)
Record run_of (self : WalletProcessor) db (res : WalletProcessResult) db' : Prop := {
  run_steps : book_steps (books db) (wallet_events res) (books db');
  run_events : Forall (event_published self db') (wallet_events res);
  run_inputs : Forall (input_published self db') (engine_inputs res);
  run_outbox : outbox_grows db db';
  run_kept : replies_kept db db'
}.

Lemma row_matches_true m row :
  row_matches m row = true ->
  ob_topic row = new_topic m /\ ob_message_key row = new_message_key m /\
  ob_payload_type row = new_payload_type m /\ ob_payload row = new_payload m.
Proof. unfold row_matches. intros. by split_bool. Qed.

Lemma json_ok k t p mk ty pl m :
  json k t p mk ty pl = Ok m ->
  exists v, pl = Some v /\ m = mkNewWalletOutboxMessage k t p mk ty v.
Proof. unfold json. destruct pl; cbn; [|done]. intros [= <-]. eauto. Qed.

Lemma event_published_of self db db' e key mk m ms :
  key <> "" -> event_id e = Some key ->
  wallet_event_outbox_message (wallet_events_topic self) key mk e = Ok m ->
  m ∈ ms -> outbox_extended ms db db' -> event_published self db' e.
Proof.
  intros Hk He Hm Hin (Hs & _ & _). apply json_ok in Hm as (v & Hv & ->).
  apply Hs in Hin as (row & Hrow & Hmatch). apply row_matches_true in Hmatch as (?&?&?&Hp).
  exists key, row. cbn in *. by rewrite Hp.
Qed.

Lemma input_published_of self db db' c key m ms :
  engine_input_id_of c = Some key ->
  engine_command_outbox_message (engine_input_topic self) key c = Ok m ->
  m ∈ ms -> outbox_extended ms db db' -> input_published self db' c.
Proof.
  intros He Hm Hin (Hs & _ & _). apply json_ok in Hm as (v & Hv & ->).
  apply Hs in Hin as (row & Hrow & Hmatch). apply row_matches_true in Hmatch as (?&?&?&Hp).
  exists key, row. cbn in *. by rewrite Hp.
Qed.

(** A result that only replies. *)
Lemma run_of_reply self db db' r :
  books db' = books db -> outbox_grows db db' -> replies_kept db db' ->
  run_of self db (reply_result r) db'.
Proof. intros Hb ??. split; cbn; [rewrite Hb; constructor|constructor|constructor|done|done]. Qed.

(** Storing a reply under a key that has one keeps the one it has. *)
Lemma replies_kept_insert db db' user ctype key rq v :
  wallet_idempotency db' =
    <[(user, ctype, key) := (rq, default v (stored_reply db user ctype key))]>
      (wallet_idempotency db) -> replies_kept db db'.
Proof.
  intros E u t k w. unfold stored_reply at 2. rewrite E.
  destruct (decide ((u, t, k) = (user, ctype, key))) as [[= -> -> ->]|Hne].
  - intros Hs. rewrite lookup_insert_eq. cbn. by rewrite Hs.
  - by rewrite lookup_insert_ne.
Qed.

Lemma stored_reply_insert db db' user ctype key rq v :
  wallet_idempotency db' =
    <[(user, ctype, key) := (rq, default v (stored_reply db user ctype key))]>
      (wallet_idempotency db) ->
  stored_reply db user ctype key = None -> stored_reply db' user ctype key = Some v.
Proof. intros E Hn. unfold stored_reply. by rewrite E, lookup_insert_eq, Hn. Qed.

Lemma replies_kept_eq db db' :
  wallet_idempotency db' = wallet_idempotency db -> replies_kept db db'.
Proof. intros E u t k v. unfold stored_reply. by rewrite E. Qed.

Lemma run_of_stored self db r : run_of self db (reply_result r) db.
Proof. apply run_of_reply; [done|by intros k row|by apply replies_kept_eq]. Qed.

(** ** Builders of the transactions, as [processor.rs] writes them in closures *)

Definition reserve_builder self intent (reserved : FundsReserved)
    : Result WalletRepositoryError (Value * list NewWalletOutboxMessage) :=
  let envelope := poi_envelope intent in
  let wallet_event_id := funds_reserved_dedupe_key (fr_reservation_id reserved) in
  let? wallet_outbox :=
    wallet_event_outbox_message (wallet_events_topic self) wallet_event_id
      (to_string (env_user_id envelope))
      (funds_reserved_event wallet_event_id intent reserved) in
  let? engine_outbox :=
    engine_command_outbox_message (engine_input_topic self) (place_order_dedupe_key envelope)
      (EngineCommand_PlaceOrder (into_reserved_order intent (fr_reservation_id reserved))) in
  let? v := reply_value (WalletReply_FundsReserved reserved) in
  Ok (v, [wallet_outbox; engine_outbox]).

Definition balance_builder self (key wallet_key : string)
    (event : BalanceUpdated -> WalletEvent) (balance : BalanceUpdated)
    : Result WalletRepositoryError (Value * list NewWalletOutboxMessage) :=
  let? outbox := wallet_event_outbox_message (wallet_events_topic self) key wallet_key
                   (event balance) in
  let? v := reply_value (WalletReply_BalanceUpdated balance) in
  Ok (v, [outbox]).

Definition event_builder {A} self (key : string) (wallet_key : A -> string)
    (event : A -> WalletEvent) (a : A)
    : Result WalletRepositoryError (list NewWalletOutboxMessage) :=
  let? outbox := wallet_event_outbox_message (wallet_events_topic self) key (wallet_key a)
                   (event a) in
  Ok [outbox].

Lemma reserve_builder_ok self intent reserved v ms :
  reserve_builder self intent reserved = Ok (v, ms) ->
  reply_to_value (WalletReply_FundsReserved reserved) = Some v /\
  exists m1 m2, ms = [m1; m2] /\
    let id := funds_reserved_dedupe_key (fr_reservation_id reserved) in
    wallet_event_outbox_message (wallet_events_topic self) id
      (to_string (env_user_id (poi_envelope intent)))
      (funds_reserved_event id intent reserved) = Ok m1 /\
    engine_command_outbox_message (engine_input_topic self)
      (place_order_dedupe_key (poi_envelope intent))
      (EngineCommand_PlaceOrder (into_reserved_order intent (fr_reservation_id reserved)))
      = Ok m2.
Proof.
  unfold reserve_builder, reply_value. cbn zeta. destruct wallet_event_outbox_message eqn:E1; [|done].
  destruct engine_command_outbox_message eqn:E2; [|done]. cbn.
  destruct reply_to_value; [|done]. intros [= <- <-]. eauto 10.
Qed.

Lemma balance_builder_ok self key wkey event balance v ms :
  balance_builder self key wkey event balance = Ok (v, ms) ->
  reply_to_value (WalletReply_BalanceUpdated balance) = Some v /\
  exists m, ms = [m] /\
    wallet_event_outbox_message (wallet_events_topic self) key wkey (event balance) = Ok m.
Proof.
  unfold balance_builder, reply_value. destruct wallet_event_outbox_message eqn:E1; [|done]. cbn.
  destruct reply_to_value; [|done]. intros [= <- <-]. eauto 10.
Qed.

Lemma event_builder_ok {A} self key (wkey : A -> string) event a ms :
  event_builder self key wkey event a = Ok ms ->
  exists m, ms = [m] /\
    wallet_event_outbox_message (wallet_events_topic self) key (wkey a) (event a) = Ok m.
Proof.
  unfold event_builder. destruct wallet_event_outbox_message eqn:E1; [|done]. cbn.
  intros [= <-]. eauto 10.
Qed.

(** ** The handlers, by their opening and their transaction *)

Section Unfold.
Variable self : WalletProcessor.
Variable d : Draw.

Lemma reserve_and_forward_unfold intent :
  reserve_and_forward self d intent =
  let env := poi_envelope intent in
  with_stored_reply (env_user_id env) "PlaceOrderIntent" (env_idempotency_key env)
    (env_request_id env)
    (refuse_or_grant
       (reserve_funds_with_outbox (draw_uuid d) (draw_now d) (env_user_id env)
          (env_request_id env) (env_idempotency_key env) (poi_margin_asset intent)
          (poi_required_margin intent) "PlaceOrderIntent" (reserve_builder self intent))
       (env_user_id env) "PlaceOrderIntent" (env_idempotency_key env) (env_request_id env)
       (fun available => WalletReply_InsufficientFunds
          (insufficient_funds_reply (env_request_id env) (poi_margin_asset intent)
             (poi_required_margin intent) available))
       (fun reserved => mkWalletProcessResult
          [WalletReply_FundsReserved reserved]
          [funds_reserved_event (funds_reserved_dedupe_key (fr_reservation_id reserved))
             intent reserved]
          [EngineCommand_PlaceOrder
             (into_reserved_order intent (fr_reservation_id reserved))])).
Proof. reflexivity. Qed.

Lemma process_withdrawal_unfold withdraw :
  process_withdrawal self d withdraw =
  let env := wdr_envelope withdraw in
  with_stored_reply (env_user_id env) "Withdraw" (env_idempotency_key env)
    (env_request_id env)
    (refuse_or_grant
       (apply_withdraw_with_outbox (draw_now d) withdraw "Withdraw"
          (balance_builder self (withdrawal_dedupe_key withdraw) (to_string (env_user_id env))
             (withdrawal_applied_event (withdrawal_dedupe_key withdraw) withdraw)))
       (env_user_id env) "Withdraw" (env_idempotency_key env) (env_request_id env)
       (fun available => WalletReply_InsufficientFunds
          (mkInsufficientFunds (env_request_id env) (wdr_asset withdraw)
             (wdr_amount withdraw) available))
       (fun balance => mkWalletProcessResult
          [WalletReply_BalanceUpdated balance]
          [withdrawal_applied_event (withdrawal_dedupe_key withdraw) withdraw balance] [])).
Proof. reflexivity. Qed.

Lemma process_deposit_unfold deposit :
  process_deposit self d deposit =
  let env := dep_envelope deposit in
  with_stored_reply (env_user_id env) "Deposit" (env_idempotency_key env)
    (env_request_id env)
    (let* balance := apply_deposit_with_outbox (draw_now d) deposit "Deposit"
       (balance_builder self (deposit_dedupe_key deposit) (to_string (env_user_id env))
          (deposit_applied_event (deposit_dedupe_key deposit) deposit)) in
     ret (mkWalletProcessResult [WalletReply_BalanceUpdated balance]
            [deposit_applied_event (deposit_dedupe_key deposit) deposit balance] [])).
Proof. reflexivity. Qed.

Lemma forward_cancel_unfold intent :
  forward_cancel self d intent =
  let env := coi_envelope intent in
  let reply := WalletReply_CommandAccepted (mkCommandAccepted (env_request_id env)) in
  let command := EngineCommand_CancelOrder (into_engine_cancel_order intent) in
  with_stored_reply (env_user_id env) "CancelOrderIntent" (env_idempotency_key env)
    (env_request_id env)
    (let* outbox := lift (engine_command_outbox_message (engine_input_topic self)
                            (cancel_order_dedupe_key env) command) in
     let* v := lift (reply_value reply) in
     do* record_idempotent_reply_with_outbox (draw_now d) (env_user_id env)
           "CancelOrderIntent" (env_idempotency_key env) (env_request_id env) v [outbox] in
     ret (mkWalletProcessResult [reply] [] [command])).
Proof. reflexivity. Qed.

Lemma process_release_unfold release :
  process_release_reservation self d release =
  let key := funds_released_dedupe_key release in
  let* reservation := release_reservation_with_outbox (draw_now d) release
    (event_builder self key rec_reservation_id (funds_released_event key release)) in
  ret (mkWalletProcessResult [] [funds_released_event key release reservation] []).
Proof. reflexivity. Qed.

Lemma process_settle_unfold settle :
  process_settle_trade self d settle =
  let key := trade_settled_dedupe_key settle in
  let* reservation := settle_trade_with_outbox (draw_now d) settle
    (event_builder self key rec_reservation_id (trade_settled_event key settle)) in
  ret (mkWalletProcessResult [] [trade_settled_event key settle reservation] []).
Proof. reflexivity. Qed.

Definition delta_update (delta : ApplyAccountDelta) : AccountDeltaUpdate :=
  mkAccountDeltaUpdate (apd_user_id delta) (apd_asset delta) (apd_total_delta delta)
    (apd_locked_delta delta) (apd_kind delta) (apd_reference_id delta).

Lemma process_account_delta_unfold delta :
  process_account_delta self d delta =
  let key := account_delta_dedupe_key delta in
  let* balance := apply_account_delta_with_outbox (draw_now d) (delta_update delta)
    (event_builder self key (fun _ => to_string (apd_user_id delta))
       (account_delta_applied_event key delta)) in
  match balance with
  | None => ret (mkWalletProcessResult [] [] [])
  | Some balance =>
      ret (mkWalletProcessResult [] [account_delta_applied_event key delta balance] [])
  end.
Proof. reflexivity. Qed.
End Unfold.

(** ** Runs of the transactions with their outbox *)

Section Runs.
Variable self : WalletProcessor.
Variable d : Draw.

(** The tables a grant writes beyond the books: the reply is stored under the
    command's key, and the messages are in the outbox. *)
Definition granted user ctype key rq (v : Value) (ms : list NewWalletOutboxMessage) db db' : Prop :=
  wallet_idempotency db' =
    <[(user, ctype, key) := (rq, default v (stored_reply db user ctype key))]>
      (wallet_idempotency db) /\
  outbox_extended ms db db'.

Lemma transaction_bind_ok {A B} (m : Db A) (k : A -> Db B) (m' : Db B) db b db' :
  m' ≡ transaction (bind m k) -> m' db = (Ok b, db') ->
  exists a db1, m db = (Ok a, db1) /\ k a db1 = (Ok b, db').
Proof. intros E H. rewrite (E db) in H. by apply transaction_ok, bind_ok in H. Qed.

Lemma reserve_funds_with_outbox_ok uuid now user rq key asset amount ctype builder db r db' id :
  reserve_funds_with_outbox uuid now user rq key asset amount ctype builder db = (Ok r, db') ->
  r = mkFundsReserved rq ("res_" +:+ uuid) asset amount /\
  book_step (books db)
    (WalletEvent_FundsReserved
       (mkWalletFundsReserved id rq user ("res_" +:+ uuid) asset amount)) (books db') /\
  exists v ms, builder r = Ok (v, ms) /\ granted user ctype key rq v ms db db'.
Proof.
  intros H. destruct (transaction_bind_ok _ _ _ _ _ _
    (reserve_funds_with_outbox_eq uuid now user rq key asset amount ctype builder) H)
    as (a & db1 & H1 & H2).
  apply (reserve_funds_ok _ _ _ _ _ _ _ _ _ id) in H1 as (-> & [Hi Ho] & Hstep).
  apply finish_with_reply_ok in H2 as (-> & v & ms & Hb & Hbk & Hid & Hout).
  unfold granted, stored_reply, outbox_extended in *. rewrite Hbk, Hi, Ho in *. eauto 10.
Qed.

Lemma apply_deposit_with_outbox_ok now deposit ctype builder db r db' id :
  books_wf (books db) ->
  apply_deposit_with_outbox now deposit ctype builder db = (Ok r, db') ->
  let env := dep_envelope deposit in
  bu_request_id r = env_request_id env /\ bu_asset r = dep_asset deposit /\
  book_step (books db)
    (WalletEvent_DepositApplied
       (mkWalletDepositApplied id (env_request_id env) (env_user_id env) (dep_asset deposit)
          (dep_amount deposit) (dep_reference_id deposit) (bu_total r) (bu_locked r)))
    (books db') /\
  exists v ms, builder r = Ok (v, ms) /\
    granted (env_user_id env) ctype (env_idempotency_key env) (env_request_id env) v ms db db'.
Proof.
  intros Hwf H. destruct (transaction_bind_ok _ _ _ _ _ _
    (apply_deposit_with_outbox_eq now deposit ctype builder) H) as (a & db1 & H1 & H2).
  apply (apply_deposit_ok _ _ _ _ id Hwf) in H1 as (Hr & Ha & [Hi Ho] & Hstep).
  apply finish_with_reply_ok in H2 as (-> & v & ms & Hb & Hbk & Hid & Hout).
  unfold granted, stored_reply, outbox_extended in *. rewrite Hbk, Hi, Ho in *. eauto 10.
Qed.

Lemma apply_withdraw_with_outbox_ok now withdraw ctype builder db r db' id :
  books_wf (books db) ->
  apply_withdraw_with_outbox now withdraw ctype builder db = (Ok r, db') ->
  let env := wdr_envelope withdraw in
  bu_request_id r = env_request_id env /\ bu_asset r = wdr_asset withdraw /\
  book_step (books db)
    (WalletEvent_WithdrawalApplied
       (mkWalletWithdrawalApplied id (env_request_id env) (env_user_id env)
          (wdr_asset withdraw) (wdr_amount withdraw) (wdr_destination withdraw)
          (bu_total r) (bu_locked r)))
    (books db') /\
  exists v ms, builder r = Ok (v, ms) /\
    granted (env_user_id env) ctype (env_idempotency_key env) (env_request_id env) v ms db db'.
Proof.
  intros Hwf H. destruct (transaction_bind_ok _ _ _ _ _ _
    (apply_withdraw_with_outbox_eq now withdraw ctype builder) H) as (a & db1 & H1 & H2).
  apply (apply_withdraw_ok _ _ _ _ id Hwf) in H1 as (Hr & Ha & [Hi Ho] & Hstep).
  apply finish_with_reply_ok in H2 as (-> & v & ms & Hb & Hbk & Hid & Hout).
  unfold granted, stored_reply, outbox_extended in *. rewrite Hbk, Hi, Ho in *. eauto 10.
Qed.

Lemma release_with_outbox_ok now release builder db r db' id :
  books_wf (books db) -> books_backed (books db) ->
  release_reservation_with_outbox now release builder db = (Ok r, db') ->
  rec_reservation_id r = rr_reservation_id release /\
  wallet_idempotency db' = wallet_idempotency db /\
  book_step (books db)
    (WalletEvent_FundsReleased
       (mkWalletFundsReleased id (rec_user_id r) (rr_reservation_id release) (rec_asset r)
          (rr_amount release) (rr_reason release))) (books db') /\
  exists ms, builder r = Ok ms /\ outbox_extended ms db db'.
Proof.
  intros Hwf Hbk0 H. destruct (transaction_bind_ok _ _ _ _ _ _
    (release_reservation_with_outbox_eq now release builder) H) as (a & db1 & H1 & H2).
  apply (release_reservation_ok _ _ _ _ id Hwf Hbk0) in H1 as (Hr & [Hi Ho] & Hstep).
  apply finish_with_outbox_ok in H2 as (-> & ms & Hb & Hbk & Hid & Hout).
  unfold outbox_extended in *. rewrite Hbk, Hid, Hi, Ho in *. eauto 10.
Qed.

Lemma settle_with_outbox_ok now settle builder db r db' id :
  books_wf (books db) -> books_backed (books db) ->
  settle_trade_with_outbox now settle builder db = (Ok r, db') ->
  rec_reservation_id r = st_reservation_id settle /\
  wallet_idempotency db' = wallet_idempotency db /\
  book_step (books db)
    (WalletEvent_TradeSettled
       (mkWalletTradeSettled id (rec_user_id r) (st_fill_id settle)
          (st_reservation_id settle) (st_debit_asset settle) (st_debit_amount settle)
          (st_credit_asset settle) (st_credit_amount settle))) (books db') /\
  exists ms, builder r = Ok ms /\ outbox_extended ms db db'.
Proof.
  intros Hwf Hbk0 H. destruct (transaction_bind_ok _ _ _ _ _ _
    (settle_trade_with_outbox_eq now settle builder) H) as (a & db1 & H1 & H2).
  apply (settle_trade_ok _ _ _ _ id Hwf Hbk0) in H1 as (Hr & [Hi Ho] & Hstep).
  apply finish_with_outbox_ok in H2 as (-> & ms & Hb & Hbk & Hid & Hout).
  unfold outbox_extended in *. rewrite Hbk, Hid, Hi, Ho in *. eauto 10.
Qed.

Lemma delta_with_outbox_ok now delta builder db r db' id :
  books_wf (books db) ->
  apply_account_delta_with_outbox now delta builder db = (Ok r, db') ->
  match r with
  | None => db' = db
  | Some b =>
      wallet_idempotency db' = wallet_idempotency db /\
      book_step (books db)
        (WalletEvent_AccountDeltaApplied
           (mkWalletAccountDeltaApplied id (adu_user_id delta) (adu_asset delta)
              (adu_total_delta delta) (adu_locked_delta delta) (adu_kind delta)
              (adu_reference_id delta) (bs_total b) (bs_locked b))) (books db') /\
      exists ms, builder b = Ok ms /\ outbox_extended ms db db'
  end.
Proof.
  intros Hwf H. destruct (transaction_bind_ok _ _ _ _ _ _
    (apply_account_delta_with_outbox_eq now delta builder) H) as ([a|] & db1 & H1 & H2).
  - apply (apply_account_delta_ok _ _ _ _ id Hwf) in H1 as ([Hi Ho] & Hstep).
    unfold finish_delta in H2. apply bind_ok in H2 as (b & db2 & H2 & H3).
    injection H3 as <- <-.
    apply finish_with_outbox_ok in H2 as (-> & ms & Hb & Hbk & Hid & Hout).
    unfold outbox_extended in *. rewrite Hbk, Hid, Hi, Ho in *. eauto 10.
  - injection H2 as <- <-. by apply apply_account_delta_none in H1 as [-> _].
Qed.

(** ** Runs of the handlers *)

Lemma outbox_extended_grows ms db db' : outbox_extended ms db db' -> outbox_grows db db'.
Proof. by intros (_ & ? & _). Qed.

Lemma run_of_granted db db' r e c ms key mk :
  book_step (books db) e (books db') ->
  key <> "" -> event_id e = Some key ->
  (exists m, m ∈ ms /\
     wallet_event_outbox_message (wallet_events_topic self) key mk e = Ok m) ->
  Forall (fun c => exists k m, engine_input_id_of c = Some k /\ m ∈ ms /\
     engine_command_outbox_message (engine_input_topic self) k c = Ok m) c ->
  outbox_extended ms db db' -> replies_kept db db' ->
  run_of self db (mkWalletProcessResult r [e] c) db'.
Proof.
  intros Hs Hk He (m & Hin & Hm) Hc Hout Hkept. split; cbn; [..|done].
  - by apply book_steps_single.
  - apply Forall_singleton. by eapply event_published_of.
  - eapply Forall_impl; [exact Hc|]. cbn. intros x (k & m' & ? & ? & ?).
    by eapply input_published_of.
  - by eapply outbox_extended_grows.
Qed.

Lemma refused_run db db1 db' user ctype key rq v r n {A} (m : Db A) :
  m db = (Err (WalletRepositoryError_InsufficientFunds n), db1) -> same_tables db db1 ->
  db' = set_idempotency (fun t =>
          <[(user, ctype, key) := (rq, default v (stored_reply db1 user ctype key))]> t) db1 ->
  run_of self db (reply_result r) db'.
Proof.
  intros _ -> ->. apply run_of_reply; [done|by intros k row|].
  by eapply replies_kept_insert.
Qed.

Lemma reserve_and_forward_run intent db res db' :
  reserve_and_forward self d intent db = (Ok res, db') -> run_of self db res db'.
Proof.
  rewrite reserve_and_forward_unfold. cbn zeta.
  intros [(v & r & _ & _ & -> & ->)|[_ H]]%with_stored_reply_ok;
    [apply run_of_stored|].
  apply refuse_or_grant_ok in H as [(n & db1 & v & H & _ & -> & ->)|(a & H & ->)].
  - eapply refused_run; [exact H|by eapply transaction_err_tables|done].
  - eapply reserve_funds_with_outbox_ok in H as (-> & Hstep & v & ms & Hb & Hid & Hout).
    apply reserve_builder_ok in Hb as (_ & m1 & m2 & -> & H1 & H2).
    eapply run_of_granted; [exact Hstep| |reflexivity| | |exact Hout|by eapply replies_kept_insert]; [done|..].
    + exists m1. split; [by left|exact H1].
    + apply Forall_singleton. exists (place_order_dedupe_key (poi_envelope intent)), m2.
      split; [done|]. split; [by right; left|exact H2].
Qed.

Lemma process_withdrawal_run withdraw db res db' :
  books_wf (books db) ->
  process_withdrawal self d withdraw db = (Ok res, db') -> run_of self db res db'.
Proof.
  intros Hwf. rewrite process_withdrawal_unfold. cbn zeta.
  intros [(v & r & _ & _ & -> & ->)|[_ H]]%with_stored_reply_ok;
    [apply run_of_stored|].
  apply refuse_or_grant_ok in H as [(n & db1 & v & H & _ & -> & ->)|(a & H & ->)].
  - eapply refused_run; [exact H|by eapply transaction_err_tables|done].
  - eapply (apply_withdraw_with_outbox_ok _ _ _ _ _ _ _ _ Hwf) in H
      as (Hr & Ha & Hstep & v & ms & Hb & Hid & Hout).
    apply balance_builder_ok in Hb as (_ & m & -> & H1).
    unfold withdrawal_applied_event in *. rewrite Hr, Ha in *.
    eapply run_of_granted; [exact Hstep| |reflexivity| | |exact Hout|by eapply replies_kept_insert]; [done|..].
    + exists m. split; [by left|exact H1].
    + constructor.
Qed.

Lemma process_deposit_run deposit db res db' :
  books_wf (books db) ->
  process_deposit self d deposit db = (Ok res, db') -> run_of self db res db'.
Proof.
  intros Hwf. rewrite process_deposit_unfold. cbn zeta.
  intros [(v & r & _ & _ & -> & ->)|[_ H]]%with_stored_reply_ok;
    [apply run_of_stored|].
  apply bind_ok in H as (a & db1 & H & E). injection E as <- <-.
  eapply (apply_deposit_with_outbox_ok _ _ _ _ _ _ _ _ Hwf) in H
    as (Hr & Ha & Hstep & v & ms & Hb & Hid & Hout).
  apply balance_builder_ok in Hb as (_ & m & -> & H1).
  unfold deposit_applied_event in *. rewrite Hr, Ha in *.
  eapply run_of_granted; [exact Hstep| |reflexivity| | |exact Hout|by eapply replies_kept_insert]; [done|..].
  - exists m. split; [by left|exact H1].
  - constructor.
Qed.

Lemma record_with_outbox_ok now user ctype key rq v ms db u db' :
  record_idempotent_reply_with_outbox now user ctype key rq v ms db = (Ok u, db') ->
  books db' = books db /\ granted user ctype key rq v ms db db'.
Proof.
  unfold record_idempotent_reply_with_outbox. intros H.
  apply transaction_ok, bind_ok in H as (? & db1 & H1 & H).
  apply record_idempotent_reply_in_tx_ok in H1 as ->. apply enqueue_ok in H as [].
  split; [done|]. by split.
Qed.

Lemma forward_cancel_run intent db res db' :
  forward_cancel self d intent db = (Ok res, db') -> run_of self db res db'.
Proof.
  rewrite forward_cancel_unfold. cbn zeta.
  intros [(v & r & _ & _ & -> & ->)|[_ H]]%with_stored_reply_ok;
    [apply run_of_stored|].
  apply bind_ok in H as (m & db1 & Hm & H). injection Hm as Hm <-.
  apply bind_ok in H as (v & db1 & Hv & H). injection Hv as Hv <-.
  apply bind_ok in H as (? & db1 & H & E). injection E as <- <-.
  apply record_with_outbox_ok in H as (Hbk & Hid & Hout). split; cbn; [..|by eapply replies_kept_insert].
  - rewrite Hbk. constructor.
  - constructor.
  - apply Forall_singleton. eapply input_published_of; [reflexivity|exact Hm|by left|done].
  - by eapply outbox_extended_grows.
Qed.

Lemma process_release_run release db res db' :
  books_wf (books db) -> books_backed (books db) ->
  process_release_reservation self d release db = (Ok res, db') -> run_of self db res db'.
Proof.
  intros Hwf Hb H. rewrite process_release_unfold in H. cbn zeta in H.
  apply bind_ok in H as (a & db1 & H & E). injection E as <- <-.
  eapply (release_with_outbox_ok _ _ _ _ _ _ _ Hwf Hb) in H
    as (Hr & Hid & Hstep & ms & Hbuild & Hout).
  apply event_builder_ok in Hbuild as (m & -> & H1).
  unfold funds_released_event in *. rewrite Hr in *.
  eapply run_of_granted; [exact Hstep| |reflexivity| | |exact Hout|by apply replies_kept_eq]; [done|..].
  - exists m. split; [by left|exact H1].
  - constructor.
Qed.

Lemma process_settle_run settle db res db' :
  books_wf (books db) -> books_backed (books db) ->
  process_settle_trade self d settle db = (Ok res, db') -> run_of self db res db'.
Proof.
  intros Hwf Hb H. rewrite process_settle_unfold in H. cbn zeta in H.
  apply bind_ok in H as (a & db1 & H & E). injection E as <- <-.
  eapply (settle_with_outbox_ok _ _ _ _ _ _ _ Hwf Hb) in H
    as (Hr & Hid & Hstep & ms & Hbuild & Hout).
  apply event_builder_ok in Hbuild as (m & -> & H1).
  unfold trade_settled_event in *. rewrite Hr in *.
  eapply run_of_granted; [exact Hstep| |reflexivity| | |exact Hout|by apply replies_kept_eq]; [done|..].
  - exists m. split; [by left|exact H1].
  - constructor.
Qed.

Lemma process_account_delta_run delta db res db' :
  books_wf (books db) ->
  process_account_delta self d delta db = (Ok res, db') -> run_of self db res db'.
Proof.
  intros Hwf H. rewrite process_account_delta_unfold in H. cbn zeta in H.
  apply bind_ok in H as ([a|] & db1 & H & E); injection E as <- <-;
    apply (delta_with_outbox_ok _ _ _ _ _ _ (Some (account_delta_dedupe_key delta)) Hwf) in H.
  - destruct H as (Hid & Hstep & ms & Hbuild & Hout).
    apply event_builder_ok in Hbuild as (m & -> & H1).
    eapply run_of_granted; [exact Hstep| |reflexivity| | |exact Hout|by apply replies_kept_eq]; [done|..].
    + exists m. split; [by left|exact H1].
    + constructor.
  - cbn in H. subst db1. split; cbn; [constructor..|by intros k row|by apply replies_kept_eq].
Qed.

Lemma process_command_run command db res db' :
  books_wf (books db) -> books_backed (books db) ->
  process_command self d command db = (Ok res, db') -> run_of self db res db'.
Proof.
  intros Hwf Hb. destruct command; cbn.
  - apply reserve_and_forward_run.
  - apply forward_cancel_run.
  - by apply process_deposit_run.
  - by apply process_withdrawal_run.
  - by apply process_release_run.
  - by apply process_settle_run.
Qed.

Lemma process_engine_command_run command db res db' :
  books_wf (books db) -> books_backed (books db) ->
  process_engine_command self d command db = (Ok res, db') -> run_of self db res db'.
Proof.
  intros Hwf Hb. destruct command; cbn.
  - by apply process_release_run.
  - by apply process_settle_run.
  - by apply process_account_delta_run.
Qed.
End Runs.
End WithSerde.
