(* ===== verification/WalletErrors.v ===== *)
(** * WalletErrors and replays: failed runs, and commands seen twice

    A run that errors leaves every table as it was; an enveloped command that
    answered once answers the same way ever after. *)

From S2P Require Import Prelude Protocol Postgres WalletDb WalletRepository WalletProcessor.
From S2P Require Import WalletSpec WalletStatements WalletRefinement WalletHandlers.
From S2P Require Import WalletRuns.

Section WithSerde.
Context {SD : Serde}.
Implicit Types (db : WalletDb).

(** Either stream the wallet consumes. *)
Inductive WalletInput :=
| InCommand (command : WalletCommand)
| InEngine (command : EngineWalletCommand).

Definition process_input (self : WalletProcessor) (d : Draw) (i : WalletInput)
    : Db WalletProcessResult :=
  match i with
  | InCommand command => process_command self d command
  | InEngine command => process_engine_command self d command
  end.

Section Handlers.
Variable self : WalletProcessor.
Variable d : Draw.

Lemma process_input_run i db res db' :
  books_wf (books db) -> books_backed (books db) ->
  process_input self d i db = (Ok res, db') -> run_of self db res db'.
Proof.
  destruct i; cbn; [apply process_command_run|apply process_engine_command_run].
Qed.

(** ** Failed runs *)

Lemma bind_pure_err {A B} (m : Db A) (f : A -> B) db e db' :
  bind m (fun a => ret (f a)) db = (Err e, db') -> m db = (Err e, db').
Proof. intros [H|(? & ? & _ & ?)]%bind_err; [done|done]. Qed.

Lemma with_stored_reply_err_tables user ctype key rq k db e db' :
  (forall e db', k db = (Err e, db') -> same_tables db db') ->
  with_stored_reply user ctype key rq k db = (Err e, db') -> same_tables db db'.
Proof.
  intros Hk [->|[_ H]]%with_stored_reply_err; [apply same_tables_refl|eauto].
Qed.

Lemma release_err release db e db' :
  process_release_reservation self d release db = (Err e, db') -> same_tables db db'.
Proof.
  rewrite process_release_unfold. cbn zeta. intros H%bind_pure_err.
  by eapply transaction_err_tables.
Qed.

Lemma settle_err settle db e db' :
  process_settle_trade self d settle db = (Err e, db') -> same_tables db db'.
Proof.
  rewrite process_settle_unfold. cbn zeta. intros H%bind_pure_err.
  by eapply transaction_err_tables.
Qed.

Lemma delta_err delta db e db' :
  process_account_delta self d delta db = (Err e, db') -> same_tables db db'.
Proof.
  rewrite process_account_delta_unfold. cbn zeta.
  intros [H|([a|] & db1 & _ & ?)]%bind_err; [|done..].
  unfold apply_account_delta_with_outbox in H. case_if_in H; [done|].
  by eapply transaction_err_tables.
Qed.

Lemma forward_cancel_err intent db e db' :
  forward_cancel self d intent db = (Err e, db') -> same_tables db db'.
Proof.
  rewrite forward_cancel_unfold. cbn zeta. apply with_stored_reply_err_tables.
  intros e1 db1 [H|(m & s & Hm & H)]%bind_err; [injection H as _ <-; apply same_tables_refl|].
  injection Hm as _ <-.
  apply bind_err in H as [H|(v & s & Hv & H)]; [injection H as _ <-; apply same_tables_refl|].
  injection Hv as _ <-. apply bind_pure_err in H. by eapply transaction_err_tables.
Qed.

Lemma process_input_err i db e db' :
  process_input self d i db = (Err e, db') -> same_tables db db'.
Proof.
  destruct i as [c|c]; destruct c;
    cbn [process_input process_command process_engine_command route_command].
  - rewrite reserve_and_forward_unfold. apply with_stored_reply_err_tables.
    intros e1 db1. apply refuse_or_grant_err. intros e2 db2. apply transaction_err_tables.
  - apply forward_cancel_err.
  - rewrite process_deposit_unfold. apply with_stored_reply_err_tables.
    intros e1 db1 H%bind_pure_err. by eapply transaction_err_tables.
  - rewrite process_withdrawal_unfold. apply with_stored_reply_err_tables.
    intros e1 db1. apply refuse_or_grant_err. intros e2 db2. apply transaction_err_tables.
  - apply release_err.
  - apply settle_err.
  - apply release_err.
  - apply settle_err.
  - apply delta_err.
Qed.

(** ** Enveloped commands *)

(** The key a command's reply is stored under. *)
Definition command_key (c : WalletCommand) : option (Z * string * string) :=
  match c with
  | WalletCommand_PlaceOrderIntent i =>
      Some (env_user_id (poi_envelope i), "PlaceOrderIntent", env_idempotency_key (poi_envelope i))
  | WalletCommand_CancelOrderIntent i =>
      Some (env_user_id (coi_envelope i), "CancelOrderIntent", env_idempotency_key (coi_envelope i))
  | WalletCommand_Deposit i =>
      Some (env_user_id (dep_envelope i), "Deposit", env_idempotency_key (dep_envelope i))
  | WalletCommand_Withdraw i =>
      Some (env_user_id (wdr_envelope i), "Withdraw", env_idempotency_key (wdr_envelope i))
  | _ => None
  end.

Definition command_request_id (c : WalletCommand) : string :=
  match c with
  | WalletCommand_PlaceOrderIntent i => env_request_id (poi_envelope i)
  | WalletCommand_CancelOrderIntent i => env_request_id (coi_envelope i)
  | WalletCommand_Deposit i => env_request_id (dep_envelope i)
  | WalletCommand_Withdraw i => env_request_id (wdr_envelope i)
  | _ => ""
  end.

Lemma reply_with_request_id_twice r a b :
  reply_with_request_id (reply_with_request_id r a) b = reply_with_request_id r b.
Proof. by destruct r. Qed.

(** With a stored reply the handler answers it and does nothing else. *)
Lemma process_command_hit c user ctype key db v r :
  command_key c = Some (user, ctype, key) ->
  stored_reply db user ctype key = Some v -> reply_from_value v = Some r ->
  process_command self d c db
  = (Ok (reply_result (reply_with_request_id r (command_request_id c))), db).
Proof.
  intros Hk Hv Hr. destruct c; cbn in Hk; try discriminate Hk; injection Hk as <- <- <-;
    cbn [process_command route_command].
  - rewrite reserve_and_forward_unfold. by eapply with_stored_reply_hit.
  - rewrite forward_cancel_unfold. by eapply with_stored_reply_hit.
  - rewrite process_deposit_unfold. by eapply with_stored_reply_hit.
  - rewrite process_withdrawal_unfold. by eapply with_stored_reply_hit.
Qed.

(** ** Answering leaves the answer stored *)

Context {LAWS : SerdeLaws}.

Definition answered c user ctype key (res : WalletProcessResult) db' : Prop :=
  exists r v, wallet_replies res = [reply_with_request_id r (command_request_id c)] /\
    stored_reply db' user ctype key = Some v /\ reply_from_value v = Some r.

Lemma answered_of_stored c user ctype key db v r :
  stored_reply db user ctype key = Some v -> reply_from_value v = Some r ->
  answered c user ctype key
    (reply_result (reply_with_request_id r (command_request_id c))) db.
Proof. intros ??. by exists r, v. Qed.

(** The reply stored is the one sent, and carries the command's request id. *)
Lemma answered_of_new c user ctype key res reply v db db' :
  stored_reply db user ctype key = None ->
  wallet_idempotency db' =
    <[(user, ctype, key) :=
        (command_request_id c, default v (stored_reply db user ctype key))]>
      (wallet_idempotency db) ->
  reply_to_value reply = Some v -> wallet_replies res = [reply] ->
  reply = reply_with_request_id reply (command_request_id c) ->
  answered c user ctype key res db'.
Proof.
  intros Hn Hid Hv Hres Hrq.
  destruct (reply_roundtrip reply) as (w & Hw & Hback). rewrite Hv in Hw.
  injection Hw as <-. exists reply, v. split; [by rewrite <- Hrq|].
  split; [by eapply stored_reply_insert|done].
Qed.

Lemma stored_reply_tables db db' user ctype key :
  same_tables db db' -> stored_reply db' user ctype key = stored_reply db user ctype key.
Proof. by intros ->. Qed.

(** A refusal for lack of funds is stored like any other reply. *)
Lemma answered_of_refusal {A} (m : Db A) c user ctype key reply n v db db1 db' :
  (forall e db1, m db = (Err e, db1) -> same_tables db db1) ->
  m db = (Err (WalletRepositoryError_InsufficientFunds n), db1) ->
  stored_reply db user ctype key = None ->
  reply_to_value reply = Some v ->
  reply = reply_with_request_id reply (command_request_id c) ->
  db' = set_idempotency (fun t =>
          <[(user, ctype, key) :=
              (command_request_id c, default v (stored_reply db1 user ctype key))]> t) db1 ->
  answered c user ctype key (reply_result reply) db'.
Proof.
  intros Hm Hrun Hn Hv Hrq ->. apply Hm in Hrun.
  eapply (answered_of_new _ _ _ _ _ reply v db1); try done.
  by rewrite (stored_reply_tables db).
Qed.

Lemma process_command_answered c user ctype key db res db' :
  books_wf (books db) ->
  command_key c = Some (user, ctype, key) ->
  process_command self d c db = (Ok res, db') -> answered c user ctype key res db'.
Proof.
  intros Hwf Hk. destruct c as [i|i|i|i| |]; cbn in Hk; try discriminate Hk;
    injection Hk as <- <- <-; cbn [process_command route_command].
  - rewrite reserve_and_forward_unfold.
    intros [(v & r & Hs & Hr & -> & ->)|[Hn H]]%with_stored_reply_ok;
      [by apply (answered_of_stored (WalletCommand_PlaceOrderIntent i) _ _ _ _ v r)|].
    apply refuse_or_grant_ok in H as [(n & db1 & v & H & Hv & -> & ->)|(a & H & ->)].
    + by eapply (answered_of_refusal _ (WalletCommand_PlaceOrderIntent i));
        [intros ??; apply transaction_err_tables|..].
    + eapply (reserve_funds_with_outbox_ok _ _ _ _ _ _ _ _ _ _ _ _ None) in H
        as (-> & _ & v & ms & Hb & Hid & _).
      apply reserve_builder_ok in Hb as (Hv & _).
      by eapply (answered_of_new (WalletCommand_PlaceOrderIntent i)).
  - rewrite forward_cancel_unfold.
    intros [(v & r & Hs & Hr & -> & ->)|[Hn H]]%with_stored_reply_ok;
      [by apply (answered_of_stored (WalletCommand_CancelOrderIntent i) _ _ _ _ v r)|].
    apply bind_ok in H as (m & db1 & Hm & H). injection Hm as Hm <-.
    apply bind_ok in H as (v & db1 & Hv & H). injection Hv as Hv <-.
    apply bind_ok in H as (? & db1 & H & E). injection E as <- <-.
    apply record_with_outbox_ok in H as (_ & Hid & _).
    unfold reply_value in Hv. destruct (reply_to_value _) as [w|] eqn:Hw; [|done].
    injection Hv as ->. by eapply (answered_of_new (WalletCommand_CancelOrderIntent i)).
  - rewrite process_deposit_unfold.
    intros [(v & r & Hs & Hr & -> & ->)|[Hn H]]%with_stored_reply_ok;
      [by apply (answered_of_stored (WalletCommand_Deposit i) _ _ _ _ v r)|].
    apply bind_ok in H as (a & db1 & H & E). injection E as <- <-.
    apply (apply_deposit_with_outbox_ok _ _ _ _ _ _ _ None Hwf) in H
      as (Hr & _ & _ & v & ms & Hb & Hid & _).
    apply balance_builder_ok in Hb as (Hv & _).
    eapply (answered_of_new (WalletCommand_Deposit i)); try done.
    destruct a; cbn in *. by rewrite Hr.
  - rewrite process_withdrawal_unfold.
    intros [(v & r & Hs & Hr & -> & ->)|[Hn H]]%with_stored_reply_ok;
      [by apply (answered_of_stored (WalletCommand_Withdraw i) _ _ _ _ v r)|].
    apply refuse_or_grant_ok in H as [(n & db1 & v & H & Hv & -> & ->)|(a & H & ->)].
    + by eapply (answered_of_refusal _ (WalletCommand_Withdraw i));
        [intros ??; apply transaction_err_tables|..].
    + apply (apply_withdraw_with_outbox_ok _ _ _ _ _ _ _ None Hwf) in H
        as (Hr & _ & _ & v & ms & Hb & Hid & _).
      apply balance_builder_ok in Hb as (Hv & _).
      eapply (answered_of_new (WalletCommand_Withdraw i)); try done.
      destruct a; cbn in *. by rewrite Hr.
Qed.
End Handlers.
End WithSerde.
