(* ===== verification/WalletTotal.v ===== *)
(** * WalletTotal: when the wallet's transactions succeed

    Forward lemmas: the conditions under which a statement or a transaction
    answers [Ok], and the state it leaves. *)

From S2P Require Import Prelude Protocol Postgres WalletDb WalletRepository WalletProcessor.
From S2P Require Import WalletSpec WalletStatements WalletRefinement WalletHandlers.
From S2P Require Import WalletRuns.

Section WithSerde.
Context {SD : Serde}.
Implicit Types (db : WalletDb).

Lemma write_collateral_run k b db :
  balance_wf b ->
  write_collateral k b db = (Ok b, set_collaterals (fun m => <[k := b]> m) db).
Proof.
  intros Hb. unfold write_collateral.
  by rewrite (proj2 (collateral_ok_spec b tt) Hb).
Qed.

Lemma update_collateral_run k guard set b db :
  user_collaterals db !! k = Some b -> guard b = true -> balance_wf (set b) ->
  update_collateral k guard set db
  = (Ok (Some (set b)), set_collaterals (fun m => <[k := set b]> m) db).
Proof.
  intros Hb Hg Hw. unfold update_collateral, bind at 1, gets. rewrite Hb, Hg.
  by rewrite (bind_run _ _ _ _ _ (write_collateral_run k _ db Hw)).
Qed.

Lemma update_collateral_miss k guard set db :
  (forall b, user_collaterals db !! k = Some b -> guard b = false) ->
  update_collateral k guard set db = (Ok None, db).
Proof.
  intros Hg. unfold update_collateral, bind at 1, gets.
  destruct (user_collaterals db !! k) as [b|]; [|done]. by rewrite (Hg b).
Qed.

Lemma upsert_collateral_both_run k total locked guard db :
  let b := mkBalanceSnapshot (total_at (books db) k + total) (locked_at (books db) k + locked) in
  books_wf (books db) ->
  k.1 ∈ users db -> 0 <= locked <= total -> balance_wf b -> guard b = true ->
  upsert_collateral k (mkBalanceSnapshot total locked) guard db
  = (Ok (Some b), set_collaterals (fun m => <[k := b]> m) db).
Proof.
  intros b Hwf Hu Ha Hw Hg. pose proof Hw as (?&?&?).
  assert (balance_wf (mkBalanceSnapshot total locked)) as Hx.
  { destruct (balance_at_wf _ k Hwf) as (?&?&?).
    unfold balance_wf, b, total_at, locked_at in *; cbn in *; lia. }
  unfold upsert_collateral, bind at 1, gets. rewrite (proj2 (collateral_ok_spec _ tt) Hx).
  unfold b, total_at, locked_at, balance_at in *. cbn in *.
  destruct (user_collaterals db !! k) as [b0|]; cbn in *.
  - unfold in_i64b, i64_min, i64_max in *. case_if; [lia|].
    rewrite Hg. by rewrite (bind_run _ _ _ _ _ (write_collateral_run k _ db Hw)).
  - unfold check_user, bind at 1 2, gets. rewrite bool_decide_eq_true_2 by done.
    unfold ret at 1. by rewrite (bind_run _ _ _ _ _ (write_collateral_run k _ db Hx)).
Qed.

Lemma upsert_collateral_run k amount guard db :
  let b := mkBalanceSnapshot (total_at (books db) k + amount) (locked_at (books db) k) in
  books_wf (books db) ->
  k.1 ∈ users db -> 0 <= amount -> balance_wf b -> guard b = true ->
  upsert_collateral k (mkBalanceSnapshot amount 0) guard db
  = (Ok (Some b), set_collaterals (fun m => <[k := b]> m) db).
Proof.
  intros b Hwf Hu Ha Hw Hg. subst b.
  rewrite <- (Z.add_0_r (locked_at (books db) k)) in *.
  apply upsert_collateral_both_run; done || lia.
Qed.

Lemma reservation_ok_wf r : reservation_wf r -> reservation_ok r = Ok tt.
Proof.
  intros (Ha & Hr & Hs). unfold reservation_ok, in_i64b, i64_min, i64_max in *.
  assert (row_status r ∈ ["ACTIVE"; "RELEASED"; "SETTLED"]) as Hin.
  { clear Ha Hr. destruct Hs as [[-> _]|[[->| ->] _]]; set_solver. }
  rewrite (bool_decide_eq_true_2 _ Hin). repeat case_if; try done; lia.
Qed.

Lemma update_reservation_run rid remaining status row db :
  wallet_reservations db !! rid = Some row ->
  let row' := mkReservationRow (row_user_id row) (row_asset row) (row_amount row)
                remaining status (row_idempotency_key row) (row_request_id row) in
  reservation_wf row' ->
  update_reservation rid remaining status db
  = (Ok (reservation_from_row rid row'), set_reservations (fun m => <[rid := row']> m) db).
Proof.
  intros Hr row' Hw. unfold update_reservation, bind at 1, gets. rewrite Hr.
  fold row'. by rewrite (reservation_ok_wf row' Hw).
Qed.

Lemma reservation_in_tx_run rid row db :
  wallet_reservations db !! rid = Some row ->
  reservation_in_tx rid db = (Ok (reservation_from_row rid row), db).
Proof. intros Hr. unfold reservation_in_tx, bind, gets. by rewrite Hr. Qed.

(** ** Releases *)

Definition released_db (rid : string) (row : ReservationRow) (b : BalanceSnapshot)
    (amount : Z) db : WalletDb :=
  set_reservations (fun m => <[rid := reservation_less row amount "RELEASED"]> m)
    (set_collaterals (fun m => <[(row_user_id row, row_asset row) :=
       mkBalanceSnapshot (bs_total b) (bs_locked b - amount)]> m) db).

Definition releasable (row : ReservationRow) (amount : Z) : bool :=
  bool_decide (row_status row = "ACTIVE") && (0 <? amount) && (amount <=? row_remaining row).

Lemma release_guard row amount rid :
  negb (bool_decide (rec_status (reservation_from_row rid row) = "ACTIVE"))
  || (amount <=? 0) || (rec_remaining (reservation_from_row rid row) <? amount)
  = negb (releasable row amount).
Proof.
  unfold releasable. cbn. rewrite !negb_andb. do 2 f_equal; [f_equal|];
    rewrite ?Z.ltb_antisym, ?Z.leb_antisym; by rewrite ?negb_involutive.
Qed.

Lemma release_reservation_run release row db :
  books_ok (books db) ->
  wallet_reservations db !! rr_reservation_id release = Some row ->
  releasable row (rr_amount release) = true ->
  exists b, user_collaterals db !! (row_user_id row, row_asset row) = Some b /\
    row_remaining row <= bs_locked b /\
    release_reservation release db
    = (Ok (reservation_from_row (rr_reservation_id release)
             (reservation_less row (rr_amount release) "RELEASED")),
       released_db (rr_reservation_id release) row b (rr_amount release) db).
Proof.
  intros [Hwf Hbk _] Hrow Hrel.
  pose proof Hrel as Hrel'. unfold releasable in Hrel'. split_bool.
  destruct (wf_reservation _ Hwf _ _ Hrow) as [Hrwf _].
  destruct (reservation_funded _ _ _ Hwf Hbk Hrow) as (b & Hb & Hle); [lia|].
  destruct (wf_balance _ Hwf _ _ Hb) as [(?&?&?) _]. cbn in Hb.
  exists b. split; [done|]. split; [done|].
  apply transaction_run.
  rewrite (bind_run _ _ _ _ _ (reservation_in_tx_run _ _ _ Hrow)), release_guard, Hrel.
  cbn [negb].
  cbn [rec_user_id rec_asset rec_remaining reservation_from_row].
  rewrite asset_to_from_db.
  erewrite bind_run by (apply (update_collateral_run _ _ _ b); [done|by apply Z.leb_le; lia|
    unfold balance_wf; cbn; lia]).
  pose proof Hrwf as (? & ? & _).
  rewrite i64_wrap_id by (unfold in_i64, i64_min, i64_max in *; lia).
  apply (update_reservation_run _ _ _ row); [done|].
  change (reservation_wf (reservation_less row (rr_amount release) "RELEASED")).
  apply reservation_less_wf; [exact Hrwf|by left|lia].
Qed.

(** ** Reservations *)

Definition reserved_db (uuid : string) (user : Z) (rq key : string) (asset : Asset)
    (amount : Z) (b : BalanceSnapshot) db : WalletDb :=
  set_reservations (fun m => <["res_" +:+ uuid :=
     mkReservationRow user (asset_to_db asset) amount amount "ACTIVE" key rq]> m)
    (set_collaterals (fun m => <[(user, asset_to_db asset) :=
       mkBalanceSnapshot (bs_total b) (bs_locked b + amount)]> m) db).

Definition reservation_clash (uuid : string) (user : Z) (key : string) db : bool :=
  bool_decide (is_Some (wallet_reservations db !! ("res_" +:+ uuid)))
  || reservation_key_used user key (wallet_reservations db).

Lemma insert_reservation_run rid row db :
  reservation_wf row -> row_user_id row ∈ users db ->
  insert_reservation rid row db =
  if bool_decide (is_Some (wallet_reservations db !! rid))
     || reservation_key_used (row_user_id row) (row_idempotency_key row)
          (wallet_reservations db)
  then (Err (WalletRepositoryError_Storage UniqueViolation), db)
  else (Ok tt, set_reservations (fun m => <[rid := row]> m) db).
Proof.
  intros Hw Hu. unfold insert_reservation. rewrite (reservation_ok_wf _ Hw).
  unfold bind at 1, gets. case_match; [done|].
  unfold check_user, bind, gets. by rewrite (bool_decide_eq_true_2 _ Hu).
Qed.

Lemma insert_reservation_refused rid row db :
  in_i64 (row_amount row) -> in_i64 (row_remaining row) -> row_amount row <= 0 ->
  insert_reservation rid row db = (Err (WalletRepositoryError_Storage CheckViolation), db).
Proof.
  intros Ha Hr Hneg. unfold insert_reservation, reservation_ok.
  rewrite (proj2 (in_i64b_spec _) Ha), (proj2 (in_i64b_spec _) Hr).
  by rewrite (proj2 (Z.ltb_ge _ _) Hneg).
Qed.

Lemma current_available_run user asset db :
  books_wf (books db) ->
  current_available_in_tx user asset db
  = (Ok (total_at (books db) (user, asset) - locked_at (books db) (user, asset)), db).
Proof.
  intros Hwf. pose proof (balance_at_wf _ (user, asset) Hwf) as (?&?&?).
  unfold current_available_in_tx, bind, gets, ret, total_at, locked_at, balance_at in *.
  cbn in *. destruct (user_collaterals db !! (user, asset)) as [b|]; cbn in *; [|done].
  unfold available. by rewrite i64_wrap_id by (unfold in_i64, i64_min, i64_max in *; lia).
Qed.

(** The three ways [reserve_funds] can go: the balance is short, the amount is
    not positive, or the balance covers a positive amount. *)
Section Reserve.
Variables (uuid : string) (user : Z) (rq key : string) (asset : Asset) (amount : Z).
Variable db : WalletDb.
Hypothesis Hwf : books_wf (books db).
Let k := (user, asset_to_db asset).

Lemma reserve_short :
  (forall b, user_collaterals db !! k = Some b -> bs_total b - bs_locked b < amount) ->
  reserve_funds uuid user rq key asset amount db
  = (Err (WalletRepositoryError_InsufficientFunds
            (total_at (books db) k - locked_at (books db) k)), db).
Proof.
  intros Hs. unfold reserve_funds. cbn zeta.
  rewrite (transaction_run_err _ _ (WalletRepositoryError_InsufficientFunds
    (total_at (books db) k - locked_at (books db) k)) db); [by destruct db|].
  rewrite (bind_run _ _ _ None db).
  - by rewrite (bind_run _ _ _ _ _ (current_available_run _ _ _ Hwf)).
  - apply update_collateral_miss. fold k. intros b Hb. apply Z.leb_gt. auto.
Qed.

Context {b : BalanceSnapshot}.
Hypothesis Hb : user_collaterals db !! k = Some b.

Lemma lock_not_positive :
  in_i64 amount -> amount <= 0 ->
  lock_collateral user (asset_to_db asset) amount db
    = (Err (WalletRepositoryError_Storage CheckViolation), db) \/
  exists db1, lock_collateral user (asset_to_db asset) amount db
    = (Ok (Some (mkBalanceSnapshot (bs_total b) (bs_locked b + amount))), db1) /\
    db1 = set_collaterals (fun m => <[k := mkBalanceSnapshot (bs_total b)
            (bs_locked b + amount)]> m) db.
Proof.
  intros Hi Hneg. destruct (wf_balance _ Hwf _ _ Hb) as [(?&?&?) _].
  unfold lock_collateral. fold k.
  destruct (decide (0 <= bs_locked b + amount)).
  - right. eexists. split; [|done].
    apply (update_collateral_run k (fun b => amount <=? bs_total b - bs_locked b)
      (fun b => mkBalanceSnapshot (bs_total b) (bs_locked b + amount)) b);
      [exact Hb|apply Z.leb_le; lia|unfold balance_wf; cbn; lia].
  - left. unfold update_collateral, bind at 1, gets. rewrite Hb.
    rewrite (proj2 (Z.leb_le _ _)) by lia. apply bind_run_err.
    unfold write_collateral, collateral_ok, in_i64b, in_i64, i64_min, i64_max in *; cbn.
    repeat case_if; try done; lia.
Qed.

Lemma reserve_not_positive :
  in_i64 amount -> amount <= 0 ->
  reserve_funds uuid user rq key asset amount db
  = (Err (WalletRepositoryError_Storage CheckViolation), db).
Proof.
  intros Hi Hneg. unfold reserve_funds. cbn zeta.
  destruct (lock_not_positive Hi Hneg) as [Hl|(db1 & Hl & ->)].
  - rewrite (transaction_run_err _ _ (WalletRepositoryError_Storage CheckViolation) db);
      [by destruct db|]. by apply bind_run_err.
  - erewrite transaction_run_err; [|rewrite (bind_run _ _ _ _ _ Hl); apply bind_run_err;
      by apply insert_reservation_refused]. by destruct db.
Qed.

Lemma reserve_covered :
  0 < amount <= bs_total b - bs_locked b ->
  reserve_funds uuid user rq key asset amount db =
  if reservation_clash uuid user key db
  then (Err (WalletRepositoryError_Storage UniqueViolation), db)
  else (Ok (mkFundsReserved rq ("res_" +:+ uuid) asset amount),
        reserved_db uuid user rq key asset amount b db).
Proof.
  intros Ha. destruct (wf_balance _ Hwf _ _ Hb) as [(?&?&?) Hu]. cbn in Hu.
  unfold reserve_funds, transaction. cbn zeta.
  rewrite (bind_run _ _ _ (Some (mkBalanceSnapshot (bs_total b) (bs_locked b + amount)))
    (set_collaterals (fun m => <[k := mkBalanceSnapshot (bs_total b)
       (bs_locked b + amount)]> m) db)).
  - unfold bind at 1. rewrite insert_reservation_run; [| |done].
    + match goal with |- context [if ?c then (Err _, _) else (Ok tt, _)] =>
        change c with (reservation_clash uuid user key db) end.
      destruct (reservation_clash uuid user key db); [by destruct db|done].
    + unfold reservation_wf; cbn. split; [lia|]. split; [lia|]. left. split; [done|lia].
  - apply (update_collateral_run k (fun b => amount <=? bs_total b - bs_locked b)
      (fun b => mkBalanceSnapshot (bs_total b) (bs_locked b + amount)) b); [done|apply Z.leb_le; lia|unfold balance_wf; cbn; lia].
Qed.
End Reserve.

Lemma check_user_run user db : user ∈ users db -> check_user user db = (Ok tt, db).
Proof. intros Hu. unfold check_user, bind, gets. by rewrite bool_decide_eq_true_2. Qed.

Lemma record_fresh_run user ctype key rq v db :
  user ∈ users db -> stored_reply db user ctype key = None ->
  record_idempotent_reply_in_tx user ctype key rq v db
  = (Ok tt, set_idempotency (fun m => <[(user, ctype, key) := (rq, v)]> m) db).
Proof.
  intros Hu Hn. unfold record_idempotent_reply_in_tx, bind at 1, gets.
  unfold stored_reply in Hn. destruct (wallet_idempotency db !! _) as [[]|]; [done|].
  by rewrite (bind_run _ _ _ _ _ (check_user_run _ _ Hu)).
Qed.

Lemma insert_ledger_once_run user asset amount kind ref db :
  user ∈ users db -> wallet_ledger db !! (user, asset, kind, ref) = None ->
  insert_ledger_once user asset amount kind ref db
  = (Ok true, set_ledger (fun m => <[(user, asset, kind, ref) := amount]> m) db).
Proof.
  intros Hu Hn. unfold insert_ledger_once, bind at 1, gets.
  rewrite bool_decide_eq_false_2 by (rewrite Hn; by intros [? ?]).
  by rewrite (bind_run _ _ _ _ _ (check_user_run _ _ Hu)).
Qed.

(** ** The outbox *)

Definition enqueue_db (now : Z) (m : NewWalletOutboxMessage) db : WalletDb :=
  set_outbox (fun t => <[new_dedupe_key m := new_outbox_row (outbox_seq db) now m]> t)
    (set_outbox_seq (outbox_seq db + 1) db).

Lemma enqueue_nil now db : enqueue_outbox_messages_in_tx now [] db = (Ok tt, db).
Proof. done. Qed.

Lemma enqueue_fresh now m ms db :
  new_partition m = None -> wallet_outbox db !! new_dedupe_key m = None ->
  enqueue_outbox_messages_in_tx now (m :: ms) db
  = enqueue_outbox_messages_in_tx now ms (enqueue_db now m db).
Proof.
  intros Hp Hn. unfold enqueue_outbox_messages_in_tx, insert_outbox, next_outbox_id.
  cbn [for_each]. unfold bind at 1 2 3 4, gets at 1, modify at 1, ret at 1. cbn.
  rewrite Hp. unfold bind at 1, gets at 1. cbn. by rewrite Hn.
Qed.

Lemma enqueue_duplicate now m ms row db :
  new_partition m = None -> wallet_outbox db !! new_dedupe_key m = Some row ->
  row_matches m row = true ->
  enqueue_outbox_messages_in_tx now (m :: ms) db
  = enqueue_outbox_messages_in_tx now ms (set_outbox_seq (outbox_seq db + 1) db).
Proof.
  intros Hp Hn Hm. unfold enqueue_outbox_messages_in_tx, insert_outbox, next_outbox_id.
  cbn [for_each]. unfold bind at 1 2 3 4, gets at 1, modify at 1, ret at 1. cbn.
  rewrite Hp. unfold bind at 1, gets at 1. cbn. rewrite Hn. cbn.
  unfold outbox_duplicate_matches, bind at 1, gets at 1. cbn. by rewrite Hn, Hm.
Qed.

Lemma enqueue_conflict now m ms row db :
  new_partition m = None -> wallet_outbox db !! new_dedupe_key m = Some row ->
  row_matches m row = false ->
  enqueue_outbox_messages_in_tx now (m :: ms) db
  = (Err WalletRepositoryError_IdempotencyConflict, set_outbox_seq (outbox_seq db + 1) db).
Proof.
  intros Hp Hn Hm. unfold enqueue_outbox_messages_in_tx, insert_outbox, next_outbox_id.
  cbn [for_each]. unfold bind at 1 2 3 4, gets at 1, modify at 1, ret at 1. cbn.
  rewrite Hp. unfold bind at 1, gets at 1. cbn. rewrite Hn. cbn.
  unfold outbox_duplicate_matches, bind at 1, gets at 1. cbn. by rewrite Hn, Hm.
Qed.

Lemma finish_with_outbox_run {A} now builder (a : A) ms db db' :
  builder a = Ok ms -> enqueue_outbox_messages_in_tx now ms db = (Ok tt, db') ->
  finish_with_outbox now builder a db = (Ok a, db').
Proof.
  intros Hb He. unfold finish_with_outbox, bind at 1, lift. rewrite Hb.
  by rewrite (bind_run _ _ _ _ _ He).
Qed.

Lemma transaction_bind_run {A B} (m : Db A) (k : A -> Db B) (m' : Db B) db a db1 b db2 :
  m' ≡ transaction (bind m k) -> m db = (Ok a, db1) -> k a db1 = (Ok b, db2) ->
  m' db = (Ok b, db2).
Proof.
  intros E Hm Hk. rewrite (E db). apply transaction_run. by rewrite (bind_run _ _ _ _ _ Hm).
Qed.

Section Release.
Context {LAWS : SerdeLaws}.
Variable self : WalletProcessor.

(** The message a release of this reservation publishes. *)
Definition release_message (release : ReleaseReservation) (user : Z) (asset : Asset)
    : option NewWalletOutboxMessage :=
  let key := funds_released_dedupe_key release in
  let event := WalletEvent_FundsReleased
    (mkWalletFundsReleased (Some key) user (rr_reservation_id release) asset
       (rr_amount release) (rr_reason release)) in
  match wallet_event_to_value event with
  | Some v => Some (mkNewWalletOutboxMessage key (wallet_events_topic self) None
                      (rr_reservation_id release) "WalletEvent" v)
  | None => None
  end.

Lemma release_message_built release user asset r :
  rec_reservation_id r = rr_reservation_id release -> rec_user_id r = user ->
  rec_asset r = asset ->
  exists m, release_message release user asset = Some m /\ new_partition m = None /\
    new_dedupe_key m = funds_released_dedupe_key release /\
    event_builder self (funds_released_dedupe_key release) rec_reservation_id
      (funds_released_event (funds_released_dedupe_key release) release) r = Ok [m].
Proof.
  intros Hr <- <-. unfold release_message, event_builder, wallet_event_outbox_message, json,
    funds_released_event. rewrite Hr.
  destruct (wallet_event_total (WalletEvent_FundsReleased
    (mkWalletFundsReleased (Some (funds_released_dedupe_key release)) (rec_user_id r)
       (rr_reservation_id release) (rec_asset r) (rr_amount release)
       (rr_reason release)))) as [v ->]. cbn. eauto 10.
Qed.

(** A release succeeds whenever the reservation covers it and the outbox either
    has not seen its key or holds the same message under it. *)
Lemma process_release_total d release row db :
  books_ok (books db) ->
  wallet_reservations db !! rr_reservation_id release = Some row ->
  releasable row (rr_amount release) = true ->
  (match wallet_outbox db !! funds_released_dedupe_key release,
         release_message release (row_user_id row) (asset_from_db (row_asset row)) with
   | Some out, Some m => row_matches m out = true
   | _, _ => True
   end) ->
  exists b res db', process_release_reservation self d release db = (Ok res, db') /\
    user_collaterals db !! (row_user_id row, row_asset row) = Some b /\
    books db' = books (released_db (rr_reservation_id release) row b (rr_amount release) db) /\
    (is_Some (wallet_outbox db !! funds_released_dedupe_key release) ->
     wallet_outbox db' = wallet_outbox db).
Proof.
  intros Hok Hrow Hrel Hout.
  destruct (release_reservation_run release row db Hok Hrow Hrel) as (b & Hb & _ & Hrun).
  destruct (release_message_built release (row_user_id row) (asset_from_db (row_asset row))
    (reservation_from_row (rr_reservation_id release)
       (reservation_less row (rr_amount release) "RELEASED")))
    as (m & Hm & Hp & Hk & Hbuild); [done..|].
  rewrite process_release_unfold. cbn zeta. exists b.
  assert (exists db', finish_with_outbox (draw_now d)
    (event_builder self (funds_released_dedupe_key release) rec_reservation_id
      (funds_released_event (funds_released_dedupe_key release) release))
    (reservation_from_row (rr_reservation_id release)
       (reservation_less row (rr_amount release) "RELEASED"))
    (released_db (rr_reservation_id release) row b (rr_amount release) db) =
    (Ok (reservation_from_row (rr_reservation_id release)
       (reservation_less row (rr_amount release) "RELEASED")), db') /\
    books db' = books (released_db (rr_reservation_id release) row b (rr_amount release) db) /\
    (is_Some (wallet_outbox db !! funds_released_dedupe_key release) ->
     wallet_outbox db' = wallet_outbox db)) as (db' & Hf & Hbk & Ho).
  { rewrite Hm in Hout. destruct (wallet_outbox db !! _) as [out|] eqn:Eo.
    - eexists. split.
      + eapply finish_with_outbox_run; [exact Hbuild|].
        rewrite (enqueue_duplicate _ _ _ out); [apply enqueue_nil|done|by rewrite Hk|done].
      + done.
    - eexists. split.
      + eapply finish_with_outbox_run; [exact Hbuild|].
        rewrite enqueue_fresh; [apply enqueue_nil|done|by rewrite Hk].
      + split; [done|]. by intros [? ?]. }
  eexists _, db'. split; [|by split_and!].
  rewrite (bind_run _ _ _ _ _ (transaction_bind_run _ _ _ _ _ _ _ _
    (release_reservation_with_outbox_eq _ _ _) Hrun Hf)). done.
Qed.

(** What a successful release has left, the matching outbox row included. *)
Lemma release_runs_to d release row db res db1 :
  books_ok (books db) ->
  wallet_reservations db !! rr_reservation_id release = Some row ->
  releasable row (rr_amount release) = true ->
  process_release_reservation self d release db = (Ok res, db1) ->
  exists b, user_collaterals db !! (row_user_id row, row_asset row) = Some b /\
    books db1 = books (released_db (rr_reservation_id release) row b (rr_amount release) db) /\
    exists out, wallet_outbox db1 !! funds_released_dedupe_key release = Some out /\
      forall m, release_message release (row_user_id row) (asset_from_db (row_asset row))
                = Some m -> row_matches m out = true.
Proof.
  intros Hok Hrow Hrel H.
  destruct (release_reservation_run release row db Hok Hrow Hrel) as (b & Hb & _ & Hrun).
  destruct (release_message_built release (row_user_id row) (asset_from_db (row_asset row))
    (reservation_from_row (rr_reservation_id release)
       (reservation_less row (rr_amount release) "RELEASED")))
    as (m & Hm & Hp & Hk & Hbuild); [done..|].
  rewrite process_release_unfold in H. cbn zeta in H.
  apply bind_ok in H as (r & db2 & H & E). injection E as _ <-.
  destruct (transaction_bind_ok _ _ _ _ _ _ (release_reservation_with_outbox_eq _ _ _) H)
    as (r' & db3 & H1 & H2).
  rewrite Hrun in H1. injection H1 as <- <-.
  apply finish_with_outbox_ok in H2 as (-> & ms & Hms & Hbk & _ & Hst & _).
  rewrite Hbuild in Hms. injection Hms as <-.
  exists b. split; [done|]. split; [done|].
  destruct (Hst m) as (out & Hout & Hmatch); [by left|]. rewrite Hk in Hout.
  exists out. split; [done|]. intros m' Hm'. rewrite Hm in Hm'. by injection Hm' as <-.
Qed.
End Release.

(** A cancellation is accepted whenever its user exists, it was not answered
    before and the outbox does not hold its key. *)
Lemma forward_cancel_total {LAWS : SerdeLaws} self d intent db :
  let env := coi_envelope intent in
  env_user_id env ∈ users db ->
  stored_reply db (env_user_id env) "CancelOrderIntent" (env_idempotency_key env) = None ->
  wallet_outbox db !! cancel_order_dedupe_key env = None ->
  exists db', forward_cancel self d intent db =
    (Ok (mkWalletProcessResult
           [WalletReply_CommandAccepted (mkCommandAccepted (env_request_id env))] []
           [EngineCommand_CancelOrder (into_engine_cancel_order intent)]), db').
Proof.
  intros env Hu Hs Ho. rewrite forward_cancel_unfold. cbn zeta.
  rewrite with_stored_reply_miss by done. fold env.
  destruct (engine_command_total
    (EngineCommand_CancelOrder (into_engine_cancel_order intent))) as [w Hw].
  destruct (reply_roundtrip (WalletReply_CommandAccepted
    (mkCommandAccepted (env_request_id env)))) as (v & Hv & _).
  unfold engine_command_outbox_message, json, reply_value. cbn [eip_input EngineInputPublication_new].
  rewrite Hw, Hv. cbn [ok_or rbind].
  eexists. rewrite (bind_run (lift _) _ db _ db eq_refl).
  rewrite (bind_run (lift _) _ db _ db eq_refl).
  eapply eq_trans; [apply (bind_run _ _ _ tt)|reflexivity].
  unfold record_idempotent_reply_with_outbox. apply transaction_run.
  rewrite (bind_run _ _ _ _ _ (record_fresh_run _ _ _ _ _ _ Hu Hs)).
  rewrite enqueue_fresh; [apply enqueue_nil|done|exact Ho].
Qed.

(** A delta that adds to an account is applied whenever its user exists, its
    reference is new, the sums fit and the outbox does not hold its key. *)
Lemma positive_delta_total {LAWS : SerdeLaws} self d delta db :
  books_wf (books db) ->
  0 < apd_total_delta delta -> 0 <= apd_locked_delta delta <= apd_total_delta delta ->
  apd_user_id delta ∈ users db ->
  let k := (apd_user_id delta, asset_to_db (apd_asset delta)) in
  total_at (books db) k + apd_total_delta delta <= i64_max ->
  wallet_ledger db !! (k, apd_kind delta, apd_reference_id delta) = None ->
  wallet_outbox db !! account_delta_dedupe_key delta = None ->
  let b := mkBalanceSnapshot (total_at (books db) k + apd_total_delta delta)
             (locked_at (books db) k + apd_locked_delta delta) in
  exists db', process_account_delta self d delta db
    = (Ok (mkWalletProcessResult []
             [account_delta_applied_event (account_delta_dedupe_key delta) delta b] []), db').
Proof.
  intros Hwf Hpos Hl Hu k Hmax Hn Ho b. rewrite process_account_delta_unfold. cbn zeta.
  set (event := account_delta_applied_event (account_delta_dedupe_key delta) delta b).
  destruct (wallet_event_total event) as [v Hv].
  assert (balance_wf b) as Hb.
  { destruct (balance_at_wf _ k Hwf) as (?&?&?).
    unfold balance_wf, b, total_at, locked_at in *; cbn; lia. }
  pose proof (insert_ledger_once_run _ _ (apd_total_delta delta) _ _ db Hu Hn) as Hi.
  set (db1 := set_ledger _ db) in Hi.
  assert (delta_collateral (apd_user_id delta) (asset_to_db (apd_asset delta))
    (apd_total_delta delta) (apd_locked_delta delta) db1
    = (Ok (Some b), set_collaterals (fun m => <[k := b]> m) db1)) as Hd.
  { unfold delta_collateral. case_if; [|lia].
    apply (upsert_collateral_both_run k (apd_total_delta delta) (apd_locked_delta delta) _ db1).
    - destruct Hwf. by split.
    - done.
    - lia.
    - done.
    - change (total_at (books db1) k) with (total_at (books db) k).
      change (locked_at (books db1) k) with (locked_at (books db) k).
      unfold b, balance_wf in Hb; cbn in *. rewrite !andb_true_iff, !Z.leb_le. lia. }
  eexists. unfold apply_account_delta_with_outbox. cbn.
  case_if; [lia|].
  eapply eq_trans; [apply (bind_run _ _ _ (Some b)); apply transaction_run|reflexivity].
  rewrite (bind_run _ _ _ _ _ Hi). cbn [negb]. rewrite (bind_run _ _ _ _ _ Hd).
  unfold event_builder, wallet_event_outbox_message, json. fold event. rewrite Hv.
  cbn [ok_or rbind]. rewrite (bind_run (lift (Ok _)) _ _ _ _ eq_refl).
  eapply eq_trans; [apply (bind_run _ _ _ tt)|reflexivity].
  rewrite enqueue_fresh; [apply enqueue_nil|done|exact Ho].
Qed.
End WithSerde.
