(* ===== verification/WalletTheorems.v ===== *)
(** * WalletTheorems: the correctness of the wallet

    The properties of the wallet's command and engine-event handlers: they
    implement the specification of [WalletSpec], keep its invariants from the
    empty database on, publish what they answer, answer a repeated command the
    same way, and a command that fails leaves no trace. *)

From S2P Require Import Prelude Protocol Postgres WalletDb WalletRepository WalletProcessor.
From S2P Require Import WalletSpec WalletStatements WalletRefinement WalletHandlers.
From S2P Require Import WalletRuns WalletErrors WalletTotal.

(** ** Reachable databases *)

(** A database before the first command: users, and nothing else. *)
Definition empty_wallet `{!Serde} (us : gset Z) : WalletDb :=
  mkWalletDb us ∅ ∅ ∅ ∅ ∅ 1 ∅.

(** One input handled, whether it succeeded or not. *)
Definition wallet_step `{!Serde} (self : WalletProcessor) (db db' : WalletDb) : Prop :=
  exists d i r, process_input self d i db = (r, db').

(** The wallet events a handled input leads to: none when it fails. *)
Definition announced (r : Result WalletRepositoryError WalletProcessResult) : list WalletEvent :=
  match r with Ok res => wallet_events res | Err _ => [] end.

(** Inputs handled one after the other, with the events they announced. *)
Inductive wallet_trace `{!Serde} (self : WalletProcessor)
    : WalletDb -> list WalletEvent -> WalletDb -> Prop :=
| trace_nil db : wallet_trace self db [] db
| trace_cons d i db r db1 es db2 :
    process_input self d i db = (r, db1) -> wallet_trace self db1 es db2 ->
    wallet_trace self db (announced r ++ es) db2.

Section WithSerde.
Context {SD : Serde}.
Implicit Types (db : WalletDb).

Lemma unreserved_at_empty us k : unreserved_at (books (empty_wallet us)) k = 0.
Proof.
  unfold unreserved_at, locked_at, balance_at, reserved_at. cbn.
  by rewrite lookup_empty, map_sum_empty.
Qed.

Lemma books_ok_empty us : books_ok (books (empty_wallet us)).
Proof.
  split.
  - split; cbn; intros ?? E; by rewrite lookup_empty in E.
  - intros k. by rewrite unreserved_at_empty.
  - intros k. unfold total_at, balance_at, entered_at. cbn.
    by rewrite lookup_empty, map_sum_empty.
Qed.

(** An input takes the books through the steps of the events it announces. *)
Lemma process_input_steps self d i db r db' :
  books_ok (books db) -> process_input self d i db = (r, db') ->
  book_steps (books db) (announced r) (books db').
Proof.
  intros [Hwf Hb _] H. destruct r as [res|e]; cbn.
  - by apply (run_steps _ _ _ _ (process_input_run self d i db res db' Hwf Hb H)).
  - apply process_input_err in H. rewrite (same_tables_books db db') by done. constructor.
Qed.

Lemma wallet_step_ok self db db' :
  wallet_step self db db' -> books_ok (books db) -> books_ok (books db').
Proof. intros (d & i & r & H) Hok. eauto using book_steps_ok, process_input_steps. Qed.

Lemma wallet_trace_steps self db es db' :
  wallet_trace self db es db' -> books_ok (books db) -> book_steps (books db) es (books db').
Proof.
  induction 1 as [|d i db r db1 es db2 H _ IH]; intros Hok; [constructor|].
  pose proof (process_input_steps _ _ _ _ _ _ Hok H) as Hs.
  eauto using book_steps_app, book_steps_ok.
Qed.

(** Every run of the wallet is a trace. *)
Lemma wallet_steps_trace self db db' :
  rtc (wallet_step self) db db' -> exists es, wallet_trace self db es db'.
Proof.
  induction 1 as [db|db1 db2 db3 (d & i & r & H) _ [es IH]]; [by exists []; constructor|].
  exists (announced r ++ es). by econstructor.
Qed.

Lemma wallet_steps_ok self db db' :
  rtc (wallet_step self) db db' -> books_ok (books db) -> books_ok (books db').
Proof. induction 1; eauto using wallet_step_ok. Qed.

Lemma wallet_step_kept self db db' :
  wallet_step self db db' -> books_ok (books db) -> replies_kept db db'.
Proof.
  intros (d & i & [res|e] & H) [Hwf Hb _].
  - by apply (run_kept _ _ _ _ (process_input_run self d i db res db' Hwf Hb H)).
  - apply process_input_err in H. rewrite H. by apply replies_kept_eq.
Qed.

Lemma wallet_steps_kept self db db' :
  rtc (wallet_step self) db db' -> books_ok (books db) -> replies_kept db db'.
Proof.
  induction 1 as [|db1 db2 db3 Hs _ IH]; intros Hok; [by intros u t k v|].
  intros u t k v Hv. apply IH; [by eapply wallet_step_ok|].
  by eapply wallet_step_kept.
Qed.

(** ** Reservations over time *)

(** [r'] is [r] with some of it used up; a closed reservation stays as it is. *)
Definition reservation_evolves (r r' : ReservationRow) : Prop :=
  row_user_id r' = row_user_id r /\ row_asset r' = row_asset r /\
  row_amount r' = row_amount r /\ row_idempotency_key r' = row_idempotency_key r /\
  row_request_id r' = row_request_id r /\ row_remaining r' <= row_remaining r /\
  (row_status r <> "ACTIVE" -> r' = r).

Lemma reservation_evolves_refl r : reservation_evolves r r.
Proof. by split_and!. Qed.

Lemma reservation_evolves_trans r1 r2 r3 :
  reservation_evolves r1 r2 -> reservation_evolves r2 r3 -> reservation_evolves r1 r3.
Proof.
  intros (? & ? & ? & ? & ? & ? & Ha) (? & ? & ? & ? & ? & ? & Hb).
  split_and!; try congruence; [lia|]. intros Hs. pose proof (Ha Hs) as ->. by apply Hb.
Qed.

Lemma book_step_evolves bk e bk' rid r :
  book_step bk e bk' -> bk_res bk !! rid = Some r ->
  exists r', bk_res bk' !! rid = Some r' /\ reservation_evolves r r'.
Proof.
  intros Hs Hr. assert (forall rid' r' bk0 r0,
    bk_res bk !! rid' = Some r0 -> reservation_evolves r0 r' -> bk_res bk0 = bk_res bk ->
    exists r'', bk_res (with_reservation rid' r' bk0) !! rid = Some r'' /\
      reservation_evolves r r'') as Hrep.
  { intros rid' r' bk0 r0 H0 He Hbk. cbn. rewrite Hbk.
    destruct (decide (rid' = rid)) as [->|Hne].
    - rewrite lookup_insert_eq. simplify_eq. eauto.
    - rewrite lookup_insert_ne by done. eauto using reservation_evolves_refl. }
  assert (forall r0 amount closed, row_status r0 = "ACTIVE" -> 0 < amount ->
    reservation_evolves r0 (reservation_less r0 amount closed)) as Hless.
  { intros r0 amount closed Hst Ha. unfold reservation_evolves, reservation_less; cbn.
    split_and!; try done; lia. }
  destruct Hs; try (exists r; split; [exact Hr|apply reservation_evolves_refl]).
  - exists r. split; [|apply reservation_evolves_refl]. cbn.
    rewrite lookup_insert_ne; [done|]. by intros ->; simplify_eq.
  - eapply Hrep; [done| |done]. apply Hless; [done|lia].
  - eapply Hrep; [done| |]; [apply Hless; [done|lia]|].
    cbn. by eapply settle_balances_frame.
Qed.

Lemma book_steps_evolve bk es bk' rid r :
  book_steps bk es bk' -> bk_res bk !! rid = Some r ->
  exists r', bk_res bk' !! rid = Some r' /\ reservation_evolves r r'.
Proof.
  intros Hs. revert r. induction Hs as [|bk e bk1 es bk2 He _ IH]; intros r Hr.
  - eauto using reservation_evolves_refl.
  - destruct (book_step_evolves _ _ _ _ _ He Hr) as (r1 & Hr1 & He1).
    destruct (IH _ Hr1) as (r2 & ? & ?). eauto using reservation_evolves_trans.
Qed.

Lemma wallet_step_evolves self db db' rid r :
  wallet_step self db db' -> books_ok (books db) ->
  wallet_reservations db !! rid = Some r ->
  exists r', wallet_reservations db' !! rid = Some r' /\ reservation_evolves r r'.
Proof.
  intros (d & i & [res|e] & H) [Hwf Hb _] Hr.
  - pose proof (run_steps _ _ _ _ (process_input_run self d i db res db' Hwf Hb H)) as Hs.
    change (bk_res (books db) !! rid = Some r) in Hr.
    change (wallet_reservations db') with (bk_res (books db')).
    by eapply book_steps_evolve.
  - apply process_input_err in H. rewrite H. exists r.
    split; [done|apply reservation_evolves_refl].
Qed.

Lemma wallet_steps_evolve self db db' rid r :
  rtc (wallet_step self) db db' -> books_ok (books db) ->
  wallet_reservations db !! rid = Some r ->
  exists r', wallet_reservations db' !! rid = Some r' /\ reservation_evolves r r'.
Proof.
  intros Hs. revert r. induction Hs as [db|db1 db2 db3 H1 _ IH]; intros r Hok Hr.
  - eauto using reservation_evolves_refl.
  - destruct (wallet_step_evolves _ _ _ _ _ H1 Hok Hr) as (r2 & Hr2 & ?).
    destruct (IH r2) as (r3 & ? & ?); [by eapply wallet_step_ok|done|].
    eauto using reservation_evolves_trans.
Qed.

Lemma release_refused self d release row db :
  wallet_reservations db !! rr_reservation_id release = Some row ->
  releasable row (rr_amount release) = false ->
  process_release_reservation self d release db
  = (Err WalletRepositoryError_InvalidReservationState, db).
Proof.
  intros Hrow Hrel. rewrite process_release_unfold. cbn zeta.
  unfold release_reservation_with_outbox. apply bind_run_err.
  rewrite (transaction_run_err _ _ WalletRepositoryError_InvalidReservationState db).
  - by destruct db.
  - rewrite (bind_run _ _ _ _ _ (reservation_in_tx_run _ _ _ Hrow)).
    by rewrite release_guard, Hrel.
Qed.

Lemma settle_refused self d settle row db :
  wallet_reservations db !! st_reservation_id settle = Some row ->
  row_status row <> "ACTIVE" ->
  process_settle_trade self d settle db
  = (Err WalletRepositoryError_InvalidReservationState, db).
Proof.
  intros Hrow Hst. rewrite process_settle_unfold. cbn zeta.
  unfold settle_trade_with_outbox. apply bind_run_err.
  rewrite (transaction_run_err _ _ WalletRepositoryError_InvalidReservationState db).
  - by destruct db.
  - rewrite (bind_run _ _ _ _ _ (reservation_in_tx_run _ _ _ Hrow)). cbn.
    by rewrite bool_decide_eq_false_2.
Qed.

(** ** The ledger is append-only *)

Lemma settle_entries_kept bk bk1 user da debit ca credit :
  settle_balances user da debit ca credit bk bk1 -> bk_ledger bk1 = bk_ledger bk.
Proof. intros H. by eapply settle_balances_frame. Qed.

Lemma book_step_entries bk e bk' k n :
  book_step bk e bk' -> bk_ledger bk !! k = Some n -> bk_ledger bk' !! k = Some n.
Proof.
  intros Hs Hk. destruct Hs; repeat match goal with x := _ |- _ => subst x end;
    cbn; try done; rewrite ?lookup_insert_ne by (intros <-; congruence); try done.
  by rewrite (settle_entries_kept _ _ _ _ _ _ _ H3).
Qed.

Lemma book_steps_entries bk es bk' k n :
  book_steps bk es bk' -> bk_ledger bk !! k = Some n -> bk_ledger bk' !! k = Some n.
Proof. induction 1; eauto using book_step_entries. Qed.

Lemma wallet_steps_entries self db db' k n :
  rtc (wallet_step self) db db' -> books_ok (books db) ->
  wallet_ledger db !! k = Some n -> wallet_ledger db' !! k = Some n.
Proof.
  induction 1 as [|db1 db2 db3 Hs _ IH]; intros Hok Hk; [done|].
  apply IH; [by eapply wallet_step_ok|].
  destruct Hs as (d & i & [res|e] & H), Hok as [Hwf Hb _].
  - apply (book_steps_entries (books db1) (wallet_events res) (books db2)); [|done].
    by apply (run_steps _ _ _ _ (process_input_run self d i db1 res db2 Hwf Hb H)).
  - apply process_input_err in H. by rewrite H.
Qed.

Lemma delta_skipped self d delta db :
  (apd_total_delta delta = 0 /\ apd_locked_delta delta = 0) \/
  is_Some (wallet_ledger db !! (apd_user_id delta, asset_to_db (apd_asset delta),
                                apd_kind delta, apd_reference_id delta)) ->
  process_account_delta self d delta db = (Ok (mkWalletProcessResult [] [] []), db).
Proof.
  intros Hc. rewrite process_account_delta_unfold. cbn zeta.
  unfold apply_account_delta_with_outbox. cbn [delta_update adu_total_delta adu_locked_delta].
  destruct ((apd_total_delta delta =? 0) && (apd_locked_delta delta =? 0)) eqn:E;
    [reflexivity|].
  destruct Hc as [[E1 E2]|Hin]; [by rewrite E1, E2 in E|].
  rewrite (bind_run _ _ _ None db); [reflexivity|]. apply transaction_run.
  unfold insert_ledger_once, bind, gets. by rewrite (bool_decide_eq_true_2 _ Hin).
Qed.

Lemma process_account_delta_entry self d delta db res db' :
  process_account_delta self d delta db = (Ok res, db') ->
  (apd_total_delta delta = 0 /\ apd_locked_delta delta = 0) \/
  is_Some (wallet_ledger db' !! (apd_user_id delta, asset_to_db (apd_asset delta),
                                 apd_kind delta, apd_reference_id delta)).
Proof.
  intros H. rewrite process_account_delta_unfold in H. cbn zeta in H.
  apply bind_ok in H as (o & db1 & H & E).
  assert (db1 = db') as -> by (by destruct o; injection E).
  destruct (transaction_bind_ok _ _ _ _ _ _
    (apply_account_delta_with_outbox_eq _ _ _) H) as ([b|] & db2 & H1 & H2).
  - right. unfold finish_delta in H2. apply bind_ok in H2 as (b' & db3 & H2 & H3).
    injection H3 as <- <-.
    apply finish_with_outbox_ok in H2 as (_ & ms & _ & Hbk & _).
    change (is_Some (bk_ledger (books db3) !! (apd_user_id delta,
      asset_to_db (apd_asset delta), apd_kind delta, apd_reference_id delta))).
    rewrite Hbk. unfold apply_account_delta in H1. cbn in H1. inv_m H1.
    apply insert_ledger_once_ok in Hm as [(-> & _)|(-> & Hn & _ & ->)]; [done|].
    unfold delta_collateral in Hm0. case_if_in Hm0; [|by inv_m Hm0].
    apply upsert_collateral_ok in Hm0 as [_ [(? & _)|(_ & _ & _ & ->)]]; [done|].
    cbn. rewrite lookup_insert_eq. eauto.
  - injection H2 as <- <-. by apply apply_account_delta_none in H1 as [-> Hc].
Qed.

Lemma negative_delta_refused self d delta db :
  apd_total_delta delta < 0 ->
  apd_user_id delta ∈ users db ->
  wallet_ledger db !! (apd_user_id delta, asset_to_db (apd_asset delta),
                       apd_kind delta, apd_reference_id delta) = None ->
  process_account_delta self d delta db
  = (Err WalletRepositoryError_InvalidAccountDelta, db).
Proof.
  intros Hneg Hu Hn. rewrite process_account_delta_unfold. cbn zeta. apply bind_run_err.
  unfold apply_account_delta_with_outbox. cbn.
  case_if; [lia|].
  rewrite (transaction_run_err _ db WalletRepositoryError_InvalidAccountDelta
    (set_ledger (fun m => <[(apd_user_id delta, asset_to_db (apd_asset delta),
       apd_kind delta, apd_reference_id delta) := apd_total_delta delta]> m) db));
    [by destruct db|].
  rewrite (bind_run _ _ _ true (set_ledger (fun m => <[(apd_user_id delta,
    asset_to_db (apd_asset delta), apd_kind delta, apd_reference_id delta)
      := apd_total_delta delta]> m) db)).
  - cbn. unfold delta_collateral. by case_if; [lia|].
  - unfold insert_ledger_once, check_user, bind, gets. cbn. rewrite Hn, bool_decide_eq_false_2.
    + by rewrite bool_decide_eq_true_2.
    + by intros [? ?].
Qed.

(** ** Properties *)

(** Claim C1 (refinement). In books that are in order, whatever the wallet
    answers [Ok] to -- a command or an engine event's command -- has taken the
    books exactly through the steps of the specification that the returned
    wallet events stand for. *)
Theorem wallet_refines_spec self d i db res db' :
  books_ok (books db) ->
  process_input self d i db = (Ok res, db') ->
  book_steps (books db) (wallet_events res) (books db').
Proof.
  intros [Hwf Hb _] H. by apply (run_steps _ _ _ _ (process_input_run self d i db res db' Hwf Hb H)).
Qed.

(** Claim C2 (invariant). From a database that holds only users, any sequence of
    commands and engine events' commands, failed ones included, leaves books in
    which balances are within their bounds and every reservation is active exactly
    while something remains of it; every total is the sum of the account's ledger
    entries; and what an account has locked is what its reservations still hold and
    the locked parts of the deltas that were announced for it, none of them negative.
    The books are those the announced events make of the empty ones. *)
Theorem wallet_books_invariant self us es db :
  wallet_trace self (empty_wallet us) es db ->
  books_wf (books db) /\
  book_steps (books (empty_wallet us)) es (books db) /\
  (forall k, total_at (books db) k = entered_at (books db) k) /\
  (forall k, locked_at (books db) k = reserved_at (books db) k + locked_directly k es /\
             0 <= locked_directly k es).
Proof.
  intros H. pose proof (wallet_trace_steps _ _ _ _ H (books_ok_empty us)) as Hs.
  destruct (book_steps_ok _ _ _ Hs (books_ok_empty us)) as [Hwf Hb Hc].
  split_and!; [done..|]. intros k.
  pose proof (book_steps_unreserved _ _ _ k Hs) as E. specialize (Hb k).
  rewrite unreserved_at_empty in E. unfold unreserved_at in *. lia.
Qed.

(** Claim C3 (safety). A successful answer's wallet events and engine inputs are
    in the outbox when the transaction commits, under their ids, with the topic,
    key and payload they are published with; and no outbox row is lost. *)
Theorem wallet_publishes_results self d i db res db' :
  books_ok (books db) ->
  process_input self d i db = (Ok res, db') ->
  Forall (event_published self db') (wallet_events res) /\
  Forall (input_published self db') (engine_inputs res) /\
  outbox_grows db db'.
Proof.
  intros [Hwf Hb _] H. by destruct (process_input_run self d i db res db' Hwf Hb H).
Qed.

(** Claim C4 (functional). Once an enveloped command has been answered, any
    later command of the same user, type and idempotency key -- whatever else the
    wallet has handled in between -- gets the same reply with its own request id,
    emits nothing and changes nothing. *)
Theorem wallet_replay_same_answer {LAWS : SerdeLaws} self d d' c c' k db db1 db2 res :
  books_ok (books db) ->
  command_key c = Some k -> command_key c' = Some k ->
  process_command self d c db = (Ok res, db1) ->
  rtc (wallet_step self) db1 db2 ->
  process_command self d' c' db2
  = (Ok (mkWalletProcessResult
           ((fun r => reply_with_request_id r (command_request_id c')) <$> wallet_replies res)
           [] []), db2).
Proof.
  intros Hok Hk Hk' H Hs. destruct k as [[user ctype] key].
  assert (wallet_step self db db1) as H1 by (by exists d, (InCommand c), (Ok res)).
  destruct (process_command_answered self d c user ctype key db res db1 (ok_wf _ Hok) Hk H)
    as (r & v & Hres & Hv & Hr).
  eapply wallet_steps_kept in Hv; [|exact Hs|by eapply wallet_step_ok].
  rewrite (process_command_hit self d' c' user ctype key db2 v r) by done.
  rewrite Hres. cbn. by rewrite reply_with_request_id_twice.
Qed.

(** Claim C5 (error). A command that ends in an error, be it a command of the queue or
    one of those an engine event stands for, changes no table: only the outbox
    sequence may have moved on. (What earlier commands of the same event have
    committed stays; WalletQueueTheorems says how far an event gets.) *)
Theorem wallet_error_leaves_tables self d i db e db' :
  process_input self d i db = (Err e, db') ->
  db' = set_outbox_seq (outbox_seq db') db.
Proof. apply process_input_err. Qed.

(** Claim C6 (safety). As the wallet runs on, one transaction after the other (the
    events of a market, and so of a reservation, are handled by one task; the read of
    a reservation takes no row lock), a reservation keeps its owner, its
    asset and its amount and never grows back, and once it is RELEASED or
    SETTLED it never changes again and every further release or settlement of it
    is refused as [InvalidReservationState]. *)
Theorem reservation_lifecycle self db db' rid r :
  books_ok (books db) ->
  wallet_reservations db !! rid = Some r ->
  rtc (wallet_step self) db db' ->
  exists r', wallet_reservations db' !! rid = Some r' /\
    row_user_id r' = row_user_id r /\ row_asset r' = row_asset r /\
    row_amount r' = row_amount r /\ 0 <= row_remaining r' <= row_remaining r /\
    (row_status r <> "ACTIVE" ->
     r' = r /\
     (forall d release, rr_reservation_id release = rid ->
        process_release_reservation self d release db'
        = (Err WalletRepositoryError_InvalidReservationState, db')) /\
     (forall d settle, st_reservation_id settle = rid ->
        process_settle_trade self d settle db'
        = (Err WalletRepositoryError_InvalidReservationState, db'))).
Proof.
  intros Hok Hr Hs.
  destruct (wallet_steps_evolve _ _ _ _ _ Hs Hok Hr) as (r' & Hr' & ? & ? & ? & ? & ? & ? & Hc).
  pose proof (wallet_steps_ok _ _ _ Hs Hok) as [Hwf _ _].
  destruct (wf_reservation _ Hwf _ _ Hr') as [(_ & ? & _) _].
  exists r'. split_and!; try done; [lia|]. intros Hst. pose proof (Hc Hst) as ->.
  split_and!; [done|intros d release <-|intros d settle <-].
  - apply (release_refused _ _ _ r); [done|]. unfold releasable.
    by rewrite bool_decide_eq_false_2.
  - by apply (settle_refused _ _ _ r).
Qed.

(** A delta the engine sends is applied at most once: after
    it has been handled without error, handling any delta with the same user,
    asset, kind and reference again -- at any later time -- does nothing. *)
Theorem account_delta_applied_once self d d' delta delta' db db1 db2 res :
  books_ok (books db) ->
  process_account_delta self d delta db = (Ok res, db1) ->
  rtc (wallet_step self) db1 db2 ->
  apd_user_id delta' = apd_user_id delta -> apd_asset delta' = apd_asset delta ->
  apd_kind delta' = apd_kind delta -> apd_reference_id delta' = apd_reference_id delta ->
  apd_total_delta delta <> 0 ->
  process_account_delta self d' delta' db2 = (Ok (mkWalletProcessResult [] [] []), db2).
Proof.
  intros Hok H Hs Eu Ea Ek Er Ht. apply delta_skipped. right.
  rewrite Eu, Ea, Ek, Er.
  assert (books_ok (books db1)) as Hok1.
  { apply (wallet_step_ok self db); [|done].
    by exists d, (InEngine (EngineWalletCommand_ApplyAccountDelta delta)), (Ok res). }
  apply process_account_delta_entry in H as [[? _]|[n Hn]]; [done|].
  exists n. by eapply wallet_steps_entries.
Qed.

(** The upsert of a delta proposes no row for a negative delta,
    so one that takes funds from an account (a fee, a funding payment, a loss) is
    refused as [InvalidAccountDelta] however large the account's balance is. *)
Theorem negative_account_delta_refused self d delta db :
  apd_total_delta delta < 0 ->
  apd_user_id delta ∈ users db ->
  wallet_ledger db !! (apd_user_id delta, asset_to_db (apd_asset delta),
                       apd_kind delta, apd_reference_id delta) = None ->
  process_account_delta self d delta db
  = (Err WalletRepositoryError_InvalidAccountDelta, db).
Proof. apply negative_delta_refused. Qed.

(** In books that are in order, a release answers, on every
    branch: an unknown reservation is not found; one that is closed, or covers
    less than the amount, or an amount that is not positive is an invalid state;
    otherwise the balance unlocks the amount, the reservation keeps the rest and
    is RELEASED when nothing is left. *)
Theorem release_reservation_functional release db :
  books_ok (books db) ->
  let rid := rr_reservation_id release in
  let amount := rr_amount release in
  release_reservation release db =
  match wallet_reservations db !! rid with
  | None => (Err WalletRepositoryError_ReservationNotFound, db)
  | Some row =>
      if bool_decide (row_status row = "ACTIVE") && (0 <? amount)
         && (amount <=? row_remaining row)
      then (Ok (reservation_from_row rid (reservation_less row amount "RELEASED")),
            released_db rid row
              (balance_at (books db) (row_user_id row, row_asset row)) amount db)
      else (Err WalletRepositoryError_InvalidReservationState, db)
  end.
Proof.
  intros Hok rid amount. destruct (wallet_reservations db !! rid) as [row|] eqn:Hrow.
  - change (bool_decide (row_status row = "ACTIVE") && (0 <? amount)
      && (amount <=? row_remaining row)) with (releasable row amount).
    destruct (releasable row amount) eqn:Hrel.
    + destruct (release_reservation_run release row db Hok Hrow Hrel) as (b & Hb & _ & ->).
      by rewrite (balance_at_lookup (books db) _ b Hb).
    + unfold release_reservation.
      rewrite (transaction_run_err _ _ WalletRepositoryError_InvalidReservationState db);
        [by destruct db|].
      rewrite (bind_run _ _ _ _ _ (reservation_in_tx_run _ _ _ Hrow)), release_guard.
      fold amount. by rewrite Hrel.
  - unfold release_reservation.
    rewrite (transaction_run_err _ _ WalletRepositoryError_ReservationNotFound db);
      [by destruct db|].
    apply bind_run_err. unfold reservation_in_tx, bind, gets. fold rid. by rewrite Hrow.
Qed.

(** In books that are in order, a reservation answers, on
    every branch: [InsufficientFunds] with what is available when that is less
    than the amount or there is no balance, a constraint violation when the
    amount is not positive or the id or idempotency key is taken, and otherwise
    a new active reservation backed by the amount now locked. *)
Theorem reserve_funds_functional uuid user rq key asset amount db :
  books_ok (books db) -> in_i64 amount ->
  let k := (user, asset_to_db asset) in
  let available := total_at (books db) k - locked_at (books db) k in
  reserve_funds uuid user rq key asset amount db =
  if bool_decide (is_Some (user_collaterals db !! k)) && (amount <=? available) then
    if amount <=? 0 then (Err (WalletRepositoryError_Storage CheckViolation), db)
    else if reservation_clash uuid user key db
    then (Err (WalletRepositoryError_Storage UniqueViolation), db)
    else (Ok (mkFundsReserved rq ("res_" +:+ uuid) asset amount),
          reserved_db uuid user rq key asset amount (balance_at (books db) k) db)
  else (Err (WalletRepositoryError_InsufficientFunds available), db).
Proof.
  intros [Hwf _ _] Hi k available.
  destruct (user_collaterals db !! k) as [b|] eqn:Hb.
  - rewrite bool_decide_eq_true_2 by eauto. cbn [andb].
    assert (available = bs_total b - bs_locked b) as Hav.
    { unfold available, total_at, locked_at. by rewrite (balance_at_lookup (books db) k b Hb). }
    rewrite (balance_at_lookup (books db) k b Hb).
    case_if; [|by apply (reserve_short _ _ _ _ _ _ _ Hwf); fold k; intros b' Hb';
                  simplify_eq; lia].
    case_if; [by eapply reserve_not_positive|].
    eapply reserve_covered; [exact Hwf|exact Hb|lia].
  - rewrite bool_decide_eq_false_2 by (by intros [? ?]). cbn [andb].
    apply (reserve_short _ _ _ _ _ _ _ Hwf). fold k. intros b' Hb'. congruence.
Qed.

(** Each [_with_outbox] transaction is, state for state,
    the plain transaction followed in the same database transaction by the
    stored reply (for commands with an envelope) and the outbox messages. *)
Theorem with_outbox_transactions_extend_plain :
  (forall uuid now user rq key asset amount ctype builder,
     reserve_funds_with_outbox uuid now user rq key asset amount ctype builder ≡
     transaction (bind (reserve_funds uuid user rq key asset amount)
                    (finish_with_reply now user ctype key rq builder))) /\
  (forall now deposit ctype builder,
     apply_deposit_with_outbox now deposit ctype builder ≡
     transaction (bind (apply_deposit deposit)
                    (finish_with_reply now (env_user_id (dep_envelope deposit)) ctype
                       (env_idempotency_key (dep_envelope deposit))
                       (env_request_id (dep_envelope deposit)) builder))) /\
  (forall now withdraw ctype builder,
     apply_withdraw_with_outbox now withdraw ctype builder ≡
     transaction (bind (apply_withdraw withdraw)
                    (finish_with_reply now (env_user_id (wdr_envelope withdraw)) ctype
                       (env_idempotency_key (wdr_envelope withdraw))
                       (env_request_id (wdr_envelope withdraw)) builder))) /\
  (forall now release builder,
     release_reservation_with_outbox now release builder ≡
     transaction (bind (release_reservation release) (finish_with_outbox now builder))) /\
  (forall now settle builder,
     settle_trade_with_outbox now settle builder ≡
     transaction (bind (settle_trade settle) (finish_with_outbox now builder))) /\
  (forall now delta builder,
     apply_account_delta_with_outbox now delta builder ≡
     transaction (bind (apply_account_delta delta) (finish_delta now builder))).
Proof.
  split_and!; intros.
  - apply reserve_funds_with_outbox_eq.
  - apply apply_deposit_with_outbox_eq.
  - apply apply_withdraw_with_outbox_eq.
  - apply release_reservation_with_outbox_eq.
  - apply settle_trade_with_outbox_eq.
  - apply apply_account_delta_with_outbox_eq.
Qed.

(** A release has no envelope, so nothing recognises one that is
    delivered twice: while the reservation still covers the amount, the second
    delivery unlocks it again, and its outbox message is dropped as a duplicate
    of the first, so what leaves the wallet tells of one release only. *)
Theorem partial_release_redelivered_applies_again {LAWS : SerdeLaws}
    self d d' release row db res db1 :
  books_ok (books db) ->
  wallet_reservations db !! rr_reservation_id release = Some row ->
  row_status row = "ACTIVE" -> 0 < rr_amount release ->
  2 * rr_amount release <= row_remaining row ->
  process_release_reservation self d release db = (Ok res, db1) ->
  let k := (row_user_id row, row_asset row) in
  exists res' db2, process_release_reservation self d' release db1 = (Ok res', db2) /\
    wallet_outbox db2 = wallet_outbox db1 /\
    locked_at (books db2) k = locked_at (books db) k - 2 * rr_amount release /\
    (exists row', wallet_reservations db2 !! rr_reservation_id release = Some row' /\
       row_remaining row' = row_remaining row - 2 * rr_amount release).
Proof.
  intros Hok Hrow Hst Hpos Hle H k.
  assert (forall r, row_status r = "ACTIVE" -> rr_amount release <= row_remaining r ->
    releasable r (rr_amount release) = true) as Hrelb.
  { intros r Hs Hr. unfold releasable. rewrite bool_decide_eq_true_2 by done.
    rewrite (proj2 (Z.ltb_lt _ _)), (proj2 (Z.leb_le _ _)); [done|lia..]. }
  pose proof (Hrelb row Hst ltac:(lia)) as Hrel.
  destruct (release_runs_to self d release row db res db1 Hok Hrow Hrel H)
    as (b & Hb & Hbk & out & Hout & Hmatch).
  set (row1 := reservation_less row (rr_amount release) "RELEASED") in *.
  assert (books_ok (books db1)) as Hok1.
  { apply (wallet_step_ok self db); [|done].
    by exists d, (InCommand (WalletCommand_ReleaseReservation release)), (Ok res). }
  assert (wallet_reservations db1 !! rr_reservation_id release = Some row1) as Hrow1.
  { change (bk_res (books db1) !! rr_reservation_id release = Some row1). rewrite Hbk. cbn.
    by rewrite lookup_insert_eq. }
  assert (row_status row1 = "ACTIVE") as Hst1 by (unfold row1; cbn; by case_if; [lia|]).
  destruct (process_release_total self d' release row1 db1 Hok1 Hrow1
    (Hrelb row1 Hst1 ltac:(unfold row1; cbn; lia))) as (b1 & res' & db2 & H2 & Hb1 & Hbk2 & Ho2).
  { rewrite Hout. by destruct release_message eqn:E; [apply Hmatch|]. }
  exists res', db2. split; [done|]. split; [apply Ho2; eauto|].
  change (bk_coll (books db1) !! k = Some b1) in Hb1.
  rewrite Hbk in Hb1. cbn in Hb1. fold k in Hb1. rewrite lookup_insert_eq in Hb1.
  injection Hb1 as <-. change (wallet_reservations db2) with (bk_res (books db2)).
  rewrite Hbk2. split.
  - unfold locked_at at 1, balance_at. cbn. fold k. rewrite lookup_insert_eq. cbn.
    unfold locked_at. rewrite (balance_at_lookup (books db) k b Hb). lia.
  - exists (reservation_less row1 (rr_amount release) "RELEASED"). cbn.
    rewrite lookup_insert_eq. split; [done|lia].
Qed.
End WithSerde.
