(* ===== verification/WalletOwners.v ===== *)
(** * WalletOwners: whose books a command touches

    Every step of the books is one user's, and what is another user's stays as it
    is; the commands of the server take steps of the user they name only. *)

From S2P Require Import Prelude Protocol Postgres WalletDb WalletRepository WalletProcessor.
From S2P Require Import WalletSpec WalletStatements WalletRefinement WalletHandlers.
From S2P Require Import WalletRuns WalletErrors WalletTotal WalletTheorems.

(** The user a wallet event is about. *)
Definition event_user (e : WalletEvent) : Z :=
  match e with
  | WalletEvent_FundsReserved e => wfr_user_id e
  | WalletEvent_DepositApplied e => wda_user_id e
  | WalletEvent_WithdrawalApplied e => wwa_user_id e
  | WalletEvent_FundsReleased e => wfl_user_id e
  | WalletEvent_TradeSettled e => wts_user_id e
  | WalletEvent_AccountDeltaApplied e => wad_user_id e
  end.

(** Balances, reservations and ledger entries of [u] are as they were. *)
Record untouched (u : Z) (bk bk' : Books) : Prop := {
  un_balances asset : bk_coll bk' !! (u, asset) = bk_coll bk !! (u, asset);
  un_reservations rid r :
    row_user_id r = u -> bk_res bk' !! rid = Some r <-> bk_res bk !! rid = Some r;
  un_ledger asset kind ref :
    bk_ledger bk' !! (u, asset, kind, ref) = bk_ledger bk !! (u, asset, kind, ref)
}.

Lemma untouched_refl u bk : untouched u bk bk.
Proof. done. Qed.

Lemma untouched_trans u bk1 bk2 bk3 :
  untouched u bk1 bk2 -> untouched u bk2 bk3 -> untouched u bk1 bk3.
Proof.
  intros [Hb Hr Hl] [Hb' Hr' Hl']. split; intros.
  - by rewrite Hb'.
  - rewrite Hr' by done. by apply Hr.
  - by rewrite Hl'.
Qed.

Lemma untouched_with_balance u k b bk : k.1 <> u -> untouched u bk (with_balance k b bk).
Proof.
  intros Hk. split; cbn; [|done|done]. intros asset. apply lookup_insert_ne. by intros ->.
Qed.

Lemma untouched_with_entry u e amount bk : e.1.1.1 <> u -> untouched u bk (with_entry e amount bk).
Proof.
  intros He. split; cbn; [done|done|]. intros asset kind ref. apply lookup_insert_ne. by intros ->.
Qed.

Lemma untouched_with_reservation u rid r bk :
  row_user_id r <> u -> (forall r0, bk_res bk !! rid = Some r0 -> row_user_id r0 <> u) ->
  untouched u bk (with_reservation rid r bk).
Proof.
  intros Hr Hold. split; cbn; [done| |done]. intros rid' r' Hu.
  destruct (decide (rid = rid')) as [<-|Hne]; [|by rewrite lookup_insert_ne].
  rewrite lookup_insert_eq. split; [by intros [= ->]|]. intros H. by apply Hold in H.
Qed.

Lemma settle_balances_untouched u user da debit ca credit bk bk' :
  settle_balances user da debit ca credit bk bk' -> user <> u -> untouched u bk bk'.
Proof.
  intros Hs Hu. destruct Hs; [by apply untouched_with_balance|].
  eapply untouched_trans; [|by apply untouched_with_balance]. by apply untouched_with_balance.
Qed.

Lemma book_step_untouched u bk e bk' :
  book_step bk e bk' -> event_user e <> u -> untouched u bk bk'.
Proof.
  intros Hs Hu. destruct Hs; cbn in Hu.
  - eapply untouched_trans; [|apply untouched_with_reservation]; [by apply untouched_with_balance|done|].
    cbn. congruence.
  - eapply untouched_trans; [|by apply untouched_with_entry]. by apply untouched_with_balance.
  - eapply untouched_trans; [|by apply untouched_with_entry]. by apply untouched_with_balance.
  - eapply untouched_trans; [|apply untouched_with_reservation]; [by apply untouched_with_balance|done|].
    cbn. congruence.
  - pose proof (settle_balances_frame _ _ _ _ _ _ _ H3) as (_ & Hres & _).
    eapply untouched_trans; [|apply untouched_with_reservation]; [|done|intros r0; cbn; rewrite Hres, H; by intros [= <-]].
    eapply untouched_trans; [|by apply untouched_with_entry].
    eapply untouched_trans; [|by apply untouched_with_entry].
    by eapply settle_balances_untouched.
  - eapply untouched_trans; [|by apply untouched_with_entry]. by apply untouched_with_balance.
Qed.

Lemma book_steps_untouched u bk es bk' :
  book_steps bk es bk' -> Forall (fun e => event_user e <> u) es -> untouched u bk bk'.
Proof.
  induction 1; [intros _; apply untouched_refl|]. rewrite Forall_cons. intros [??].
  eapply untouched_trans; [by eapply book_step_untouched|auto].
Qed.

(** The envelope of a command that comes from a user. *)
Definition envelope_of (command : WalletCommand) : option CommandEnvelope :=
  match command with
  | WalletCommand_PlaceOrderIntent c => Some (poi_envelope c)
  | WalletCommand_CancelOrderIntent c => Some (coi_envelope c)
  | WalletCommand_Deposit c => Some (dep_envelope c)
  | WalletCommand_Withdraw c => Some (wdr_envelope c)
  | WalletCommand_ReleaseReservation _ | WalletCommand_SettleTrade _ => None
  end.

Section WithSerde.
Context {SD : Serde}.
Implicit Types (db : WalletDb).

Lemma command_events_user self d command env db res db' :
  envelope_of command = Some env ->
  process_command self d command db = (Ok res, db') ->
  Forall (fun e => event_user e = env_user_id env) (wallet_events res).
Proof.
  intros Henv H. destruct command as [c|c|c|c|c|c]; [injection Henv as <-..|done|done];
    cbn [process_command route_command] in H.
  - rewrite reserve_and_forward_unfold in H.
    apply with_stored_reply_ok in H as [(? & ? & _ & _ & -> & _)|[_ H]]; [constructor|].
    apply refuse_or_grant_ok in H as [(? & ? & ? & _ & _ & -> & _)|(a & _ & ->)]; [constructor|].
    by apply Forall_singleton.
  - rewrite forward_cancel_unfold in H.
    apply with_stored_reply_ok in H as [(? & ? & _ & _ & -> & _)|[_ H]]; [constructor|].
    cbn zeta in H. inv_m H. constructor.
  - rewrite process_deposit_unfold in H.
    apply with_stored_reply_ok in H as [(? & ? & _ & _ & -> & _)|[_ H]]; [constructor|].
    inv_m H. by apply Forall_singleton.
  - rewrite process_withdrawal_unfold in H.
    apply with_stored_reply_ok in H as [(? & ? & _ & _ & -> & _)|[_ H]]; [constructor|].
    apply refuse_or_grant_ok in H as [(? & ? & ? & _ & _ & -> & _)|(a & _ & ->)]; [constructor|].
    by apply Forall_singleton.
Qed.

(** The commands of others leave [u]'s books alone, and keep the books in order. *)
Lemma command_untouched self d command env u db r db' :
  envelope_of command = Some env -> env_user_id env <> u ->
  books_ok (books db) -> process_command self d command db = (r, db') ->
  untouched u (books db) (books db') /\ books_ok (books db').
Proof.
  intros Henv Hu Hok H. split.
  - destruct r as [res|e].
    + destruct Hok as [Hwf Hb _].
      pose proof (process_command_run self d command db res db' Hwf Hb H) as Hrun.
      eapply book_steps_untouched; [by apply (run_steps _ _ _ _ Hrun)|].
      eapply Forall_impl; [by eapply command_events_user|]. by intros e ->.
    + apply (process_input_err self d (InCommand command)) in H.
      rewrite (same_tables_books db db') by done. apply untouched_refl.
  - eapply wallet_step_ok; [|done]. by exists d, (InCommand command), r.
Qed.

(** The wallet handles commands one after the other, each with what it draws. *)
Fixpoint wallet_runs (self : WalletProcessor) (commands : list (Draw * WalletCommand)) db : WalletDb :=
  match commands with
  | [] => db
  | (d, command) :: commands => wallet_runs self commands (process_command self d command db).2
  end.

Lemma wallet_runs_untouched self u commands : forall db,
  books_ok (books db) ->
  Forall (fun '(_, command) => exists env,
    envelope_of command = Some env /\ env_user_id env <> u) commands ->
  untouched u (books db) (books (wallet_runs self commands db)).
Proof.
  induction commands as [|[d command] commands IH]; intros db Hok Hall; [apply untouched_refl|].
  apply Forall_cons in Hall as [(env & Henv & Hu) Hall]. cbn.
  destruct (process_command self d command db) as [r db'] eqn:E.
  destruct (command_untouched self d command env u db r db') as [Hun Hok']; [done..|].
  eapply untouched_trans; [exact Hun|]. by apply IH.
Qed.
(** Anything the wallet handles, other users' commands and the engine's alike, that
    has no wallet event about [u]. *)
Definition step_sparing (self : WalletProcessor) (u : Z) db db' : Prop :=
  exists d i r, process_input self d i db = (r, db') /\
    match r with
    | Ok res => Forall (fun e => event_user e <> u) (wallet_events res)
    | Err _ => True
    end.

Lemma step_sparing_untouched self u db db' :
  books_ok (books db) -> step_sparing self u db db' ->
  untouched u (books db) (books db') /\ books_ok (books db').
Proof.
  intros Hok (d & i & r & H & Hu). split; [|eapply wallet_step_ok; [by exists d, i, r|done]].
  destruct r as [res|e].
  - destruct Hok as [Hwf Hb _].
    eapply book_steps_untouched; [|exact Hu].
    by apply (run_steps _ _ _ _ (process_input_run self d i db res db' Hwf Hb H)).
  - apply process_input_err in H. rewrite (same_tables_books db db') by done. apply untouched_refl.
Qed.

Lemma steps_sparing_untouched self u db db' :
  rtc (step_sparing self u) db db' -> books_ok (books db) ->
  untouched u (books db) (books db') /\ books_ok (books db').
Proof.
  induction 1 as [|db1 db2 db3 H _ IH]; intros Hok; [split; [apply untouched_refl|done]|].
  destruct (step_sparing_untouched _ _ _ _ Hok H) as [Hun Hok2].
  destruct (IH Hok2) as [Hun' Hok3]. split; [by eapply untouched_trans|done].
Qed.

(** ** Steps that leave a reservation alone *)

(** The reservation an input releases or settles. *)
Definition input_reservation (i : WalletInput) : option string :=
  match i with
  | InCommand (WalletCommand_ReleaseReservation release)
  | InEngine (EngineWalletCommand_ReleaseReservation release) => Some (rr_reservation_id release)
  | InCommand (WalletCommand_SettleTrade settle)
  | InEngine (EngineWalletCommand_SettleTrade settle) => Some (st_reservation_id settle)
  | _ => None
  end.

Definition event_reservation (e : WalletEvent) : option string :=
  match e with
  | WalletEvent_FundsReleased e => Some (wfl_reservation_id e)
  | WalletEvent_TradeSettled e => Some (wts_reservation_id e)
  | _ => None
  end.

Lemma release_events_reservation self d release db res db' :
  books_ok (books db) -> process_release_reservation self d release db = (Ok res, db') ->
  Forall (fun e => event_reservation e = Some (rr_reservation_id release)) (wallet_events res).
Proof.
  intros [Hwf Hb _] H. rewrite process_release_unfold in H. cbn zeta in H. inv_m H.
  apply (release_with_outbox_ok _ _ _ _ _ _ None Hwf Hb) in Hm as [Hr _].
  apply Forall_singleton. cbn. by rewrite Hr.
Qed.

Lemma settle_events_reservation self d settle db res db' :
  books_ok (books db) -> process_settle_trade self d settle db = (Ok res, db') ->
  Forall (fun e => event_reservation e = Some (st_reservation_id settle)) (wallet_events res).
Proof.
  intros [Hwf Hb _] H. rewrite process_settle_unfold in H. cbn zeta in H. inv_m H.
  apply (settle_with_outbox_ok _ _ _ _ _ _ None Hwf Hb) in Hm as [Hr _].
  apply Forall_singleton. cbn. by rewrite Hr.
Qed.

Lemma process_input_reservation self d i db res db' :
  books_ok (books db) -> process_input self d i db = (Ok res, db') ->
  Forall (fun e => event_reservation e = None \/ event_reservation e = input_reservation i)
    (wallet_events res).
Proof.
  intros Hok H. destruct i as [c|c]; destruct c as [c|c|c|c|c|c] || destruct c as [c|c|c];
    cbn [process_input process_command process_engine_command route_command] in H.
  - rewrite reserve_and_forward_unfold in H.
    apply with_stored_reply_ok in H as [(? & ? & _ & _ & -> & _)|[_ H]]; [constructor|].
    apply refuse_or_grant_ok in H as [(? & ? & ? & _ & _ & -> & _)|(a & _ & ->)]; [constructor|].
    apply Forall_singleton. by left.
  - rewrite forward_cancel_unfold in H.
    apply with_stored_reply_ok in H as [(? & ? & _ & _ & -> & _)|[_ H]]; [constructor|].
    cbn zeta in H. inv_m H. constructor.
  - rewrite process_deposit_unfold in H.
    apply with_stored_reply_ok in H as [(? & ? & _ & _ & -> & _)|[_ H]]; [constructor|].
    inv_m H. apply Forall_singleton. by left.
  - rewrite process_withdrawal_unfold in H.
    apply with_stored_reply_ok in H as [(? & ? & _ & _ & -> & _)|[_ H]]; [constructor|].
    apply refuse_or_grant_ok in H as [(? & ? & ? & _ & _ & -> & _)|(a & _ & ->)]; [constructor|].
    apply Forall_singleton. by left.
  - eapply Forall_impl; [by eapply release_events_reservation|by right].
  - eapply Forall_impl; [by eapply settle_events_reservation|by right].
  - eapply Forall_impl; [by eapply release_events_reservation|by right].
  - eapply Forall_impl; [by eapply settle_events_reservation|by right].
  - rewrite process_account_delta_unfold in H. cbn zeta in H. inv_m H; [|constructor].
    apply Forall_singleton. by left.
Qed.

Lemma book_step_row bk e bk' rid r :
  book_step bk e bk' -> event_reservation e <> Some rid ->
  bk_res bk !! rid = Some r -> bk_res bk' !! rid = Some r.
Proof.
  intros Hs He Hr. destruct Hs; cbn in He; cbn; try done;
    rewrite lookup_insert_ne by (intros ->; congruence); [done..|].
  by rewrite (proj1 (proj2 (settle_balances_frame _ _ _ _ _ _ _ H3))).
Qed.

Lemma book_steps_row bk es bk' rid r :
  book_steps bk es bk' -> Forall (fun e => event_reservation e <> Some rid) es ->
  bk_res bk !! rid = Some r -> bk_res bk' !! rid = Some r.
Proof.
  induction 1; [done|]. rewrite Forall_cons. intros [??] ?. eauto using book_step_row.
Qed.

(** Anything the wallet handles that announces no release or settlement of [rid]. *)
Definition step_keeping (self : WalletProcessor) (rid : string) db db' : Prop :=
  exists d i r, process_input self d i db = (r, db') /\
    Forall (fun e => event_reservation e <> Some rid) (announced r).

(** Every input that does not name [rid] is one: orders, cancellations, deposits and
    withdrawals of every user, account deltas, what the engine has the wallet do about
    other reservations. *)
Lemma input_keeping self d i rid db :
  books_ok (books db) -> input_reservation i <> Some rid ->
  step_keeping self rid db (process_input self d i db).2.
Proof.
  intros Hok Hi. destruct (process_input self d i db) as [r db'] eqn:H.
  exists d, i, r. split; [exact H|]. destruct r as [res|e]; [|constructor].
  eapply Forall_impl; [by eapply (process_input_reservation self d i db res db' Hok)|].
  intros e [E|E]; rewrite E; congruence.
Qed.

Lemma steps_keeping_row self rid r db db' :
  rtc (step_keeping self rid) db db' -> books_ok (books db) ->
  wallet_reservations db !! rid = Some r ->
  books_ok (books db') /\ wallet_reservations db' !! rid = Some r.
Proof.
  induction 1 as [|db1 db2 db3 (d & i & res & H & He) _ IH]; intros Hok Hr; [done|].
  pose proof (process_input_steps _ _ _ _ _ _ Hok H) as Hs.
  apply IH; [by eapply book_steps_ok|]. by apply (book_steps_row _ _ (books db2) rid r Hs).
Qed.
End WithSerde.
