(* ===== verification/WalletExamples.v ===== *)
(** * WalletExamples: the wallet on concrete inputs

    A user with a deposit of 100 and a reservation of 60; the witnesses apply
    the theorems of [WalletTheorems] to it. *)

From S2P Require Import Prelude Protocol Postgres WalletDb WalletRepository WalletProcessor.
From S2P Require Import WalletSpec WalletStatements WalletRefinement WalletHandlers WalletRuns.
From S2P Require Import WalletErrors WalletTotal WalletTheorems.

#[local] Existing Instance tagged_serde.
#[local] Existing Instance tagged_serde_laws.

Module WalletExample.
Definition self : WalletProcessor := WalletProcessor_new.
Definition draw : Draw := mkDraw "u1" 1000.
Definition account : Z * AssetType := (1, AssetType_USDC).

Definition cancel (request_id : string) : CancelOrderIntent :=
  mkCancelOrderIntent (mkCommandEnvelope request_id "cancel-1" 1 0) 7 99.
Definition release (amount : Z) : ReleaseReservation :=
  mkReleaseReservation "res_u0" amount "cancelled".
Definition fee (amount : Z) : ApplyAccountDelta :=
  mkApplyAccountDelta 1 Asset_USDC amount 0 "TRADE_FEE" "fill:7:fee:0".

(** The user's wallet with [remaining] of the 60 still reserved. *)
Definition reservation (remaining : Z) (status : string) : ReservationRow :=
  mkReservationRow 1 AssetType_USDC 60 remaining status "order-1" "req-2".
Definition wallet (remaining : Z) (status : string) : WalletDb :=
  mkWalletDb {[1]} {[account := mkBalanceSnapshot 100 remaining]}
    {["res_u0" := reservation remaining status]}
    {[(account, "DEPOSIT", "ref-1") := 100]} ∅ ∅ 1 ∅.
Definition active : WalletDb := wallet 60 "ACTIVE".
Definition closed : WalletDb := wallet 0 "RELEASED".

Lemma wallet_coll r st : bk_coll (books (wallet r st)) = {[account := mkBalanceSnapshot 100 r]}.
Proof. reflexivity. Qed.
Lemma wallet_res r st : bk_res (books (wallet r st)) = {["res_u0" := reservation r st]}.
Proof. reflexivity. Qed.
Lemma wallet_entries r st :
  bk_ledger (books (wallet r st)) = {[(account, "DEPOSIT", "ref-1") := 100]}.
Proof. reflexivity. Qed.

Lemma wallet_ok remaining status :
  reservation_wf (reservation remaining status) ->
  books_ok (books (wallet remaining status)).
Proof.
  intros Hw. pose proof Hw as (Ha & Hr & _). cbn in Ha, Hr.
  assert (forall k, balance_at (books (wallet remaining status)) k
    = if decide (account = k) then mkBalanceSnapshot 100 remaining
      else mkBalanceSnapshot 0 0) as Hbal.
  { intros k. unfold balance_at. rewrite wallet_coll. case_decide; [subst|].
    - by rewrite lookup_singleton_eq.
    - by rewrite lookup_singleton_ne. }
  split; [split|..].
  - intros k b. rewrite wallet_coll. intros [<- <-]%lookup_singleton_Some.
    split; [unfold balance_wf, i64_max; cbn; lia|set_solver].
  - intros rid r. rewrite wallet_res. intros [<- <-]%lookup_singleton_Some.
    split; [done|set_solver].
  - intros k. unfold unreserved_at, locked_at, reserved_at. rewrite Hbal, wallet_res.
    rewrite <- insert_empty, map_sum_insert_fresh, map_sum_empty by apply lookup_empty.
    unfold reserved_by; cbn. fold account. case_decide; cbn; lia.
  - intros k. unfold total_at, entered_at. rewrite Hbal, wallet_entries.
    rewrite <- insert_empty, map_sum_insert_fresh, map_sum_empty by apply lookup_empty.
    unfold entered_by; cbn. fold account. case_decide; cbn; lia.
Qed.

Lemma active_ok : books_ok (books active).
Proof.
  apply wallet_ok. unfold reservation_wf, i64_max; cbn. split; [lia|]. split; [lia|].
  left. split; [done|lia].
Qed.
Lemma closed_ok : books_ok (books closed).
Proof.
  apply wallet_ok. unfold reservation_wf, i64_max; cbn. split; [lia|]. split; [lia|].
  right. auto.
Qed.

Lemma active_reservation :
  wallet_reservations active !! "res_u0" = Some (reservation 60 "ACTIVE").
Proof. apply lookup_singleton_eq. Qed.
Lemma closed_reservation :
  wallet_reservations closed !! "res_u0" = Some (reservation 0 "RELEASED").
Proof. apply lookup_singleton_eq. Qed.
Lemma no_fee_entry : wallet_ledger active !! (account, "TRADE_FEE", "fill:7:fee:0") = None.
Proof. by apply lookup_singleton_ne. Qed.

Lemma step_run i db : wallet_step self db (process_input self draw i db).2.
Proof.
  exists draw, i, (process_input self draw i db).1. by destruct (process_input self draw i db).
Qed.

Lemma release_runs : exists res db',
  process_release_reservation self draw (release 20) active = (Ok res, db').
Proof.
  destruct (process_release_total self draw (release 20) (reservation 60 "ACTIVE") active
    active_ok active_reservation eq_refl I) as (b & res & db' & H & _). eauto.
Qed.

Lemma cancel_runs : exists db', process_command self draw
    (WalletCommand_CancelOrderIntent (cancel "req-1")) active
  = (Ok (mkWalletProcessResult
           [WalletReply_CommandAccepted (mkCommandAccepted "req-1")] []
           [EngineCommand_CancelOrder (into_engine_cancel_order (cancel "req-1"))]), db').
Proof. apply (forward_cancel_total self draw (cancel "req-1") active); [set_solver|done|done]. Qed.

Lemma fee_runs : exists event db', process_account_delta self draw (fee 5) active
  = (Ok (mkWalletProcessResult [] [event] []), db').
Proof.
  eexists. apply (positive_delta_total self draw (fee 5) active);
    [apply active_ok|done|done|set_solver|done|apply no_fee_entry|done].
Qed.
End WalletExample.
Import WalletExample.

Lemma wallet_refines_spec_witness : exists res db',
  process_release_reservation self draw (release 20) active = (Ok res, db') /\
  book_steps (books active) (wallet_events res) (books db').
Proof.
  destruct release_runs as (res & db' & H). exists res, db'. split; [exact H|].
  apply (wallet_refines_spec self draw (InCommand (WalletCommand_ReleaseReservation (release 20)))
    active res db' active_ok H).
Defined.

(** The engine credits the user with 25, of which 10 stay locked: no reservation
    holds them, and the books say whose announced delta does. *)
Definition locking_delta : ApplyAccountDelta :=
  mkApplyAccountDelta 1 Asset_USDC 25 10 "FUNDING" "funding:1".

Lemma wallet_books_invariant_witness : exists res db,
  process_account_delta self draw locking_delta (empty_wallet {[1]}) = (Ok res, db) /\
  locked_at (books db) account = reserved_at (books db) account + 10 /\
  total_at (books db) account = entered_at (books db) account.
Proof.
  destruct (positive_delta_total self draw locking_delta (empty_wallet {[1]})) as [db H];
    [apply books_ok_empty|done|cbn; lia|set_solver|done|apply lookup_empty|apply lookup_empty|].
  eexists _, db. split; [exact H|].
  pose proof (trace_cons self draw (InEngine (EngineWalletCommand_ApplyAccountDelta locking_delta))
    _ _ _ _ _ H (trace_nil _ _)) as Ht.
  destruct (wallet_books_invariant self {[1]} _ db Ht) as (_ & _ & Htot & Hlock).
  split; [|apply Htot]. exact (proj1 (Hlock account)).
Defined.

Lemma wallet_publishes_results_witness : exists res db',
  process_command self draw (WalletCommand_CancelOrderIntent (cancel "req-1")) active
    = (Ok res, db') /\ engine_inputs res <> [] /\
  Forall (event_published self db') (wallet_events res) /\
  Forall (input_published self db') (engine_inputs res) /\ outbox_grows active db'.
Proof.
  destruct cancel_runs as (db' & H). eexists _, db'. split; [exact H|]. split; [done|].
  apply (wallet_publishes_results self draw
    (InCommand (WalletCommand_CancelOrderIntent (cancel "req-1"))) active _ db' active_ok H).
Defined.

(** The cancellation, delivered again under another request id. *)
Lemma wallet_replay_same_answer_witness : exists res db',
  process_command self draw (WalletCommand_CancelOrderIntent (cancel "req-1")) active
    = (Ok res, db') /\
  process_command self draw (WalletCommand_CancelOrderIntent (cancel "req-9")) db'
    = (Ok (mkWalletProcessResult
             [WalletReply_CommandAccepted (mkCommandAccepted "req-9")] [] []), db').
Proof.
  destruct cancel_runs as (db' & H). eexists _, db'. split; [exact H|].
  apply (wallet_replay_same_answer self draw draw
    (WalletCommand_CancelOrderIntent (cancel "req-1"))
    (WalletCommand_CancelOrderIntent (cancel "req-9"))
    (1, "CancelOrderIntent", "cancel-1") active db' db' _ active_ok eq_refl eq_refl H).
  apply rtc_refl.
Defined.

Lemma wallet_error_leaves_tables_witness :
  process_release_reservation self draw (release 61) active
    = (Err WalletRepositoryError_InvalidReservationState, active) /\
  active = set_outbox_seq (outbox_seq active) active.
Proof.
  assert (process_release_reservation self draw (release 61) active
    = (Err WalletRepositoryError_InvalidReservationState, active)) as H.
  { by apply (release_refused self draw (release 61) (reservation 60 "ACTIVE")). }
  split; [exact H|].
  apply (wallet_error_leaves_tables self draw
    (InCommand (WalletCommand_ReleaseReservation (release 61))) active _ active H).
Defined.

Lemma reservation_lifecycle_witness :
  process_release_reservation self draw (release 60) closed
  = (Err WalletRepositoryError_InvalidReservationState, closed).
Proof.
  destruct (reservation_lifecycle self closed closed "res_u0" (reservation 0 "RELEASED"))
    as (r' & _ & _ & _ & _ & _ & H).
  - apply closed_ok.
  - apply closed_reservation.
  - apply rtc_refl.
  - apply (proj1 (proj2 (H ltac:(discriminate)))). reflexivity.
Defined.

Lemma account_delta_applied_once_witness : exists res db',
  process_account_delta self draw (fee 5) active = (Ok res, db') /\
  process_account_delta self draw (fee 7) db' = (Ok (mkWalletProcessResult [] [] []), db').
Proof.
  destruct fee_runs as (event & db' & H). eexists _, db'. split; [exact H|].
  apply (account_delta_applied_once self draw draw (fee 5) (fee 7) active db' db' _
    active_ok H (rtc_refl _ _) eq_refl eq_refl eq_refl eq_refl). discriminate.
Defined.

Lemma negative_account_delta_refused_witness :
  process_account_delta self draw (fee (-3)) active
  = (Err WalletRepositoryError_InvalidAccountDelta, active).
Proof.
  apply (negative_account_delta_refused self draw (fee (-3)) active).
  - reflexivity.
  - set_solver.
  - apply no_fee_entry.
Defined.

Lemma release_reservation_functional_witness :
  release_reservation (release 61) active
  = (Err WalletRepositoryError_InvalidReservationState, active).
Proof.
  rewrite (release_reservation_functional (release 61) active active_ok).
  cbn zeta. change (rr_reservation_id (release 61)) with "res_u0".
  rewrite active_reservation. reflexivity.
Defined.

Lemma reserve_funds_functional_witness :
  reserve_funds "u2" 1 "req-3" "order-2" Asset_USDC 41 active
  = (Err (WalletRepositoryError_InsufficientFunds 40), active).
Proof.
  assert (in_i64 41) as Hi by (unfold in_i64, i64_min, i64_max; lia).
  rewrite (reserve_funds_functional "u2" 1 "req-3" "order-2" Asset_USDC 41 active active_ok Hi).
  cbn zeta. unfold total_at, locked_at, balance_at. cbn [asset_to_db books bk_coll].
  change (user_collaterals active) with ({[account := mkBalanceSnapshot 100 60]} :
    gmap (Z * AssetType) BalanceSnapshot).
  fold account. rewrite lookup_singleton_eq. reflexivity.
Defined.

Lemma partial_release_redelivered_applies_again_witness : exists res db1 res' db2,
  process_release_reservation self draw (release 20) active = (Ok res, db1) /\
  process_release_reservation self draw (release 20) db1 = (Ok res', db2) /\
  wallet_outbox db2 = wallet_outbox db1 /\
  locked_at (books db2) account = locked_at (books active) account - 40.
Proof.
  destruct release_runs as (res & db1 & H). exists res, db1.
  destruct (partial_release_redelivered_applies_again self draw draw (release 20)
    (reservation 60 "ACTIVE") active res db1 active_ok active_reservation eq_refl eq_refl
    ltac:(discriminate) H) as (res' & db2 & H2 & Ho & Hl & _).
  exists res', db2. split; [exact H|]. split; [exact H2|]. split; [exact Ho|exact Hl].
Defined.
