(* ===== verification/Ledger.v ===== *)
(** * Ledger: the accounting journal

    [apps/ledger]: the entries a wallet event stands for ([processor.rs]), the
    transaction that records them ([repository.rs]) and what one turn of the
    consumer does with a stream record ([worker.rs], [redpanda.rs]). *)

From S2P Require Import Prelude Protocol Postgres WalletDb Queue.

(** ** Entries: [processor.rs] *)

Record LedgerEntryDraft := mkLedgerEntryDraft {
  led_user_id : Z;
  led_asset : Asset;
  led_kind : string;
  led_total_delta : Z;
  led_locked_delta : Z;
  led_reference_id : string
}.
#[export] Instance LedgerEntryDraft_eq_dec : EqDecision LedgerEntryDraft.
Proof. solve_decision. Defined.

Definition funds_reserved_entries (event : WalletFundsReserved)
    : string * Z * list LedgerEntryDraft :=
  ("FundsReserved", wfr_user_id event,
   [mkLedgerEntryDraft (wfr_user_id event) (wfr_asset event) "RESERVE" 0 (wfr_amount event)
      (wfr_reservation_id event)]).

Definition funds_released_entries (event : WalletFundsReleased)
    : string * Z * list LedgerEntryDraft :=
  ("FundsReleased", wfl_user_id event,
   [mkLedgerEntryDraft (wfl_user_id event) (wfl_asset event) "RELEASE" 0
      (i64_wrap (- wfl_amount event)) (wfl_reservation_id event)]).

Definition trade_settled_entries (event : WalletTradeSettled)
    : string * Z * list LedgerEntryDraft :=
  let reference_id := to_string (wts_fill_id event) in
  ("TradeSettled", wts_user_id event,
   [mkLedgerEntryDraft (wts_user_id event) (wts_debit_asset event) "TRADE_DEBIT"
      (i64_wrap (- wts_debit_amount event)) (i64_wrap (- wts_debit_amount event)) reference_id;
    mkLedgerEntryDraft (wts_user_id event) (wts_credit_asset event) "TRADE_CREDIT"
      (wts_credit_amount event) 0 reference_id]).

Definition deposit_entries (event : WalletDepositApplied)
    : string * Z * list LedgerEntryDraft :=
  ("DepositApplied", wda_user_id event,
   [mkLedgerEntryDraft (wda_user_id event) (wda_asset event) "DEPOSIT" (wda_amount event) 0
      (wda_reference_id event)]).

Definition withdrawal_entries (event : WalletWithdrawalApplied)
    : string * Z * list LedgerEntryDraft :=
  ("WithdrawalApplied", wwa_user_id event,
   [mkLedgerEntryDraft (wwa_user_id event) (wwa_asset event) "WITHDRAWAL"
      (i64_wrap (- wwa_amount event)) 0 (wwa_request_id event)]).

Definition account_delta_entries (event : WalletAccountDeltaApplied)
    : string * Z * list LedgerEntryDraft :=
  ("AccountDeltaApplied", wad_user_id event,
   [mkLedgerEntryDraft (wad_user_id event) (wad_asset event) (wad_kind event)
      (wad_total_delta event) (wad_locked_delta event) (wad_reference_id event)]).

Definition event_entries (event : WalletEvent) : string * Z * list LedgerEntryDraft :=
  match event with
  | WalletEvent_FundsReserved event => funds_reserved_entries event
  | WalletEvent_FundsReleased event => funds_released_entries event
  | WalletEvent_TradeSettled event => trade_settled_entries event
  | WalletEvent_DepositApplied event => deposit_entries event
  | WalletEvent_WithdrawalApplied event => withdrawal_entries event
  | WalletEvent_AccountDeltaApplied event => account_delta_entries event
  end.

Section WithSerde.
Context {SD : Serde}.

Record LedgerRecord := mkLedgerRecord {
  lr_logical_event_id : option string;
  lr_event_type : string;
  lr_user_id : Z;
  lr_payload : Value;
  lr_entries : list LedgerEntryDraft
}.

(** [None] is the serialisation error of [serde_json::to_value(event)?]. *)
Definition ledger_record_from_wallet_event (event : WalletEvent) : option LedgerRecord :=
  match wallet_event_to_value event with
  | None => None
  | Some payload =>
      let logical_event_id := event_id event in
      let '(event_type, user_id, entries) := event_entries event in
      Some (mkLedgerRecord logical_event_id event_type user_id payload entries)
  end.

(** ** The repository: [repository.rs] *)

Record LedgerEventRow := mkLedgerEventRow {
  le_event_id : Z;
  le_topic : string;
  le_partition : Z;
  le_offset_value : Z;
  le_logical_event_id : option string;
  le_event_type : string;
  le_user_id : Z;
  le_payload : Value
}.

(** The ledger's tables; events and entries in the order they were inserted. An
    entry row is the id of its event and its columns. *)
Record LedgerDb := mkLedgerDb {
  ld_users : gset Z;
  ledger_events : list LedgerEventRow;
  ledger_entries : list (Z * LedgerEntryDraft);
  ledger_offsets : Offsets;
  ledger_event_seq : Z
}.

#[export] Instance LedgerDb_rollback : Rollback LedgerDb := fun before after =>
  mkLedgerDb (ld_users before) (ledger_events before) (ledger_entries before)
    (ledger_offsets before) (ledger_event_seq after).

(** [LedgerRepositoryError::Storage] and the worker's [LedgerError] *)
Inductive LedgerError :=
| LedgerError_Storage (error : SqlError)
| LedgerError_Serialization.

Definition LDb (A : Type) : Type := M LedgerDb LedgerError A.

(** A row that would violate a unique index of [ledger_events]: the record's place
    in the stream, or its logical event id when it has one. *)
Definition event_conflicts (topic : string) (partition offset : Z)
    (logical_event_id : option string) (row : LedgerEventRow) : bool :=
  (bool_decide (le_topic row = topic) && (le_partition row =? partition)
   && (le_offset_value row =? offset))
  || match logical_event_id with
     | Some id => bool_decide (le_logical_event_id row = Some id)
     | None => false
     end.

Definition ledger_check_user (user_id : Z) : LDb unit :=
  let* us := gets ld_users in
  if bool_decide (user_id ∈ us) then ret tt
  else throw (LedgerError_Storage ForeignKeyViolation).

(** [INSERT_LEDGER_EVENT_SQL]: [ON CONFLICT DO NOTHING RETURNING event_id] *)
Definition insert_ledger_event (topic : string) (partition offset : Z)
    (record : LedgerRecord) : LDb (option Z) :=
  let* event_id := gets ledger_event_seq in
  do* modify (fun db => mkLedgerDb (ld_users db) (ledger_events db) (ledger_entries db)
                          (ledger_offsets db) (event_id + 1)) in
  if (offset <? 0) || bool_decide (lr_logical_event_id record = Some "")
  then throw (LedgerError_Storage CheckViolation)
  else
    let* rows := gets ledger_events in
    if existsb (event_conflicts topic partition offset (lr_logical_event_id record)) rows
    then ret None
    else
      do* ledger_check_user (lr_user_id record) in
      do* modify (fun db => mkLedgerDb (ld_users db)
            (ledger_events db ++
               [mkLedgerEventRow event_id topic partition offset
                  (lr_logical_event_id record) (lr_event_type record) (lr_user_id record)
                  (lr_payload record)])
            (ledger_entries db) (ledger_offsets db) (ledger_event_seq db)) in
      ret (Some event_id).

Definition insert_ledger_entry (event_id : Z) (entry : LedgerEntryDraft) : LDb unit :=
  if negb (in_i64b (led_total_delta entry) && in_i64b (led_locked_delta entry))
  then throw (LedgerError_Storage NumericValueOutOfRange)
  else if bool_decide (led_kind entry = "") then throw (LedgerError_Storage CheckViolation)
  else
    do* ledger_check_user (led_user_id entry) in
    modify (fun db => mkLedgerDb (ld_users db) (ledger_events db)
      (ledger_entries db ++ [(event_id, entry)]) (ledger_offsets db) (ledger_event_seq db)).

Definition ledger_save_queue_offset_in_tx (topic : string) (partition next_offset : Z)
    : LDb unit :=
  let* t := gets ledger_offsets in
  match upsert_offset topic partition next_offset t with
  | Ok t' => modify (fun db => mkLedgerDb (ld_users db) (ledger_events db)
                       (ledger_entries db) t' (ledger_event_seq db))
  | Err e => throw (LedgerError_Storage e)
  end.

Definition ledger_save_queue_offset (topic : string) (partition next_offset : Z) : LDb unit :=
  transaction (ledger_save_queue_offset_in_tx topic partition next_offset).

Definition ledger_load_queue_offset (topic : string) (partition : Z) (db : LedgerDb)
    : option Z := ledger_offsets db !! (topic, partition).

Definition record_wallet_event (topic : string) (partition offset next_offset : Z)
    (record : LedgerRecord) : LDb bool :=
  transaction (
    let* event_id := insert_ledger_event topic partition offset record in
    let* inserted :=
      match event_id with
      | Some event_id =>
          do* for_each (lr_entries record) (insert_ledger_entry event_id) in ret true
      | None => ret false
      end in
    do* ledger_save_queue_offset_in_tx topic partition next_offset in
    ret inserted).

(** ** The consumer: [worker.rs] and [redpanda.rs] *)

Definition process_wallet_event (event : WalletEvent) (topic : string)
    (partition offset next_offset : Z) : LDb unit :=
  match ledger_record_from_wallet_event event with
  | None => throw LedgerError_Serialization
  | Some record =>
      do* record_wallet_event topic partition offset next_offset record in ret tt
  end.

(** One turn of [run_wallet_event_partition] on a record. [parse] is
    [serde_json::from_slice]; a record may have no value, and its bytes may not
    be a wallet event. *)
Definition handle_wallet_event_record (parse : string -> option WalletEvent)
    (topic : string) (partition : Z) (offset : Z) (value : option string) : LDb unit :=
  let record_next_offset := i64_wrap (offset + 1) in
  match value with
  | None => ledger_save_queue_offset topic partition record_next_offset
  | Some payload =>
      match parse payload with
      | None => ledger_save_queue_offset topic partition record_next_offset
      | Some event => process_wallet_event event topic partition offset record_next_offset
      end
  end.
End WithSerde.
