(* ===== verification/LedgerTheorems.v ===== *)
(** * LedgerTheorems: the journal records every wallet event once

    Through any crashes and restarts the ledger's consumer applies each record of
    its partition once; events published twice enter the journal once; and the
    entries of the journal add up to the wallet's balances. *)

From S2P Require Import Prelude Protocol Postgres WalletDb WalletSpec Queue Ledger.

(** ** Specification *)

Definition entries_of (event : WalletEvent) : list LedgerEntryDraft := (event_entries event).2.

(** The events a journal keeps: each logical event id once, and every event that
    carries none. *)
Fixpoint journal (seen : list string) (events : list WalletEvent) : list WalletEvent :=
  match events with
  | [] => []
  | event :: events' =>
      match event_id event with
      | Some id => if bool_decide (id ∈ seen) then journal seen events'
                   else event :: journal (id :: seen) events'
      | None => event :: journal seen events'
      end
  end.

(** The change of an account a list of entries stands for. *)
Definition total_change (k : Z * AssetType) (entries : list LedgerEntryDraft) : Z :=
  foldr (fun e acc => (if decide ((led_user_id e, asset_to_db (led_asset e)) = k)
                       then led_total_delta e else 0) + acc) 0 entries.
Definition locked_change (k : Z * AssetType) (entries : list LedgerEntryDraft) : Z :=
  foldr (fun e acc => (if decide ((led_user_id e, asset_to_db (led_asset e)) = k)
                       then led_locked_delta e else 0) + acc) 0 entries.

Section WithSerde.
Context {SD : Serde}.
Implicit Types (db : LedgerDb).

(** The tables agree; only the sequence may have moved on. *)
Definition ledger_same_tables db db' : Prop :=
  ld_users db' = ld_users db /\ ledger_events db' = ledger_events db /\
  ledger_entries db' = ledger_entries db /\ ledger_offsets db' = ledger_offsets db.

Lemma ledger_transaction_err {A} (m : LDb A) db e db' :
  transaction m db = (Err e, db') -> ledger_same_tables db db'.
Proof. intros (db1 & _ & ->)%transaction_err. by split_and!. Qed.

Lemma ledger_check_user_ok user db u db' :
  ledger_check_user user db = (Ok u, db') -> db' = db.
Proof. unfold ledger_check_user. intros H. by inv_m H. Qed.

Lemma ledger_save_ok topic partition n db u db' :
  ledger_save_queue_offset_in_tx topic partition n db = (Ok u, db') ->
  ledger_events db' = ledger_events db /\ ledger_entries db' = ledger_entries db /\
  upsert_offset topic partition n (ledger_offsets db) = Ok (ledger_offsets db').
Proof. unfold ledger_save_queue_offset_in_tx. intros H. by inv_m H. Qed.

Lemma insert_entries_ok id entries db u db' :
  for_each entries (insert_ledger_entry id) db = (Ok u, db') ->
  ledger_events db' = ledger_events db /\ ledger_offsets db' = ledger_offsets db /\
  ledger_entries db' = ledger_entries db ++ ((fun e => (id, e)) <$> entries).
Proof.
  revert db u. induction entries as [|e entries IH]; cbn [for_each]; intros db u H.
  - inv_m H. by rewrite fmap_nil, app_nil_r.
  - apply bind_ok in H as (? & db1 & H1 & H). apply IH in H as (-> & -> & ->).
    unfold insert_ledger_entry in H1. inv_m H1.
    apply ledger_check_user_ok in Hm as ->. cbn. by rewrite <- app_assoc.
Qed.

Lemma insert_ledger_event_ok topic partition offset record db r db' :
  insert_ledger_event topic partition offset record db = (Ok r, db') ->
  let conflict := existsb (event_conflicts topic partition offset (lr_logical_event_id record))
                    (ledger_events db) in
  ledger_entries db' = ledger_entries db /\ ledger_offsets db' = ledger_offsets db /\
  match r with
  | None => conflict = true /\ ledger_events db' = ledger_events db
  | Some id => conflict = false /\ exists row,
      ledger_events db' = ledger_events db ++ [row] /\
      le_topic row = topic /\ le_partition row = partition /\ le_offset_value row = offset /\
      le_logical_event_id row = lr_logical_event_id record
  end.
Proof.
  unfold insert_ledger_event. intros H. inv_m H.
  - by split_and!.
  - match goal with E : ledger_check_user _ _ = _ |- _ =>
      apply ledger_check_user_ok in E as -> end.
    cbn in *. split_and!; try done. eauto 10.
Qed.

(** What recording an event does: nothing but the offset when the journal already
    has its place or its logical id, and otherwise its row and its entries. *)
Lemma record_wallet_event_ok topic partition offset next record db inserted db' :
  record_wallet_event topic partition offset next record db = (Ok inserted, db') ->
  let conflict := existsb (event_conflicts topic partition offset (lr_logical_event_id record))
                    (ledger_events db) in
  inserted = negb conflict /\
  upsert_offset topic partition next (ledger_offsets db) = Ok (ledger_offsets db') /\
  if conflict
  then ledger_events db' = ledger_events db /\ ledger_entries db' = ledger_entries db
  else exists id row,
    ledger_events db' = ledger_events db ++ [row] /\
    le_topic row = topic /\ le_partition row = partition /\ le_offset_value row = offset /\
    le_logical_event_id row = lr_logical_event_id record /\
    ledger_entries db' = ledger_entries db ++ ((fun e => (id, e)) <$> lr_entries record).
Proof.
  unfold record_wallet_event. intros H. apply transaction_ok in H.
  apply bind_ok in H as (o & db1 & Hi & H). apply bind_ok in H as (b & db2 & Hb & H).
  apply bind_ok in H as (u & db3 & Hs & H). injection H as <- <-.
  apply insert_ledger_event_ok in Hi as (He & Ho & Hc).
  apply ledger_save_ok in Hs as (Hs1 & Hs2 & Hs3).
  destruct o as [id|].
  - destruct Hc as (Hc & row & Hev & Hrow). cbn zeta. rewrite Hc.
    apply bind_ok in Hb as (u' & db4 & Hb & E). injection E as <- <-.
    apply insert_entries_ok in Hb as (H1 & H2 & H3).
    rewrite H2, Ho in Hs3. split_and!; try done. exists id, row.
    rewrite Hs1, Hs2, H1, H3, He, Hev. by destruct Hrow as (?&?&?&?).
  - destruct Hc as (Hc & Hev). cbn zeta. rewrite Hc. injection Hb as <- <-.
    rewrite Ho in Hs3. split_and!; try done; congruence.
Qed.

(** An event of known users with entries in range is recorded, or was already. *)
Lemma insert_entries_run id entries db :
  (forall e, e ∈ entries -> in_i64b (led_total_delta e) = true /\ in_i64b (led_locked_delta e) = true /\
     led_kind e <> "" /\ led_user_id e ∈ ld_users db) ->
  exists db', for_each entries (insert_ledger_entry id) db = (Ok tt, db') /\ ld_users db' = ld_users db.
Proof.
  revert db. induction entries as [|e entries IH]; cbn [for_each]; intros db Hall; [by eexists|].
  destruct (Hall e) as (Ht & Hl & Hk & Hu); [by left|].
  assert (insert_ledger_entry id e db = (Ok tt, mkLedgerDb (ld_users db) (ledger_events db)
    (ledger_entries db ++ [(id, e)]) (ledger_offsets db) (ledger_event_seq db))) as Hrun.
  { unfold insert_ledger_entry. rewrite Ht, Hl, bool_decide_eq_false_2 by done. cbn.
    unfold ledger_check_user, bind, gets. by rewrite bool_decide_eq_true_2. }
  rewrite (bind_run _ _ _ _ _ Hrun).
  match goal with |- context [for_each entries _ ?db1] => apply (IH db1) end.
  intros e' He'. apply Hall. by right.
Qed.

Lemma ledger_save_run topic partition next db :
  0 <= next -> exists db', ledger_save_queue_offset_in_tx topic partition next db = (Ok tt, db') /\
    ld_users db' = ld_users db.
Proof.
  intros Hn. destruct (upsert_offset_total topic partition next (ledger_offsets db) Hn) as [t Ht].
  eexists. unfold ledger_save_queue_offset_in_tx, bind, gets. by rewrite Ht.
Qed.

Lemma record_wallet_event_run topic partition offset next record db :
  0 <= offset -> 0 <= next -> lr_logical_event_id record <> Some "" ->
  lr_user_id record ∈ ld_users db ->
  (forall e, e ∈ lr_entries record -> in_i64b (led_total_delta e) = true /\
     in_i64b (led_locked_delta e) = true /\ led_kind e <> "" /\ led_user_id e ∈ ld_users db) ->
  exists inserted db', record_wallet_event topic partition offset next record db = (Ok inserted, db') /\
    ld_users db' = ld_users db.
Proof.
  intros Ho Hn Hid Hu He. unfold record_wallet_event.
  assert (exists id db1, insert_ledger_event topic partition offset record db = (Ok id, db1) /\
    ld_users db1 = ld_users db) as (id & db1 & H1 & Hu1).
  { unfold insert_ledger_event, bind, gets, modify. case_if.
    - match goal with E : _ || _ = true |- _ => apply orb_true_iff in E as [E|E] end;
        split_bool; [lia|done].
    - cbn. destruct (existsb _ _); [by do 2 eexists|].
      unfold ledger_check_user, bind, gets. cbn.
      rewrite bool_decide_eq_true_2 by done. cbn. by do 2 eexists. }
  assert (exists inserted db2, match id with
      | Some event_id => do* for_each (lr_entries record) (insert_ledger_entry event_id) in ret true
      | None => ret false
      end db1 = (Ok inserted, db2) /\ ld_users db2 = ld_users db) as (inserted & db2 & H2 & Hu2).
  { destruct id as [id|]; [|by do 2 eexists].
    destruct (insert_entries_run id (lr_entries record) db1) as (db2 & H2 & Hu2);
      [intros e; rewrite Hu1; apply He|].
    rewrite (bind_run _ _ _ _ _ H2). do 2 eexists. split; [done|]. congruence. }
  destruct (ledger_save_run topic partition next db2 Hn) as (db3 & H3 & Hu3).
  exists inserted, db3. split; [|congruence]. apply transaction_run. rewrite (bind_run _ _ _ _ _ H1).
  rewrite (bind_run _ _ _ _ _ H2). by rewrite (bind_run _ _ _ _ _ H3).
Qed.

(** What the ledger can book: an event of known users, under an id that is not
    empty, with amounts and kinds the tables take. *)
Record bookable (us : gset Z) (event : WalletEvent) : Prop := {
  bk_id : event_id event <> Some "";
  bk_user : (event_entries event).1.2 ∈ us;
  bk_entries : forall e, e ∈ entries_of event ->
    in_i64b (led_total_delta e) = true /\ in_i64b (led_locked_delta e) = true /\
    led_kind e <> "" /\ led_user_id e ∈ us
}.

(** ** The consumer *)

Section Consumer.
Variable parse : string -> option WalletEvent.
Variable topic : string.
Variable partition : Z.
(** Every event the stream carries can be serialised again. *)
Hypothesis serialises : forall e, is_Some (wallet_event_to_value e).

Definition ledger_handle (o : Z) (value : option string) (db : LedgerDb)
    : Result LedgerError unit * LedgerDb :=
  handle_wallet_event_record parse topic partition o value db.
Definition ledger_stored (db : LedgerDb) : option Z := ledger_load_queue_offset topic partition db.
Definition parsed (value : option string) : option WalletEvent :=
  match value with Some payload => parse payload | None => None end.

Lemma ledger_record_of e : exists record, ledger_record_from_wallet_event e = Some record /\
  lr_logical_event_id record = event_id e /\ lr_entries record = entries_of e.
Proof.
  unfold ledger_record_from_wallet_event, entries_of. destruct (serialises e) as [v ->].
  destruct (event_entries e) as [[ty user] entries]. by eexists.
Qed.

(** Every record but a bad event is handled. *)
Lemma ledger_handle_runs us o value db :
  0 <= o < i64_max -> ld_users db = us -> (forall e, parsed value = Some e -> bookable us e) ->
  exists u db', ledger_handle o value db = (Ok u, db') /\ ld_users db' = us.
Proof.
  intros Ho <- Hb. unfold ledger_handle, handle_wallet_event_record, parsed in *.
  assert (0 <= i64_wrap (o + 1)) as Hn
    by (rewrite i64_wrap_id; unfold in_i64, i64_min, i64_max in *; lia).
  assert (exists u db', ledger_save_queue_offset topic partition (i64_wrap (o + 1)) db = (Ok u, db') /\
    ld_users db' = ld_users db) as Hsave.
  { destruct (ledger_save_run topic partition _ db Hn) as (db' & H & Hu). exists tt, db'.
    split; [by apply transaction_run|done]. }
  destruct value as [payload|]; [destruct (parse payload) as [e|]|]; [|exact Hsave..].
  destruct (Hb e eq_refl) as [Hid Hu He]. unfold process_wallet_event.
  destruct (ledger_record_of e) as (record & Hrec & Hrid & Hrent). rewrite Hrec.
  destruct (record_wallet_event_run topic partition o (i64_wrap (o + 1)) record db) as (b & db' & Hrun & Hus);
    [lia|done|by rewrite Hrid|..].
  - unfold ledger_record_from_wallet_event in Hrec. destruct (wallet_event_to_value e); [|done].
    destruct (event_entries e) as [[ty user] es] eqn:E. injection Hrec as <-. done.
  - rewrite Hrent. exact He.
  - exists tt, db'. rewrite (bind_run _ _ _ _ _ Hrun). done.
Qed.

(** What one turn of the loop does to the tables. *)
Lemma ledger_handle_ok o value db u db' :
  ledger_handle o value db = (Ok u, db') ->
  upsert_offset topic partition (i64_wrap (o + 1)) (ledger_offsets db)
    = Ok (ledger_offsets db') /\
  match parsed value with
  | None => ledger_events db' = ledger_events db /\ ledger_entries db' = ledger_entries db
  | Some e =>
      if existsb (event_conflicts topic partition o (event_id e)) (ledger_events db)
      then ledger_events db' = ledger_events db /\ ledger_entries db' = ledger_entries db
      else exists id row, ledger_events db' = ledger_events db ++ [row] /\
        le_topic row = topic /\ le_partition row = partition /\ le_offset_value row = o /\
        le_logical_event_id row = event_id e /\
        ledger_entries db' = ledger_entries db ++ ((fun x => (id, x)) <$> entries_of e)
  end.
Proof.
  unfold ledger_handle, handle_wallet_event_record, parsed. intros H.
  destruct value as [payload|]; [destruct (parse payload) as [e|]|].
  - unfold process_wallet_event in H.
    destruct (ledger_record_of e) as (record & Hrec & Hid & Hent). rewrite Hrec in H.
    apply bind_ok in H as (b & db1 & H & E). injection E as _ <-.
    apply record_wallet_event_ok in H as (_ & Hoff & Hc). cbn zeta in Hc.
    by rewrite Hid, Hent in Hc.
  - apply transaction_ok, ledger_save_ok in H as (? & ? & ?). by split.
  - apply transaction_ok, ledger_save_ok in H as (? & ? & ?). by split.
Qed.

Lemma ledger_handle_err o value db e db' :
  ledger_handle o value db = (Err e, db') -> ledger_same_tables db db'.
Proof.
  unfold ledger_handle, handle_wallet_event_record, process_wallet_event. intros H.
  destruct value as [payload|]; [destruct (parse payload) as [ev|]|].
  - destruct (ledger_record_from_wallet_event ev) as [record|].
    + apply bind_err in H as [H|(? & ? & _ & ?)]; [|done]. by apply ledger_transaction_err in H.
    + injection H as _ <-. by split_and!.
  - by apply ledger_transaction_err in H.
  - by apply ledger_transaction_err in H.
Qed.

(** The users are not the ledger's to change. *)
Lemma ledger_handle_users o value : keeps ld_users (ledger_handle o value).
Proof.
  change (ledger_handle o value) with (handle_wallet_event_record parse topic partition o value).
  unfold handle_wallet_event_record, process_wallet_event, record_wallet_event,
    ledger_save_queue_offset, ledger_save_queue_offset_in_tx, insert_ledger_event,
    insert_ledger_entry, ledger_check_user. keep.
Qed.

Lemma ledger_handle_saves earliest o value db db' :
  0 <= o <= i64_max -> default earliest (ledger_stored db) <= o ->
  ledger_handle o value db = (Ok tt, db') -> ledger_stored db' = Some (o + 1).
Proof.
  intros Ho Hle [Hs _]%ledger_handle_ok. by eapply upsert_next_offset.
Qed.

(** ** The journal *)

Definition events_of (l : list (Z * option string)) : list WalletEvent :=
  omap (fun r => parsed r.2) l.

Definition entries_text (db : LedgerDb) : list LedgerEntryDraft := (ledger_entries db).*2.

(** [seen] holds the logical ids of the journal, and no row of this partition is
    at or past [n]. *)
Definition journal_inv (n : Z) (seen : list string) db : Prop :=
  (forall row, row ∈ ledger_events db -> le_topic row = topic -> le_partition row = partition ->
     le_offset_value row < n) /\
  (forall id, id ∈ seen <-> exists row, row ∈ ledger_events db /\
     le_logical_event_id row = Some id).

Lemma journal_conflict n seen db o id :
  journal_inv n seen db -> n <= o ->
  existsb (event_conflicts topic partition o id) (ledger_events db)
  = match id with Some id => bool_decide (id ∈ seen) | None => false end.
Proof.
  intros [Hoff Hseen] Hn. apply Bool.eq_true_iff_eq. rewrite existsb_exists.
  assert (forall row, row ∈ ledger_events db ->
    bool_decide (le_topic row = topic) && (le_partition row =? partition)
      && (le_offset_value row =? o) = false) as Hplace.
  { intros row Hrow. apply not_true_iff_false. intros H. split_bool.
    pose proof (Hoff row Hrow ltac:(done) ltac:(done)). lia. }
  split.
  - intros (row & Hin & Hc). apply list_elem_of_In in Hin. unfold event_conflicts in Hc.
    rewrite (Hplace row Hin) in Hc. cbn in Hc. destruct id as [id|]; [|done].
    apply bool_decide_eq_true in Hc. apply bool_decide_eq_true, Hseen. eauto.
  - destruct id as [id|]; [|done]. intros (row & Hin & Hid)%bool_decide_eq_true%Hseen.
    exists row. split; [by apply list_elem_of_In|]. unfold event_conflicts.
    rewrite (Hplace row Hin). cbn. by apply bool_decide_eq_true.
Qed.

Lemma journal_inv_weaken n n' seen db : journal_inv n seen db -> n <= n' -> journal_inv n' seen db.
Proof. intros [H1 H2] ?. split; [|done]. intros row ???. pose proof (H1 row). intuition lia. Qed.

Lemma journal_inv_same n seen db db' :
  journal_inv n seen db -> ledger_events db' = ledger_events db -> journal_inv n seen db'.
Proof. intros H E. unfold journal_inv. by rewrite E. Qed.

Lemma journal_inv_add n seen db db' row o :
  journal_inv n seen db -> n <= o ->
  ledger_events db' = ledger_events db ++ [row] -> le_offset_value row = o ->
  journal_inv (o + 1)
    (match le_logical_event_id row with Some id => id :: seen | None => seen end) db'.
Proof.
  intros [H1 H2] Hn E Ho. split; rewrite E.
  - intros r [Hr|Hr%list_elem_of_singleton]%elem_of_app Ht Hp; [|subst; lia].
    pose proof (H1 r Hr Ht Hp). lia.
  - intros id. setoid_rewrite elem_of_app. setoid_rewrite list_elem_of_singleton.
    destruct (le_logical_event_id row) as [id'|] eqn:El; rewrite ?elem_of_cons, H2.
    + split.
      * intros [->|(r & ? & ?)]; [exists row|exists r]; eauto.
      * intros (r & [Hr|Hr] & Hid); [right; eauto|left; congruence].
    + split; [intros (r & ? & ?); eauto|intros (r & [Hr|Hr] & Hid); [eauto|congruence]].
Qed.

Lemma journal_handled db done db' n seen :
  handled_all ledger_same_tables ledger_handle db done db' ->
  offsets_from n done -> journal_inv n seen db ->
  entries_text db' = entries_text db ++ (journal seen (events_of done) ≫= entries_of).
Proof.
  intros Hd. revert n seen.
  induction Hd as [db|db o v l db1 db2 Hok _ IH|db db1 l db2 Hsame _ IH]; intros n seen Hoff Hinv.
  - by rewrite app_nil_r.
  - destruct Hoff as (Hn & _ & Hoff). apply ledger_handle_ok in Hok as [_ Hev].
    unfold events_of. cbn [omap list_omap snd].
    fold (events_of l). destruct (parsed v) as [e|].
    + rewrite (journal_conflict n seen) in Hev by done. cbn [journal].
      destruct (event_id e) as [id|] eqn:Eid; [case_bool_decide as Hin|].
      * destruct Hev as [Hev Hent]. rewrite (IH (o + 1) seen); [|done|].
        -- unfold entries_text. by rewrite Hent.
        -- apply (journal_inv_weaken n); [by eapply journal_inv_same|lia].
      * destruct Hev as (x & row & Hev & _ & _ & Ho & Hid & Hent).
        rewrite (IH (o + 1) (id :: seen)); [|done|].
        -- unfold entries_text. rewrite Hent, fmap_app, <- list_fmap_compose.
           cbn. rewrite list_fmap_id. by rewrite <- app_assoc.
        -- pose proof (journal_inv_add n seen db db1 row o Hinv Hn Hev Ho) as H.
           by rewrite Hid in H.
      * destruct Hev as (x & row & Hev & _ & _ & Ho & Hid & Hent).
        rewrite (IH (o + 1) seen); [|done|].
        -- unfold entries_text. rewrite Hent, fmap_app, <- list_fmap_compose.
           cbn. rewrite list_fmap_id. by rewrite <- app_assoc.
        -- pose proof (journal_inv_add n seen db db1 row o Hinv Hn Hev Ho) as H.
           by rewrite Hid in H.
    + destruct Hev as [Hev Hent]. rewrite (IH (o + 1) seen); [|done|].
      * unfold entries_text. by rewrite Hent.
      * apply (journal_inv_weaken n); [by eapply journal_inv_same|lia].
  - destruct Hsame as (_ & Hev & Hent & _). rewrite (IH n seen); [|done|].
    + unfold entries_text. by rewrite Hent.
    + by eapply journal_inv_same.
Qed.
End Consumer.

(** A ledger before its first record. *)
Definition empty_ledger (us : gset Z) : LedgerDb := mkLedgerDb us [] [] ∅ 1.

(** Everywhere the consumer can get, from an empty ledger on. *)
Lemma ledger_exactly_once {LAWS : SerdeLaws} parse topic partition us
    (log : list (Z * option string)) earliest s :
  offsets_from earliest log ->
  rtc (consumer_step ledger_same_tables (ledger_stored topic partition) (ledger_handle parse topic partition)
         log earliest) (empty_ledger us, Stopped) s ->
  exists done rest, exactly_once ledger_same_tables (ledger_stored topic partition)
    (ledger_handle parse topic partition) log earliest (empty_ledger us) s done rest /\
    entries_text s.1 = journal [] (events_of parse done) ≫= entries_of.
Proof.
  intros Hlog Hs.
  assert (exists done rest, exactly_once ledger_same_tables (ledger_stored topic partition)
    (ledger_handle parse topic partition) log earliest (empty_ledger us) s done rest)
    as (done & rest & Hex).
  { apply exactly_once_reachable; try done.
    - intros o v db db' Ho Hle Hok.
      by apply (ledger_handle_saves parse topic partition wallet_event_total earliest o v db).
    - intros o v db e db' He. apply ledger_handle_err in He as (? & ? & ? & Hoff).
      split; [|by split_and!]. unfold ledger_stored, ledger_load_queue_offset. by rewrite Hoff. }
  exists done, rest. split; [exact Hex|]. destruct Hex as [Hl Hh _ _].
  apply (journal_handled parse topic partition wallet_event_total) with (n := earliest)
    (seen := []) in Hh; [done|..].
  - rewrite Hl in Hlog. clear -Hlog. revert earliest Hlog.
    induction done as [|[o p] done IH]; cbn; [done|]. intros e (? & ? & ?). auto.
  - split; cbn; [intros row H; by apply elem_of_nil in H|].
    intros id. split; [intros H; by apply elem_of_nil in H|].
    intros (row & H & _). by apply elem_of_nil in H.
Qed.

(** Claim C7 (safety). Whatever crashes and restarts the ledger's consumer goes
    through, the records before its stored offset have each been applied exactly
    once, in order, and the entries it holds are those of the events in that
    part of the stream, each logical event counted once however often it was
    published. *)
Theorem ledger_consumes_exactly_once {LAWS : SerdeLaws} parse topic partition us
    (log : list (Z * option string)) earliest s :
  offsets_from earliest log ->
  rtc (consumer_step ledger_same_tables (ledger_stored topic partition) (ledger_handle parse topic partition)
         log earliest) (empty_ledger us, Stopped) s ->
  exists done rest, log = done ++ rest /\
    default earliest (ledger_stored topic partition s.1) = offset_after earliest done /\
    entries_text s.1 = journal [] (events_of parse done) ≫= entries_of.
Proof.
  intros Hlog Hs. destruct (ledger_exactly_once parse topic partition us log earliest s Hlog Hs)
    as (done & rest & [Hl _ Hst _] & Hent). by exists done, rest.
Qed.
End WithSerde.

(** ** The journal and the wallet's books *)

Lemma total_change_app k l1 l2 : total_change k (l1 ++ l2) = total_change k l1 + total_change k l2.
Proof. unfold total_change. induction l1; cbn; [done|]. rewrite IHl1. lia. Qed.
Lemma locked_change_app k l1 l2 :
  locked_change k (l1 ++ l2) = locked_change k l1 + locked_change k l2.
Proof. unfold locked_change. induction l1; cbn; [done|]. rewrite IHl1. lia. Qed.

Lemma neg_wrap b x : 0 <= b <= i64_max -> -i64_max <= x <= b -> i64_wrap (- x) = - x.
Proof. intros. apply i64_wrap_id. unfold in_i64, i64_min, i64_max in *. lia. Qed.

Lemma book_step_change bk e bk' k' :
  book_step bk e bk' -> books_wf bk ->
  total_at bk' k' = total_at bk k' + total_change k' (entries_of e) /\
  locked_at bk' k' = locked_at bk k' + locked_change k' (entries_of e).
Proof.
  intros Hs Hwf. unfold total_change, locked_change.
  destruct Hs; cbn [entries_of event_entries funds_reserved_entries funds_released_entries
    trade_settled_entries deposit_entries withdrawal_entries account_delta_entries snd foldr
    led_user_id led_asset led_total_delta led_locked_delta
    wfr_user_id wfr_asset wfr_amount wfl_user_id wfl_asset wfl_amount wts_user_id
    wts_debit_asset wts_debit_amount wts_credit_asset wts_credit_amount wda_user_id wda_asset
    wda_amount wwa_user_id wwa_asset wwa_amount wad_user_id wad_asset wad_total_delta
    wad_locked_delta];
    rewrite ?total_at_with_reservation, ?total_at_with_entry, ?locked_at_with_reservation,
      ?locked_at_with_entry, ?total_at_with_balance, ?locked_at_with_balance.
  - unfold total_at, locked_at. case_decide; [subst|lia].
    rewrite (balance_at_lookup _ _ _ H). cbn. lia.
  - fold k. case_decide; [subst k'|lia]. cbn. lia.
  - destruct (balance_at_wf _ k Hwf) as (?&?&?).
    rewrite (neg_wrap i64_max) by (unfold total_at, locked_at, i64_max in *; lia).
    fold k. case_decide; [subst k'|lia]. cbn. lia.
  - destruct (wf_balance _ Hwf _ _ H2) as [(?&?&?) _]. rewrite asset_to_from_db.
    rewrite (neg_wrap i64_max) by (unfold i64_max in *; lia).
    fold k. unfold total_at, locked_at. case_decide; [subst k'|lia].
    rewrite (balance_at_lookup _ _ _ H2). cbn. lia.
  - destruct (wf_reservation _ Hwf _ _ H) as [(?&?&_) _].
    destruct (settle_balances_at _ _ _ _ _ _ _ k' H3) as [-> ->].
    rewrite (neg_wrap i64_max) by (unfold i64_max in *; lia).
    fold user. repeat case_decide; lia.
  - fold k. case_decide; [subst k'|lia]. cbn. lia.
Qed.

(** Claim C8 (refinement). The entries the ledger derives from the wallet events
    of any run of the wallet's books add up, account by account, to the change
    the run made to the account's total and locked balance. *)
Theorem ledger_entries_match_books bk es bk' k :
  books_wf bk -> book_steps bk es bk' ->
  total_at bk' k = total_at bk k + total_change k (es ≫= entries_of) /\
  locked_at bk' k = locked_at bk k + locked_change k (es ≫= entries_of).
Proof.
  intros Hwf Hs. revert Hwf. induction Hs as [|bk e bk1 es bk2 He _ IH]; intros Hwf.
  - cbn. lia.
  - destruct (book_step_change _ _ _ k He Hwf) as [Ht Hl].
    destruct (IH (book_step_wf _ _ _ He Hwf)) as [-> ->]. rewrite bind_cons.
    rewrite total_change_app, locked_change_app. lia.
Qed.
