(* ===== verification/Timeseries.v ===== *)
(** * Timeseries: trades and candles

    [apps/timeseries]: the candle drafts of a trade ([processor.rs]), the
    transaction that stores a trade and folds it into its candles
    ([repository.rs]) and one turn of the consumer ([worker.rs], [redpanda.rs]). *)

From S2P Require Import Prelude Protocol Postgres.

(** ** Drafts: [processor.rs] *)

Definition MINUTE_MS : Z := 60000.
Definition HOUR_MS : Z := 60 * MINUTE_MS.
Definition DAY_MS : Z := 24 * HOUR_MS.

Record CandleInterval := mkCandleInterval { ci_label : string; ci_duration_ms : Z }.

Definition CANDLE_INTERVALS : list CandleInterval :=
  [mkCandleInterval "1m" MINUTE_MS; mkCandleInterval "5m" (5 * MINUTE_MS);
   mkCandleInterval "15m" (15 * MINUTE_MS); mkCandleInterval "1h" HOUR_MS;
   mkCandleInterval "1d" DAY_MS].

Record CandleDraft := mkCandleDraft {
  cd_market_id : Z;
  cd_interval : string;
  cd_bucket_start_ms : Z;
  cd_price : Z;
  cd_quantity : Z;
  cd_engine_sequence : Z
}.

(** [i64::rem_euclid] by a positive interval is [mod]. *)
Definition bucket_start_ms (timestamp_ms interval_ms : Z) : Z :=
  i64_wrap (timestamp_ms - timestamp_ms mod interval_ms).

Definition candle_drafts_from_trade (trade : TradeExecuted) : list CandleDraft :=
  map (fun interval =>
    mkCandleDraft (te_market_id trade) (ci_label interval)
      (bucket_start_ms (te_engine_timestamp_ms trade) (ci_duration_ms interval))
      (te_price trade) (te_quantity trade) (te_engine_sequence trade))
    CANDLE_INTERVALS.

(** ** The repository: [repository.rs]

    The tables are those of [crates/db/timeseries_migrations], which know no other
    table: a market's id is any BIGINT. *)

(** A row of [timeseries_trades], without its key (market, engine sequence). *)
Record TradeRow := mkTradeRow {
  tr_fill_id : Z;
  tr_engine_timestamp_ms : Z;
  tr_price : Z;
  tr_quantity : Z;
  tr_topic : string;
  tr_partition : Z;
  tr_offset_value : Z
}.

(** A row of [candles], without its key (market, interval, bucket start). The
    bucket is kept in milliseconds: [TO_TIMESTAMP(ms::float8 / 1000)] is off by
    less than a hundredth of a second, and so injective on bucket starts, for
    every timestamp Postgres can hold. *)
Record CandleRow := mkCandleRow {
  cr_open : Z;
  cr_high : Z;
  cr_low : Z;
  cr_close : Z;
  cr_volume : Z;
  cr_trade_count : Z;
  cr_first_engine_sequence : Z;
  cr_last_engine_sequence : Z
}.

Record TimeseriesDb := mkTimeseriesDb {
  timeseries_trades : gmap (Z * Z) TradeRow;
  candles : gmap (Z * string * Z) CandleRow;
  timeseries_offsets : Offsets
}.

#[export] Instance TimeseriesDb_rollback : Rollback TimeseriesDb := fun before _ => before.

Definition TDb (A : Type) : Type := M TimeseriesDb SqlError A.

Definition trade_row_ok (engine_sequence : Z) (row : TradeRow) : bool :=
  (0 <? engine_sequence) && (0 <=? tr_engine_timestamp_ms row) && (0 <=? tr_price row)
  && (0 <? tr_quantity row) && (0 <=? tr_offset_value row).

(** The unique indexes of [timeseries_trades] other than its primary key. *)
Definition trade_clashes (row : TradeRow) (m : gmap (Z * Z) TradeRow) : bool :=
  existsb (fun '(_, r) =>
      (tr_fill_id r =? tr_fill_id row)
      || (bool_decide (tr_topic r = tr_topic row) && (tr_partition r =? tr_partition row)
          && (tr_offset_value r =? tr_offset_value row)))
    (map_to_list m).

(** [INSERT INTO timeseries_trades ... ON CONFLICT(market_id, engine_sequence) DO
    NOTHING RETURNING engine_sequence]: whether the row was inserted. *)
Definition insert_trade (topic : string) (partition offset : Z) (trade : TradeExecuted)
    : TDb bool :=
  let row := mkTradeRow (te_fill_id trade) (te_engine_timestamp_ms trade) (te_price trade)
               (te_quantity trade) topic partition offset in
  let k := (te_market_id trade, te_engine_sequence trade) in
  if negb (to_timestamp_ok (te_engine_timestamp_ms trade)) then throw NumericValueOutOfRange
  else if negb (trade_row_ok (te_engine_sequence trade) row) then throw CheckViolation
  else
    let* m := gets timeseries_trades in
    if bool_decide (is_Some (m !! k)) then ret false
    else if trade_clashes row m then throw UniqueViolation
    else
      do* modify (fun db => mkTimeseriesDb (<[k := row]> (timeseries_trades db))
                              (candles db) (timeseries_offsets db)) in
      ret true.

Definition candle_ok (c : CandleRow) : Result SqlError unit :=
  if negb (in_i64b (cr_volume c) && in_i64b (cr_trade_count c)) then Err NumericValueOutOfRange
  else if (0 <=? cr_open c) && (0 <=? cr_high c) && (0 <=? cr_low c) && (0 <=? cr_close c)
          && (0 <? cr_volume c) && (0 <? cr_trade_count c)
          && (0 <? cr_first_engine_sequence c)
          && (cr_first_engine_sequence c <=? cr_last_engine_sequence c)
  then Ok tt else Err CheckViolation.

(** The row the INSERT of a draft proposes, and what DO UPDATE makes of it. *)
Definition draft_row (candle : CandleDraft) : CandleRow :=
  mkCandleRow (cd_price candle) (cd_price candle) (cd_price candle) (cd_price candle)
    (cd_quantity candle) 1 (cd_engine_sequence candle) (cd_engine_sequence candle).

Definition merge_candle (candles excluded : CandleRow) : CandleRow := {|
  cr_open := if cr_first_engine_sequence excluded <? cr_first_engine_sequence candles
             then cr_open excluded else cr_open candles;
  cr_high := Z.max (cr_high candles) (cr_high excluded);
  cr_low := Z.min (cr_low candles) (cr_low excluded);
  cr_close := if cr_last_engine_sequence candles <? cr_last_engine_sequence excluded
              then cr_close excluded else cr_close candles;
  cr_volume := cr_volume candles + cr_volume excluded;
  cr_trade_count := cr_trade_count candles + cr_trade_count excluded;
  cr_first_engine_sequence :=
    Z.min (cr_first_engine_sequence candles) (cr_first_engine_sequence excluded);
  cr_last_engine_sequence :=
    Z.max (cr_last_engine_sequence candles) (cr_last_engine_sequence excluded)
|}.

Definition upsert_candle_in_tx (candle : CandleDraft) : TDb unit :=
  let k := (cd_market_id candle, cd_interval candle, cd_bucket_start_ms candle) in
  if negb (to_timestamp_ok (cd_bucket_start_ms candle)) then throw NumericValueOutOfRange
  else if negb (bool_decide (cd_interval candle ∈ ["1m"; "5m"; "15m"; "1h"; "1d"]))
  then throw CheckViolation
  else
    do* lift (candle_ok (draft_row candle)) in
    let* existing := gets (fun db => candles db !! k) in
    let row := match existing with
               | Some c => merge_candle c (draft_row candle)
               | None => draft_row candle
               end in
    do* lift (candle_ok row) in
    modify (fun db => mkTimeseriesDb (timeseries_trades db)
                        (<[k := row]> (candles db)) (timeseries_offsets db)).

Definition timeseries_save_queue_offset_in_tx (topic : string) (partition next_offset : Z)
    : TDb unit :=
  let* t := gets timeseries_offsets in
  let* t' := lift (upsert_offset topic partition next_offset t) in
  modify (fun db => mkTimeseriesDb (timeseries_trades db) (candles db) t').

Definition timeseries_save_queue_offset (topic : string) (partition next_offset : Z) : TDb unit :=
  transaction (timeseries_save_queue_offset_in_tx topic partition next_offset).

Definition timeseries_load_queue_offset (topic : string) (partition : Z) (db : TimeseriesDb)
    : option Z := timeseries_offsets db !! (topic, partition).

Definition record_trade (topic : string) (partition offset next_offset : Z)
    (trade : TradeExecuted) (drafts : list CandleDraft) : TDb bool :=
  transaction (
    let* inserted := insert_trade topic partition offset trade in
    do* (if inserted then for_each drafts upsert_candle_in_tx else ret tt) in
    do* timeseries_save_queue_offset_in_tx topic partition next_offset in
    ret inserted).

(** ** The consumer: [worker.rs] and [redpanda.rs] *)

Definition timeseries_process_engine_event (event : EngineEvent) (topic : string)
    (partition offset next_offset : Z) : TDb unit :=
  match event with
  | EngineEvent_TradeExecuted trade =>
      do* record_trade topic partition offset next_offset trade
            (candle_drafts_from_trade trade) in
      ret tt
  | _ => timeseries_save_queue_offset topic partition next_offset
  end.

(** One turn of [run_engine_event_partition]; [parse] is
    [serde_json::from_slice]. *)
Definition handle_engine_event_record (parse : string -> option EngineEvent)
    (topic : string) (partition : Z) (offset : Z) (value : option string) : TDb unit :=
  let record_next_offset := i64_wrap (offset + 1) in
  match value with
  | None => timeseries_save_queue_offset topic partition record_next_offset
  | Some payload =>
      match parse payload with
      | None => timeseries_save_queue_offset topic partition record_next_offset
      | Some event =>
          timeseries_process_engine_event event topic partition offset record_next_offset
      end
  end.
