(* ===== verification/TimeseriesTheorems.v ===== *)
(** * TimeseriesTheorems: candles are what their trades say

    Through crashes, restarts and replays, and in whatever order trades arrive,
    every candle is the summary of exactly the stored trades of its market and
    bucket. *)

From S2P Require Import Prelude Protocol Postgres Queue Timeseries.

(** ** Specification *)

(** A candle summarises a set of trades of one market, keyed by market and engine
    sequence. *)
Record summarises (market : Z) (ts : gmap (Z * Z) TradeRow) (c : CandleRow) : Prop := {
  sum_open : exists t, ts !! (market, cr_first_engine_sequence c) = Some t /\
    tr_price t = cr_open c;
  sum_close : exists t, ts !! (market, cr_last_engine_sequence c) = Some t /\
    tr_price t = cr_close c;
  sum_between k t : ts !! k = Some t ->
    k.1 = market /\ cr_first_engine_sequence c <= k.2 <= cr_last_engine_sequence c /\
    cr_low c <= tr_price t <= cr_high c;
  sum_high : exists k t, ts !! k = Some t /\ tr_price t = cr_high c;
  sum_low : exists k t, ts !! k = Some t /\ tr_price t = cr_low c;
  sum_volume : cr_volume c = map_sum (fun _ t => tr_quantity t) ts;
  sum_count : cr_trade_count c = map_sum (fun _ _ => 1) ts
}.

(** The stored trades of a market whose bucket of this length starts at [b]. *)
Definition in_bucket (market duration b : Z) (kt : (Z * Z) * TradeRow) : Prop :=
  kt.1.1 = market /\ bucket_start_ms (tr_engine_timestamp_ms kt.2) duration = b.
#[export] Instance in_bucket_dec market duration b kt : Decision (in_bucket market duration b kt).
Proof. unfold in_bucket. apply _. Defined.

Definition trades_in (market duration b : Z) (m : gmap (Z * Z) TradeRow) : gmap (Z * Z) TradeRow :=
  filter (in_bucket market duration b) m.

(** Every candle of the table summarises the trades of its bucket, and a bucket
    without a candle has no trades. *)
Definition candles_match (db : TimeseriesDb) : Prop :=
  forall iv market b, iv ∈ CANDLE_INTERVALS ->
    match candles db !! (market, ci_label iv, b) with
    | Some c => summarises market
                  (trades_in market (ci_duration_ms iv) b (timeseries_trades db)) c
    | None => trades_in market (ci_duration_ms iv) b (timeseries_trades db) = ∅
    end.

(** ** Folding one trade into a candle *)

Section Fold.
Variables (market : Z) (row : TradeRow) (d : CandleDraft).
Hypothesis Hprice : cd_price d = tr_price row.
Hypothesis Hquantity : cd_quantity d = tr_quantity row.
Let k : Z * Z := (market, cd_engine_sequence d).

Lemma summarises_first : summarises market (<[k := row]> ∅) (draft_row d).
Proof.
  assert (forall k' t, <[k := row]> (∅ : gmap (Z * Z) TradeRow) !! k' = Some t ->
    k' = k /\ t = row) as Hone.
  { intros k' t [[<- <-]|[_ H]]%lookup_insert_Some; [done|by rewrite lookup_empty in H]. }
  split; cbn.
  - exists row. by rewrite lookup_insert_eq.
  - exists row. by rewrite lookup_insert_eq.
  - intros k' t [-> ->]%Hone. unfold k; cbn. split; [done|]. lia.
  - exists k, row. by rewrite lookup_insert_eq.
  - exists k, row. by rewrite lookup_insert_eq.
  - rewrite map_sum_insert_fresh, map_sum_empty by apply lookup_empty. lia.
  - rewrite map_sum_insert_fresh, map_sum_empty by apply lookup_empty. lia.
Qed.

Lemma summarises_merge ts c :
  ts !! k = None -> summarises market ts c ->
  summarises market (<[k := row]> ts) (merge_candle c (draft_row d)).
Proof.
  intros Hk [(to & Ho & Hop) (tc & Hc & Hcl) Hb (kh & th & Hh & Hhp) (kl & tl & Hl & Hlp) Hv Hn].
  assert (forall k' t, ts !! k' = Some t -> <[k := row]> ts !! k' = Some t) as Hkeep.
  { intros k' t H. rewrite lookup_insert_ne; [done|]. by intros <-; simplify_eq. }
  pose proof (lookup_insert_eq ts k row) as Hnew.
  pose proof (Hb _ _ Ho) as (_ & ? & ?). pose proof (Hb _ _ Hc) as (_ & ? & ?).
  split; cbn.
  - case_if.
    + exists row. rewrite Z.min_r by lia. split; [exact Hnew|done].
    + exists to. rewrite Z.min_l by lia. auto.
  - case_if.
    + exists row. rewrite Z.max_r by lia. split; [exact Hnew|done].
    + exists tc. rewrite Z.max_l by lia. auto.
  - intros k' t [[<- <-]|[_ Hold]]%lookup_insert_Some.
    + unfold k; cbn. split; [done|]. lia.
    + apply Hb in Hold as (? & ? & ?). split; [done|]. lia.
  - destruct (Z.max_spec (cr_high c) (cd_price d)) as [[_ ->]|[_ ->]]; [exists k, row|]; eauto.
  - destruct (Z.min_spec (cr_low c) (cd_price d)) as [[_ ->]|[_ ->]]; [|exists k, row]; eauto.
  - rewrite map_sum_insert_fresh by done. lia.
  - rewrite map_sum_insert_fresh by done. lia.
Qed.
End Fold.

(** ** Successful statements *)

Implicit Types (db : TimeseriesDb).

Definition draft_key (d : CandleDraft) : Z * string * Z :=
  (cd_market_id d, cd_interval d, cd_bucket_start_ms d).
Definition folded (d : CandleDraft) (c : option CandleRow) : CandleRow :=
  match c with Some c => merge_candle c (draft_row d) | None => draft_row d end.

Lemma lift_ok {E A} (r : Result E A) (s s' : TimeseriesDb) a :
  lift r s = (Ok a, s') -> r = Ok a /\ s' = s.
Proof. unfold lift. by intros [= -> ->]. Qed.

Lemma upsert_candle_ok d db u db' :
  upsert_candle_in_tx d db = (Ok u, db') ->
  db' = mkTimeseriesDb (timeseries_trades db)
          (<[draft_key d := folded d (candles db !! draft_key d)]> (candles db))
          (timeseries_offsets db).
Proof.
  unfold upsert_candle_in_tx, draft_key, folded. intros H.
  do 2 (case_if_in H; [done|]).
  apply bind_ok in H as (u1 & s1 & H1 & H). apply lift_ok in H1 as [_ ->].
  apply bind_ok in H as (c & s1 & H1 & H). injection H1 as <- <-.
  cbn zeta in H. apply bind_ok in H as (u3 & s1 & H2 & H). apply lift_ok in H2 as [_ ->].
  by injection H as <-.
Qed.

Lemma upsert_candles_ok drafts db u db' :
  NoDup (draft_key <$> drafts) ->
  for_each drafts upsert_candle_in_tx db = (Ok u, db') ->
  timeseries_trades db' = timeseries_trades db /\ timeseries_offsets db' = timeseries_offsets db /\
  (forall d, d ∈ drafts ->
     candles db' !! draft_key d = Some (folded d (candles db !! draft_key d))) /\
  (forall k, k ∉ draft_key <$> drafts -> candles db' !! k = candles db !! k).
Proof.
  revert db u. induction drafts as [|d drafts IH]; cbn [for_each]; intros db u Hnd H.
  - inv_m H. split_and!; try done. by intros d ?%elem_of_nil.
  - rewrite fmap_cons, NoDup_cons in Hnd. destruct Hnd as [Hd Hnd].
    apply bind_ok in H as (u1 & db1 & H1 & H). apply upsert_candle_ok in H1 as ->.
    apply IH in H as (-> & -> & Hin & Hout); [|done]. cbn in *. split_and!; try done.
    + intros d' [->|Hd']%elem_of_cons.
      * rewrite Hout by done. by rewrite lookup_insert_eq.
      * rewrite (Hin d' Hd'), lookup_insert_ne; [done|]. intros E. apply Hd. rewrite E.
        by apply list_elem_of_fmap_2.
    + intros k Hk. apply not_elem_of_cons in Hk as [Hne Hk].
      rewrite Hout by done. by rewrite lookup_insert_ne.
Qed.

Lemma insert_trade_ok topic partition offset trade db inserted db' :
  insert_trade topic partition offset trade db = (Ok inserted, db') ->
  let k := (te_market_id trade, te_engine_sequence trade) in
  let row := mkTradeRow (te_fill_id trade) (te_engine_timestamp_ms trade) (te_price trade)
               (te_quantity trade) topic partition offset in
  candles db' = candles db /\ timeseries_offsets db' = timeseries_offsets db /\
  if inserted
  then timeseries_trades db !! k = None /\
       timeseries_trades db' = <[k := row]> (timeseries_trades db)
  else is_Some (timeseries_trades db !! k) /\ timeseries_trades db' = timeseries_trades db.
Proof.
  unfold insert_trade. intros H. cbn zeta in *. inv_m H; split_bool; [done|].
  cbn. split_and!; try done. by apply eq_None_not_Some.
Qed.

Lemma interval_labels iv iv' :
  iv ∈ CANDLE_INTERVALS -> iv' ∈ CANDLE_INTERVALS -> ci_label iv = ci_label iv' -> iv = iv'.
Proof.
  unfold CANDLE_INTERVALS. intros H H'.
  repeat (apply elem_of_cons in H as [->|H]); [..|by apply elem_of_nil in H];
  repeat (apply elem_of_cons in H' as [->|H']); try done; by apply elem_of_nil in H'.
Qed.

Lemma drafts_NoDup trade : NoDup (draft_key <$> candle_drafts_from_trade trade).
Proof.
  unfold candle_drafts_from_trade, CANDLE_INTERVALS, draft_key. cbn.
  repeat (apply NoDup_cons; split; [rewrite ?not_elem_of_cons, elem_of_nil; naive_solver|]).
  constructor.
Qed.

(** The draft of a trade for one interval. *)
Definition draft_for (trade : TradeExecuted) (iv : CandleInterval) : CandleDraft :=
  mkCandleDraft (te_market_id trade) (ci_label iv)
    (bucket_start_ms (te_engine_timestamp_ms trade) (ci_duration_ms iv))
    (te_price trade) (te_quantity trade) (te_engine_sequence trade).

Lemma draft_for_in trade iv :
  iv ∈ CANDLE_INTERVALS -> draft_for trade iv ∈ candle_drafts_from_trade trade.
Proof. intros H. apply (list_elem_of_fmap_2 (draft_for trade)) in H. exact H. Qed.

Lemma draft_key_inv trade k :
  k ∈ draft_key <$> candle_drafts_from_trade trade ->
  exists iv, iv ∈ CANDLE_INTERVALS /\ k = draft_key (draft_for trade iv).
Proof.
  intros (d & -> & Hd)%list_elem_of_fmap.
  apply (list_elem_of_fmap (draft_for trade)) in Hd as (iv & -> & Hiv). eauto.
Qed.

(** Storing a fresh trade and folding it into its five candles. *)
Lemma candles_match_insert db db1 db2 topic partition offset trade u :
  candles_match db ->
  insert_trade topic partition offset trade db = (Ok true, db1) ->
  for_each (candle_drafts_from_trade trade) upsert_candle_in_tx db1 = (Ok u, db2) ->
  candles_match db2.
Proof.
  intros Hm Hi Hf. apply insert_trade_ok in Hi as (Hc & _ & Hfresh & Ht).
  apply upsert_candles_ok in Hf as (Ht2 & _ & Hin & Hout); [|apply drafts_NoDup].
  rewrite Hc in Hin, Hout. rewrite Ht in Ht2. intros iv market b Hiv. rewrite Ht2.
  specialize (Hm iv market b Hiv). unfold trades_in in *.
  destruct (decide (market = te_market_id trade /\
    b = bucket_start_ms (te_engine_timestamp_ms trade) (ci_duration_ms iv))) as [[-> ->]|Hne].
  - rewrite map_filter_insert_True by done.
    pose proof (Hin (draft_for trade iv) (draft_for_in trade iv Hiv)) as Hnew.
    unfold draft_key in Hnew. cbn in Hnew. rewrite Hnew.
    destruct (candles db !! _) as [c|]; cbn [folded].
    + apply (summarises_merge _ _ (draft_for trade iv)); try done.
      apply map_lookup_filter_None. by left.
    + rewrite Hm. by apply (summarises_first _ _ (draft_for trade iv)).
  - rewrite map_filter_insert_False, delete_id by (done || intros [<- <-]; by apply Hne).
    rewrite Hout; [done|]. intros (iv' & Hiv' & E)%draft_key_inv. unfold draft_key in E.
    cbn in E. simplify_eq. apply Hne. split; [done|].
    by rewrite (interval_labels iv iv').
Qed.

Lemma timeseries_save_ok topic partition n db u db' :
  timeseries_save_queue_offset_in_tx topic partition n db = (Ok u, db') ->
  timeseries_trades db' = timeseries_trades db /\ candles db' = candles db /\
  upsert_offset topic partition n (timeseries_offsets db) = Ok (timeseries_offsets db').
Proof.
  unfold timeseries_save_queue_offset_in_tx, lift. intros H. inv_m H. by simplify_eq.
Qed.

(** What recording a trade does. *)
Lemma record_trade_ok topic partition offset next trade db inserted db' :
  record_trade topic partition offset next trade (candle_drafts_from_trade trade) db
    = (Ok inserted, db') ->
  upsert_offset topic partition next (timeseries_offsets db) = Ok (timeseries_offsets db') /\
  (candles_match db -> candles_match db') /\
  let k := (te_market_id trade, te_engine_sequence trade) in
  if inserted
  then timeseries_trades db !! k = None /\
       timeseries_trades db' = <[k := mkTradeRow (te_fill_id trade)
         (te_engine_timestamp_ms trade) (te_price trade) (te_quantity trade) topic partition
         offset]> (timeseries_trades db)
  else is_Some (timeseries_trades db !! k) /\
       timeseries_trades db' = timeseries_trades db /\ candles db' = candles db.
Proof.
  unfold record_trade. intros H. apply transaction_ok in H.
  apply bind_ok in H as (i & db1 & Hi & H). apply bind_ok in H as (u & db2 & Hf & H).
  apply bind_ok in H as (u' & db3 & Hs & H). injection H as <- <-.
  apply timeseries_save_ok in Hs as (Ht & Hc & Ho).
  pose proof Hi as (Hc1 & Ho1 & Hk)%insert_trade_ok. destruct i.
  - pose proof Hf as (Ht2 & Ho2 & _)%upsert_candles_ok; [|apply drafts_NoDup].
    destruct Hk as [Hk Hk1]. rewrite Ho2, Ho1 in Ho. split; [done|]. split.
    + intros Hm. pose proof (candles_match_insert _ _ _ _ _ _ _ _ Hm Hi Hf) as Hm2.
      intros iv market b. rewrite Ht, Hc. apply Hm2.
    + split; [done|]. by rewrite Ht, Ht2.
  - injection Hf as <- <-. destruct Hk as [Hk Hk1]. rewrite Ho1 in Ho.
    split; [done|]. rewrite Hc1 in Hc. rewrite Hk1 in Ht. split.
    + intros Hm iv market b. rewrite Ht, Hc. apply Hm.
    + by split_and!.
Qed.

(** ** A summary is unique *)

Lemma summarises_unique market ts c c' :
  summarises market ts c -> summarises market ts c' -> c = c'.
Proof.
  intros [(to & Ho & Hop) (tc & Hc & Hcp) Hb (kh & th & Hh & Hhp) (kl & tl & Hl & Hlp) Hv Hn]
    [(to' & Ho' & Hop') (tc' & Hc' & Hcp') Hb' (kh' & th' & Hh' & Hhp') (kl' & tl' & Hl' & Hlp')
     Hv' Hn'].
  pose proof (Hb _ _ Ho') as (_ & Hx1 & _). pose proof (Hb' _ _ Ho) as (_ & Hx2 & _).
  pose proof (Hb _ _ Hc') as (_ & Hx3 & _). pose proof (Hb' _ _ Hc) as (_ & Hx4 & _).
  pose proof (Hb _ _ Hh') as (_ & _ & Hx5). pose proof (Hb' _ _ Hh) as (_ & _ & Hx6).
  pose proof (Hb _ _ Hl') as (_ & _ & Hx7). pose proof (Hb' _ _ Hl) as (_ & _ & Hx8).
  cbn in *.
  assert (cr_first_engine_sequence c = cr_first_engine_sequence c') as E1 by lia.
  assert (cr_last_engine_sequence c = cr_last_engine_sequence c') as E2 by lia.
  rewrite E1 in Ho. rewrite E2 in Hc. simplify_eq.
  destruct c, c'; cbn in *. f_equal; lia.
Qed.

Lemma candles_determined db1 db2 iv market b :
  candles_match db1 -> candles_match db2 -> timeseries_trades db1 = timeseries_trades db2 ->
  iv ∈ CANDLE_INTERVALS ->
  candles db1 !! (market, ci_label iv, b) = candles db2 !! (market, ci_label iv, b).
Proof.
  intros H1 H2 E Hiv. specialize (H1 iv market b Hiv). specialize (H2 iv market b Hiv).
  rewrite E in H1.
  destruct (candles db1 !! _) as [c1|], (candles db2 !! _) as [c2|]; [|..|done].
  - f_equal. by eapply summarises_unique.
  - destruct (sum_open _ _ _ H1) as (t & Ht & _). rewrite H2 in Ht.
    by rewrite lookup_empty in Ht.
  - destruct (sum_open _ _ _ H2) as (t & Ht & _). rewrite H1 in Ht.
    by rewrite lookup_empty in Ht.
Qed.

(** A database before its first trade. *)
Definition empty_timeseries : TimeseriesDb := mkTimeseriesDb ∅ ∅ ∅.

Lemma empty_timeseries_match : candles_match empty_timeseries.
Proof.
  intros iv market b _. cbn. rewrite lookup_empty. apply map_filter_empty.
Qed.

(** ** Lists of trades *)

Section Stream.
Variable topic : string.
Variable partition : Z.

(** The key and row of a trade at an offset. *)
Definition stored_trade (ot : Z * TradeExecuted) : (Z * Z) * TradeRow :=
  ((te_market_id ot.2, te_engine_sequence ot.2),
   mkTradeRow (te_fill_id ot.2) (te_engine_timestamp_ms ot.2) (te_price ot.2)
     (te_quantity ot.2) topic partition ot.1).

(** [list_to_map] keeps the first of two trades with one key. *)
Definition first_trades (l : list (Z * TradeExecuted)) : gmap (Z * Z) TradeRow :=
  list_to_map (stored_trade <$> l).

Lemma union_insert_l (m m' : gmap (Z * Z) TradeRow) k row :
  m !! k = None -> <[k := row]> m ∪ m' = m ∪ <[k := row]> m'.
Proof. intros Hk. by rewrite <- insert_union_l, insert_union_r. Qed.

Lemma union_insert_absorb (m m' : gmap (Z * Z) TradeRow) k row :
  is_Some (m !! k) -> m ∪ <[k := row]> m' = m ∪ m'.
Proof.
  intros [x Hx]. apply map_eq. intros k'. rewrite !lookup_union.
  destruct (decide (k = k')) as [<-|Hne].
  - rewrite Hx. by destruct (<[k := row]> m' !! k), (m' !! k).
  - by rewrite lookup_insert_ne.
Qed.

Lemma record_trade_stores o next trade db inserted db' l :
  record_trade topic partition o next trade (candle_drafts_from_trade trade) db
    = (Ok inserted, db') ->
  timeseries_trades db' ∪ first_trades l = timeseries_trades db ∪ first_trades ((o, trade) :: l).
Proof.
  intros (_ & _ & H)%record_trade_ok. unfold first_trades. cbn in *. destruct inserted.
  - destruct H as [Hk ->]. by apply union_insert_l.
  - destruct H as (Hk & -> & _). symmetry. by apply union_insert_absorb.
Qed.

(** Recording a list of trades, one transaction each. *)
Definition record_trades (l : list (Z * TradeExecuted)) : TDb unit :=
  for_each l (fun '(o, trade) =>
    do* record_trade topic partition o (i64_wrap (o + 1)) trade (candle_drafts_from_trade trade)
    in ret tt).

Lemma record_trades_ok l db u db' :
  record_trades l db = (Ok u, db') -> candles_match db ->
  candles_match db' /\ timeseries_trades db' = timeseries_trades db ∪ first_trades l.
Proof.
  revert db u. induction l as [|[o t] l IH]; intros db u H Hm.
  - injection H as _ <-. split; [done|]. symmetry. apply (right_id_L ∅ (∪)).
  - apply bind_ok in H as (u1 & db1 & H1 & H). apply bind_ok in H1 as (i & db1' & H1 & E).
    injection E as _ ->. apply IH in H as [Hm' ->].
    + split; [done|]. by eapply record_trade_stores.
    + by apply record_trade_ok in H1 as (_ & Hm1 & _); apply Hm1.
Qed.

Lemma first_trades_permutation l1 l2 :
  NoDup (stored_trade <$> l1).*1 -> l1 ≡ₚ l2 -> first_trades l1 = first_trades l2.
Proof.
  intros Hnd Hp. apply list_to_map_proper; [done|]. by rewrite Hp.
Qed.
End Stream.

(** ** The consumer *)

Section Consumer.
Variable parse : string -> option EngineEvent.
Variable topic : string.
Variable partition : Z.

Definition timeseries_handle (o : Z) (value : option string) (db : TimeseriesDb)
    : Result SqlError unit * TimeseriesDb :=
  handle_engine_event_record parse topic partition o value db.
Definition timeseries_stored (db : TimeseriesDb) : option Z :=
  timeseries_load_queue_offset topic partition db.

(** The trades of a stretch of the stream. *)
Definition trade_of (r : Z * option string) : option (Z * TradeExecuted) :=
  match r.2 with
  | Some payload => match parse payload with
                    | Some (EngineEvent_TradeExecuted trade) => Some (r.1, trade)
                    | _ => None
                    end
  | None => None
  end.

Lemma timeseries_handle_ok o value db u db' :
  timeseries_handle o value db = (Ok u, db') ->
  upsert_offset topic partition (i64_wrap (o + 1)) (timeseries_offsets db)
    = Ok (timeseries_offsets db') /\
  (candles_match db -> candles_match db') /\
  forall l, timeseries_trades db' ∪ first_trades topic partition l
    = timeseries_trades db ∪ first_trades topic partition (option_list (trade_of (o, value)) ++ l).
Proof.
  unfold timeseries_handle, handle_engine_event_record, trade_of. cbn [fst snd]. intros H.
  assert (forall n, timeseries_save_queue_offset topic partition n db = (Ok u, db') ->
    upsert_offset topic partition n (timeseries_offsets db) = Ok (timeseries_offsets db') /\
    (candles_match db -> candles_match db') /\
    forall l, timeseries_trades db' ∪ first_trades topic partition l
      = timeseries_trades db ∪ first_trades topic partition l) as Hsave.
  { intros n (Ht & Hc & Ho)%transaction_ok%timeseries_save_ok. split; [done|]. split.
    - intros Hm iv market b. rewrite Ht, Hc. apply Hm.
    - by rewrite Ht. }
  destruct value as [payload|]; [destruct (parse payload) as [event|]|]; [|by apply Hsave..].
  destruct event; try by apply Hsave. cbn [timeseries_process_engine_event] in H.
  apply bind_ok in H as (i & db1 & H & E). injection E as _ <-.
  pose proof H as (? & ? & _)%record_trade_ok. split; [done|]. split; [done|].
  intros l. by eapply record_trade_stores.
Qed.

Lemma timeseries_handle_err o value db e db' :
  timeseries_handle o value db = (Err e, db') -> db' = db.
Proof.
  assert (forall A (m : TDb A) r, transaction m db = (Err r, db') -> db' = db) as Ht.
  { by intros A m r (? & _ & ->)%transaction_err. }
  unfold timeseries_handle, handle_engine_event_record. intros H.
  destruct value as [payload|]; [destruct (parse payload) as [event|]|]; try by apply Ht in H.
  destruct event; try by apply Ht in H. cbn [timeseries_process_engine_event] in H.
  apply bind_err in H as [H|(? & ? & _ & ?)]; [|done]. by apply Ht in H.
Qed.

Lemma timeseries_handle_saves earliest o value db db' :
  0 <= o <= i64_max -> default earliest (timeseries_stored db) <= o ->
  timeseries_handle o value db = (Ok tt, db') -> timeseries_stored db' = Some (o + 1).
Proof.
  intros Ho Hle [Hs _]%timeseries_handle_ok.
  by eapply upsert_next_offset.
Qed.

Lemma timeseries_handled db l db' :
  handled_all eq timeseries_handle db l db' ->
  (candles_match db -> candles_match db') /\
  forall l', timeseries_trades db' ∪ first_trades topic partition l'
    = timeseries_trades db ∪ first_trades topic partition (omap trade_of l ++ l').
Proof.
  induction 1 as [db|db o v l db1 db2 Hok _ [IHm IHt]|db db1 l db2 <- _ IH]; [done|..|done].
  apply timeseries_handle_ok in Hok as (_ & Hm & Ht). split; [by auto|].
  intros l'. rewrite IHt, Ht. do 2 f_equal. rewrite app_assoc. f_equal.
  cbn [omap list_omap]. by destruct (trade_of (o, v)).
Qed.
End Consumer.

(** Claim C9 (safety). Whatever crashes and restarts the timeseries consumer goes
    through, the records before its stored offset have each been applied exactly
    once: the trades it holds are the trades of that part of the stream, the
    first of each market and engine sequence, and every candle of every interval
    summarises exactly the stored trades of its bucket. *)
Theorem candles_summarise_stream parse topic partition
    (log : list (Z * option string)) earliest s :
  offsets_from earliest log ->
  rtc (consumer_step eq (timeseries_stored topic partition) (timeseries_handle parse topic partition)
         log earliest) (empty_timeseries, Stopped) s ->
  exists done rest, log = done ++ rest /\
    default earliest (timeseries_stored topic partition s.1) = offset_after earliest done /\
    timeseries_trades s.1 = first_trades topic partition (omap (trade_of parse) done) /\
    candles_match s.1.
Proof.
  intros Hlog Hs.
  assert (exists done rest, exactly_once eq (timeseries_stored topic partition)
    (timeseries_handle parse topic partition) log earliest empty_timeseries s done rest)
    as (done & rest & [Hl Hh Hst _]).
  { apply exactly_once_reachable; try done.
    - intros o v db db' Ho Hle Hok. by eapply timeseries_handle_saves.
    - intros o v db e db' He. by apply timeseries_handle_err in He as ->. }
  exists done, rest. apply timeseries_handled in Hh as [Hm Ht]. split_and!; try done.
  - specialize (Ht []). rewrite app_nil_r in Ht. unfold first_trades in Ht at 1. cbn in Ht.
    rewrite (right_id_L ∅ (∪)), (left_id_L ∅ (∪)) in Ht. exact Ht.
  - apply Hm, empty_timeseries_match.
Qed.

(** Candles do not depend on the order trades arrive in:
    recording the same trades in two orders leaves every candle the same. *)
Theorem candles_order_independent topic partition l1 l2 db u1 u2 db1 db2 iv market b :
  candles_match db -> iv ∈ CANDLE_INTERVALS ->
  NoDup (stored_trade topic partition <$> l1).*1 -> l1 ≡ₚ l2 ->
  record_trades topic partition l1 db = (Ok u1, db1) ->
  record_trades topic partition l2 db = (Ok u2, db2) ->
  candles db1 !! (market, ci_label iv, b) = candles db2 !! (market, ci_label iv, b).
Proof.
  intros Hm Hiv Hnd Hp H1 H2. apply record_trades_ok in H1 as [Hm1 E1]; [|done].
  apply record_trades_ok in H2 as [Hm2 E2]; [|done].
  apply candles_determined; try done.
  by rewrite E1, E2, (first_trades_permutation _ _ _ _ Hnd Hp).
Qed.

Lemma interval_pos iv : iv ∈ CANDLE_INTERVALS -> 0 < ci_duration_ms iv.
Proof.
  unfold CANDLE_INTERVALS. intros Hiv.
  repeat (apply elem_of_cons in Hiv as [->|Hiv]; [done|]). by apply elem_of_nil in Hiv.
Qed.

Lemma bucket_start_eq timestamp_ms d :
  0 < d -> 0 <= timestamp_ms <= i64_max ->
  bucket_start_ms timestamp_ms d = timestamp_ms - timestamp_ms mod d /\
  0 <= timestamp_ms mod d < d /\ timestamp_ms mod d <= timestamp_ms.
Proof.
  intros Hd Ht. pose proof (Z.mod_pos_bound timestamp_ms _ Hd).
  pose proof (Z.mod_le timestamp_ms _ ltac:(lia) Hd). split; [|done].
  apply i64_wrap_id. unfold in_i64, i64_min, i64_max in *. lia.
Qed.

(** The bucket of a trade starts on a multiple of the interval,
    at most one interval before the trade, and the subtraction cannot overflow. *)
Theorem bucket_contains_trade timestamp_ms iv :
  iv ∈ CANDLE_INTERVALS -> 0 <= timestamp_ms <= i64_max ->
  let b := bucket_start_ms timestamp_ms (ci_duration_ms iv) in
  (0 <= b <= timestamp_ms /\ timestamp_ms < b + ci_duration_ms iv) /\
  (ci_duration_ms iv | b).
Proof.
  intros Hd%interval_pos Ht. cbn zeta.
  destruct (bucket_start_eq timestamp_ms _ Hd Ht) as (-> & ? & ?).
  split; [lia|]. apply Z.mod_divide; [lia|].
  rewrite Zminus_mod, Z.mod_mod, Z.sub_diag by lia. by apply Z.mod_0_l; lia.
Qed.

(** ** A fresh trade is recorded *)

Lemma upsert_candle_run d db :
  to_timestamp_ok (cd_bucket_start_ms d) = true ->
  cd_interval d ∈ ["1m"; "5m"; "15m"; "1h"; "1d"] ->
  candle_ok (draft_row d) = Ok tt ->
  candle_ok (folded d (candles db !! draft_key d)) = Ok tt ->
  upsert_candle_in_tx d db = (Ok tt, mkTimeseriesDb (timeseries_trades db)
    (<[draft_key d := folded d (candles db !! draft_key d)]> (candles db))
    (timeseries_offsets db)).
Proof.
  intros Hts Hl Hd Hf. unfold upsert_candle_in_tx. rewrite Hts, bool_decide_eq_true_2 by done.
  cbn [negb]. rewrite Hd. unfold bind at 1. cbn [lift]. unfold bind at 1. cbn [gets].
  fold (draft_key d). unfold folded in Hf. unfold bind, lift. by rewrite Hf.
Qed.

Lemma upsert_candles_run drafts db :
  NoDup (draft_key <$> drafts) ->
  (forall d, d ∈ drafts -> to_timestamp_ok (cd_bucket_start_ms d) = true /\
     cd_interval d ∈ ["1m"; "5m"; "15m"; "1h"; "1d"] /\
     candle_ok (draft_row d) = Ok tt /\
     candle_ok (folded d (candles db !! draft_key d)) = Ok tt) ->
  exists db', for_each drafts upsert_candle_in_tx db = (Ok tt, db').
Proof.
  revert db. induction drafts as [|d drafts IH]; cbn [for_each]; intros db Hnd Hall; [by eauto|].
  rewrite fmap_cons, NoDup_cons in Hnd. destruct Hnd as [Hd Hnd].
  destruct (Hall d) as (?&?&?&?); [by left|].
  assert (upsert_candle_in_tx d db = (Ok tt, _)) as Hrun by by apply upsert_candle_run.
  rewrite (bind_run _ _ _ _ _ Hrun).
  match type of Hrun with _ = (_, ?db1) => apply (IH db1); [done|] end.
  intros d' Hd'. destruct (Hall d') as (?&?&?&?); [by right|]. cbn. split_and!; try done.
  rewrite lookup_insert_ne; [done|]. intros E. apply Hd. rewrite E. by apply list_elem_of_fmap_2.
Qed.

Lemma record_trade_run topic partition offset next trade db :
  timeseries_trades db !! (te_market_id trade, te_engine_sequence trade) = None ->
  trade_clashes (mkTradeRow (te_fill_id trade) (te_engine_timestamp_ms trade) (te_price trade)
    (te_quantity trade) topic partition offset) (timeseries_trades db) = false ->
  0 < te_engine_sequence trade -> 0 <= te_engine_timestamp_ms trade < 9224318016000000 ->
  0 <= te_price trade ->
  0 < te_quantity trade <= i64_max -> 0 <= offset -> 0 <= next ->
  (forall iv, iv ∈ CANDLE_INTERVALS ->
     candle_ok (folded (draft_for trade iv) (candles db !! draft_key (draft_for trade iv)))
     = Ok tt) ->
  exists db', record_trade topic partition offset next trade (candle_drafts_from_trade trade) db
    = (Ok true, db').
Proof.
  intros Hk Hc ????? Hn Hiv. unfold record_trade.
  set (row := mkTradeRow _ _ _ _ _ _ _) in *.
  set (db1 := mkTimeseriesDb
    (<[(te_market_id trade, te_engine_sequence trade) := row]> (timeseries_trades db))
    (candles db) (timeseries_offsets db)).
  assert (insert_trade topic partition offset trade db = (Ok true, db1)) as Hi.
  { unfold insert_trade, to_timestamp_ok, trade_row_ok. cbn. repeat case_if; try lia; [..|].
    unfold bind, gets. cbn. rewrite bool_decide_eq_false_2 by (rewrite Hk; by intros []).
    fold row. by rewrite Hc. }
  destruct (upsert_candles_run (candle_drafts_from_trade trade) db1) as (db2 & Hdb2).
  { apply drafts_NoDup. }
  { intros d (iv & -> & Hin)%(list_elem_of_fmap (draft_for trade)). split_and!; [..|by apply Hiv].
    - pose proof (interval_pos _ Hin) as Hd. unfold to_timestamp_ok. cbn.
      destruct (bucket_start_eq (te_engine_timestamp_ms trade) _ Hd) as (-> & ? & ?);
        [unfold i64_max; lia|]. apply andb_true_iff. rewrite Z.leb_le, Z.ltb_lt. lia.
    - by apply (list_elem_of_fmap_2 ci_label) in Hin.
    - unfold candle_ok. cbn.
      assert (in_i64b (te_quantity trade) = true) as ->
        by (apply in_i64b_spec; unfold in_i64, i64_min, i64_max in *; lia).
      cbn. case_if; [done|]. match goal with E : _ && _ = false |- _ => rewrite !andb_false_iff in E end.
      rewrite !Z.leb_gt, !Z.ltb_ge in *. lia. }
  destruct (upsert_offset_total topic partition next (timeseries_offsets db2) Hn) as [t Ht].
  exists (mkTimeseriesDb (timeseries_trades db2) (candles db2) t).
  apply transaction_run. rewrite (bind_run _ _ _ _ _ Hi), (bind_run _ _ _ _ _ Hdb2).
  unfold timeseries_save_queue_offset_in_tx, bind, gets, lift. by rewrite Ht.
Qed.

Lemma candles_match_no_trades db iv market b :
  candles_match db -> iv ∈ CANDLE_INTERVALS ->
  (forall k t, timeseries_trades db !! k = Some t -> k.1 <> market) ->
  candles db !! (market, ci_label iv, b) = None.
Proof.
  intros Hm Hiv Hno. specialize (Hm iv market b Hiv).
  destruct (candles db !! _) as [c|]; [|done].
  destruct (sum_open _ _ _ Hm) as (t & [Ht _]%map_lookup_filter_Some & _).
  exfalso. by eapply Hno.
Qed.
