(* ===== verification/FeedExamples.v ===== *)
(** * FeedExamples: the ledger and the candles on concrete inputs

    A stream of one record; the witnesses apply the theorems of
    [LedgerTheorems] and [TimeseriesTheorems] to it. *)

From S2P Require Import Prelude Protocol Postgres WalletDb WalletSpec.
From S2P Require Import Queue Ledger LedgerTheorems Timeseries TimeseriesTheorems.

#[local] Existing Instance tagged_serde.
#[local] Existing Instance tagged_serde_laws.

Module FeedExample.
Definition deposit : WalletEvent :=
  WalletEvent_DepositApplied (mkWalletDepositApplied (Some "e") "r" 1 Asset_USDC 100 "d" 100 0).
Definition log : list (Z * option string) := [(0, Some "x")].

Definition trade (market fill : Z) : TradeExecuted :=
  mkTradeExecuted None 1 90000 None None fill market 50 2 1 2 1 2 None None
    ExecutionReason_TRADE None None None None [] [].

Definition parse (_ : string) : option EngineEvent :=
  Some (EngineEvent_TradeExecuted (trade 7 1)).

Lemma log_from : offsets_from 0 log.
Proof. cbn. unfold i64_max. lia. Qed.

(** The consumer of [log] handles its one record. *)
Lemma one_record {Db E} same (load : Db -> option Z) (handle : Z -> option string -> Db -> Result E unit * Db)
    (db db' : Db) :
  load db = None -> handle 0 (Some "x") db = (Ok tt, db') ->
  rtc (consumer_step same load handle log 0) (db, Stopped) (db', Running 1).
Proof.
  intros Hl Hh. eapply rtc_l; [apply consumer_start|]. rewrite Hl.
  eapply rtc_l; [|apply rtc_refl]. by eapply (consumer_handle _ _ _ _ _ db 0 0 (Some "x")).
Qed.

Lemma ledger_run : exists db,
  ledger_handle (fun _ => Some deposit) "t" 0 0 (Some "x") (empty_ledger {[1]}) = (Ok tt, db).
Proof.
  destruct (ledger_record_of wallet_event_total deposit) as (record & Hr & Hid & He).
  destruct (record_wallet_event_run "t" 0 0 1 record (empty_ledger {[1]})) as (b & db & Hdb & _);
    rewrite ?Hid, ?He; try done.
  - injection Hr as <-. cbn. set_solver.
  - intros e ->%list_elem_of_singleton. by split_and!.
  - exists db. unfold ledger_handle, handle_wallet_event_record, process_wallet_event.
    rewrite Hr. exact (bind_run _ _ _ _ _ Hdb).
Qed.

Lemma one_bucket_run : exists db,
  timeseries_handle parse "t" 0 0 (Some "x")
    empty_timeseries = (Ok tt, db).
Proof.
  destruct (record_trade_run "t" 0 0 1 (trade 7 1) empty_timeseries) as (db & Hdb);
    try (cbn; unfold i64_max; lia).
  - apply lookup_empty.
  - reflexivity.
  - intros iv Hiv. cbn [empty_timeseries candles]. by rewrite lookup_empty.
  - exists db. unfold timeseries_handle, handle_engine_event_record.
  exact (bind_run _ _ _ _ _ Hdb).
Qed.

Lemma two_trades m1 m2 f1 f2 o1 o2 :
  m1 <> m2 -> f1 <> f2 -> 0 <= o1 < 10 -> 0 <= o2 < 10 -> o1 <> o2 ->
  exists db, record_trades "t" 0 [(o1, trade m1 f1); (o2, trade m2 f2)]
    empty_timeseries = (Ok tt, db).
Proof.
  intros Hm Hf Ho1 Ho2 Ho. set (db0 := empty_timeseries).
  assert (forall o, 0 <= o < 10 -> 0 <= i64_wrap (o + 1)) as Hnext.
  { intros o ?. rewrite i64_wrap_id; unfold in_i64, i64_min, i64_max; lia. }
  destruct (record_trade_run "t" 0 o1 (i64_wrap (o1 + 1)) (trade m1 f1) db0)
    as (db1 & Hdb1); try (cbn; unfold i64_max; lia).
  { apply lookup_empty. } { reflexivity. } { by apply Hnext. }
  { intros iv Hiv. cbn [db0 empty_timeseries candles]. by rewrite lookup_empty. }
  pose proof Hdb1 as (_ & Hmatch & _ & Ht)%record_trade_ok.
  specialize (Hmatch empty_timeseries_match). cbn in Ht.
  destruct (record_trade_run "t" 0 o2 (i64_wrap (o2 + 1)) (trade m2 f2) db1)
    as (db2 & Hdb2); try (cbn; unfold i64_max; lia); rewrite ?Ht.
  - cbn. rewrite lookup_insert_ne by congruence. apply lookup_empty.
  - unfold trade_clashes. rewrite insert_empty, map_to_list_singleton. cbn.
    destruct (Z.eqb_spec f1 f2), (Z.eqb_spec o1 o2); try done.
  - by apply Hnext.
  - intros iv Hiv. unfold draft_key, draft_for.
    cbn [cd_market_id cd_interval cd_bucket_start_ms te_market_id trade].
    rewrite candles_match_no_trades; [done..|]. rewrite Ht.
    intros k t [[<- _]|[_ H]]%lookup_insert_Some; [done|by rewrite lookup_empty in H].
  - exists db2. unfold record_trades. cbn [for_each].
    unfold bind. fold db0. rewrite Hdb1. cbn [ret fst]. unfold ret at 1.
    by rewrite Hdb2.
Qed.
End FeedExample.
Import FeedExample.

Lemma ledger_consumes_exactly_once_witness : exists s done rest,
  rtc (consumer_step ledger_same_tables (ledger_stored "t" 0) (ledger_handle (fun _ => Some deposit) "t" 0) log 0)
    (empty_ledger {[1]}, Stopped) s /\ s.2 = Running 1 /\ log = done ++ rest /\
  default 0 (ledger_stored "t" 0 s.1) = offset_after 0 done /\
  entries_text s.1 = journal [] (events_of (fun _ => Some deposit) done) ≫= entries_of.
Proof.
  destruct ledger_run as (db & Hdb).
  pose proof (one_record ledger_same_tables (ledger_stored "t" 0) (ledger_handle (fun _ => Some deposit) "t" 0)
    (empty_ledger {[1]}) db eq_refl Hdb) as Hs.
  destruct (ledger_consumes_exactly_once (fun _ => Some deposit) "t" 0 {[1]} log 0 _ log_from Hs)
    as (done & rest & H). exists (db, Running 1), done, rest. split; [exact Hs|]. by split.
Defined.

Lemma candles_summarise_stream_witness : exists s done rest,
  rtc (consumer_step eq (timeseries_stored "t" 0)
         (timeseries_handle parse "t" 0) log 0)
    (empty_timeseries, Stopped) s /\ s.2 = Running 1 /\ log = done ++ rest /\
  candles_match s.1.
Proof.
  destruct one_bucket_run as (db & Hdb).
  pose proof (one_record eq (timeseries_stored "t" 0) (timeseries_handle parse "t" 0)
    empty_timeseries db eq_refl Hdb) as Hs.
  destruct (candles_summarise_stream parse "t" 0 log 0 _ log_from Hs)
    as (done & rest & Hl & _ & _ & Hm).
  exists (db, Running 1), done, rest. split; [exact Hs|]. split; [reflexivity|]. by split.
Defined.

Lemma candles_order_independent_witness : exists db1 db2,
  record_trades "t" 0 [(0, trade 7 1); (1, trade 8 2)] empty_timeseries = (Ok tt, db1) /\
  record_trades "t" 0 [(1, trade 8 2); (0, trade 7 1)] empty_timeseries = (Ok tt, db2) /\
  candles db1 !! (7, "1m", 60000) = candles db2 !! (7, "1m", 60000).
Proof.
  destruct (two_trades 7 8 1 2 0 1) as [db1 H1]; try (cbn; lia).
  destruct (two_trades 8 7 2 1 1 0) as [db2 H2]; try (cbn; lia).
  exists db1, db2. split; [exact H1|]. split; [exact H2|].
  refine (candles_order_independent "t" 0 [(0, trade 7 1); (1, trade 8 2)]
    [(1, trade 8 2); (0, trade 7 1)] _ tt tt db1 db2 (mkCandleInterval "1m" MINUTE_MS) 7 60000
    empty_timeseries_match _ _ _ H1 H2); [by left| |apply perm_swap].
  cbn. apply NoDup_cons. split; [|apply NoDup_singleton].
  intros E%list_elem_of_singleton. discriminate E.
Defined.

Lemma bucket_contains_trade_witness :
  let b := bucket_start_ms 90000 MINUTE_MS in 
  (0 <= b <= 90000 /\ 90000 < b + MINUTE_MS) /\ (MINUTE_MS | b).
Proof.
  apply (bucket_contains_trade 90000 (mkCandleInterval "1m" MINUTE_MS)); [by left|].
  unfold i64_max. lia.
Defined.

Lemma ledger_entries_match_books_witness : exists bk bk',
  books_wf bk /\ book_steps bk [deposit] bk' /\
  total_at bk' (1, AssetType_USDC)
    = total_at bk (1, AssetType_USDC) + total_change (1, AssetType_USDC) ([deposit] ≫= entries_of) /\
  locked_at bk' (1, AssetType_USDC)
    = locked_at bk (1, AssetType_USDC) + locked_change (1, AssetType_USDC) ([deposit] ≫= entries_of).
Proof.
  set (bk := mkBooks {[1]} ∅ ∅ ∅). assert (books_wf bk) as Hwf.
  { split; cbn; intros k ? E; by rewrite lookup_empty in E. }
  assert (balance_at bk (1, AssetType_USDC) = mkBalanceSnapshot 0 0) as Hb.
  { unfold balance_at. cbn [bk bk_coll]. by rewrite lookup_empty. }
  assert (exists bk', book_step bk deposit bk') as [bk' Hs].
  { eexists. apply (step_deposit bk (Some "e") "r" 1 Asset_USDC 100 "d" 100 0);
      unfold total_at, locked_at; cbn [asset_to_db]; rewrite ?Hb; cbn; try (unfold i64_max; lia);
      [set_solver|apply lookup_empty]. }
  exists bk, bk'. split; [exact Hwf|].
  assert (book_steps bk [deposit] bk') as Hss by (eapply steps_cons; [exact Hs|apply steps_nil]).
  split; [exact Hss|]. exact (ledger_entries_match_books bk [deposit] bk' _ Hwf Hss).
Defined.
