(* ===== verification/WalletOutbox.v ===== *)
(** * WalletOutbox: the outbox table and the relay that publishes it

    [apps/wallet]: the statements on [wallet_outbox] that the relay issues
    ([repository.rs]), the choice of a partition for a message, and the relay's
    loop ([redpanda.rs]) as a step relation over the database, the broker and
    the memory of each running relay. *)

From stdpp Require Import sorting.
From S2P Require Import Prelude Text Protocol Settings Broker Postgres WalletDb.

(** ** Partitions: [stable_partition] *)

Definition u64_wrap (z : Z) : Z := z mod 2 ^ 64.

Fixpoint bytes_of (s : string) : list Z :=
  match s with
  | EmptyString => []
  | String c s' => Z.of_N (Ascii.N_of_ascii c) :: bytes_of s'
  end.

(** FNV-1a; the hash is a [usize], 64 bits wide. *)
Definition fnv1a (key : string) : Z :=
  foldl (fun hash byte => u64_wrap (Z.lxor hash byte * 1099511628211))
    14695981039346656037 (bytes_of key).
Definition stable_partition (key : string) (partition_count : Z) : Z :=
  fnv1a key mod partition_count.

(** The errors of the client, of the producer and of serde are texts. *)
Inductive QueueError :=
| QueueError_Client (error : string)
| QueueError_EmptyBrokerList
| QueueError_MissingReplyPartition (request_id : string)
| QueueError_OutboxTopicNotConfigured (topic : string)
| QueueError_PartitionNotFound (topic : string) (partition : Z)
| QueueError_Producer (error : string)
| QueueError_Repository (error : string)
| QueueError_Serialize (error : string)
| QueueError_Task (error : string)
| QueueError_TopicHasNoPartitions (topic : string)
| QueueError_TopicNotFound (topic : string)
| QueueError_Worker (error : string).

(** [impl fmt::Display for QueueError] *)
Definition queue_error_text (e : QueueError) : string :=
  match e with
  | QueueError_Client error => "redpanda client failed: " +:+ error
  | QueueError_EmptyBrokerList => "redpanda broker list is empty"
  | QueueError_MissingReplyPartition request_id =>
      "wallet reply for '" +:+ request_id +:+ "' has no reply partition"
  | QueueError_OutboxTopicNotConfigured topic =>
      "wallet outbox topic '" +:+ topic +:+ "' is not configured"
  | QueueError_PartitionNotFound topic partition =>
      "redpanda topic '" +:+ topic +:+ "' has no partition " +:+ to_string partition
  | QueueError_Producer error => "redpanda publish failed: " +:+ error
  | QueueError_Repository error => "wallet repository failed: " +:+ error
  | QueueError_Serialize error => "redpanda payload serialization failed: " +:+ error
  | QueueError_Task error => "wallet queue task failed: " +:+ error
  | QueueError_TopicHasNoPartitions topic =>
      "redpanda topic '" +:+ topic +:+ "' has no partitions"
  | QueueError_TopicNotFound topic => "redpanda topic '" +:+ topic +:+ "' was not found"
  | QueueError_Worker error => "wallet processor failed: " +:+ error
  end.

Definition wallet_parse_brokers : string -> Result QueueError (list string) :=
  brokers_in QueueError_EmptyBrokerList.

Definition topic_partitions : Topics -> string -> Result QueueError (list Z) :=
  partitions_in QueueError_TopicNotFound QueueError_TopicHasNoPartitions.

Definition wallet_partition_clients : Cluster -> Topics -> string -> Result QueueError (list Z) :=
  clients_in QueueError_Client QueueError_TopicNotFound QueueError_TopicHasNoPartitions.

(** A producer for each partition of a topic; the producers themselves are the
    broker client's. *)
Record TopicProducer := mkTopicProducer {
  tp_topic : string;
  tp_producers : list Z
}.

Definition TopicProducer_new (cluster : Cluster) (topics : Topics) (topic : string)
    : Result QueueError TopicProducer :=
  let? partitions := topic_partitions topics topic in
  let? producers := clients_for QueueError_Client cluster topic partitions in
  Ok (mkTopicProducer topic producers).

(** [None] is the panic of an index out of range. *)
Definition producer_for_key (tp : TopicProducer) (key : string) : option Z :=
  let index := stable_partition key (Z.of_nat (length (tp_producers tp))) in
  tp_producers tp !! Z.to_nat index.

Definition producer_for_partition (tp : TopicProducer) (partition : Z) : Result QueueError Z :=
  match List.find (Z.eqb partition) (tp_producers tp) with
  | Some candidate => Ok candidate
  | None => Err (QueueError_PartitionNotFound (tp_topic tp) partition)
  end.

Section WithSerde.
Context {SD : Serde}.

(** ** The relay's statements: [repository.rs] *)

Definition i32_max : Z := 2147483647.
Definition second_us : Z := 1000000.

Record WalletOutboxMessage := mkWalletOutboxMessage {
  om_outbox_id : Z;
  om_dedupe_key : string;
  om_topic : string;
  om_partition : option Z;
  om_message_key : string;
  om_payload_type : string;
  om_payload : Value;
  om_attempts : Z
}.

Definition outbox_message_from_row (dedupe_key : string) (row : OutboxRow)
    : WalletOutboxMessage :=
  mkWalletOutboxMessage (ob_outbox_id row) dedupe_key (ob_topic row) (ob_partition row)
    (ob_message_key row) (ob_payload_type row) (ob_payload row) (ob_attempts row).

(** [UPDATE wallet_outbox SET ... WHERE ...] *)
Definition update_outbox (where_ : OutboxRow -> bool) (set : OutboxRow -> OutboxRow) : Db unit :=
  modify (set_outbox (fun m => (fun row => if where_ row then set row else row) <$> m)).

Definition row_claimed (now : Z) (row : OutboxRow) : OutboxRow :=
  mkOutboxRow (ob_outbox_id row) (ob_topic row) (ob_partition row) (ob_message_key row)
    (ob_payload_type row) (ob_payload row) "PROCESSING" (ob_attempts row + 1)
    (ob_next_attempt_at row) (ob_last_error row) (ob_published_partition row)
    (ob_published_offset row) (ob_published_at row) (ob_created_at row) now.
Definition row_published (now partition offset : Z) (row : OutboxRow) : OutboxRow :=
  mkOutboxRow (ob_outbox_id row) (ob_topic row) (ob_partition row) (ob_message_key row)
    (ob_payload_type row) (ob_payload row) "PUBLISHED" (ob_attempts row)
    (ob_next_attempt_at row) None (Some partition) (Some offset) (Some now)
    (ob_created_at row) now.
Definition row_pending (now next_attempt_at : Z) (error : string) (row : OutboxRow) : OutboxRow :=
  mkOutboxRow (ob_outbox_id row) (ob_topic row) (ob_partition row) (ob_message_key row)
    (ob_payload_type row) (ob_payload row) "PENDING" (ob_attempts row) next_attempt_at
    (Some error) (ob_published_partition row) (ob_published_offset row)
    (ob_published_at row) (ob_created_at row) now.

Definition due (now : Z) (row : OutboxRow) : bool :=
  bool_decide (ob_status row = "PENDING") && (ob_next_attempt_at row <=? now).

Definition by_outbox_id (a b : string * OutboxRow) : Prop :=
  ob_outbox_id a.2 <= ob_outbox_id b.2.
#[export] Instance by_outbox_id_dec : RelDecision by_outbox_id.
Proof. intros a b. unfold by_outbox_id. apply _. Defined.

(** The rows [CLAIM_OUTBOX_MESSAGES_SQL] picks, the first [limit] of those due by
    id; [skipped] are the rows other transactions have locked. *)
Definition due_rows (skipped : Z -> bool) (now : Z) (m : gmap string OutboxRow)
    : list (string * OutboxRow) :=
  merge_sort by_outbox_id
    (filter (fun '(_, row) => due now row && negb (skipped (ob_outbox_id row)) = true)
       (map_to_list m)).
Definition claimed_rows (skipped : Z -> bool) (limit now : Z) (m : gmap string OutboxRow)
    : list (string * OutboxRow) :=
  take (Z.to_nat limit) (due_rows skipped now m).

(** [returning] arranges the rows of [RETURNING], whose order the statement does
    not fix. *)
Definition claim_outbox_messages (skipped : Z -> bool)
    (returning : list WalletOutboxMessage -> list WalletOutboxMessage) (limit now : Z)
    : Db (list WalletOutboxMessage) :=
  let* m := gets wallet_outbox in
  let claimed := claimed_rows skipped limit now m in
  if existsb (fun '(_, row) => i32_max <=? ob_attempts row) claimed
  then storage NumericValueOutOfRange
  else
    do* update_outbox
          (fun row => existsb (fun '(_, c) => ob_outbox_id c =? ob_outbox_id row) claimed)
          (row_claimed now) in
    ret (returning (map (fun '(k, row) => outbox_message_from_row k (row_claimed now row)) claimed)).

Definition mark_outbox_published (outbox_id published_partition published_offset now : Z)
    : Db unit :=
  let* m := gets wallet_outbox in
  if existsb (fun '(_, row) => ob_outbox_id row =? outbox_id) (map_to_list m)
     && ((published_partition <? 0) || (published_offset <? 0))
  then storage CheckViolation
  else update_outbox (fun row => ob_outbox_id row =? outbox_id)
         (row_published now published_partition published_offset).

Definition mark_outbox_pending (outbox_id : Z) (error : string) (now : Z) : Db unit :=
  update_outbox (fun row => ob_outbox_id row =? outbox_id)
    (row_pending now (now + 5 * second_us) error).

Definition stale (stale_after_seconds now : Z) (row : OutboxRow) : bool :=
  bool_decide (ob_status row = "PROCESSING")
  && (ob_updated_at row <=? now - stale_after_seconds * second_us).
Definition requeue_stale_outbox_messages (stale_after_seconds now : Z) : Db Z :=
  let* m := gets wallet_outbox in
  do* update_outbox (stale stale_after_seconds now)
        (row_pending now now "requeued stale PROCESSING message") in
  ret (Z.of_nat (length (filter (fun '(_, row) => stale stale_after_seconds now row = true)
                           (map_to_list m)))).

(** [WalletRepository::enqueue_outbox_message] *)
Definition enqueue_outbox_message (now : Z) (message : NewWalletOutboxMessage) : Db (option Z) :=
  let* inserted := insert_outbox now message in
  match inserted with
  | Some outbox_id => ret (Some outbox_id)
  | None =>
      let* matches := outbox_duplicate_matches message in
      if matches then ret None else throw WalletRepositoryError_IdempotencyConflict
  end.

Record WalletOutboxMetrics := mkWalletOutboxMetrics {
  pending_count : Z;
  ready_count : Z;
  processing_count : Z;
  published_count : Z;
  retry_count : Z;
  max_unpublished_attempts : Z;
  oldest_pending_age_seconds : option Z
}.

Definition load_outbox_metrics (now : Z) : Db WalletOutboxMetrics :=
  let* m := gets wallet_outbox in
  let status s (row : OutboxRow) := bool_decide (ob_status row = s) in
  let count p := map_sum (fun _ row => if p row : bool then 1 else 0) m in
  let pending := filter (fun row => status "PENDING" row = true) ((map_to_list m).*2) in
  ret {|
    pending_count := count (status "PENDING");
    ready_count := count (due now);
    processing_count := count (status "PROCESSING");
    published_count := count (status "PUBLISHED");
    retry_count := count (fun row => (0 <? ob_attempts row) && negb (status "PUBLISHED" row));
    max_unpublished_attempts :=
      foldr (fun row acc => if status "PUBLISHED" row then acc else Z.max (ob_attempts row) acc)
        0 ((map_to_list m).*2);
    oldest_pending_age_seconds :=
      match pending with
      | [] => None
      | row :: rows =>
          Some ((now - foldr (fun r acc => Z.min (ob_created_at r) acc) (ob_created_at row) rows)
                / second_us)
      end
  |}.

(** ** The relay: [redpanda.rs] *)

Record WalletOutboxRelay := mkWalletOutboxRelay {
  relay_wallet_events_topic : string;
  relay_wallet_events : TopicProducer;
  relay_engine_input_topic : string;
  relay_engine_inputs : TopicProducer;
  relay_batch_limit : Z;
  relay_stale_after_seconds : Z;
  relay_metrics_interval : Z;
  relay_alert_pending_count : Z;
  relay_alert_oldest_pending_seconds : Z
}.

Definition WalletOutboxRelay_new (connect : Connect) (settings : WalletSettings)
    : Result QueueError WalletOutboxRelay :=
  let? brokers := wallet_parse_brokers (wse_redpanda_brokers settings) in
  let? client := map_err QueueError_Client (connect brokers) in
  let? topics := map_err QueueError_Client (list_topics client) in
  let? wallet_events := TopicProducer_new client topics (wse_wallet_events_topic settings) in
  let? engine_inputs := TopicProducer_new client topics (wse_engine_input_topic settings) in
  Ok {|
    relay_wallet_events_topic := wse_wallet_events_topic settings;
    relay_wallet_events := wallet_events;
    relay_engine_input_topic := wse_engine_input_topic settings;
    relay_engine_inputs := engine_inputs;
    relay_batch_limit := Z.max (wse_wallet_outbox_batch_limit settings) 1;
    relay_stale_after_seconds := Z.max (wse_wallet_outbox_stale_after_seconds settings) 1;
    relay_metrics_interval := Z.max (wse_wallet_outbox_metrics_interval_seconds settings) 1;
    relay_alert_pending_count := Z.max (wse_wallet_outbox_alert_pending_count settings) 1;
    relay_alert_oldest_pending_seconds :=
      Z.max (wse_wallet_outbox_alert_oldest_pending_seconds settings) 1 |}.

(** What is printed once an interval has passed, with whether an alert is; the
    instant is the clock of the process, [now] that of the database. *)
Definition emit_metrics_if_due (self : WalletOutboxRelay) (instant now next_metrics_at : Z)
    : Db (Z * option (WalletOutboxMetrics * bool)) :=
  if instant <? next_metrics_at then ret (next_metrics_at, None)
  else
    let next_metrics_at := instant + relay_metrics_interval self * second_us in
    let* metrics := load_outbox_metrics now in
    let oldest_pending_age_seconds := default 0 (oldest_pending_age_seconds metrics) in
    let alert := (relay_alert_pending_count self <=? pending_count metrics)
                 || (relay_alert_oldest_pending_seconds self <=? oldest_pending_age_seconds) in
    ret (next_metrics_at, Some (metrics, alert)).

Definition producer_for_topic (self : WalletOutboxRelay) (topic : string)
    : Result QueueError TopicProducer :=
  if bool_decide (topic = relay_wallet_events_topic self) then Ok (relay_wallet_events self)
  else if bool_decide (topic = relay_engine_input_topic self) then Ok (relay_engine_inputs self)
  else Err (QueueError_OutboxTopicNotConfigured topic).

(** Where [publish_message] produces a message to: topic and partition. An index
    out of range would be a panic of the task; a relay that was built has none. *)
Definition publish_target (self : WalletOutboxRelay) (message : WalletOutboxMessage)
    : Result QueueError (string * Z) :=
  let? producer := producer_for_topic self (om_topic message) in
  match om_partition message with
  | Some partition =>
      let? p := producer_for_partition producer partition in Ok (tp_topic producer, p)
  | None =>
      match producer_for_key producer (om_message_key message) with
      | Some p => Ok (tp_topic producer, p)
      | None => Err (QueueError_Producer "index out of bounds")
      end
  end.

(** *** The loop of [WalletOutboxRelay::run]

    A record of the broker, the memory of a relay inside its [for message in
    messages] loop (the messages left, and where the first one was published
    once it was), and the system. *)
Record BrokerRecord := mkBrokerRecord {
  br_topic : string;
  br_partition : Z;
  br_offset : Z;
  br_key : string;
  br_value : Value
}.

Record RelayMemory := mkRelayMemory {
  rm_messages : list WalletOutboxMessage;
  rm_published : option (Z * Z)
}.

Record OutboxSystem := mkOutboxSystem {
  os_db : WalletDb;
  os_broker : list BrokerRecord;
  (** Relays between two batches, or not running, are absent. *)
  os_relays : gmap Z RelayMemory;
  os_clock : Z
}.

Definition record_of (target : string * Z) (offset : Z) (message : WalletOutboxMessage)
    : BrokerRecord :=
  mkBrokerRecord target.1 target.2 offset (om_message_key message) (om_payload message).

(** Back at the top of the loop, or with the next message. *)
Definition next_message (i : Z) (rest : list WalletOutboxMessage) (relays : gmap Z RelayMemory)
    : gmap Z RelayMemory :=
  match rest with
  | [] => delete i relays
  | _ => <[i := mkRelayMemory rest None]> relays
  end.

Variable self : WalletOutboxRelay.

(** What a committed wallet transaction does to the outbox; the other tables are
    free. *)
Definition wallet_commits (now : Z) (db db' : WalletDb) : Prop :=
  exists messages r db1,
    transaction (enqueue_outbox_messages_in_tx now messages) db = (r, db1) /\
    wallet_outbox db' = wallet_outbox db1 /\ outbox_seq db' = outbox_seq db1.

(** One step of relay [i], of the wallet, or of the clock. The broker hands out
    the offsets; a failed publication may or may not have reached it. *)
Inductive relay_step (i : Z) : OutboxSystem -> OutboxSystem -> Prop :=
| relay_tick db br rs t t' :
    t <= t' -> relay_step i (mkOutboxSystem db br rs t) (mkOutboxSystem db br rs t')
| relay_wallet db db' br rs t :
    wallet_commits t db db' ->
    relay_step i (mkOutboxSystem db br rs t) (mkOutboxSystem db' br rs t)
| relay_requeue db db' br rs t n :
    rs !! i = None ->
    requeue_stale_outbox_messages (relay_stale_after_seconds self) t db = (Ok n, db') ->
    relay_step i (mkOutboxSystem db br rs t) (mkOutboxSystem db' br rs t)
| relay_claim db db' br rs t skipped returning messages :
    rs !! i = None -> (forall l, returning l ≡ₚ l) ->
    claim_outbox_messages skipped returning (relay_batch_limit self) t db = (Ok messages, db') ->
    relay_step i (mkOutboxSystem db br rs t)
      (mkOutboxSystem db' br (next_message i messages rs) t)
| relay_publish db br rs t message rest target offset :
    rs !! i = Some (mkRelayMemory (message :: rest) None) ->
    publish_target self message = Ok target -> 0 <= offset <= i64_max ->
    relay_step i (mkOutboxSystem db br rs t)
      (mkOutboxSystem db (br ++ [record_of target offset message])
         (<[i := mkRelayMemory (message :: rest) (Some (target.2, offset))]> rs) t)
| relay_publish_failed db db' br br' rs t message rest error :
    rs !! i = Some (mkRelayMemory (message :: rest) None) ->
    br' = br \/
      (exists target offset, publish_target self message = Ok target /\
         br' = br ++ [record_of target offset message]) ->
    mark_outbox_pending (om_outbox_id message) error t db = (Ok tt, db') ->
    relay_step i (mkOutboxSystem db br rs t)
      (mkOutboxSystem db' br' (next_message i rest rs) t)
| relay_mark db db' br rs t message rest partition offset :
    rs !! i = Some (mkRelayMemory (message :: rest) (Some (partition, offset))) ->
    mark_outbox_published (om_outbox_id message) partition offset t db = (Ok tt, db') ->
    relay_step i (mkOutboxSystem db br rs t)
      (mkOutboxSystem db' br (next_message i rest rs) t)
(** A crash, or the error of a statement, which ends the relay. *)
| relay_crash db br rs t :
    relay_step i (mkOutboxSystem db br rs t) (mkOutboxSystem db br (delete i rs) t).

Definition system_step (s s' : OutboxSystem) : Prop := exists i, relay_step i s s'.
End WithSerde.
