(* ===== verification/WalletOutboxTheorems.v ===== *)
(** * WalletOutboxTheorems: what the outbox guarantees

    However relays crash, stall and run side by side, a message is marked
    published only once the broker has it, and none is lost; one relay alone
    never publishes a message again once it is marked; and from every state a
    relay that keeps running publishes everything. *)

From stdpp Require Import sorting.
From S2P Require Import Prelude Protocol Settings Broker Postgres WalletDb WalletOutbox.

Create HintDb outbox.

Section WithSerde.
Context {SD : Serde}.
Implicit Types (db : WalletDb) (row : OutboxRow) (br : list BrokerRecord).

(** ** Rows *)

(** What no statement changes in a row. *)
Definition same_content row row' : Prop :=
  ob_outbox_id row' = ob_outbox_id row /\ ob_topic row' = ob_topic row /\
  ob_partition row' = ob_partition row /\ ob_message_key row' = ob_message_key row /\
  ob_payload_type row' = ob_payload_type row /\ ob_payload row' = ob_payload row /\
  ob_created_at row' = ob_created_at row.

#[export] Instance same_content_preorder : PreOrder same_content.
Proof. split; unfold same_content; [done|]. intros r1 r2 r3. intuition congruence. Qed.

(** No row is lost, and the message of a row never changes. *)
Definition rows_kept db db' : Prop :=
  forall k row, wallet_outbox db !! k = Some row ->
    exists row', wallet_outbox db' !! k = Some row' /\ same_content row row'.

#[export] Instance rows_kept_preorder : PreOrder rows_kept.
Proof.
  split; [by intros db k row ?; exists row|].
  intros db1 db2 db3 H1 H2 k row (row' & (row'' & ? & ?)%H2 & ?)%H1. exists row''.
  split; [done|]. by etrans.
Qed.

(** The broker has the message of a row, where the row says it is. *)
Definition on_broker br row : Prop :=
  exists partition offset,
    ob_published_partition row = Some partition /\ ob_published_offset row = Some offset /\
    mkBrokerRecord (ob_topic row) partition offset (ob_message_key row) (ob_payload row) ∈ br.

Definition same_message (m : WalletOutboxMessage) row : Prop :=
  om_outbox_id m = ob_outbox_id row /\ om_topic m = ob_topic row /\
  om_partition m = ob_partition row /\ om_message_key m = ob_message_key row /\
  om_payload m = ob_payload row.

Lemma same_message_content m row row' :
  same_message m row -> same_content row row' -> same_message m row'.
Proof. unfold same_message, same_content. intuition congruence. Qed.

(** ** Invariants *)

Record outbox_ids db : Prop := {
  ids_below k row : wallet_outbox db !! k = Some row -> ob_outbox_id row < outbox_seq db;
  ids_inj k1 k2 row1 row2 :
    wallet_outbox db !! k1 = Some row1 -> wallet_outbox db !! k2 = Some row2 ->
    ob_outbox_id row1 = ob_outbox_id row2 -> k1 = k2
}.

Record rows_ok db br : Prop := {
  rows_ids : outbox_ids db;
  rows_status k row : wallet_outbox db !! k = Some row ->
    ob_status row ∈ ["PENDING"; "PROCESSING"; "PUBLISHED"];
  rows_published k row : wallet_outbox db !! k = Some row ->
    ob_status row = "PUBLISHED" -> on_broker br row
}.

Record memory_ok db br (mem : RelayMemory) : Prop := {
  memory_rows m : m ∈ rm_messages mem ->
    exists row, wallet_outbox db !! om_dedupe_key m = Some row /\ same_message m row;
  memory_sent m rest partition offset :
    rm_messages mem = m :: rest -> rm_published mem = Some (partition, offset) ->
    mkBrokerRecord (om_topic m) partition offset (om_message_key m) (om_payload m) ∈ br
}.

Definition outbox_inv (s : OutboxSystem) : Prop :=
  rows_ok (os_db s) (os_broker s) /\
  forall i mem, os_relays s !! i = Some mem -> memory_ok (os_db s) (os_broker s) mem.

(** ** Updates *)

Definition updated (where_ : OutboxRow -> bool) set db : WalletDb :=
  set_outbox (fun m => (fun row => if where_ row then set row else row) <$> m) db.

Arguments updated : simpl never.

Lemma updated_lookup where_ set db k :
  wallet_outbox (updated where_ set db) !! k
  = (fun row => if where_ row then set row else row) <$> wallet_outbox db !! k.
Proof. apply lookup_fmap. Qed.

Lemma updated_kept where_ set db :
  (forall row, same_content row (set row)) -> rows_kept db (updated where_ set db).
Proof.
  intros Hset k row Hk. rewrite updated_lookup, Hk. cbn. eexists. split; [done|].
  by destruct (where_ row).
Qed.

Lemma updated_ids where_ set db :
  (forall row, same_content row (set row)) -> outbox_ids db ->
  outbox_ids (updated where_ set db).
Proof.
  intros Hset [Hb Hi].
  assert (forall k row, wallet_outbox (updated where_ set db) !! k = Some row ->
    exists row0, wallet_outbox db !! k = Some row0 /\ ob_outbox_id row = ob_outbox_id row0) as Hback.
  { intros k row. rewrite updated_lookup.
    intros (row0 & Hk & ->)%fmap_Some. exists row0. split; [done|].
    destruct (where_ row0); [by apply Hset|done]. }
  split.
  - intros k row (row0 & Hk & ->)%Hback. exact (Hb k row0 Hk).
  - intros k1 k2 row1 row2 (r1 & ? & ->)%Hback (r2 & ? & ->)%Hback. by eapply Hi.
Qed.

Lemma rows_ok_updated where_ set db br br' :
  (forall row, same_content row (set row)) -> rows_ok db br -> br ⊆ br' ->
  (forall k row, wallet_outbox db !! k = Some row -> where_ row = true ->
     ob_status (set row) ∈ ["PENDING"; "PROCESSING"; "PUBLISHED"] /\
     (ob_status (set row) = "PUBLISHED" -> on_broker br' (set row))) ->
  rows_ok (updated where_ set db) br'.
Proof.
  intros Hset [Hi Hs Hp] Hbr Hw. split; [by apply updated_ids|..].
  - intros k row. rewrite updated_lookup. intros (row0 & Hk & ->)%fmap_Some.
    destruct (where_ row0) eqn:E; [by eapply Hw|by eapply Hs].
  - intros k row. rewrite updated_lookup. intros (row0 & Hk & ->)%fmap_Some.
    destruct (where_ row0) eqn:E; [by eapply Hw|]. intros Hst.
    destruct (Hp _ _ Hk Hst) as (p & o & ? & ? & ?). exists p, o. auto.
Qed.

Lemma memory_ok_mono db db' br br' mem :
  rows_kept db db' -> br ⊆ br' -> memory_ok db br mem -> memory_ok db' br' mem.
Proof.
  intros Hk Hbr [Hr Hs]. split; [|by eauto].
  intros m (row & (row' & ? & ?)%Hk & ?)%Hr. exists row'. split; [done|].
  by eapply same_message_content.
Qed.

(** ** Enqueueing *)

Lemma insert_outbox_cases now message db r db' :
  insert_outbox now message db = (r, db') ->
  outbox_seq db' = outbox_seq db + 1 /\
  (wallet_outbox db' = wallet_outbox db \/
   wallet_outbox db !! new_dedupe_key message = None /\
   wallet_outbox db' = <[new_dedupe_key message := new_outbox_row (outbox_seq db) now message]>
                         (wallet_outbox db)).
Proof.
  unfold insert_outbox, next_outbox_id, bind, gets, modify, ret, storage, throw.
  destruct (match new_partition message with Some p => p <? 0 | None => false end).
  - intros [= _ <-]. cbn. auto.
  - cbn. destruct (wallet_outbox db !! new_dedupe_key message) eqn:E; intros [= _ <-]; cbn; auto.
Qed.

(** What enqueueing does, message by message: rows stay, new ones are pending and
    take ids from the sequence. *)
Definition outbox_grows db db' : Prop :=
  outbox_seq db <= outbox_seq db' /\ wallet_outbox db ⊆ wallet_outbox db' /\
  (outbox_ids db -> outbox_ids db') /\
  (forall k row, wallet_outbox db' !! k = Some row -> wallet_outbox db !! k = None ->
     ob_status row = "PENDING" /\ ob_attempts row = 0).

#[export] Instance outbox_grows_preorder : PreOrder outbox_grows.
Proof.
  split.
  { intros db. unfold outbox_grows. split_and!; [lia|done|done|]. intros; congruence. }
  intros db1 db2 db3 (? & Hs1 & ? & Hn1) (? & Hs2 & ? & Hn2).
  split_and!; [lia|by etrans|by auto|]. intros k row Hk Hno.
  destruct (wallet_outbox db2 !! k) as [row2|] eqn:E.
  - pose proof (lookup_weaken _ _ _ _ E Hs2). simplify_eq. eauto.
  - eauto.
Qed.

Lemma insert_outbox_grows now message db r db' :
  insert_outbox now message db = (r, db') -> outbox_grows db db'.
Proof.
  intros [Hseq [Ho|[Hk Ho]]]%insert_outbox_cases; unfold outbox_grows; rewrite Ho, Hseq.
  - split_and!; [lia|done|..|intros; congruence].
    intros [Hb Hi]. split; rewrite Ho, ?Hseq; [|done]. intros k row ?%Hb. lia.
  - split_and!; [lia|by apply insert_subseteq|..].
    + intros [Hb Hi]. split; rewrite Ho, ?Hseq.
      * intros k row [[<- <-]|[_ ?%Hb]]%lookup_insert_Some; cbn; lia.
      * intros k1 k2 r1 r2 [[<- <-]|[_ Hk1]]%lookup_insert_Some
          [[<- <-]|[_ Hk2]]%lookup_insert_Some; cbn; intros E; [done|..|by eapply Hi].
        -- apply Hb in Hk2. lia.
        -- apply Hb in Hk1. lia.
    + intros k row [[<- <-]|[_ ?]]%lookup_insert_Some ?; [by cbn|by simplify_eq].
Qed.

Lemma enqueue_grows now messages db r db' :
  enqueue_outbox_messages_in_tx now messages db = (r, db') -> outbox_grows db db'.
Proof.
  unfold enqueue_outbox_messages_in_tx. revert db r.
  induction messages as [|message messages IH]; cbn [for_each]; intros db r H.
  - by injection H as _ <-.
  - unfold bind at 1 2 in H. destruct (insert_outbox now message db) as [[[id|]|e] db1] eqn:E;
      apply insert_outbox_grows in E.
    + cbn in H. apply IH in H. by etrans.
    + unfold outbox_duplicate_matches, bind, gets in H. cbn in H.
      destruct (match _ with Some row => _ | None => _ end).
      * cbn in H. apply IH in H. by etrans.
      * by injection H as _ <-.
    + by injection H as _ <-.
Qed.

Lemma outbox_grows_ext db db1 db2 :
  outbox_grows db db1 -> wallet_outbox db2 = wallet_outbox db1 -> outbox_seq db2 = outbox_seq db1 ->
  outbox_grows db db2.
Proof.
  unfold outbox_grows. intros (? & ? & Hi & ?) Ho Hs. rewrite Ho, Hs. split_and!; try done.
  intros [Hb Hj]%Hi. split; rewrite Ho, ?Hs; eauto.
Qed.

Lemma wallet_commits_grows now db db' : wallet_commits now db db' -> outbox_grows db db'.
Proof.
  intros (messages & r & db1 & H & Ho & Hs). eapply outbox_grows_ext; [|exact Ho|exact Hs].
  unfold transaction in H.
  destruct (enqueue_outbox_messages_in_tx now messages db) as [[u|e] db2] eqn:E.
  - injection H as _ <-. by eapply enqueue_grows.
  - injection H as _ <-. apply enqueue_grows in E as (Hle & _ & _ & _).
    split_and!; cbn; [done|done|..|intros; congruence].
    intros [Hb Hi]. split; cbn; [|exact Hi]. intros k row ?%Hb. lia.
Qed.

Lemma outbox_grows_kept db db' : outbox_grows db db' -> rows_kept db db'.
Proof.
  intros (_ & Hs & _) k row Hk. exists row. split; [|done]. by eapply lookup_weaken.
Qed.

(** ** The relay's statements *)

Lemma claimed_content now row : same_content row (row_claimed now row).
Proof. by split_and!. Qed.
Lemma pending_content now next error row : same_content row (row_pending now next error row).
Proof. by split_and!. Qed.
Lemma published_content now p o row : same_content row (row_published now p o row).
Proof. by split_and!. Qed.
Hint Resolve claimed_content pending_content published_content : outbox.

Lemma requeue_run stale_after now db : exists n,
  requeue_stale_outbox_messages stale_after now db
  = (Ok n, updated (stale stale_after now)
             (row_pending now now "requeued stale PROCESSING message") db).
Proof. by eexists. Qed.

Lemma requeue_ok stale_after now db n db' :
  requeue_stale_outbox_messages stale_after now db = (Ok n, db') ->
  db' = updated (stale stale_after now)
          (row_pending now now "requeued stale PROCESSING message") db.
Proof. by intros [= _ <-]. Qed.

Lemma mark_pending_run id error now db :
  mark_outbox_pending id error now db
  = (Ok tt, updated (fun row => ob_outbox_id row =? id)
              (row_pending now (now + 5 * second_us) error) db).
Proof. done. Qed.

Lemma mark_pending_ok id error now db u db' :
  mark_outbox_pending id error now db = (Ok u, db') ->
  db' = updated (fun row => ob_outbox_id row =? id)
          (row_pending now (now + 5 * second_us) error) db.
Proof. by intros [= _ <-]. Qed.

Lemma mark_published_ok id p o now db u db' :
  mark_outbox_published id p o now db = (Ok u, db') ->
  db' = updated (fun row => ob_outbox_id row =? id) (row_published now p o) db.
Proof.
  unfold mark_outbox_published, bind, gets. case_if; [done|]. by intros [= _ <-].
Qed.

Lemma mark_published_run id p o now db :
  0 <= p -> 0 <= o ->
  mark_outbox_published id p o now db
  = (Ok tt, updated (fun row => ob_outbox_id row =? id) (row_published now p o) db).
Proof.
  intros. unfold mark_outbox_published, bind, gets.
  destruct (Z.ltb_spec p 0), (Z.ltb_spec o 0); try lia. by rewrite andb_false_r.
Qed.

Definition is_claimed (claimed : list (string * OutboxRow)) row : bool :=
  existsb (fun '(_, c) => ob_outbox_id c =? ob_outbox_id row) claimed.
Definition claimed_messages now (claimed : list (string * OutboxRow)) :=
  map (fun '(k, row) => outbox_message_from_row k (row_claimed now row)) claimed.

Lemma claim_ok skipped returning limit now db messages db' :
  claim_outbox_messages skipped returning limit now db = (Ok messages, db') ->
  let claimed := claimed_rows skipped limit now (wallet_outbox db) in
  db' = updated (is_claimed claimed) (row_claimed now) db /\
  messages = returning (claimed_messages now claimed).
Proof.
  unfold claim_outbox_messages, bind, gets. case_if; [done|]. by intros [= <- <-].
Qed.

Lemma elem_of_due_rows skipped now m k row :
  (k, row) ∈ due_rows skipped now m <->
  m !! k = Some row /\ due now row = true /\ skipped (ob_outbox_id row) = false.
Proof.
  unfold due_rows. rewrite merge_sort_Permutation, list_elem_of_filter, elem_of_map_to_list.
  rewrite andb_true_iff, negb_true_iff. tauto.
Qed.

(** The rows of a claim: due, not locked, and in the table. *)
Lemma claimed_row_in skipped limit now m k row :
  (k, row) ∈ claimed_rows skipped limit now m ->
  m !! k = Some row /\ due now row = true /\ skipped (ob_outbox_id row) = false.
Proof. intros Hn%subseteq_take. by apply elem_of_due_rows. Qed.

Lemma claim_run skipped returning limit now db :
  (forall k row, wallet_outbox db !! k = Some row -> due now row = true ->
     ob_attempts row < i32_max) ->
  let claimed := claimed_rows skipped limit now (wallet_outbox db) in
  claim_outbox_messages skipped returning limit now db
  = (Ok (returning (claimed_messages now claimed)),
     updated (is_claimed claimed) (row_claimed now) db).
Proof.
  intros Ha claimed. unfold claim_outbox_messages, bind, gets. fold claimed.
  destruct (existsb _ claimed) eqn:E; [|done].
  apply existsb_exists in E as ([k row] & Hin & Hle). apply Z.leb_le in Hle.
  apply list_elem_of_In, claimed_row_in in Hin as (Hk & Hd & _).
  pose proof (Ha k row Hk Hd). lia.
Qed.

Lemma is_claimed_in claimed k row : (k, row) ∈ claimed -> is_claimed claimed row = true.
Proof.
  intros Hin. apply existsb_exists. exists (k, row). split; [by apply list_elem_of_In|].
  apply Z.eqb_refl.
Qed.

(** ** Each step keeps the invariant *)

Variable self : WalletOutboxRelay.
Hypothesis self_topics :
  tp_topic (relay_wallet_events self) = relay_wallet_events_topic self /\
  tp_topic (relay_engine_inputs self) = relay_engine_input_topic self.

Lemma publish_target_topic message target :
  publish_target self message = Ok target -> target.1 = om_topic message.
Proof.
  unfold publish_target, producer_for_topic, rbind. destruct self_topics as [Hw He].
  case_if; [|case_if; [|done]]; intros H;
    destruct (om_partition message); [destruct (producer_for_partition _ _)| |..];
    try (destruct (producer_for_key _ _)); try destruct (producer_for_partition _ _);
    simplify_eq; cbn; congruence.
Qed.

Lemma broker_grows (br : list BrokerRecord) r : br ⊆ br ++ [r].
Proof. intros x ?. apply elem_of_app. by left. Qed.
Lemma broker_last (br : list BrokerRecord) r : r ∈ br ++ [r].
Proof. apply elem_of_app. right. by apply list_elem_of_singleton. Qed.
Lemma broker_failed (br br' : list BrokerRecord) message :
  br' = br \/
    (exists target offset, publish_target self message = Ok target /\
       br' = br ++ [record_of target offset message]) ->
  br ⊆ br'.
Proof. intros [->|(? & ? & _ & ->)]; [done|apply broker_grows]. Qed.

Lemma next_message_lookup i rest rs j mem :
  next_message i rest rs !! j = Some mem ->
  j = i /\ mem = mkRelayMemory rest None /\ rest <> [] \/ j <> i /\ rs !! j = Some mem.
Proof.
  unfold next_message. destruct rest as [|m rest].
  - intros [? ?]%lookup_delete_Some. auto.
  - intros [[<- <-]|[? ?]]%lookup_insert_Some; auto.
Qed.

Lemma memory_ok_rest db br m rest sent :
  memory_ok db br (mkRelayMemory (m :: rest) sent) -> memory_ok db br (mkRelayMemory rest None).
Proof. intros [Hr _]. split; cbn; [|done]. intros m' ?. apply Hr. by right. Qed.

Lemma claim_memory_ok skipped returning limit now db br :
  (forall l, returning l ≡ₚ l) ->
  let claimed := claimed_rows skipped limit now (wallet_outbox db) in
  memory_ok (updated (is_claimed claimed) (row_claimed now) db) br
    (mkRelayMemory (returning (claimed_messages now claimed)) None).
Proof.
  intros Hp claimed. split; cbn; [|done]. intros m Hm. rewrite Hp in Hm.
  apply list_elem_of_fmap in Hm as ([k row] & -> & Hin). cbn.
  exists (row_claimed now row). pose proof Hin as (Hk & _)%claimed_row_in.
  by rewrite updated_lookup, Hk; cbn; rewrite (is_claimed_in _ _ _ Hin).
Qed.

Lemma rows_ok_grows db db' br : outbox_grows db db' -> rows_ok db br -> rows_ok db' br.
Proof.
  intros (_ & Hs & Hi & Hn) [Hids Hst Hp].
  assert (forall k row, wallet_outbox db' !! k = Some row ->
    wallet_outbox db !! k = Some row \/ ob_status row = "PENDING") as Hrow.
  { intros k row Hk. destruct (wallet_outbox db !! k) as [row'|] eqn:E.
    - pose proof (lookup_weaken _ _ _ _ E Hs). simplify_eq. auto.
    - right. by eapply Hn. }
  split; [by auto|..].
  - intros k row [?| ->]%Hrow; [by eapply Hst|by left].
  - intros k row [?| ->]%Hrow; [by eapply Hp|done].
Qed.

Lemma relay_step_keeps i s s' :
  relay_step self i s s' ->
  rows_kept (os_db s) (os_db s') /\ os_broker s ⊆ os_broker s'.
Proof.
  intros H. destruct H; cbn.
  - by split.
  - split; [|done]. by eapply outbox_grows_kept, wallet_commits_grows.
  - apply requeue_ok in H0 as ->.
    split; [|done]. apply updated_kept. auto with outbox.
  - apply claim_ok in H1 as [-> _]. split; [|done]. apply updated_kept. auto with outbox.
  - split; [done|]. apply broker_grows.
  - apply mark_pending_ok in H1 as ->. split.
    + apply updated_kept. auto with outbox.
    + by eapply broker_failed.
  - apply mark_published_ok in H0 as ->. split; [|done]. apply updated_kept. auto with outbox.
  - by split.
Qed.

(** Only the row of its message is touched by a mark. *)
Lemma marked_row db br message row k :
  rows_ok db br -> wallet_outbox db !! om_dedupe_key message = Some row ->
  same_message message row ->
  forall row', wallet_outbox db !! k = Some row' ->
    (ob_outbox_id row' =? om_outbox_id message) = true -> k = om_dedupe_key message /\ row' = row.
Proof.
  intros [[_ Hinj] _ _] Hk (Hid & _) row' Hk' E%Z.eqb_eq. rewrite Hid in E.
  pose proof (Hinj _ _ _ _ Hk' Hk E) as ->. by simplify_eq.
Qed.

Lemma relay_step_rows_ok i s s' :
  relay_step self i s s' -> outbox_inv s -> rows_ok (os_db s') (os_broker s').
Proof.
  intros Hs [Hr Hm]. destruct Hs; cbn in *.
  - done.
  - by eapply rows_ok_grows, Hr; eapply wallet_commits_grows.
  - apply requeue_ok in H0 as ->.
    apply (rows_ok_updated _ _ db br); [auto with outbox|done..|]. intros; split; [by left|done].
  - apply claim_ok in H1 as [-> _].
    apply (rows_ok_updated _ _ db br); [auto with outbox|done..|].
    intros; split; [by right; left|done].
  - destruct Hr as [? ? Hp]. split; try done. intros k row ? Hst.
    destruct (Hp k row) as (p & o & ? & ? & ?); [done..|]. exists p, o. split_and!; [done..|]. by apply broker_grows.
  - apply mark_pending_ok in H1 as ->.
    apply (rows_ok_updated _ _ db br); [auto with outbox|done|..].
    + by eapply broker_failed.
    + intros; split; [by left|done].
  - apply mark_published_ok in H0 as ->. destruct (Hm _ _ H) as [Hrow Hsent].
    destruct (Hrow message) as (row & Hk & Hsame); [by left|].
    pose proof (Hsent message rest partition offset eq_refl eq_refl) as Hin.
    apply (rows_ok_updated _ _ db br); [auto with outbox|done..|].
    intros k row' Hk' Hw.
    destruct (marked_row db br message row k Hr Hk Hsame row' Hk' Hw) as [-> ->].
    split; [by right; right; left|]. intros _. exists partition, offset.
    destruct Hsame as (? & Ht & ? & Hke & Hpa). cbn. split_and!; [done..|].
    by rewrite <- Ht, <- Hke, <- Hpa.
  - done.
Qed.

Lemma relay_step_memory_ok i s s' :
  relay_step self i s s' -> outbox_inv s ->
  forall j mem, os_relays s' !! j = Some mem -> memory_ok (os_db s') (os_broker s') mem.
Proof.
  intros Hs [_ Hm] j mem. pose proof (relay_step_keeps _ _ _ Hs) as [Hk Hbr].
  assert (forall mem, memory_ok (os_db s) (os_broker s) mem ->
    memory_ok (os_db s') (os_broker s') mem) as Hmono by (intros; by eapply memory_ok_mono).
  destruct Hs; cbn in *; try (intros Hj; by eapply Hmono, Hm).
  - intros [(-> & -> & _)|[_ Hj]]%next_message_lookup; [|by eapply Hmono, Hm].
    apply claim_ok in H1 as [-> ->]. by apply claim_memory_ok.
  - intros [[<- <-]|[_ Hj]]%lookup_insert_Some; [|by eapply Hmono, Hm].
    destruct (Hm _ _ H) as [Hrow _]. split; cbn; [by apply Hrow|].
    intros m rest' p o [= <- <-] [= <- <-]. apply publish_target_topic in H0. rewrite <- H0.
    apply broker_last.
  - intros [(-> & -> & _)|[_ Hj]]%next_message_lookup; [|by eapply Hmono, Hm].
    eapply Hmono, memory_ok_rest, Hm, H.
  - intros [(-> & -> & _)|[_ Hj]]%next_message_lookup; [|by eapply Hmono, Hm].
    eapply Hmono, memory_ok_rest, Hm, H.
  - intros [_ Hj]%lookup_delete_Some. by eapply Hmono, Hm.
Qed.

Lemma system_inv s s' : rtc (system_step self) s s' -> outbox_inv s -> outbox_inv s'.
Proof.
  induction 1 as [|s1 s2 s3 [i Hs] _ IH]; [done|]. intros Hinv. apply IH. split.
  - by eapply relay_step_rows_ok.
  - by eapply relay_step_memory_ok.
Qed.

Lemma system_kept s s' :
  rtc (system_step self) s s' ->
  rows_kept (os_db s) (os_db s') /\ os_broker s ⊆ os_broker s'.
Proof.
  induction 1 as [|s1 s2 s3 [i Hs] _ [IH1 IH2]]; [done|].
  apply relay_step_keeps in Hs as [? ?]. split; by etrans.
Qed.

(** ** One relay alone *)

(** Only relay [i] runs, and the rows of its batch are PROCESSING, each once. *)
Record single_inv (i : Z) (s : OutboxSystem) : Prop := {
  single_only j mem : os_relays s !! j = Some mem -> j = i;
  single_nodup mem : os_relays s !! i = Some mem -> NoDup (om_dedupe_key <$> rm_messages mem);
  single_processing mem m row : os_relays s !! i = Some mem -> m ∈ rm_messages mem ->
    wallet_outbox (os_db s) !! om_dedupe_key m = Some row -> ob_status row = "PROCESSING"
}.

Lemma claimed_messages_keys now claimed :
  om_dedupe_key <$> claimed_messages now claimed = claimed.*1.
Proof.
  unfold claimed_messages. induction claimed as [|[k row] l IH]; [done|]. cbn in *.
  by rewrite IH.
Qed.

Lemma claimed_rows_keys skipped limit now m : NoDup (claimed_rows skipped limit now m).*1.
Proof.
  unfold claimed_rows, due_rows. rewrite fmap_take.
  eapply sublist_NoDup; [|apply sublist_take].
  rewrite merge_sort_Permutation. eapply sublist_NoDup; [apply (NoDup_fst_map_to_list m)|].
  apply fmap_sublist, sublist_filter.
Qed.

(** A claim touches only due rows. *)
Lemma claimed_only_due skipped limit now db k row :
  outbox_ids db -> wallet_outbox db !! k = Some row ->
  is_claimed (claimed_rows skipped limit now (wallet_outbox db)) row = true ->
  (k, row) ∈ claimed_rows skipped limit now (wallet_outbox db) /\ due now row = true.
Proof.
  intros [_ Hinj] Hk ([k' row'] & Hin & E%Z.eqb_eq)%existsb_exists.
  apply list_elem_of_In in Hin. pose proof Hin as (Hk' & Hd & _)%claimed_row_in.
  pose proof (Hinj _ _ _ _ Hk' Hk E) as ->. by simplify_eq.
Qed.

Lemma single_next i s db br m rest sent t :
  single_inv i s -> outbox_inv s -> os_relays s !! i = Some (mkRelayMemory (m :: rest) sent) ->
  (forall k row, k <> om_dedupe_key m -> wallet_outbox (os_db s) !! k = Some row ->
     wallet_outbox db !! k = Some row) ->
  single_inv i (mkOutboxSystem db br (next_message i rest (os_relays s)) t).
Proof.
  intros [Ho Hn Hp] [_ Hm] Hi Hdb. pose proof (Hn _ Hi) as Hnd. cbn in Hnd.
  apply NoDup_cons in Hnd as [Hni Hnd]. split; cbn.
  - intros j mem [(-> & _)|[_ ?]]%next_message_lookup; [done|by eapply Ho].
  - intros mem [(_ & -> & _)|[? _]]%next_message_lookup; [done|done].
  - intros mem m' row [(_ & -> & _)|[? _]]%next_message_lookup Hin Hrow; [|done]. cbn in Hin.
    destruct (memory_rows _ _ _ (Hm _ _ Hi) m') as (row' & Hk & _); [by right|].
    assert (om_dedupe_key m' <> om_dedupe_key m) as Hne.
    { intros E. apply Hni. rewrite <- E. by apply list_elem_of_fmap_2. }
    pose proof (Hdb _ _ Hne Hk). simplify_eq. by eapply (Hp _ m'); [exact Hi|right|].
Qed.

(** The rows a relay's step may change are those that are not PUBLISHED. *)
Lemma marked_others db br message row where_ set k row' :
  rows_ok db br -> wallet_outbox db !! om_dedupe_key message = Some row ->
  same_message message row -> k <> om_dedupe_key message ->
  where_ = (fun row => ob_outbox_id row =? om_outbox_id message) ->
  wallet_outbox db !! k = Some row' -> wallet_outbox (updated where_ set db) !! k = Some row'.
Proof.
  intros Hr Hk Hsame Hne -> Hk'. rewrite updated_lookup, Hk'. cbn. case_if; [|done].
  destruct (marked_row db br message row k Hr Hk Hsame row' Hk') as [? _]; [|done].
  by apply Z.eqb_eq.
Qed.

Lemma single_step i s s' :
  relay_step self i s s' -> outbox_inv s -> single_inv i s -> single_inv i s'.
Proof.
  intros Hs Hinv Hsi. pose proof Hinv as [Hr Hm]. destruct Hs; cbn in *.
  - destruct Hsi as [? ? ?]. by split.
  - destruct Hsi as [Ho Hn Hp]. split; cbn in *; [done..|]. intros mem m row Hi Hin Hrow.
    destruct (memory_rows _ _ _ (Hm _ _ Hi) m Hin) as (row' & Hk & _).
    apply wallet_commits_grows in H as (_ & Hs & _).
    pose proof (lookup_weaken _ _ _ _ Hk Hs). simplify_eq. eauto.
  - destruct Hsi as [Ho Hn Hp]. split; cbn in *; [done..|]. intros. congruence.
  - apply claim_ok in H1 as [-> ->].
    destruct Hsi as [Ho _ _]. split; cbn in *.
    + intros j mem [(-> & _)|[_ ?]]%next_message_lookup; [done|by eapply Ho].
    + intros mem [(_ & -> & _)|[? _]]%next_message_lookup; [|done]. cbn. rewrite H0.
      rewrite claimed_messages_keys. apply claimed_rows_keys.
    + intros mem m row [(_ & -> & _)|[? _]]%next_message_lookup; [|done]. cbn.
      rewrite H0. intros ([k row0] & -> & Hin)%list_elem_of_fmap. cbn.
      pose proof Hin as (Hk & _)%claimed_row_in.
      rewrite updated_lookup, Hk. cbn. rewrite (is_claimed_in _ _ _ Hin). by intros [= <-].
  - destruct Hsi as [Ho Hn Hp]. split; cbn in *.
    + intros j mem [[<- <-]|[_ ?]]%lookup_insert_Some; [done|by eapply Ho].
    + intros mem. rewrite lookup_insert_eq. intros [= <-]. by apply (Hn _ H).
    + intros mem m row. rewrite lookup_insert_eq. intros [= <-]. by apply (Hp _ m row H).
  - apply mark_pending_ok in H1 as ->.
    destruct (memory_rows _ _ _ (Hm _ _ H) message) as (row & Hk & Hsame); [by left|].
    eapply (single_next i (mkOutboxSystem db br rs t) _ _ message); [exact Hsi|exact Hinv|exact H|].
    intros k row' Hne Hk'. by eapply marked_others.
  - apply mark_published_ok in H0 as ->.
    destruct (memory_rows _ _ _ (Hm _ _ H) message) as (row & Hk & Hsame); [by left|].
    eapply (single_next i (mkOutboxSystem db br rs t) _ _ message); [exact Hsi|exact Hinv|exact H|].
    intros k row' Hne Hk'. by eapply marked_others.
  - destruct Hsi as [Ho Hn Hp]. split; cbn in *; intros.
    + by eapply Ho, lookup_delete_Some.
    + by rewrite lookup_delete_eq in *.
    + by rewrite lookup_delete_eq in *.
Qed.

Lemma single_published_final i s s' k row :
  relay_step self i s s' -> outbox_inv s -> single_inv i s ->
  wallet_outbox (os_db s) !! k = Some row -> ob_status row = "PUBLISHED" ->
  wallet_outbox (os_db s') !! k = Some row.
Proof.
  intros Hs [Hr Hm] [_ _ Hp] Hk Hst. destruct Hs; cbn in *; try done.
  - apply wallet_commits_grows in H as (_ & Hs & _). by eapply lookup_weaken.
  - apply requeue_ok in H0 as ->. rewrite updated_lookup, Hk. cbn. unfold stale.
    by rewrite Hst.
  - apply claim_ok in H1 as [-> _]. rewrite updated_lookup, Hk. cbn.
    destruct (is_claimed _ row) eqn:E; [|done].
    apply (claimed_only_due _ _ _ _ k row (rows_ids _ _ Hr) Hk) in E as [_ E].
    unfold due in E. by rewrite Hst in E.
  - apply mark_pending_ok in H1 as ->.
    destruct (memory_rows _ _ _ (Hm _ _ H) message) as (row' & Hk' & Hsame); [by left|].
    destruct (decide (k = om_dedupe_key message)) as [->|Hne]; [|by eapply marked_others].
    simplify_eq. assert (ob_status row = "PROCESSING") by (eapply Hp; [exact H|by left|done]).
    congruence.
  - apply mark_published_ok in H0 as ->.
    destruct (memory_rows _ _ _ (Hm _ _ H) message) as (row' & Hk' & Hsame); [by left|].
    destruct (decide (k = om_dedupe_key message)) as [->|Hne]; [|by eapply marked_others].
    simplify_eq. assert (ob_status row = "PROCESSING") by (eapply Hp; [exact H|by left|done]).
    congruence.
Qed.

Lemma single_run i s s' :
  rtc (relay_step self i) s s' -> outbox_inv s -> single_inv i s ->
  outbox_inv s' /\ single_inv i s' /\
  forall k row, wallet_outbox (os_db s) !! k = Some row -> ob_status row = "PUBLISHED" ->
    wallet_outbox (os_db s') !! k = Some row.
Proof.
  induction 1 as [|s1 s2 s3 Hs _ IH]; [done|]. intros Hinv Hsi.
  assert (outbox_inv s2) as Hinv2.
  { split; [by eapply relay_step_rows_ok|by eapply relay_step_memory_ok]. }
  pose proof (single_step i _ _ Hs Hinv Hsi) as Hsi2.
  destruct (IH Hinv2 Hsi2) as (? & ? & Hf). split_and!; [done..|].
  intros k row Hk Hst. apply Hf; [|done]. by eapply single_published_final.
Qed.

(** ** A relay that keeps running publishes everything *)

Definition publishable row : Prop :=
  exists target, publish_target self (outbox_message_from_row "" row) = Ok target /\ 0 <= target.2.
(** Every message left can be published: its topic and partition exist, and its
    attempts do not exceed an INTEGER. *)
Definition can_publish db : Prop :=
  forall k row, wallet_outbox db !! k = Some row -> ob_status row <> "PUBLISHED" ->
    ob_attempts row < i32_max /\ publishable row.

Lemma publish_target_same m row :
  same_message m row -> publish_target self m = publish_target self (outbox_message_from_row "" row).
Proof. intros (_ & Ht & Hp & Hk & _). unfold publish_target. cbn. by rewrite Ht, Hp, Hk. Qed.

Lemma publishable_content row row' : same_content row row' -> publishable row -> publishable row'.
Proof.
  intros (_ & Ht & Hp & Hk & _) (target & H & ?). exists target. split; [|done].
  revert H. unfold publish_target. cbn. by rewrite Ht, Hp, Hk.
Qed.

Lemma run_inv i s s' :
  rtc (relay_step self i) s s' -> outbox_inv s -> single_inv i s ->
  outbox_inv s' /\ single_inv i s'.
Proof. intros H Hi Hs. destruct (single_run i s s' H Hi Hs) as (? & ? & _). done. Qed.

Lemma next_message_insert i rest mem rs :
  next_message i rest (<[i := mem]> rs) = next_message i rest rs.
Proof.
  unfold next_message. destruct rest; [by rewrite delete_insert_eq|by rewrite insert_insert_eq].
Qed.

(** Publishing and marking the first message of a batch. *)
Lemma publish_first i s m rest :
  outbox_inv s -> os_relays s !! i = Some (mkRelayMemory (m :: rest) None) ->
  (forall row, wallet_outbox (os_db s) !! om_dedupe_key m = Some row -> publishable row) ->
  exists s' row', rtc (relay_step self i) s s' /\
    os_relays s' = next_message i rest (os_relays s) /\
    wallet_outbox (os_db s') !! om_dedupe_key m = Some row' /\ ob_status row' = "PUBLISHED" /\
    forall k, k <> om_dedupe_key m ->
      wallet_outbox (os_db s') !! k = wallet_outbox (os_db s) !! k.
Proof.
  destruct s as [db br rs t]. cbn. intros [Hr Hm] Hi Hpub.
  destruct (memory_rows _ _ _ (Hm _ _ Hi) m) as (row & Hk & Hsame); [by left|].
  cbn in Hk. destruct (Hpub row Hk) as (target & Ht & Hpos). rewrite <- (publish_target_same m) in Ht by done.
  set (set := row_published t target.2 0).
  set (where_ := fun row => ob_outbox_id row =? om_outbox_id m).
  exists (mkOutboxSystem (updated where_ set db) (br ++ [record_of target 0 m])
    (next_message i rest (<[i := mkRelayMemory (m :: rest) (Some (target.2, 0))]> rs)) t),
    (set row).
  cbn. split_and!; [|apply next_message_insert|..|done|].
  - eapply rtc_l; [eapply (relay_publish _ i _ _ _ _ m rest target 0); [exact Hi|exact Ht|unfold i64_max; lia]|].
    eapply rtc_l; [|apply rtc_refl]. eapply (relay_mark _ i _ _ _ _ _ m rest target.2 0).
    + apply lookup_insert_eq.
    + by apply mark_published_run.
  - rewrite updated_lookup, Hk. cbn. unfold where_. destruct Hsame as (-> & _).
    by rewrite Z.eqb_refl.
  - intros k Hne. rewrite updated_lookup. destruct (wallet_outbox db !! k) as [row'|] eqn:E; [|done].
    cbn. destruct (where_ row') eqn:Ew; [|done].
    by destruct (marked_row db br m row k Hr Hk Hsame row' E Ew).
Qed.

(** A whole batch. *)
Lemma publish_batch i s messages :
  outbox_inv s -> single_inv i s ->
  os_relays s !! i = match messages with [] => None | _ => Some (mkRelayMemory messages None) end ->
  (forall m row, m ∈ messages -> wallet_outbox (os_db s) !! om_dedupe_key m = Some row ->
     publishable row) ->
  exists s', rtc (relay_step self i) s s' /\ os_relays s' !! i = None /\
    (forall m, m ∈ messages -> exists row,
       wallet_outbox (os_db s') !! om_dedupe_key m = Some row /\ ob_status row = "PUBLISHED") /\
    (forall k, k ∉ om_dedupe_key <$> messages ->
       wallet_outbox (os_db s') !! k = wallet_outbox (os_db s) !! k).
Proof.
  revert s. induction messages as [|m rest IH]; intros s Hinv Hsi Hi Hpub.
  - exists s. split_and!; [done..|by intros m ?%elem_of_nil|done].
  - destruct (publish_first i s m rest Hinv Hi) as (s1 & row1 & Hrun1 & Hrs & Hk1 & Hst & Ho);
      [intros row; apply Hpub; by left|].
    destruct (run_inv i s s1 Hrun1 Hinv Hsi) as [Hinv1 Hsi1].
    pose proof (single_nodup _ _ Hsi _ Hi) as [Hm Hnd]%NoDup_cons.
    assert (forall m', m' ∈ rest -> om_dedupe_key m' <> om_dedupe_key m) as Hne.
    { intros m' Hin E. apply Hm. rewrite <- E. by apply list_elem_of_fmap_2. }
    destruct (IH s1 Hinv1 Hsi1) as (s2 & Hrun2 & Hi2 & Hp2 & Ho2).
    { rewrite Hrs. unfold next_message.
      destruct rest; [apply lookup_delete_eq|apply lookup_insert_eq]. }
    { intros m' row Hin. rewrite Ho by by apply Hne. apply Hpub. by right. }
    exists s2. split_and!; [by etrans|done|..].
    + intros m' [->|Hin]%elem_of_cons; [|by apply Hp2]. exists row1. by rewrite Ho2.
    + intros k [Hkm Hkr]%not_elem_of_cons. rewrite Ho2 by done. by apply Ho.
Qed.

(** A time by which every row is due or stale. *)
Lemma late_enough (m : gmap string OutboxRow) t d :
  exists t', t <= t' /\ forall k row, m !! k = Some row ->
    ob_next_attempt_at row <= t' /\ ob_updated_at row <= t' - d.
Proof.
  induction m as [|k row m Hk (t' & ? & IH)] using map_ind.
  - exists t. split; [done|]. intros k row H. by rewrite lookup_empty in H.
  - exists (Z.max t' (Z.max (ob_next_attempt_at row) (ob_updated_at row + d))).
    split; [lia|]. intros k' row' [[<- <-]|[_ Hk']]%lookup_insert_Some; [lia|].
    apply IH in Hk'. lia.
Qed.

Lemma claimed_nonempty limit now m k row :
  1 <= limit -> m !! k = Some row -> due now row = true ->
  claimed_rows (fun _ => false) limit now m <> [].
Proof.
  intros Hl Hk Hd. unfold claimed_rows.
  assert ((k, row) ∈ due_rows (fun _ => false) now m) as Hin by by apply elem_of_due_rows.
  destruct (due_rows _ _ _); [by apply elem_of_nil in Hin|].
  destruct (Z.to_nat limit) eqn:E; [lia|done].
Qed.

(** What requeueing at a late time leaves: nothing PROCESSING, and everything not
    published due. *)
Definition requeued now db : WalletDb :=
  updated (stale (relay_stale_after_seconds self) now)
    (row_pending now now "requeued stale PROCESSING message") db.

Lemma requeued_row db br now k row :
  rows_ok db br ->
  (forall k row, wallet_outbox db !! k = Some row -> ob_next_attempt_at row <= now /\
     ob_updated_at row <= now - relay_stale_after_seconds self * second_us) ->
  wallet_outbox (requeued now db) !! k = Some row -> ob_status row <> "PUBLISHED" ->
  exists row0, wallet_outbox db !! k = Some row0 /\ ob_status row0 <> "PUBLISHED" /\
    same_content row0 row /\ ob_attempts row = ob_attempts row0 /\ due now row = true.
Proof.
  intros Hr Hlate. unfold requeued. rewrite updated_lookup. intros (row0 & Hk & ->)%fmap_Some Hst.
  exists row0. destruct (Hlate k row0 Hk) as [Hn Hu]. pose proof (rows_status _ _ Hr k row0 Hk) as Hs.
  unfold stale in *. apply Z.leb_le in Hu. rewrite Hu, andb_true_r in *.
  case_bool_decide as E.
  - split_and!; [done|by rewrite E|by split_and!|done|]. unfold due. cbn.
    apply Z.leb_refl.
  - split_and!; [done..|]. unfold due. apply Z.leb_le in Hn. rewrite Hn, andb_true_r.
    apply bool_decide_eq_true.
    by repeat (apply elem_of_cons in Hs as [Hs|Hs]); try apply elem_of_nil in Hs.
Qed.

Lemma due_unpublished now row : due now row = true -> ob_status row <> "PUBLISHED".
Proof. unfold due. intros Hd E. by rewrite E in Hd. Qed.

(** Claiming a batch and publishing it. *)
Lemma claim_and_publish i s :
  outbox_inv s -> single_inv i s -> os_relays s !! i = None -> can_publish (os_db s) ->
  let claimed := claimed_rows (fun _ => false) (relay_batch_limit self) (os_clock s)
                   (wallet_outbox (os_db s)) in
  exists s', rtc (relay_step self i) s s' /\ os_relays s' !! i = None /\
    (forall k row, (k, row) ∈ claimed -> exists row',
       wallet_outbox (os_db s') !! k = Some row' /\ ob_status row' = "PUBLISHED") /\
    (forall k, k ∉ claimed.*1 -> wallet_outbox (os_db s') !! k = wallet_outbox (os_db s) !! k).
Proof.
  intros Hinv Hsi Hidle Hcan claimed. destruct s as [db br rs now]. cbn in *.
  set (s1 := mkOutboxSystem (updated (is_claimed claimed) (row_claimed now) db) br
               (next_message i (claimed_messages now claimed) rs) now).
  assert (rtc (relay_step self i) (mkOutboxSystem db br rs now) s1) as Hrun1.
  { eapply rtc_l; [|apply rtc_refl]. apply (relay_claim _ i _ _ _ _ _ (fun _ => false) id); [done..|].
    apply (claim_run (fun _ => false) id).
    intros k row Hk Hd%due_unpublished. by apply (Hcan k row). }
  destruct (run_inv i _ _ Hrun1 Hinv Hsi) as [Hinv1 Hsi1].
  destruct (publish_batch i s1 (claimed_messages now claimed) Hinv1 Hsi1)
    as (s2 & Hrun2 & Hidle2 & Hp2 & Ho2).
  { cbn. unfold next_message. destruct (claimed_messages now claimed);
      [by rewrite lookup_delete_eq|apply lookup_insert_eq]. }
  { intros m row ([k c] & -> & Hin)%list_elem_of_fmap. cbn.
    pose proof Hin as (Hk & Hd%due_unpublished & _)%claimed_row_in. rewrite updated_lookup, Hk.
    cbn. rewrite (is_claimed_in _ _ _ Hin). intros [= <-].
    eapply publishable_content; [apply claimed_content|by apply (Hcan k c)]. }
  exists s2. split_and!; [by etrans|done|..].
  - intros k row Hin. apply (Hp2 (outbox_message_from_row k (row_claimed now row))).
    apply list_elem_of_fmap. by exists (k, row).
  - intros k Hk. rewrite Ho2 by by rewrite claimed_messages_keys. cbn. rewrite updated_lookup.
    destruct (wallet_outbox db !! k) as [row|] eqn:E; [|done]. cbn.
    destruct (is_claimed claimed row) eqn:Ec; [|done]. exfalso. apply Hk.
    apply (claimed_only_due _ _ _ _ k row (rows_ids _ _ (proj1 Hinv)) E) in Ec as [Ec _].
    by apply (list_elem_of_fmap_2 fst) in Ec.
Qed.

(** One turn of the loop, with nothing failing: at least one row is published, and
    the rows left unpublished are as they were. *)
Lemma relay_round i s k0 row0 :
  outbox_inv s -> single_inv i s -> os_relays s !! i = None -> can_publish (os_db s) ->
  1 <= relay_batch_limit self ->
  wallet_outbox (os_db s) !! k0 = Some row0 -> ob_status row0 <> "PUBLISHED" ->
  exists s' k1 row1, rtc (relay_step self i) s s' /\ os_relays s' !! i = None /\
    (forall k row', wallet_outbox (os_db s') !! k = Some row' -> ob_status row' <> "PUBLISHED" ->
       k <> k1 /\ exists row, wallet_outbox (os_db s) !! k = Some row /\
         ob_status row <> "PUBLISHED" /\ same_content row row' /\
         ob_attempts row' = ob_attempts row) /\
    wallet_outbox (os_db s) !! k1 = Some row1 /\ ob_status row1 <> "PUBLISHED".
Proof.
  intros Hinv Hsi Hidle Hcan Hlim Hk0 Hst0. destruct s as [db br rs t]. cbn in *.
  destruct (late_enough (wallet_outbox db) t (relay_stale_after_seconds self * second_us))
    as (now & Hnow & Hlate).
  set (s1 := mkOutboxSystem (requeued now db) br rs now).
  assert (rtc (relay_step self i) (mkOutboxSystem db br rs t) s1) as Hrun1.
  { eapply rtc_l; [apply (relay_tick _ i _ _ _ _ now Hnow)|]. eapply rtc_l; [|apply rtc_refl].
    destruct (requeue_run (relay_stale_after_seconds self) now db) as [n Hn].
    by apply (relay_requeue _ i db _ br rs now n). }
  destruct (run_inv i _ _ Hrun1 Hinv Hsi) as [Hinv1 Hsi1].
  pose proof (fun k row => requeued_row db br now k row (proj1 Hinv) Hlate) as Hreq.
  destruct (claim_and_publish i s1 Hinv1 Hsi1 Hidle) as (s2 & Hrun2 & Hidle2 & Hp & Ho).
  { intros k row Hk Hst. destruct (Hreq k row Hk Hst) as (row' & Hk' & Hst' & Hc & -> & _).
    destruct (Hcan k row' Hk' Hst'). split; [done|]. by eapply publishable_content. }
  assert (exists row, wallet_outbox (requeued now db) !! k0 = Some row /\
    ob_status row <> "PUBLISHED") as (row & Hk & Hst).
  { unfold requeued. rewrite updated_lookup, Hk0. cbn. eexists. split; [done|]. by case_if. }
  destruct (Hreq k0 row Hk Hst) as (_ & _ & _ & _ & _ & Hd).
  pose proof (claimed_nonempty _ now _ k0 row Hlim Hk Hd) as Hne. cbn in Hp, Ho.
  destruct (claimed_rows _ _ now _) as [|[k1 c] rest] eqn:Ec; [done|].
  assert ((k1, c) ∈ (k1, c) :: rest) as Hin by by left.
  pose proof Hin as Hin'. rewrite <- Ec in Hin'.
  apply claimed_row_in in Hin' as (Hk1 & Hd1%due_unpublished & _).
  destruct (Hreq k1 c Hk1 Hd1) as (row1 & ? & ? & _).
  exists s2, k1, row1. split_and!; [by etrans|done| |done|done].
  intros k row' Hk' Hst'. assert (k ∉ ((k1, c) :: rest).*1) as Hout.
  { intros ([k' c'] & -> & Hin2)%list_elem_of_fmap. cbn in *.
    destruct (Hp k' c' Hin2) as (row2 & ? & ?). congruence. }
  split; [by apply not_elem_of_cons in Hout as [? _]|]. rewrite Ho in Hk' by done.
  destruct (Hreq k row' Hk' Hst') as (row2 & ? & ? & ? & ? & _). by exists row2.
Qed.

Definition unpublished db : gset string :=
  dom (filter (fun '(_, row) => ob_status row <> "PUBLISHED") (wallet_outbox db)).

Lemma elem_of_unpublished db k :
  k ∈ unpublished db <-> exists row, wallet_outbox db !! k = Some row /\ ob_status row <> "PUBLISHED".
Proof.
  unfold unpublished. rewrite elem_of_dom. unfold is_Some.
  by setoid_rewrite map_lookup_filter_Some.
Qed.

Lemma relay_drains i s :
  outbox_inv s -> single_inv i s -> os_relays s !! i = None -> can_publish (os_db s) ->
  1 <= relay_batch_limit self ->
  exists s', rtc (relay_step self i) s s' /\
    forall k row, wallet_outbox (os_db s') !! k = Some row -> ob_status row = "PUBLISHED".
Proof.
  remember (unpublished (os_db s)) as u eqn:Hu. revert s Hu.
  induction u as [u IH] using (well_founded_ind set_wf). intros s -> Hinv Hsi Hidle Hcan Hlim.
  destruct (decide (unpublished (os_db s) = ∅)) as [He|Hne].
  - exists s. split; [done|]. intros k row Hk. destruct (decide (ob_status row = "PUBLISHED"));
      [done|]. assert (k ∈ unpublished (os_db s)) as Hin by (apply elem_of_unpublished; eauto).
    rewrite He in Hin. by apply elem_of_empty in Hin.
  - apply set_choose_L in Hne as [k0 (row0 & Hk0 & Hst0)%elem_of_unpublished].
    destruct (relay_round i s k0 row0 Hinv Hsi Hidle Hcan Hlim Hk0 Hst0)
      as (s1 & k1 & row1 & Hrun & Hidle1 & Hleft & Hk1 & Hst1).
    destruct (run_inv i _ _ Hrun Hinv Hsi) as [Hinv1 Hsi1].
    destruct (IH (unpublished (os_db s1))) with (s := s1) as (s2 & Hrun2 & Hall); try done.
    + split.
      * intros k (row & Hk & Hst)%elem_of_unpublished.
        destruct (Hleft k row Hk Hst) as [_ (row' & ? & ? & _)]. apply elem_of_unpublished. eauto.
      * intros Hsub. assert (k1 ∈ unpublished (os_db s)) as Hin by (apply elem_of_unpublished; eauto).
        apply Hsub in Hin as (row & Hk & Hst)%elem_of_unpublished.
        by destruct (Hleft k1 row Hk Hst) as [? _].
    + intros k row Hk Hst. destruct (Hleft k row Hk Hst) as [_ (row' & Hk' & Hst' & Hc & ->)].
      destruct (Hcan k row' Hk' Hst'). split; [done|]. by eapply publishable_content.
    + exists s2. split; [by etrans|done].
Qed.
End WithSerde.

Section Theorems.
Context {SD : Serde}.

Lemma topic_producer_topic cluster topics topic producer :
  TopicProducer_new cluster topics topic = Ok producer ->
  tp_topic producer = topic /\ topic_partitions topics topic = Ok (tp_producers producer).
Proof.
  unfold TopicProducer_new. destruct (topic_partitions _ _) as [ps|]; [|done]. cbn.
  destruct (clients_for _ _ _ _) as [l|] eqn:Hl; [|done]. intros [= <-].
  by apply clients_for_ok in Hl as ->.
Qed.

Lemma relay_new_topics connect settings self :
  WalletOutboxRelay_new connect settings = Ok self ->
  (tp_topic (relay_wallet_events self) = relay_wallet_events_topic self /\
   tp_topic (relay_engine_inputs self) = relay_engine_input_topic self) /\
  1 <= relay_batch_limit self.
Proof.
  unfold WalletOutboxRelay_new. intros H.
  destruct (wallet_parse_brokers _) as [brokers|]; [|done]. cbn [rbind] in H.
  destruct (connect brokers) as [client|]; [|done]. cbn [rbind map_err] in H.
  destruct (list_topics client) as [topics|]; [|done]. cbn [rbind map_err] in H.
  destruct (TopicProducer_new _ _ _) as [events|] eqn:He; [|done]. cbn [rbind] in H.
  destruct (TopicProducer_new _ _ (wse_engine_input_topic _)) as [inputs|] eqn:Hi; [|done].
  injection H as <-. apply topic_producer_topic in He as [He _]. apply topic_producer_topic in Hi as [Hi _].
  cbn. rewrite He, Hi. split; [done|lia].
Qed.

(** Before the first message, with no relay running. *)
Definition outbox_start (s : OutboxSystem) : Prop :=
  wallet_outbox (os_db s) = ∅ /\ os_relays s = ∅.

Lemma outbox_start_inv s i : outbox_start s -> outbox_inv s /\ single_inv i s.
Proof.
  intros [Ho Hr]. split; [split; [split; [split|..]|]|split]; rewrite ?Ho, ?Hr;
    intros *; rewrite ?lookup_empty; done.
Qed.

(** A row due but not claimed: the claim is full, of rows with smaller ids. *)
Lemma due_left_over skipped limit now m k row :
  (k, row) ∈ due_rows skipped now m -> (k, row) ∉ claimed_rows skipped limit now m ->
  length (claimed_rows skipped limit now m) = Z.to_nat limit /\
  forall x, x ∈ claimed_rows skipped limit now m -> by_outbox_id x (k, row).
Proof.
  assert (Transitive by_outbox_id) by (intros a b c; unfold by_outbox_id; lia).
  assert (Total by_outbox_id) by (intros a b; unfold by_outbox_id; lia).
  assert (StronglySorted by_outbox_id (due_rows skipped now m)) as Hs
    by apply (StronglySorted_merge_sort by_outbox_id).
  unfold claimed_rows. set (n := Z.to_nat limit). revert Hs. generalize (due_rows skipped now m).
  intros l. rewrite <- (take_drop n l) at 1 2. intros Hs [Hin|Hin]%elem_of_app Hout; [done|].
  split.
  - rewrite length_take. assert (n < length l)%nat; [|lia].
    apply Nat.nle_gt. intros Hge. rewrite drop_ge in Hin by lia. by apply elem_of_nil in Hin.
  - intros x Hx. by eapply StronglySorted_app_1_elem_of.
Qed.

(** What the metrics of a relay say of a reachable outbox: every message is counted
    under its status and under no other, none is ready that is not pending, and
    nothing is left to publish exactly when all are counted published. Reading them
    changes nothing, and they are read once an interval has passed. *)
Theorem outbox_metrics_faithful connect settings self s0 s instant now next_metrics_at :
  WalletOutboxRelay_new connect settings = Ok self ->
  outbox_start s0 -> rtc (system_step self) s0 s ->
  (instant < next_metrics_at ->
   emit_metrics_if_due self instant now next_metrics_at (os_db s) = (Ok (next_metrics_at, None), os_db s)) /\
  (next_metrics_at <= instant -> exists metrics alert,
     emit_metrics_if_due self instant now next_metrics_at (os_db s)
     = (Ok (instant + relay_metrics_interval self * second_us, Some (metrics, alert)), os_db s) /\
     let rows := Z.of_nat (size (wallet_outbox (os_db s))) in
     pending_count metrics + processing_count metrics + published_count metrics = rows /\
     ready_count metrics <= pending_count metrics /\
     (published_count metrics = rows <-> unpublished (os_db s) = ∅)).
Proof.
  intros [Ht _]%relay_new_topics [Hinv _]%(fun s => outbox_start_inv s 0) Hs.
  apply (system_inv self Ht _ _ Hs) in Hinv as [[_ Hst _] _]. split; unfold emit_metrics_if_due.
  { intros Hlt%Z.ltb_lt. by rewrite Hlt. }
  intros Hge%Z.ltb_ge. rewrite Hge. eexists _, _. split; [reflexivity|]. cbn zeta. cbn.
  set (m := wallet_outbox (os_db s)) in *.
  set (count p := map_sum (fun (_ : string) row => if p row : bool then 1 else 0) m).
  change (map_sum _ m + map_sum _ m + map_sum _ m) with
    (count (fun row => bool_decide (ob_status row = "PENDING"))
     + count (fun row => bool_decide (ob_status row = "PROCESSING"))
     + count (fun row => bool_decide (ob_status row = "PUBLISHED"))).
  split_and!.
  - unfold count. rewrite !map_sum_add, <- map_sum_one. apply map_sum_ext. intros k row Hk.
    specialize (Hst k row Hk). repeat (apply elem_of_cons in Hst as [->|Hst]; [done|]).
    by apply elem_of_nil in Hst.
  - apply map_sum_le. intros k row _. unfold due. by repeat case_bool_decide; cbn; try case_match.
  - fold (count (fun row => bool_decide (ob_status row = "PUBLISHED"))).
    rewrite <- map_sum_one. split.
    + intros Heq. apply set_eq. intros k. split; [|set_solver].
      intros (row & Hk & Hne)%elem_of_unpublished. exfalso.
      set (rest (_ : string) row := if bool_decide (ob_status row = "PUBLISHED") then 0 else 1).
      assert (map_sum rest m = 0) as H0.
      { assert (count (fun row => bool_decide (ob_status row = "PUBLISHED")) + map_sum rest m
                = map_sum (fun _ _ => 1) m); [|lia].
        unfold count. rewrite map_sum_add. apply map_sum_ext. intros k' row' _. unfold rest.
        by case_bool_decide. }
      assert (rest k row <= map_sum rest m) as Hge1.
      { apply map_sum_ge; [|done]. intros k' row' _. unfold rest. case_bool_decide; lia. }
      unfold rest in Hge1 at 1. rewrite bool_decide_false in Hge1 by done. lia.
    + intros He. apply map_sum_ext. intros k row Hk. case_bool_decide as Hp; [done|].
      assert (k ∈ unpublished (os_db s)) by (apply elem_of_unpublished; eauto). set_solver.
Qed.

(** Claim C10 (safety). Whatever relays crash, stall or run side by side, and
    whatever the wallet enqueues meanwhile, a message marked PUBLISHED is on the
    broker, at the partition and offset its row names; and no message is ever
    lost from the outbox or changed. *)
Theorem outbox_published_on_broker connect settings self s0 s :
  WalletOutboxRelay_new connect settings = Ok self ->
  outbox_start s0 -> rtc (system_step self) s0 s ->
  (forall k row, wallet_outbox (os_db s) !! k = Some row -> ob_status row = "PUBLISHED" ->
     on_broker (os_broker s) row) /\
  forall s', rtc (system_step self) s s' -> rows_kept (os_db s) (os_db s').
Proof.
  intros [Ht _]%relay_new_topics [Hinv _]%(fun s => outbox_start_inv s 0) Hs. split.
  - apply (system_inv self Ht _ _ Hs) in Hinv as [[_ _ Hp] _]. exact Hp.
  - intros s' Hs'. by destruct (system_kept self _ _ Hs').
Qed.

(** A relay that runs alone never touches a message again once
    it has marked it PUBLISHED, however often it crashes. *)
Theorem outbox_published_final connect settings self i s0 s s'
    k row :
  WalletOutboxRelay_new connect settings = Ok self ->
  outbox_start s0 -> rtc (relay_step self i) s0 s ->
  wallet_outbox (os_db s) !! k = Some row -> ob_status row = "PUBLISHED" ->
  rtc (relay_step self i) s s' -> wallet_outbox (os_db s') !! k = Some row.
Proof.
  intros [Ht _]%relay_new_topics [Hinv Hsi]%(fun s => outbox_start_inv s i) Hs Hk Hst Hs'.
  destruct (single_run self Ht i _ _ Hs Hinv Hsi) as (Hinv1 & Hsi1 & _).
  destruct (single_run self Ht i _ _ Hs' Hinv1 Hsi1) as (_ & _ & Hf). by apply Hf.
Qed.

(** Claim C11 (liveness). From every state a lone relay can be in, whatever it was
    doing when it last crashed, it can go on until every message of the outbox
    is published, provided the topics and partitions of the messages exist and
    none has been tried 2^31 - 1 times. *)
Theorem outbox_drains connect settings self i s0 s :
  WalletOutboxRelay_new connect settings = Ok self ->
  outbox_start s0 -> rtc (relay_step self i) s0 s -> can_publish self (os_db s) ->
  exists s', rtc (relay_step self i) s s' /\
    forall k row, wallet_outbox (os_db s') !! k = Some row ->
      ob_status row = "PUBLISHED" /\ on_broker (os_broker s') row.
Proof.
  intros [Ht Hl]%relay_new_topics [Hinv Hsi]%(fun s => outbox_start_inv s i) Hs Hcan.
  set (s1 := mkOutboxSystem (os_db s) (os_broker s) (delete i (os_relays s)) (os_clock s)).
  assert (rtc (relay_step self i) s s1) as Hcrash.
  { eapply rtc_l; [|apply rtc_refl]. destruct s. apply relay_crash. }
  destruct (run_inv self Ht i s0 s1) as [Hinv1 Hsi1]; [by etrans|done|done|].
  destruct (relay_drains self Ht i s1 Hinv1 Hsi1) as (s2 & Hrun & Hall);
    [apply lookup_delete_eq|done|done|].
  exists s2. split; [by etrans|]. intros k row Hk. split; [by eapply Hall|].
  destruct (run_inv self Ht i s1 s2 Hrun Hinv1 Hsi1) as [[[_ _ Hp] _] _].
  by eapply Hp, Hall.
Qed.

(** A claim takes the due, unlocked messages with the
    smallest ids, as many as the limit allows, each once; it makes them
    PROCESSING with one more attempt and leaves every other row as it is. *)
Theorem claim_outbox_messages_functional skipped returning limit now db messages db' :
  outbox_ids db -> (forall l, returning l ≡ₚ l) -> 0 <= limit ->
  claim_outbox_messages skipped returning limit now db = (Ok messages, db') ->
  let keys := om_dedupe_key <$> messages in
  NoDup keys /\ Z.of_nat (length messages) <= limit /\
  (forall k row, wallet_outbox db !! k = Some row ->
     wallet_outbox db' !! k = Some (if decide (k ∈ keys) then row_claimed now row else row)) /\
  (forall k, k ∈ keys -> exists row, wallet_outbox db !! k = Some row /\
     due now row = true /\ skipped (ob_outbox_id row) = false) /\
  (forall k row, wallet_outbox db !! k = Some row -> due now row = true ->
     skipped (ob_outbox_id row) = false -> k ∉ keys ->
     Z.of_nat (length messages) = limit /\
     forall m, m ∈ messages -> om_outbox_id m <= ob_outbox_id row).
Proof.
  intros Hids Hret Hlim [-> ->]%claim_ok. cbn zeta.
  set (claimed := claimed_rows _ _ _ _).
  assert (om_dedupe_key <$> returning (claimed_messages now claimed) ≡ₚ claimed.*1) as Hkeys
    by by rewrite Hret, claimed_messages_keys.
  assert (length (returning (claimed_messages now claimed)) = length claimed) as Hlen
    by (rewrite Hret; apply length_map).
  assert (length claimed <= Z.to_nat limit)%nat as Hle.
  { unfold claimed, claimed_rows. rewrite length_take. apply Nat.le_min_l. }
  split_and!.
  - rewrite Hkeys. apply claimed_rows_keys.
  - lia.
  - intros k row Hk. rewrite updated_lookup, Hk. cbn. f_equal.
    destruct (is_claimed claimed row) eqn:E; case_decide as Hin; rewrite Hkeys in Hin; try done.
    + apply (claimed_only_due _ _ _ _ k row Hids Hk) in E as [E _].
      by apply (list_elem_of_fmap_2 fst) in E.
    + apply list_elem_of_fmap in Hin as ([k' row'] & -> & Hin). cbn in *.
      pose proof Hin as (Hk' & _)%claimed_row_in. simplify_eq.
      apply is_claimed_in in Hin. congruence.
  - intros k. rewrite Hkeys. intros ([k' row] & -> & Hin)%list_elem_of_fmap. cbn.
    apply claimed_row_in in Hin. eauto.
  - intros k row Hk Hd Hs. rewrite Hkeys. intros Hout.
    destruct (due_left_over skipped limit now (wallet_outbox db) k row) as [Hfull Hle'].
    + by apply elem_of_due_rows.
    + intros Hin. by apply (list_elem_of_fmap_2 fst) in Hin.
    + split; [fold claimed in Hfull; lia|].
      intros m. rewrite Hret. intros ([k' row'] & -> & Hin)%list_elem_of_fmap.
      exact (Hle' _ Hin).
Qed.
End Theorems.
