(* ===== verification/WalletQueue.v ===== *)
(** * WalletQueue: the wallet's consumers

    [apps/wallet/src/redpanda.rs]: the wallet commands an engine event stands
    for, where replies go, and one turn of each of the two consumer loops, whose
    effects reach the database and the reply topic one after the other, outside
    any common transaction. *)

From S2P Require Import Prelude Protocol Postgres WalletDb WalletRepository WalletProcessor.
From S2P Require Import WalletOutbox.

(** ** Commands of an engine event *)

Definition release_reservation_command (reservation_id : string) (amount : Z) (reason : string)
    : list EngineWalletCommand :=
  if amount <=? 0 then []
  else [EngineWalletCommand_ReleaseReservation
          (mkReleaseReservation reservation_id amount reason)].

Definition settle_command (fill_id : Z) (settlement : TradeSettlement) : EngineWalletCommand :=
  EngineWalletCommand_SettleTrade
    (mkSettleTrade fill_id (ts_reservation_id settlement) (ts_debit_asset settlement)
       (ts_debit_amount settlement) (ts_credit_asset settlement) (ts_credit_amount settlement)).

Definition fee_reference_id (fill_id : Z) (index : nat) (fee : FeeDelta) : string :=
  "fill:" +:+ to_string fill_id +:+ ":fee:" +:+ to_string (Z.of_nat index) +:+ ":"
  +:+ to_string (fd_user_id fee) +:+ ":" +:+ fd_fee_type fee.
Definition fee_command (fill_id : Z) (index : nat) (fee : FeeDelta) : EngineWalletCommand :=
  EngineWalletCommand_ApplyAccountDelta
    (mkApplyAccountDelta (fd_user_id fee) (fd_asset fee) (i64_wrap (- fd_amount fee)) 0
       "TRADE_FEE" (fee_reference_id fill_id index fee)).

Definition funding_event_reference (event : FundingPaymentApplied) : string :=
  match fpa_engine_event_id event with
  | Some id => id
  | None => "funding:" +:+ to_string (fpa_market_id event) +:+ ":"
              +:+ to_string (fpa_engine_sequence event)
  end.
Definition funding_command (event_reference : string) (index : nat) (payment : FundingPayment)
    : EngineWalletCommand :=
  EngineWalletCommand_ApplyAccountDelta
    (mkApplyAccountDelta (fp_user_id payment) (fp_asset payment) (fp_amount payment) 0
       "FUNDING_PAYMENT"
       (event_reference +:+ ":payment:" +:+ to_string (Z.of_nat index) +:+ ":"
        +:+ fp_position_id payment)).

Definition engine_wallet_commands_from_engine_event (event : EngineEvent)
    : list EngineWalletCommand :=
  match event with
  | EngineEvent_OrderCancelled event =>
      release_reservation_command (oc_reservation_id event) (oc_released_amount event)
        ("order_cancelled:" +:+ to_string (oc_order_id event))
  | EngineEvent_OrderExpired event =>
      release_reservation_command (oe_reservation_id event) (oe_released_amount event)
        ("order_expired:" +:+ to_string (oe_order_id event) +:+ ":" +:+ oe_reason event)
  | EngineEvent_ReservationReleased event =>
      release_reservation_command (rrl_reservation_id event) (rrl_released_amount event)
        ("reservation_released:" +:+ rrl_reason event)
  | EngineEvent_TradeExecuted event =>
      map (settle_command (te_fill_id event)) (te_settlements event)
      ++ imap (fee_command (te_fill_id event)) (te_fee_deltas event)
  | EngineEvent_FundingPaymentApplied event =>
      imap (funding_command (funding_event_reference event)) (fpa_payments event)
  | EngineEvent_AccountDelta event =>
      [EngineWalletCommand_ApplyAccountDelta
         (mkApplyAccountDelta (ad_user_id event) (ad_asset event) (ad_total_delta event)
            (ad_locked_delta event) "ACCOUNT_DELTA" (ad_account_delta_id event))]
  | EngineEvent_OrderOpened _ | EngineEvent_OrderBookDelta _ | EngineEvent_MarkPriceUpdated _
  | EngineEvent_FundingRateUpdated _ | EngineEvent_PositionChanged _
  | EngineEvent_RiskStateUpdated _ | EngineEvent_LiquidationStarted _
  | EngineEvent_LiquidationExecuted _ | EngineEvent_LiquidationCompleted _
  | EngineEvent_AdlExecuted _ => []
  end.

(** ** Where replies go *)

Record CommandMetadata := mkCommandMetadata {
  wallet_key : string;
  reply_key : string;
  reply_partition : option Z
}.

Definition metadata_of_envelope (envelope : CommandEnvelope) : CommandMetadata :=
  mkCommandMetadata (to_string (env_user_id envelope)) (env_request_id envelope)
    (Some (env_reply_partition envelope)).
Definition metadata_of_release (command : ReleaseReservation) : CommandMetadata :=
  mkCommandMetadata (rr_reservation_id command) (rr_reservation_id command) None.
Definition metadata_of_settle (command : SettleTrade) : CommandMetadata :=
  mkCommandMetadata (st_reservation_id command) (to_string (st_fill_id command)) None.

Definition from_command (command : WalletCommand) : CommandMetadata :=
  match command with
  | WalletCommand_PlaceOrderIntent command => metadata_of_envelope (poi_envelope command)
  | WalletCommand_CancelOrderIntent command => metadata_of_envelope (coi_envelope command)
  | WalletCommand_Deposit command => metadata_of_envelope (dep_envelope command)
  | WalletCommand_Withdraw command => metadata_of_envelope (wdr_envelope command)
  | WalletCommand_ReleaseReservation command => metadata_of_release command
  | WalletCommand_SettleTrade command => metadata_of_settle command
  end.

Definition from_engine_wallet_command (command : EngineWalletCommand) : CommandMetadata :=
  match command with
  | EngineWalletCommand_ReleaseReservation command => metadata_of_release command
  | EngineWalletCommand_SettleTrade command => metadata_of_settle command
  | EngineWalletCommand_ApplyAccountDelta command =>
      mkCommandMetadata (to_string (apd_user_id command)) (apd_reference_id command) None
  end.

(** The idempotency key the log of the command consumer names. *)
Definition command_idempotency_key (command : WalletCommand) : option string :=
  match command with
  | WalletCommand_PlaceOrderIntent command => Some (env_idempotency_key (poi_envelope command))
  | WalletCommand_CancelOrderIntent command => Some (env_idempotency_key (coi_envelope command))
  | WalletCommand_Deposit command => Some (env_idempotency_key (dep_envelope command))
  | WalletCommand_Withdraw command => Some (env_idempotency_key (wdr_envelope command))
  | WalletCommand_ReleaseReservation _ | WalletCommand_SettleTrade _ => None
  end.

(** ** One turn of a consumer *)

Section WithSerde.
Context {SD : Serde}.

Record ReplyRecord := mkReplyRecord {
  rep_partition : Z;
  rep_key : string;
  rep_value : Value
}.

(** The database and the reply topic, in the order its records were produced. *)
Record QueueState := mkQueueState {
  qs_db : WalletDb;
  qs_replies : list ReplyRecord
}.

Inductive WalletError :=
| WalletError_Worker (error : WalletRepositoryError)
| WalletError_Queue (error : QueueError)
| WalletError_Serialize.

Definition QM (A : Type) : Type := M QueueState WalletError A.

(** A call of the worker: [worker.rs] wraps the repository's error. *)
Definition on_db {A} (m : Db A) : QM A := fun s =>
  match m (qs_db s) with
  | (Ok a, db') => (Ok a, mkQueueState db' (qs_replies s))
  | (Err e, db') => (Err (WalletError_Worker e), mkQueueState db' (qs_replies s))
  end.

(** What the broker does with a record: it acknowledges it, or it fails, having
    kept the record or not. *)
Inductive ProduceOutcome :=
| Acknowledged
| FailedWritten (error : string)
| FailedLost (error : string).

Variable produce : list ReplyRecord -> ReplyRecord -> ProduceOutcome.
Variable wallet_replies_topic : TopicProducer.

Definition produce_reply (record : ReplyRecord) : QM unit := fun s =>
  match produce (qs_replies s) record with
  | Acknowledged => (Ok tt, mkQueueState (qs_db s) (qs_replies s ++ [record]))
  | FailedWritten error => (Err (WalletError_Queue (QueueError_Producer error)),
                            mkQueueState (qs_db s) (qs_replies s ++ [record]))
  | FailedLost error => (Err (WalletError_Queue (QueueError_Producer error)), s)
  end.

Definition publish_reply (metadata : CommandMetadata) (reply : WalletReply) : QM unit :=
  match reply_partition metadata with
  | None => throw (WalletError_Queue (QueueError_MissingReplyPartition (reply_key metadata)))
  | Some partition =>
      match reply_to_value reply with
      | None => throw WalletError_Serialize
      | Some value =>
          match producer_for_partition wallet_replies_topic partition with
          | Err e => throw (WalletError_Queue e)
          | Ok p => produce_reply (mkReplyRecord p (reply_key metadata) value)
          end
      end
  end.

Definition publish_result (metadata : CommandMetadata) (result : WalletProcessResult) : QM unit :=
  for_each (wallet_replies result) (publish_reply metadata).

Variable self : WalletProcessor.

(** [run_command_partition] on one record. *)
Definition handle_wallet_command_record (parse : string -> option WalletCommand) (d : Draw)
    (topic : string) (partition offset : Z) (value : option string) : QM unit :=
  let record_next_offset := i64_wrap (offset + 1) in
  match value with
  | None => on_db (save_queue_offset topic partition record_next_offset)
  | Some payload =>
      match parse payload with
      | None => on_db (save_queue_offset topic partition record_next_offset)
      | Some command =>
          let metadata := from_command command in
          let* result := on_db (process_command self d command) in
          do* publish_result metadata result in
          on_db (save_queue_offset topic partition record_next_offset)
      end
  end.

(** The loop over the commands of one event; each has draws of its own. *)
Fixpoint run_engine_commands (draws : nat -> Draw) (commands : list EngineWalletCommand)
    : QM unit :=
  match commands with
  | [] => ret tt
  | command :: rest =>
      let metadata := from_engine_wallet_command command in
      let* result := on_db (process_engine_command self (draws 0%nat) command) in
      do* publish_result metadata result in
      run_engine_commands (fun n => draws (S n)) rest
  end.

(** [run_engine_event_partition] on one record. *)
Definition handle_wallet_engine_record (parse : string -> option EngineEvent)
    (draws : nat -> Draw) (topic : string) (partition offset : Z) (value : option string)
    : QM unit :=
  let record_next_offset := i64_wrap (offset + 1) in
  match value with
  | None => on_db (save_queue_offset topic partition record_next_offset)
  | Some payload =>
      match parse payload with
      | None => on_db (save_queue_offset topic partition record_next_offset)
      | Some event =>
          do* run_engine_commands draws (engine_wallet_commands_from_engine_event event) in
          on_db (save_queue_offset topic partition record_next_offset)
      end
  end.
End WithSerde.
