(* ===== verification/WalletQueueTheorems.v ===== *)
(** * WalletQueueTheorems: what the wallet's consumers guarantee

    Replies always have somewhere to go, a command delivered again is answered
    again with the same record and nothing else, the commands of one event never
    hide one another; and two events the consumer cannot get past. *)

From S2P Require Import Prelude Protocol Broker Postgres WalletDb WalletRepository WalletProcessor.
From S2P Require Import WalletSpec WalletStatements WalletRefinement WalletHandlers WalletRuns.
From S2P Require Import WalletErrors WalletTotal WalletTheorems WalletOutbox WalletOutboxTheorems WalletQueue.

(** ** References *)

Lemma colon_split s1 t1 s2 t2 :
  free_of colon s1 -> free_of colon s2 -> s1 +:+ ":" +:+ t1 = s2 +:+ ":" +:+ t2 ->
  s1 = s2 /\ t1 = t2.
Proof. apply separator_inj. Qed.

Lemma number_split z1 t1 z2 t2 :
  to_string z1 +:+ ":" +:+ t1 = to_string z2 +:+ ":" +:+ t2 -> z1 = z2 /\ t1 = t2.
Proof.
  intros [E ->]%colon_split; try apply to_string_free_of_colon.
  split; [by apply to_string_inj|done].
Qed.

(** The last number of a reference, past a prefix. *)
Lemma fee_reference_inj f1 i1 fee1 f2 i2 fee2 :
  fee_reference_id f1 i1 fee1 = fee_reference_id f2 i2 fee2 ->
  f1 = f2 /\ i1 = i2 /\ fd_user_id fee1 = fd_user_id fee2 /\ fd_fee_type fee1 = fd_fee_type fee2.
Proof.
  unfold fee_reference_id. intros H%string_app_inj_l.
  change (":fee:" +:+ ?t) with (":" +:+ ("fee:" +:+ t)) in H.
  apply number_split in H as [-> H]. apply string_app_inj_l in H.
  apply number_split in H as [Hi H]. apply number_split in H as [? ?].
  split_and!; [done|lia|done|done].
Qed.

Lemma funding_reference_inj r i1 p1 i2 p2 :
  r +:+ ":payment:" +:+ to_string (Z.of_nat i1) +:+ ":" +:+ p1
  = r +:+ ":payment:" +:+ to_string (Z.of_nat i2) +:+ ":" +:+ p2 -> i1 = i2.
Proof. intros H%string_app_inj_l%string_app_inj_l. apply number_split in H as [? _]. lia. Qed.

(** The references of the account deltas among some commands. *)
Definition delta_references (commands : list EngineWalletCommand) : list string :=
  omap (fun c => match c with
                 | EngineWalletCommand_ApplyAccountDelta d => Some (apd_reference_id d)
                 | _ => None
                 end) commands.

Lemma delta_references_app l1 l2 :
  delta_references (l1 ++ l2) = delta_references l1 ++ delta_references l2.
Proof. apply omap_app. Qed.

Lemma imap_references_nodup {A} (f : nat -> A -> EngineWalletCommand) (ref : nat -> A -> string) l :
  (forall i a, exists u s t c k, f i a
     = EngineWalletCommand_ApplyAccountDelta (mkApplyAccountDelta u s t c k (ref i a))) ->
  (forall i1 a1 i2 a2, ref i1 a1 = ref i2 a2 -> i1 = i2) ->
  NoDup (delta_references (imap f l)).
Proof.
  intros Hf Hinj.
  assert (delta_references (imap f l) = imap ref l) as ->.
  { clear Hinj. revert f ref Hf. induction l as [|a l IH]; intros f ref Hf; [done|].
    unfold delta_references in *. cbn [imap]. cbn [omap list_omap].
    destruct (Hf 0%nat a) as (u & s & t & c & k & ->). f_equal.
    apply (IH (f ∘ S) (ref ∘ S)). intros i a'. apply Hf. }
  apply NoDup_alt. intros i j x Hi Hj.
  rewrite list_lookup_imap in Hi, Hj.
  destruct (l !! i) as [a|] eqn:E1; [|done]. destruct (l !! j) as [b|] eqn:E2; [|done].
  cbn in *. simplify_eq. by eapply Hinj.
Qed.

(** The account deltas of one engine event have pairwise
    distinct references, so none of them is taken for another and dropped by the
    wallet's ledger; and fees of different fills never share a reference. *)
Theorem engine_event_deltas_distinct :
  (forall event, NoDup (delta_references (engine_wallet_commands_from_engine_event event))) /\
  (forall fill1 i1 fee1 fill2 i2 fee2,
     fee_reference_id fill1 i1 fee1 = fee_reference_id fill2 i2 fee2 ->
     fill1 = fill2 /\ i1 = i2 /\ fd_user_id fee1 = fd_user_id fee2).
Proof.
  split.
  - assert (forall rid amount reason,
      NoDup (delta_references (release_reservation_command rid amount reason))) as Hrel.
    { intros. unfold release_reservation_command. case_if; constructor. }
    intros [| | | |te| | | |fp| | | | | | |ad]; try apply Hrel; try constructor.
    + cbn [engine_wallet_commands_from_engine_event]. rewrite delta_references_app.
      assert (delta_references (map (settle_command (te_fill_id te)) (te_settlements te)) = []) as ->
        by by induction (te_settlements te).
      apply (imap_references_nodup _ (fee_reference_id (te_fill_id te))).
      * intros i a. unfold fee_command. by eauto 10.
      * by intros i1 a1 i2 a2 (_ & ? & _)%fee_reference_inj.
    + apply (imap_references_nodup _ (fun i p => funding_event_reference fp +:+ ":payment:"
        +:+ to_string (Z.of_nat i) +:+ ":" +:+ fp_position_id p)).
      * intros i a. unfold funding_command. by eauto 10.
      * intros i1 a1 i2 a2. apply funding_reference_inj.
    + by apply not_elem_of_nil.
    + constructor.
  - intros. by apply fee_reference_inj in H as (? & ? & ? & _).
Qed.

(** ** Partitions *)

Lemma fnv1a_range key : 0 <= fnv1a key < 2 ^ 64.
Proof.
  unfold fnv1a. assert (forall l h, 0 <= h < 2 ^ 64 ->
    0 <= foldl (fun hash byte => u64_wrap (Z.lxor hash byte * 1099511628211)) h l < 2 ^ 64) as H;
    [|by apply H].
  induction l as [|b l IH]; cbn [foldl]; intros h Hh; [done|]. apply IH.
  unfold u64_wrap. by apply Z.mod_pos_bound.
Qed.

(** Hashing a key never leaves the 64-bit range and always
    picks one of the partitions the broker listed: publishing by key cannot run
    off the producers, whatever the key. *)
Theorem producer_for_key_total cluster topics topic producer key :
  TopicProducer_new cluster topics topic = Ok producer ->
  0 <= fnv1a key < 2 ^ 64 /\
  exists partition partitions, producer_for_key producer key = Some partition /\
    List.In (topic, partitions) topics /\ partition ∈ partitions.
Proof.
  intros [_ H]%topic_producer_topic. split; [apply fnv1a_range|].
  apply partitions_in_ok in H as [E Hin%list_elem_of_In].
  unfold producer_for_key, stable_partition. revert E Hin. generalize (tp_producers producer).
  intros ps E Hin.
  assert (0 < Z.of_nat (length ps)) as Hlen by (destruct ps; cbn; [done|lia]).
  pose proof (Z.mod_pos_bound (fnv1a key) _ Hlen).
  destruct (lookup_lt_is_Some_2 ps (Z.to_nat (fnv1a key mod Z.of_nat (length ps)))) as [p Hp];
    [lia|]. exists p, ps. split_and!; [done|done|]. by eapply list_elem_of_lookup_2.
Qed.

Section WithSerde.
Context {SD : Serde}.
Implicit Types (db : WalletDb) (s : QueueState).

(** ** Calls of the worker *)

Lemma on_db_ok {A} (m : Db A) s a s' :
  on_db m s = (Ok a, s') -> m (qs_db s) = (Ok a, qs_db s') /\ qs_replies s' = qs_replies s.
Proof. unfold on_db. destruct (m (qs_db s)) as [[]]; intros [= <- <-]. done. Qed.

Lemma on_db_err {A} (m : Db A) s e s' :
  on_db m s = (Err e, s') -> exists e', e = WalletError_Worker e' /\
    m (qs_db s) = (Err e', qs_db s') /\ qs_replies s' = qs_replies s.
Proof. unfold on_db. destruct (m (qs_db s)) as [[]]; intros [= <- <-]. eauto. Qed.

Lemma on_db_run {A} (m : Db A) s a db' :
  m (qs_db s) = (Ok a, db') -> on_db m s = (Ok a, mkQueueState db' (qs_replies s)).
Proof. unfold on_db. by intros ->. Qed.

Lemma on_db_run_err {A} (m : Db A) s e db' :
  m (qs_db s) = (Err e, db') ->
  on_db m s = (Err (WalletError_Worker e), mkQueueState db' (qs_replies s)).
Proof. unfold on_db. by intros ->. Qed.

(** ** Replies have somewhere to go *)

Lemma engine_commands_reply_nothing self d command db res db' :
  process_engine_command self d command db = (Ok res, db') -> wallet_replies res = [].
Proof.
  intros H. destruct command; cbn [process_engine_command] in H.
  - rewrite process_release_unfold in H. cbn zeta in H. by inv_m H.
  - rewrite process_settle_unfold in H. cbn zeta in H. by inv_m H.
  - rewrite process_account_delta_unfold in H. cbn zeta in H. by inv_m H.
Qed.

Lemma replies_have_partition self d command db res db' :
  process_command self d command db = (Ok res, db') ->
  wallet_replies res = [] \/ is_Some (reply_partition (from_command command)).
Proof.
  intros H. destruct command; try (right; cbn; by eauto); left.
  - by apply (engine_commands_reply_nothing self d
      (EngineWalletCommand_ReleaseReservation payload)) in H.
  - by apply (engine_commands_reply_nothing self d (EngineWalletCommand_SettleTrade payload)) in H.
Qed.

Variable produce : list ReplyRecord -> ReplyRecord -> ProduceOutcome.
Variable topic_producer : TopicProducer.

Definition missing_partition (e : WalletError) : Prop :=
  exists key, e = WalletError_Queue (QueueError_MissingReplyPartition key).

Lemma publish_result_err metadata res s e s' :
  wallet_replies res = [] \/ is_Some (reply_partition metadata) ->
  publish_result produce topic_producer metadata res s = (Err e, s') ->
  qs_db s' = qs_db s /\ ~ missing_partition e.
Proof.
  unfold publish_result. intros Hp. assert (forall reply s e s',
    is_Some (reply_partition metadata) ->
    publish_reply produce topic_producer metadata reply s = (Err e, s') ->
    qs_db s' = qs_db s /\ ~ missing_partition e) as Hone.
  { intros reply s0 e0 s0' [p Hs]. unfold publish_reply, produce_reply. rewrite Hs.
    destruct (reply_to_value reply); [|by intros [= <- <-]; split; [|intros [? ?]]].
    unfold producer_for_partition. destruct (List.find _ _);
      [|by intros [= <- <-]; split; [|intros [? ?]]].
    destruct (produce _ _); intros [= <- <-]; (split; [done|by intros [? ?]]). }
  destruct Hp as [->|Hp]; [done|]. revert s. induction (wallet_replies res) as [|r l IH];
    cbn [for_each]; intros s H; [done|].
  apply bind_err in H as [H|(u & s1 & H1 & H)]; [by eapply Hone|].
  assert (qs_db s1 = qs_db s) as <-; [|by apply IH].
  unfold publish_reply, throw, produce_reply in H1. destruct Hp as [p Hp]. rewrite Hp in H1.
  destruct (reply_to_value r); [|done]. destruct (producer_for_partition _ _); [|done].
  destruct (produce _ _); by simplify_eq.
Qed.

Lemma engine_commands_replies self draws commands s r s' :
  run_engine_commands produce topic_producer self draws commands s = (r, s') ->
  (forall e, r = Err e -> ~ missing_partition e) /\ qs_replies s' = qs_replies s.
Proof.
  revert draws s. induction commands as [|c commands IH]; intros draws s H.
  { by injection H as <- <-. }
  cbn [run_engine_commands] in H. cbn zeta in H. unfold bind at 1 in H.
  destruct (on_db _ s) as [[res|e] s1] eqn:E.
  - apply on_db_ok in E as [E <-]. apply engine_commands_reply_nothing in E.
    unfold publish_result in H. rewrite E in H. by apply IH in H.
  - injection H as <- <-. apply on_db_err in E as (? & -> & _ & ?). split; [|done].
    intros ? [= <-]. by intros [? ?].
Qed.

(** ** What the wallet handles leaves the offsets of its consumers alone *)

Definition offsets_kept db db' : Prop := wallet_queue_offsets db' = wallet_queue_offsets db.

Lemma upsert_keeps_offsets k b guard : keeps wallet_queue_offsets (upsert_collateral k b guard).
Proof. unfold upsert_collateral, write_collateral, check_user. keep. Qed.
#[local] Hint Resolve upsert_keeps_offsets : keeps.
Lemma update_keeps_offsets k guard set : keeps wallet_queue_offsets (update_collateral k guard set).
Proof. unfold update_collateral, write_collateral. keep. Qed.
#[local] Hint Resolve update_keeps_offsets : keeps.
Lemma update_reservation_keeps_offsets rid remaining status :
  keeps wallet_queue_offsets (update_reservation rid remaining status).
Proof. unfold update_reservation. keep. Qed.
#[local] Hint Resolve update_reservation_keeps_offsets : keeps.
Lemma insert_ledger_keeps_offsets user asset amount kind ref :
  keeps wallet_queue_offsets (insert_ledger_in_tx user asset amount kind ref).
Proof. unfold insert_ledger_in_tx, check_user. keep. Qed.
#[local] Hint Resolve insert_ledger_keeps_offsets : keeps.
Lemma enqueue_keeps_offsets now ms : keeps wallet_queue_offsets (enqueue_outbox_messages_in_tx now ms).
Proof.
  unfold enqueue_outbox_messages_in_tx, insert_outbox, next_outbox_id, outbox_duplicate_matches.
  keep.
Qed.
#[local] Hint Resolve enqueue_keeps_offsets : keeps.

Lemma release_keeps_offsets now release builder :
  keeps wallet_queue_offsets (release_reservation_with_outbox now release builder).
Proof.
  unfold release_reservation_with_outbox, reservation_in_tx, unlock_collateral. keep.
Qed.
#[local] Hint Resolve release_keeps_offsets : keeps.

Lemma settle_keeps_offsets now settle builder :
  keeps wallet_queue_offsets (settle_trade_with_outbox now settle builder).
Proof.
  unfold settle_trade_with_outbox, reservation_in_tx, apply_settlement_effect,
    unlock_collateral, debit_locked_collateral, credit_collateral. keep.
Qed.
#[local] Hint Resolve settle_keeps_offsets : keeps.

Lemma delta_keeps_offsets now delta builder :
  keeps wallet_queue_offsets (apply_account_delta_with_outbox now delta builder).
Proof.
  unfold apply_account_delta_with_outbox, insert_ledger_once, check_user, delta_collateral. keep.
Qed.
#[local] Hint Resolve delta_keeps_offsets : keeps.

(** Whatever an engine event has the wallet do, no offset moves with it. *)
Lemma engine_command_keeps_offsets self d command :
  keeps wallet_queue_offsets (process_engine_command self d command).
Proof.
  destruct command; cbn [process_engine_command];
    [unfold process_release_reservation|unfold process_settle_trade
    |unfold process_account_delta]; keep.
Qed.

(** ** How far an event gets *)

(** The commands of an event that the wallet has committed, one after the other. *)
Inductive commands_committed (self : WalletProcessor)
    : (nat -> Draw) -> list EngineWalletCommand -> WalletDb -> WalletDb -> Prop :=
| committed_nil draws db : commands_committed self draws [] db db
| committed_cons draws command commands db res db1 db2 :
    process_engine_command self (draws 0%nat) command db = (Ok res, db1) ->
    commands_committed self (fun n => draws (S n)) commands db1 db2 ->
    commands_committed self draws (command :: commands) db db2.

(** The loop over an event's commands commits them up to the first that fails, and
    then is the error of that one; no reply is sent either way. *)
Lemma engine_commands_prefix self draws commands s r s' :
  run_engine_commands produce topic_producer self draws commands s = (r, s') ->
  exists committed rest db1,
    commands = committed ++ rest /\ commands_committed self draws committed (qs_db s) db1 /\
    offsets_kept (qs_db s) (qs_db s') /\ qs_replies s' = qs_replies s /\
    match rest with
    | [] => r = Ok tt /\ qs_db s' = db1
    | command :: _ => exists e,
        process_engine_command self (draws (length committed)) command db1 = (Err e, qs_db s') /\
        r = Err (WalletError_Worker e) /\ qs_db s' = set_outbox_seq (outbox_seq (qs_db s')) db1
    end.
Proof.
  revert draws s. induction commands as [|c commands IH]; intros draws s H.
  { injection H as <- <-. exists [], [], (qs_db s). split_and!; by constructor. }
  cbn [run_engine_commands] in H. cbn zeta in H. unfold bind at 1 in H.
  destruct (on_db _ s) as [[res|e] s1] eqn:E.
  - apply on_db_ok in E as [E Hr]. pose proof (engine_commands_reply_nothing _ _ _ _ _ _ E) as Hno.
    unfold publish_result in H. rewrite Hno in H.
    destruct (IH _ _ H) as (committed & rest & db1 & -> & Hc & Ho & Hr' & Hm).
    exists (c :: committed), rest, db1. split_and!; [done|by econstructor| |congruence|exact Hm].
    pose proof (engine_command_keeps_offsets self (draws 0%nat) c (qs_db s)) as Hk.
    rewrite E in Hk. unfold offsets_kept in *. cbn in Hk. by rewrite <- Hk.
  - injection H as <- <-. apply on_db_err in E as (e' & -> & E & Hr).
    pose proof (process_input_err self (draws 0%nat) (InEngine c) _ _ _ E) as Hst.
    exists [], (c :: commands), (qs_db s).
    split_and!; [done|constructor|unfold offsets_kept; by rewrite Hst|done|].
    exists e'. by split_and!.
Qed.

(** No consumer ever stops for want of a reply partition: what
    has none also has no replies. Engine events publish no reply at all. *)
Theorem reply_partition_never_missing self parse parse_event d draws topic partition offset value
    s r s' :
  (handle_wallet_command_record produce topic_producer self parse d topic partition offset value s
     = (r, s') -> forall e, r = Err e -> ~ missing_partition e) /\
  (handle_wallet_engine_record produce topic_producer self parse_event draws topic partition
     offset value s = (r, s') -> (forall e, r = Err e -> ~ missing_partition e) /\
     qs_replies s' = qs_replies s).
Proof.
  assert (forall topic partition n s r s', on_db (save_queue_offset topic partition n) s = (r, s') ->
    (forall e, r = Err e -> ~ missing_partition e) /\ qs_replies s' = qs_replies s) as Hsave.
  { intros t p n s0 [u|e] s0' H.
    - apply on_db_ok in H as [_ ?]. by split.
    - apply on_db_err in H as (? & -> & _ & ?). split; [|done]. intros ? [= <-]. by intros [? ?]. }
  split; [unfold handle_wallet_command_record|unfold handle_wallet_engine_record];
    (destruct value as [payload|]; [|by apply Hsave]).
  - destruct (parse payload) as [c|]; [|by apply Hsave]. intros H e ->. cbn zeta in H.
    apply bind_err in H as [H|(res & s1 & H1 & H)].
    + apply on_db_err in H as (? & -> & _). by intros [? ?].
    + apply on_db_ok in H1 as [H1%replies_have_partition _].
      apply bind_err in H as [H|(? & s2 & _ & H)]; [by destruct (publish_result_err _ _ _ _ _ H1 H)|].
      by apply (Hsave _ _ _ _ _ _ H).
  - destruct (parse_event payload) as [ev|]; [|by apply Hsave]. intros H.
    unfold bind in H. destruct (run_engine_commands _ _ _ _ _ s) as [[u|e] s1] eqn:E;
      apply engine_commands_replies in E as [He <-].
    + by apply Hsave in H.
    + injection H as <- <-. by split.
Qed.

(** ** Whatever happens in between *)

(** The wallet's database between two turns of a consumer: other commands and
    engine events are handled, offsets are saved. *)
Definition wallet_moves (self : WalletProcessor) db db' : Prop :=
  wallet_step self db db' \/
  exists topic partition n r, save_queue_offset topic partition n db = (r, db').

Lemma save_offset_frame topic partition n db r db' :
  save_queue_offset topic partition n db = (r, db') ->
  books db' = books db /\ wallet_idempotency db' = wallet_idempotency db /\
  wallet_outbox db' = wallet_outbox db.
Proof.
  unfold save_queue_offset, bind, gets. destruct (upsert_offset _ _ _ _); by intros [= _ <-].
Qed.

Lemma wallet_moves_ok self db db' :
  rtc (wallet_moves self) db db' -> books_ok (books db) -> books_ok (books db').
Proof.
  induction 1 as [|db1 db2 db3 [Hs|(? & ? & ? & ? & (Hb & _)%save_offset_frame)] _ IH]; [done|..];
    intros Hok; apply IH; [by eapply wallet_step_ok|by rewrite Hb].
Qed.

Lemma wallet_moves_kept self db db' :
  rtc (wallet_moves self) db db' -> books_ok (books db) -> replies_kept db db'.
Proof.
  induction 1 as [|db1 db2 db3 [Hs|(? & ? & ? & ? & (Hb & Hi & _)%save_offset_frame)] _ IH];
    intros Hok; [by intros u t k v|..]; intros u t k v Hv; apply IH.
  - by eapply wallet_step_ok.
  - by eapply wallet_step_kept.
  - by rewrite Hb.
  - unfold stored_reply in *. by rewrite Hi.
Qed.

Lemma wallet_moves_evolve self db db' rid r :
  rtc (wallet_moves self) db db' -> books_ok (books db) ->
  wallet_reservations db !! rid = Some r ->
  exists r', wallet_reservations db' !! rid = Some r' /\ reservation_evolves r r'.
Proof.
  intros Hs. revert r.
  induction Hs as [|db1 db2 db3 [Hs|(? & ? & ? & ? & (Hb & _)%save_offset_frame)] _ IH];
    intros r Hok Hr; [eauto using reservation_evolves_refl|..].
  - destruct (wallet_step_evolves _ _ _ _ _ Hs Hok Hr) as (r2 & Hr2 & ?).
    destruct (IH r2) as (r3 & ? & ?); [by eapply wallet_step_ok|done|].
    eauto using reservation_evolves_trans.
  - apply IH; [by rewrite Hb|]. change (bk_res (books db2) !! rid = Some r). by rewrite Hb.
Qed.

(** Claim C12 (safety). A wallet command that carries an idempotency key -- an order,
    a cancellation, a deposit or a withdrawal; releases and settlements have none --
    delivered again, after a crash anywhere past its transaction or in another
    record, with a broker that acknowledges and has the partition of its replies, is
    answered with the very same reply, to the same partition under the
    same key, and the only change to the wallet's database is that the consumer's
    offset is moved past the record. *)
Theorem wallet_command_redelivered {LAWS : SerdeLaws} self parse c k d d' db db1 res topic partition
    offset payload p s :
  books_ok (books db) -> command_key c = Some k ->
  process_command self d c db = (Ok res, db1) ->
  rtc (wallet_moves self) db1 (qs_db s) ->
  parse payload = Some c -> 0 <= offset < i64_max ->
  (forall replies record, produce replies record = Acknowledged) ->
  reply_partition (from_command c) = Some p -> p ∈ tp_producers topic_producer ->
  exists reply value s', wallet_replies res = [reply] /\ reply_to_value reply = Some value /\
    handle_wallet_command_record produce topic_producer self parse d' topic partition offset
      (Some payload) s = (Ok tt, s') /\
    qs_replies s' = qs_replies s ++ [mkReplyRecord p (command_request_id c) value] /\
    exists t, upsert_offset topic partition (offset + 1) (wallet_queue_offsets (qs_db s)) = Ok t /\
      qs_db s' = set_offsets t (qs_db s).
Proof.
  intros Hok Hk H Hs Hparse Ho Hack Hp Hin. destruct k as [[user ctype] key].
  assert (wallet_step self db db1) as H1.
  { by exists d, (InCommand c), (Ok res). }
  destruct (process_command_answered self d c user ctype key db res db1 (ok_wf _ Hok) Hk H)
    as (r & v & Hres & Hv & Hr).
  eapply wallet_moves_kept in Hv; [|exact Hs|by eapply wallet_step_ok].
  pose proof (process_command_hit self d' c user ctype key (qs_db s) v r Hk Hv Hr) as Hhit.
  set (reply := reply_with_request_id r (command_request_id c)) in *.
  destruct (reply_roundtrip reply) as (value & Hval & _).
  assert (i64_wrap (offset + 1) = offset + 1) as Hnext.
  { apply i64_wrap_id. unfold in_i64, i64_min, i64_max in *; lia. }
  destruct (upsert_offset_total topic partition (offset + 1) (wallet_queue_offsets (qs_db s)))
    as [t Ht]; [lia|].
  assert (reply_key (from_command c) = command_request_id c) as Hrk by by destruct c.
  exists reply, value. eexists. split_and!; [done|done|..].
  - unfold handle_wallet_command_record. rewrite Hparse.
    rewrite (bind_run _ _ _ _ _ (on_db_run _ _ _ _ Hhit)).
    unfold publish_result, reply_result. cbn [wallet_replies for_each].
    assert (publish_reply produce topic_producer (from_command c) reply
      (mkQueueState (qs_db s) (qs_replies s))
      = (Ok tt, mkQueueState (qs_db s)
           (qs_replies s ++ [mkReplyRecord p (command_request_id c) value]))) as Hpub.
    { unfold publish_reply, producer_for_partition. rewrite Hp, Hval.
      destruct (List.find (Z.eqb p) (tp_producers topic_producer)) as [q|] eqn:Hf.
      - apply find_some in Hf as [_ ->%Z.eqb_eq]. unfold produce_reply. by rewrite Hack, Hrk.
      - exfalso. apply list_elem_of_In in Hin. pose proof (find_none _ _ Hf p Hin) as E.
        by rewrite Z.eqb_refl in E. }
    unfold bind at 1 2. rewrite Hpub. cbn [ret].
    apply on_db_run. unfold save_queue_offset, bind, gets. cbn [qs_db]. by rewrite Hnext, Ht.
  - done.
  - exists t. by split.
Qed.

(** ** Two events the consumer cannot get past *)

Definition engine_stuck (self : WalletProcessor) (event : EngineEvent) s : Prop :=
  forall parse draws topic partition offset payload,
    parse payload = Some event ->
    exists e s', handle_wallet_engine_record produce topic_producer self parse draws topic
      partition offset (Some payload) s = (Err e, s') /\
      books (qs_db s') = books (qs_db s) /\ offsets_kept (qs_db s) (qs_db s').

Lemma first_command_stuck self event command rest error s :
  engine_wallet_commands_from_engine_event event = command :: rest ->
  (forall d, exists db', process_engine_command self d command (qs_db s) = (Err error, db')) ->
  engine_stuck self event s.
Proof.
  intros Hc He parse draws topic partition offset payload Hparse.
  destruct (He (draws 0%nat)) as [db' H].
  exists (WalletError_Worker error), (mkQueueState db' (qs_replies s)). split.
  - unfold handle_wallet_engine_record. rewrite Hparse, Hc. apply bind_run_err.
    cbn [run_engine_commands]. apply bind_run_err. by apply on_db_run_err.
  - apply (process_input_err self (draws 0%nat) (InEngine command)) in H.
    unfold offsets_kept. by rewrite H.
Qed.

(** The reservation an engine command takes from. *)
Definition command_reservation (command : EngineWalletCommand) : option string :=
  match command with
  | EngineWalletCommand_ReleaseReservation release => Some (rr_reservation_id release)
  | EngineWalletCommand_SettleTrade settle => Some (st_reservation_id settle)
  | EngineWalletCommand_ApplyAccountDelta _ => None
  end.

(** An event that closed a reservation -- an order cancelled or
    expired, a trade that settled it in full -- cannot be delivered twice: if the
    wallet stops after the command and before saving the offset, every later
    delivery of the event is an error, whatever the wallet has done since, and
    the offset stays where it is. *)
Theorem closing_event_redelivered_stops self d event command rest rid db res db1 row s :
  books_ok (books db) ->
  engine_wallet_commands_from_engine_event event = command :: rest ->
  command_reservation command = Some rid ->
  process_engine_command self d command db = (Ok res, db1) ->
  wallet_reservations db1 !! rid = Some row -> row_status row <> "ACTIVE" ->
  rtc (wallet_moves self) db1 (qs_db s) ->
  engine_stuck self event s.
Proof.
  intros Hok Hc Hrid H Hrow Hst Hs.
  assert (wallet_step self db db1) as H1.
  { by exists d, (InEngine command), (Ok res). }
  destruct (wallet_moves_evolve self db1 (qs_db s) _ row Hs (wallet_step_ok _ _ _ H1 Hok) Hrow)
    as (row' & Hrow' & Hev). assert (row' = row) as -> by by apply Hev.
  apply (first_command_stuck self _ command rest WalletRepositoryError_InvalidReservationState _ Hc).
  intros d'. exists (qs_db s). destruct command as [release|settle|]; cbn in *; simplify_eq.
  - eapply release_refused; [done|]. unfold releasable. by rewrite bool_decide_eq_false_2.
  - by eapply settle_refused.
Qed.

(** Settling a trade leaves the fee entries of the ledger alone. *)
Lemma settle_keeps_fees self d settle db res db' user asset ref :
  books_ok (books db) -> process_settle_trade self d settle db = (Ok res, db') ->
  books_ok (books db') /\ users db' = users db /\
  wallet_ledger db' !! (user, asset, "TRADE_FEE", ref)
  = wallet_ledger db !! (user, asset, "TRADE_FEE", ref).
Proof.
  intros Hok H. pose proof Hok as [Hwf Hb _].
  assert (wallet_step self db db') as Hstep.
  { by exists d, (InEngine (EngineWalletCommand_SettleTrade settle)), (Ok res). }
  split; [by eapply wallet_step_ok|].
  pose proof (process_settle_run self d settle db res db' Hwf Hb H) as [Hs _ _ _ _].
  rewrite process_settle_unfold in H. cbn zeta in H.
  apply bind_ok in H as (rsv & db2 & _ & E). injection E as <- <-. cbn [wallet_events] in Hs.
  change (users db2) with (bk_users (books db2)). change (users db) with (bk_users (books db)).
  change (wallet_ledger db2) with (bk_ledger (books db2)).
  change (wallet_ledger db) with (bk_ledger (books db)).
  generalize dependent (books db2). intros bk' Hs.
  inversion Hs as [|bk1 e bk2 es bk3 Hone Hnil]; subst. inversion Hnil; subst.
  unfold trade_settled_event in Hone.
  inversion Hone as [| | | |bk bk1 id fill rid r da debit ca credit user0 ref0 Hr _ _ _ Hbal _ _|].
  subst. cbn. pose proof (settle_entries_kept _ _ _ _ _ _ _ Hbal) as He.
  rewrite !lookup_insert_ne by congruence. rewrite He. split; [|done].
  by destruct (settle_balances_frame _ _ _ _ _ _ _ Hbal) as [-> _].
Qed.

Lemma fee_refused self d fill fee db :
  0 < fd_amount fee <= i64_max -> fd_user_id fee ∈ users db ->
  wallet_ledger db !! (fd_user_id fee, asset_to_db (fd_asset fee), "TRADE_FEE",
    fee_reference_id fill 0 fee) = None ->
  process_engine_command self d (fee_command fill 0 fee) db
  = (Err WalletRepositoryError_InvalidAccountDelta, db).
Proof.
  intros Ha Hu Hn. apply negative_delta_refused; [|exact Hu|exact Hn]. cbn.
  rewrite i64_wrap_id; unfold in_i64, i64_min, i64_max in *; lia.
Qed.

(** Committed settlements leave the books in order and a fee's entry absent. *)
Lemma settlements_keep_fees self draws fill user asset ref settlements db db' :
  commands_committed self draws (settle_command fill <$> settlements) db db' ->
  books_ok (books db) ->
  books_ok (books db') /\ users db' = users db /\
  wallet_ledger db' !! (user, asset, "TRADE_FEE", ref)
  = wallet_ledger db !! (user, asset, "TRADE_FEE", ref).
Proof.
  revert draws db. induction settlements as [|st settlements IH]; intros draws db H Hok;
    inversion H as [|? ? ? ? res db1 ? H1 H2]; subst; [done|].
  destruct (settle_keeps_fees self _ _ _ _ _ user asset ref Hok H1) as (Hok1 & Hu & Hn).
  destruct (IH _ _ H2 Hok1) as (? & ? & ?). split_and!; congruence || done.
Qed.

(** Where a run over settlements and then fees can have stopped: before the first
    fee's command, or past it. *)
Lemma settlements_split {A B} (f : A -> B) l (x : B) rest committed left :
  map f l ++ x :: rest = committed ++ left ->
  (exists l1 l2, l = l1 ++ l2 /\ committed = f <$> l1 /\ left = (f <$> l2) ++ x :: rest) \/
  (exists more, committed = (f <$> l) ++ x :: more).
Proof.
  intros H. apply app_eq_app in H as [m [[H ->]|[-> H]]].
  - apply map_eq_app in H as (l1 & l2 & -> & <- & <-). left. by exists l1, l2.
  - destruct m as [|y m]; simplify_eq/=.
    + left. exists l, []. by rewrite !app_nil_r.
    + right. by exists m.
Qed.

Lemma committed_app self draws cs1 cs2 db db' :
  commands_committed self draws (cs1 ++ cs2) db db' ->
  exists db1, commands_committed self draws cs1 db db1 /\
    commands_committed self (fun n => draws (length cs1 + n)%nat) cs2 db1 db'.
Proof.
  revert draws db. induction cs1 as [|c cs1 IH]; intros draws db H;
    [exists db; split; [constructor|done]|].
  inversion H as [|? ? ? ? res db1 ? H1 H2]; subst.
  destruct (IH _ _ H2) as (db2 & ? & ?). exists db2. split; [by econstructor|done].
Qed.

(** Claim C13 (error). The wallet cannot get past a trade that charges a fee: its first
    fee, positive, of a known user and not yet booked, is a negative account delta,
    which is refused. Handling the trade's record
    commits its settlements one after the other and then ends in an error: that of
    the first fee when every settlement could be committed, that of the first
    settlement that could not otherwise. What had been committed stays, the failed
    command changes no table, and the record's offset is not saved. *)
Theorem fee_trade_stops_wallet self parse draws topic partition offset payload trade fee fees s :
  parse payload = Some (EngineEvent_TradeExecuted trade) ->
  books_ok (books (qs_db s)) ->
  te_fee_deltas trade = fee :: fees -> 0 < fd_amount fee <= i64_max ->
  fd_user_id fee ∈ users (qs_db s) ->
  wallet_ledger (qs_db s) !! (fd_user_id fee, asset_to_db (fd_asset fee), "TRADE_FEE",
    fee_reference_id (te_fill_id trade) 0 fee) = None ->
  exists settled unsettled db1 error s',
    te_settlements trade = settled ++ unsettled /\
    commands_committed self draws (settle_command (te_fill_id trade) <$> settled) (qs_db s) db1 /\
    handle_wallet_engine_record produce topic_producer self parse draws topic partition
      offset (Some payload) s = (Err (WalletError_Worker error), s') /\
    match unsettled with
    | [] => error = WalletRepositoryError_InvalidAccountDelta
    | st :: _ => process_engine_command self (draws (length settled))
                   (settle_command (te_fill_id trade) st) db1 = (Err error, qs_db s')
    end /\
    qs_db s' = set_outbox_seq (outbox_seq (qs_db s')) db1 /\
    wallet_queue_offsets (qs_db s') = wallet_queue_offsets (qs_db s) /\
    qs_replies s' = qs_replies s.
Proof.
  intros Hparse Hok Hfees Ha Hu Hn. unfold handle_wallet_engine_record. rewrite Hparse.
  cbn [engine_wallet_commands_from_engine_event]. rewrite Hfees. cbn [imap].
  set (fill := te_fill_id trade) in *.
  generalize (imap (fee_command fill ∘ S) fees). intros rest.
  assert (forall db1 d, commands_committed self draws
      (settle_command fill <$> te_settlements trade) (qs_db s) db1 ->
      process_engine_command self d (fee_command fill 0 fee) db1
      = (Err WalletRepositoryError_InvalidAccountDelta, db1)) as Hfee.
  { intros db1 d Hc. destruct (settlements_keep_fees self draws fill (fd_user_id fee)
      (asset_to_db (fd_asset fee)) (fee_reference_id fill 0 fee) _ _ _ Hc Hok) as (_ & Hu1 & Hn1).
    apply fee_refused; [done|by rewrite Hu1|by rewrite Hn1]. }
  destruct (run_engine_commands produce topic_producer self draws
    (map (settle_command fill) (te_settlements trade) ++ fee_command fill 0 fee :: rest) s)
    as [r s'] eqn:Hrun.
  destruct (engine_commands_prefix _ _ _ _ _ _ Hrun)
    as (committed & left & db1 & Hsplit & Hc & Ho & Hr & Hm).
  destruct (settlements_split _ _ _ _ _ _ Hsplit) as [(settled & unsettled & Hs & -> & ->)|Hover].
  - destruct unsettled as [|st unsettled]; destruct Hm as (error & He & -> & Hdb).
    + rewrite app_nil_r in Hs. subst settled. rewrite Hfee in He by done.
      exists (te_settlements trade), [], db1, error, s'. rewrite app_nil_r.
      split_and!; try done; [by apply bind_run_err|congruence].
    + rewrite length_fmap in He. exists settled, (st :: unsettled), db1, error, s'.
      split_and!; try done. by apply bind_run_err.
  - destruct Hover as [more ->].
    apply committed_app in Hc as (db2 & Hc & Hone).
    inversion Hone as [|? ? ? ? res db3 ? Hx]; subst. by rewrite Hfee in Hx.
Qed.
End WithSerde.
