(* ===== verification/WalletQueueExamples.v ===== *)
(** * WalletQueueExamples: the outbox and the consumers on concrete inputs

    One message on its way through the outbox, and the wallet of
    [WalletExamples] behind its consumers; the witnesses apply the theorems of
    [WalletOutboxTheorems] and [WalletQueueTheorems] to them. *)

From S2P Require Import Prelude Protocol Settings Broker Postgres WalletDb WalletRepository WalletProcessor.
From S2P Require Import WalletSpec WalletStatements WalletRefinement WalletHandlers WalletRuns.
From S2P Require Import WalletErrors WalletTotal WalletTheorems WalletExamples.
From S2P Require Import WalletOutbox WalletOutboxTheorems WalletQueue WalletQueueTheorems.

#[local] Existing Instance tagged_serde.
#[local] Existing Instance tagged_serde_laws.

Import WalletExample.

Module OutboxExample.
Definition topics : list (string * list Z) := [("e", [0; 1]); ("i", [0])].
Definition cluster : Cluster := mkCluster (Ok topics) (fun _ _ => Ok tt).
Definition connect : Connect := fun _ => Ok cluster.
Definition settings : WalletSettings :=
  mkWalletSettings "db" "localhost:9092" "c" "r" "e" "i" "v" 100 30 30 1000 60.
Definition relay : WalletOutboxRelay :=
  mkWalletOutboxRelay "e" (mkTopicProducer "e" [0; 1]) "i" (mkTopicProducer "i" [0]) 100 30 30 1000 60.

Lemma relay_new : WalletOutboxRelay_new connect settings = Ok relay.
Proof. reflexivity. Qed.

Definition payload : TaggedValue :=
  TaggedValue_Reply (WalletReply_CommandAccepted (mkCommandAccepted "r")).
Definition message : NewWalletOutboxMessage :=
  mkNewWalletOutboxMessage "k" "e" (Some 1) "m" "WalletEvent" payload.
Definition row : OutboxRow := new_outbox_row 1 0 message.

Definition before : OutboxSystem := mkOutboxSystem (empty_wallet {[1]}) [] ∅ 0.
Definition enqueued : WalletDb := mkWalletDb {[1]} ∅ ∅ ∅ ∅ {["k" := row]} 2 ∅.
Definition after : OutboxSystem := mkOutboxSystem enqueued [] ∅ 0.

Lemma before_start : outbox_start before.
Proof. by split. Qed.

Lemma enqueue_step i : relay_step relay i before after.
Proof.
  apply relay_wallet. exists [message], (Ok tt), enqueued. split; [|done].
  apply transaction_run. unfold enqueue_outbox_messages_in_tx. cbn [for_each].
  assert (insert_outbox 0 message (empty_wallet {[1]}) = (Ok (Some 1), enqueued)) as Hi.
  { unfold insert_outbox, next_outbox_id, bind, gets, modify, ret. cbn. by rewrite lookup_empty. }
  unfold bind. by rewrite Hi.
Qed.

Lemma after_row k r : wallet_outbox (os_db after) !! k = Some r -> k = "k" /\ r = row.
Proof.
  cbn [after os_db enqueued wallet_outbox]. by intros [<- <-]%lookup_singleton_Some.
Qed.

Lemma after_can_publish : can_publish relay (os_db after).
Proof.
  intros k r [-> ->]%after_row _. split; [by cbn|]. exists ("e", 1). by split.
Qed.

(** The relay publishes the message. *)
Lemma drained : exists s, rtc (relay_step relay 0) after s /\
  forall k r, wallet_outbox (os_db s) !! k = Some r -> ob_status r = "PUBLISHED".
Proof.
  destruct (relay_new_topics _ _ _ relay_new) as [Ht Hl].
  destruct (outbox_start_inv before 0 before_start) as [Hinv Hsi].
  destruct (run_inv relay Ht 0 before after) as [Hinv1 Hsi1];
    [by eapply rtc_once, enqueue_step|done|done|].
  by apply (relay_drains relay Ht 0 after Hinv1 Hsi1 eq_refl after_can_publish).
Qed.

Lemma drained_row s : rtc (relay_step relay 0) after s ->
  exists r, wallet_outbox (os_db s) !! "k" = Some r.
Proof.
  intros Hs. destruct (system_kept relay after s) as [Hk _].
  { clear -Hs. induction Hs; [done|]. eapply rtc_l; [|done]. by eexists. }
  destruct (Hk "k" row) as (r & Hr & _); [exact (lookup_singleton_eq (M := gmap string) "k" row)|]. eauto.
Qed.

Lemma system_run s s' : rtc (relay_step relay 0) s s' -> rtc (system_step relay) s s'.
Proof. induction 1; [done|]. eapply rtc_l; [|done]. by eexists. Qed.
End OutboxExample.
Import OutboxExample.

Lemma outbox_published_on_broker_witness : exists s r,
  rtc (system_step relay) before s /\ wallet_outbox (os_db s) !! "k" = Some r /\
  on_broker (os_broker s) r.
Proof.
  destruct drained as (s & Hs & Hall). destruct (drained_row s Hs) as [r Hr].
  assert (rtc (system_step relay) before s) as Hrun.
  { apply system_run. eapply rtc_l; [apply enqueue_step|exact Hs]. }
  exists s, r. split; [exact Hrun|]. split; [exact Hr|].
  destruct (outbox_published_on_broker connect settings relay before s relay_new before_start
    Hrun) as [H _]. exact (H "k" r Hr (Hall "k" r Hr)).
Defined.

Lemma outbox_published_final_witness : exists s s' r,
  rtc (relay_step relay 0) before s /\ wallet_outbox (os_db s) !! "k" = Some r /\
  rtc (relay_step relay 0) s s' /\ wallet_outbox (os_db s') !! "k" = Some r.
Proof.
  destruct drained as (s & Hs & Hall). destruct (drained_row s Hs) as [r Hr].
  assert (rtc (relay_step relay 0) before s) as Hrun by
    (eapply rtc_l; [apply enqueue_step|exact Hs]).
  set (s' := mkOutboxSystem (os_db s) (os_broker s) (delete 0 (os_relays s)) (os_clock s)).
  assert (rtc (relay_step relay 0) s s') as Hcrash.
  { apply rtc_once. destruct s. apply relay_crash. }
  exists s, s', r. split; [exact Hrun|]. split; [exact Hr|]. split; [exact Hcrash|].
  exact (outbox_published_final connect settings relay 0 before s s' "k" r relay_new
    before_start Hrun Hr (Hall "k" r Hr) Hcrash).
Defined.

Lemma outbox_drains_witness : exists s,
  rtc (relay_step relay 0) after s /\
  forall k r, wallet_outbox (os_db s) !! k = Some r ->
    ob_status r = "PUBLISHED" /\ on_broker (os_broker s) r.
Proof.
  exact (outbox_drains connect settings relay 0 before after relay_new before_start
    (rtc_once _ _ (enqueue_step 0)) after_can_publish).
Defined.

Lemma claim_outbox_messages_functional_witness : exists messages db',
  claim_outbox_messages (fun _ => false) id 100 5 enqueued = (Ok messages, db') /\
  Z.of_nat (length messages) <= 100 /\ NoDup (om_dedupe_key <$> messages).
Proof.
  assert (outbox_ids enqueued) as Hids.
  { split.
    - intros k r [_ ->]%after_row. by cbn.
    - intros k1 k2 r1 r2 [-> _]%after_row [-> _]%after_row. done. }
  assert (forall k r, wallet_outbox enqueued !! k = Some r -> due 5 r = true ->
    ob_attempts r < i32_max) as Hatt by (intros k r [_ ->]%after_row _; by cbn).
  pose proof (claim_run (fun _ => false) id 100 5 enqueued Hatt) as H. cbn zeta in H.
  eexists _, _. split; [exact H|].
  destruct (claim_outbox_messages_functional (fun _ => false) id 100 5 enqueued _ _ Hids
    (fun l => Permutation_refl l) ltac:(lia) H) as (Hnd & Hlen & _).
  split; [exact Hlen|exact Hnd].
Defined.

Lemma engine_event_deltas_distinct_witness :
  NoDup (delta_references (engine_wallet_commands_from_engine_event
    (EngineEvent_FundingPaymentApplied
       (mkFundingPaymentApplied (Some "f") 1 1 0 None None "i"
          [mkFundingPayment 1 "p" PositionSide_LONG Asset_USDC 5;
           mkFundingPayment 1 "p" PositionSide_LONG Asset_USDC 5])))).
Proof. apply engine_event_deltas_distinct. Defined.

Lemma producer_for_key_total_witness : exists producer p partitions,
  TopicProducer_new cluster topics "e" = Ok producer /\ producer_for_key producer "m" = Some p /\
  List.In ("e", partitions) topics /\ p ∈ partitions.
Proof.
  destruct (producer_for_key_total cluster topics "e" (mkTopicProducer "e" [0; 1]) "m" eq_refl)
    as (_ & p & ps & H). by exists (mkTopicProducer "e" [0; 1]), p, ps.
Defined.

Module QueueExample.
Definition accepts (_ : list ReplyRecord) (_ : ReplyRecord) : ProduceOutcome := Acknowledged.
Definition replies_topic : TopicProducer := mkTopicProducer "r" [0; 1].
Definition cancel_command : WalletCommand := WalletCommand_CancelOrderIntent (cancel "req-1").

(** The engine cancels the order that holds the whole reservation. *)
Definition cancelled : EngineEvent :=
  EngineEvent_OrderCancelled (mkOrderCancelled None 1 1000 None None 7 "res_u0" 1 1 60).
Definition release_all : ReleaseReservation :=
  mkReleaseReservation "res_u0" 60 ("order_cancelled:" +:+ to_string 7).

Lemma cancelled_commands :
  engine_wallet_commands_from_engine_event cancelled
  = [EngineWalletCommand_ReleaseReservation release_all].
Proof. reflexivity. Qed.

Lemma release_all_runs : exists res db' row,
  process_release_reservation self draw release_all active = (Ok res, db') /\
  wallet_reservations db' !! "res_u0" = Some row /\ row_status row <> "ACTIVE".
Proof.
  destruct (process_release_total self draw release_all (reservation 60 "ACTIVE") active
    active_ok active_reservation eq_refl I) as (b & res & db' & H & _ & Hb & _).
  exists res, db', (reservation_less (reservation 60 "ACTIVE") 60 "RELEASED").
  split; [exact H|]. split; [|done].
  change (wallet_reservations db') with (bk_res (books db')). rewrite Hb.
  apply lookup_insert_eq.
Qed.

(** A trade that consumes 20 of the reservation and charges a fee of 3. *)
Definition settlement : TradeSettlement := mkTradeSettlement "res_u0" Asset_USDC 20 Asset_USDC 20.
Definition fee_trade : TradeExecuted :=
  mkTradeExecuted None 1 1000 None None 9 1 50 2 1 2 1 2 None None ExecutionReason_TRADE
    None None None None [mkFeeDelta 1 Asset_USDC 3 "TAKER"] [settlement].

Lemma settlement_commits db :
  process_engine_command self draw (settle_command 9 settlement) active = (Ok db.1, db.2) ->
  row_remaining <$> wallet_reservations db.2 !! "res_u0" = Some 40.
Proof.
  intros H. apply (f_equal snd) in H. cbn [snd] in H. rewrite <- H. vm_compute. reflexivity.
Qed.
Lemma settlement_succeeds e db :
  process_engine_command self draw (settle_command 9 settlement) active <> (Err e, db).
Proof.
  intros H. apply (f_equal (fun x => is_ok x.1)) in H. revert H. vm_compute. discriminate.
Qed.
End QueueExample.
Import QueueExample.

Lemma reply_partition_never_missing_witness : exists r s',
  handle_wallet_engine_record accepts replies_topic self (fun _ => None) (fun _ => draw) "t" 0 0
    None (mkQueueState active []) = (r, s') /\ qs_replies s' = [].
Proof.
  destruct (handle_wallet_engine_record accepts replies_topic self (fun _ => None) (fun _ => draw)
    "t" 0 0 None (mkQueueState active [])) as [r s'] eqn:H.
  exists r, s'. split; [reflexivity|].
  exact (proj2 (proj2 (reply_partition_never_missing accepts replies_topic self (fun _ => None)
    (fun _ => None) draw (fun _ => draw) "t" 0 0 None (mkQueueState active []) r s') H)).
Defined.

Lemma wallet_command_redelivered_witness : exists db1 reply value s',
  reply_to_value reply = Some value /\
  handle_wallet_command_record accepts replies_topic self (fun _ => Some cancel_command) draw "t"
    0 5 (Some "x") (mkQueueState db1 []) = (Ok tt, s') /\
  qs_replies s' = [mkReplyRecord 0 "req-1" value].
Proof.
  destruct cancel_runs as [db1 H].
  destruct (wallet_command_redelivered accepts replies_topic self (fun _ => Some cancel_command)
    cancel_command (1, "CancelOrderIntent", "cancel-1") draw draw active db1 _ "t" 0 5 "x" 0
    (mkQueueState db1 []) active_ok eq_refl H (rtc_refl _ _) eq_refl ltac:(unfold i64_max; lia)
    (fun _ _ => eq_refl) eq_refl ltac:(by left))
    as (reply & value & s' & _ & Hv & Hh & Hr & _).
  exists db1, reply, value, s'. split; [exact Hv|]. split; [exact Hh|]. exact Hr.
Defined.

Lemma closing_event_redelivered_stops_witness : exists db1,
  engine_stuck accepts replies_topic self cancelled (mkQueueState db1 []).
Proof.
  destruct release_all_runs as (res & db1 & row & H & Hrow & Hst). exists db1.
  exact (closing_event_redelivered_stops accepts replies_topic self draw cancelled
    (EngineWalletCommand_ReleaseReservation release_all) [] "res_u0" active res db1 row
    (mkQueueState db1 []) active_ok cancelled_commands eq_refl H Hrow Hst (rtc_refl _ _)).
Defined.

(** The settlement is in the books, the fee and the offset are not. *)
Lemma fee_trade_stops_wallet_witness : exists s',
  handle_wallet_engine_record accepts replies_topic self
    (fun _ => Some (EngineEvent_TradeExecuted fee_trade)) (fun _ => draw) "t" 0 0 (Some "x")
    (mkQueueState active [])
  = (Err (WalletError_Worker WalletRepositoryError_InvalidAccountDelta), s') /\
  row_remaining <$> wallet_reservations (qs_db s') !! "res_u0" = Some 40 /\
  wallet_queue_offsets (qs_db s') = ∅.
Proof.
  destruct (fee_trade_stops_wallet accepts replies_topic self
    (fun _ => Some (EngineEvent_TradeExecuted fee_trade)) (fun _ => draw) "t" 0 0 "x" fee_trade
    (mkFeeDelta 1 Asset_USDC 3 "TAKER") [] (mkQueueState active []) eq_refl active_ok eq_refl)
    as (settled & unsettled & db1 & error & s' & Hs & Hc & Hh & Hm & Hdb & Ho & _).
  - cbn. unfold i64_max. lia.
  - apply elem_of_singleton. reflexivity.
  - by apply lookup_singleton_ne.
  - destruct settled as [|st [|]]; destruct unsettled; try discriminate Hs; injection Hs as <-;
      inversion Hc as [|? ? ? ? res db2 ? H1 H2]; subst.
    + destruct (settlement_succeeds _ _ Hm).
    + inversion H2; subst. exists s'. split; [exact Hh|]. split; [|exact Ho].
      rewrite Hdb. exact (settlement_commits (res, db1) H1).
Defined.
