(* ===== verification/EngineIngress.v ===== *)
(** * EngineIngress: queueing mark prices and funding inputs by hand

    [tools/engine-ingress]: the command line, or a JSON text, becomes an engine
    command, and the command a message in the wallet's outbox, once for each
    deduplication key ([lib.rs], [main.rs]). *)

From S2P Require Import Prelude Text Protocol Postgres WalletDb WalletRepository WalletProcessor WalletOutbox.

(** ** Command line *)

Definition missing_subcommand : string :=
  "missing subcommand: expected mark-price, funding-rate, funding-settlement-tick, or json".

(** [while let Some(flag) = args.next()]: flags come in pairs. *)
Fixpoint parse_flags (args : list string) (flags : gmap string string)
    : Result string (gmap string string) :=
  match args with
  | [] => Ok flags
  | flag :: args =>
      match strip_prefix "--" flag with
      | None => Err ("expected flag starting with '--', got '" +:+ flag +:+ "'")
      | Some name =>
          match args with
          | [] => Err ("missing value for '--" +:+ name +:+ "'")
          | value :: args =>
              if starts_with "--" value then Err ("missing value for '--" +:+ name +:+ "'")
              else parse_flags args (<[name := value]> flags)
          end
      end
  end.

Definition required_string (flags : gmap string string) (name : string) : Result string string :=
  ok_or ("missing required flag '--" +:+ name +:+ "'") (flags !! name).

Definition optional_string (flags : gmap string string) (name : string) : option string :=
  flags !! name.

(** The text of a [ParseIntError]. *)
Definition int_error_text (e : IntErrorKind) : string :=
  match e with
  | IntErrorKind_Empty => "cannot parse integer from empty string"
  | IntErrorKind_InvalidDigit => "invalid digit found in string"
  | IntErrorKind_PosOverflow => "number too large to fit in target type"
  | IntErrorKind_NegOverflow => "number too small to fit in target type"
  end.

Definition required_i64 (flags : gmap string string) (name : string) : Result string Z :=
  let? value := required_string flags name in
  map_err (fun error => "invalid integer for '--" +:+ name +:+ "': " +:+ int_error_text error)
    (parse_i64 value).

Definition parse_mark_price (flags : gmap string string) : Result string EngineCommand :=
  let? market_id := required_i64 flags "market-id" in
  let? mark_price := required_i64 flags "mark-price" in
  let? index_price := required_i64 flags "index-price" in
  let? source_timestamp_ms := required_i64 flags "source-timestamp-ms" in
  let? published_at_ms := required_i64 flags "published-at-ms" in
  let? valid_until_ms := required_i64 flags "valid-until-ms" in
  let? source_sequence := required_i64 flags "source-sequence" in
  let? source_status := required_string flags "source-status" in
  Ok (EngineCommand_MarkPriceUpdated {|
    mpi_input_id := optional_string flags "input-id";
    mpi_market_id := market_id;
    mpi_mark_price := mark_price;
    mpi_index_price := index_price;
    mpi_source_timestamp_ms := source_timestamp_ms;
    mpi_published_at_ms := published_at_ms;
    mpi_valid_until_ms := valid_until_ms;
    mpi_source_sequence := source_sequence;
    mpi_source_status := source_status |}).

Definition parse_funding_rate (flags : gmap string string) : Result string EngineCommand :=
  let? market_id := required_i64 flags "market-id" in
  let? funding_interval_id := required_string flags "funding-interval-id" in
  let? rate := required_i64 flags "rate" in
  let? rate_scale := required_i64 flags "rate-scale" in
  let? interval_start_ms := required_i64 flags "interval-start-ms" in
  let? interval_end_ms := required_i64 flags "interval-end-ms" in
  let? source_timestamp_ms := required_i64 flags "source-timestamp-ms" in
  Ok (EngineCommand_FundingRateUpdated {|
    fri_input_id := optional_string flags "input-id";
    fri_market_id := market_id;
    fri_funding_interval_id := funding_interval_id;
    fri_rate := rate;
    fri_rate_scale := rate_scale;
    fri_interval_start_ms := interval_start_ms;
    fri_interval_end_ms := interval_end_ms;
    fri_source_timestamp_ms := source_timestamp_ms |}).

Definition parse_funding_settlement_tick (flags : gmap string string)
    : Result string EngineCommand :=
  let? market_id := required_i64 flags "market-id" in
  let? funding_interval_id := required_string flags "funding-interval-id" in
  let? settle_at_ms := required_i64 flags "settle-at-ms" in
  Ok (EngineCommand_FundingSettlementTick {|
    fst_input_id := optional_string flags "input-id";
    fst_market_id := market_id;
    fst_funding_interval_id := funding_interval_id;
    fst_settle_at_ms := settle_at_ms |}).

Definition parse_engine_command_args (args : list string) : Result string EngineCommand :=
  match args with
  | [] => Err missing_subcommand
  | subcommand :: args =>
      let? flags := parse_flags args ∅ in
      if bool_decide (subcommand = "mark-price") then parse_mark_price flags
      else if bool_decide (subcommand = "funding-rate") then parse_funding_rate flags
      else if bool_decide (subcommand = "funding-settlement-tick")
      then parse_funding_settlement_tick flags
      else if bool_decide (subcommand = "json") then Err "json input must be read from stdin"
      else Err ("unsupported subcommand '" +:+ subcommand +:+ "'")
  end.

(** ** Commands *)

Definition command_name (command : EngineCommand) : string :=
  match command with
  | EngineCommand_MarkPriceUpdated _ => "MarkPriceUpdated"
  | EngineCommand_FundingRateUpdated _ => "FundingRateUpdated"
  | EngineCommand_FundingSettlementTick _ => "FundingSettlementTick"
  | EngineCommand_PlaceOrder _ => "PlaceOrder"
  | EngineCommand_CancelOrder _ => "CancelOrder"
  | EngineCommand_LiquidatePosition _ => "LiquidatePosition"
  end.

Definition unsupported_input (command : EngineCommand) : string :=
  "unsupported engine input '" +:+ command_name command
  +:+ "'; engine-ingress only queues mark/funding inputs".

Definition ensure_supported (command : EngineCommand) : Result string EngineCommand :=
  match command with
  | EngineCommand_MarkPriceUpdated _ | EngineCommand_FundingRateUpdated _
  | EngineCommand_FundingSettlementTick _ => Ok command
  | other => Err (unsupported_input other)
  end.

Definition engine_command_dedupe_key (command : EngineCommand) : Result string string :=
  match command with
  | EngineCommand_MarkPriceUpdated input =>
      Ok match mpi_input_id input with
         | Some input_id => "engine-input:mark-price:" +:+ input_id
         | None =>
             "engine-input:mark-price:" +:+ to_string (mpi_market_id input) +:+ ":"
             +:+ to_string (mpi_source_sequence input) +:+ ":"
             +:+ to_string (mpi_source_timestamp_ms input)
         end
  | EngineCommand_FundingRateUpdated input =>
      Ok match fri_input_id input with
         | Some input_id => "engine-input:funding-rate:" +:+ input_id
         | None =>
             "engine-input:funding-rate:" +:+ to_string (fri_market_id input) +:+ ":"
             +:+ fri_funding_interval_id input +:+ ":"
             +:+ to_string (fri_source_timestamp_ms input)
         end
  | EngineCommand_FundingSettlementTick input =>
      Ok match fst_input_id input with
         | Some input_id => "engine-input:funding-settlement-tick:" +:+ input_id
         | None =>
             "engine-input:funding-settlement-tick:" +:+ to_string (fst_market_id input) +:+ ":"
             +:+ fst_funding_interval_id input +:+ ":"
             +:+ to_string (fst_settle_at_ms input)
         end
  | other => Err (unsupported_input other)
  end.

Section Ingress.
Context {SD : Serde}.

(** A JSON text, or the text of its error. *)
Variable engine_command_from_str : string -> Result string EngineCommand.

Definition parse_engine_command_json (input : string) : Result string EngineCommand :=
  let? command :=
    map_err (fun error => "invalid engine input JSON: " +:+ error) (engine_command_from_str input) in
  ensure_supported command.

(** An error of the wallet crate shown by [{:?}]. *)
Variable debug_error : WalletRepositoryError -> string.

Definition ingress_outbox_message (command : EngineCommand) (topic : string)
    : Result string NewWalletOutboxMessage :=
  let? dedupe_key := engine_command_dedupe_key command in
  map_err (fun error => "failed to serialize engine input: " +:+ debug_error error)
    (engine_command_outbox_message topic dedupe_key command).

(** [main]: the arguments after the program's name, what stdin holds, the topic
    of the settings. *)
Definition read_command (args : list string) (stdin : string) : Result string EngineCommand :=
  match args with
  | first :: rest =>
      if bool_decide (first = "json") then
        if bool_decide (rest = []) then parse_engine_command_json stdin
        else Err "json input does not accept extra CLI arguments"
      else parse_engine_command_args args
  | [] => parse_engine_command_args args
  end.

Definition run_ingress (now : Z) (args : list string) (stdin topic : string)
    : M WalletDb string (option Z) :=
  let* command := lift (read_command args stdin) in
  let* outbox_message := lift (ingress_outbox_message command topic) in
  fun db =>
    let '(result, db') := enqueue_outbox_message now outbox_message db in
    (map_err (fun error => "failed to enqueue wallet outbox message: " +:+ debug_error error) result,
     db').
End Ingress.
