(* ===== verification/EngineIngressTheorems.v ===== *)
(** * EngineIngressTheorems: the command line round trip, and queueing once *)

From S2P Require Import Prelude Text Protocol Postgres WalletDb WalletRepository WalletProcessor WalletSpec WalletTheorems WalletOutbox WalletOutboxTheorems EngineIngress.

(** ** Writing a command as arguments *)

Definition flag (name value : string) : list string := ["--" +:+ name; value].
Definition int_flag (name : string) (z : Z) : list string := flag name (to_string z).
Definition input_id_flag (input_id : option string) : list string :=
  match input_id with Some id => flag "input-id" id | None => [] end.

Definition args_of (command : EngineCommand) : list string :=
  match command with
  | EngineCommand_MarkPriceUpdated i =>
      "mark-price" :: input_id_flag (mpi_input_id i) ++ int_flag "market-id" (mpi_market_id i)
        ++ int_flag "mark-price" (mpi_mark_price i) ++ int_flag "index-price" (mpi_index_price i)
        ++ int_flag "source-timestamp-ms" (mpi_source_timestamp_ms i)
        ++ int_flag "published-at-ms" (mpi_published_at_ms i)
        ++ int_flag "valid-until-ms" (mpi_valid_until_ms i)
        ++ int_flag "source-sequence" (mpi_source_sequence i)
        ++ flag "source-status" (mpi_source_status i) ++ []
  | EngineCommand_FundingRateUpdated i =>
      "funding-rate" :: input_id_flag (fri_input_id i) ++ int_flag "market-id" (fri_market_id i)
        ++ flag "funding-interval-id" (fri_funding_interval_id i)
        ++ int_flag "rate" (fri_rate i) ++ int_flag "rate-scale" (fri_rate_scale i)
        ++ int_flag "interval-start-ms" (fri_interval_start_ms i)
        ++ int_flag "interval-end-ms" (fri_interval_end_ms i)
        ++ int_flag "source-timestamp-ms" (fri_source_timestamp_ms i) ++ []
  | EngineCommand_FundingSettlementTick i =>
      "funding-settlement-tick" :: input_id_flag (fst_input_id i)
        ++ int_flag "market-id" (fst_market_id i)
        ++ flag "funding-interval-id" (fst_funding_interval_id i)
        ++ int_flag "settle-at-ms" (fst_settle_at_ms i) ++ []
  | _ => []
  end.

(** The texts and integers of a command. *)
Definition command_texts (command : EngineCommand) : list string :=
  match command with
  | EngineCommand_MarkPriceUpdated i => option_list (mpi_input_id i) ++ [mpi_source_status i]
  | EngineCommand_FundingRateUpdated i => option_list (fri_input_id i) ++ [fri_funding_interval_id i]
  | EngineCommand_FundingSettlementTick i =>
      option_list (fst_input_id i) ++ [fst_funding_interval_id i]
  | _ => []
  end.
Definition command_ints (command : EngineCommand) : list Z :=
  match command with
  | EngineCommand_MarkPriceUpdated i =>
      [mpi_market_id i; mpi_mark_price i; mpi_index_price i; mpi_source_timestamp_ms i;
       mpi_published_at_ms i; mpi_valid_until_ms i; mpi_source_sequence i]
  | EngineCommand_FundingRateUpdated i =>
      [fri_market_id i; fri_rate i; fri_rate_scale i; fri_interval_start_ms i;
       fri_interval_end_ms i; fri_source_timestamp_ms i]
  | EngineCommand_FundingSettlementTick i => [fst_market_id i; fst_settle_at_ms i]
  | _ => []
  end.

Definition supported (command : EngineCommand) : Prop :=
  exists c, ensure_supported command = Ok c.

(** ** Flags *)

Lemma parse_flags_flag name value args flags :
  starts_with "--" value = false ->
  parse_flags (flag name value ++ args) flags = parse_flags args (<[name := value]> flags).
Proof. intros Hv. unfold flag. cbn [app parse_flags]. by rewrite strip_prefix_app, Hv. Qed.

Lemma strip_prefix_head a p c s : Ascii.eqb c a = false -> strip_prefix (String a p) (String c s) = None.
Proof. intros H. cbn. by rewrite Ascii.eqb_sym, H. Qed.

Lemma int_not_flag z : starts_with "--" (to_string z) = false.
Proof.
  unfold to_string, pretty, pretty_Z. destruct z as [|p|p]; [done|..];
    destruct (pretty_N_go_head (N.pos p) "" eq_refl) as (d & s' & Hd & Heq);
    pose proof (pretty_N_char_not_sign d) as [_ Hs]%orb_false_iff.
  - change (starts_with (String minus_sign (String minus_sign "")) (pretty_N_go (N.pos p) "") = false).
    rewrite Heq. unfold starts_with. by rewrite strip_prefix_head.
  - change (starts_with (String minus_sign (String minus_sign ""))
      (String minus_sign (pretty_N_go (N.pos p) "")) = false). rewrite Heq.
    unfold starts_with.
    change (strip_prefix (String minus_sign (String minus_sign "")) (String minus_sign ?s))
      with (strip_prefix (String minus_sign "") s).
    by rewrite strip_prefix_head.
Qed.

Lemma parse_flags_int name z args flags :
  parse_flags (int_flag name z ++ args) flags = parse_flags args (<[name := to_string z]> flags).
Proof. apply parse_flags_flag, int_not_flag. Qed.

Definition input_id_flags (id : option string) : gmap string string :=
  match id with Some id => <["input-id" := id]> ∅ | None => ∅ end.

Lemma parse_flags_input_id id args :
  Forall (fun s => starts_with "--" s = false) (option_list id) ->
  parse_flags (input_id_flag id ++ args) ∅ = parse_flags args (input_id_flags id).
Proof. destruct id; cbn; [|done]. intros [Hs _]%Forall_cons. by apply parse_flags_flag. Qed.

Lemma lookup_input_id id : input_id_flags id !! "input-id" = id.
Proof. destruct id; cbn; [apply lookup_insert_eq|apply lookup_empty]. Qed.

(** Finding a flag among those inserted. *)
Ltac find_flag :=
  repeat first [rewrite lookup_insert_eq | rewrite lookup_insert_ne by done];
  rewrite ?lookup_input_id.

Lemma required_i64_found flags name z :
  flags !! name = Some (to_string z) -> in_i64 z -> required_i64 flags name = Ok z.
Proof.
  intros Hf Hz. unfold required_i64, required_string. rewrite Hf. cbn [ok_or rbind].
  by rewrite parse_i64_to_string.
Qed.
Lemma required_string_found flags name s :
  flags !! name = Some s -> required_string flags name = Ok s.
Proof. unfold required_string. by intros ->. Qed.

(** Read back each field of a command. *)
Ltac read_fields :=
  repeat first
    [ erewrite required_i64_found by (first [find_flag; reflexivity | assumption]); cbn [rbind]
    | erewrite required_string_found by (find_flag; reflexivity); cbn [rbind] ];
  unfold optional_string.

(** A value that looks like a flag is taken for the next one. *)
Definition missing_value (name : string) : string := "missing value for '--" +:+ name +:+ "'".

Lemma parse_flags_missing name value args flags :
  starts_with "--" value = true ->
  parse_flags (flag name value ++ args) flags = Err (missing_value name).
Proof. intros Hv. unfold flag. cbn [app parse_flags]. by rewrite strip_prefix_app, Hv. Qed.

Definition plain_texts (texts : list string) : Prop :=
  Forall (fun s => starts_with "--" s = false) texts.
#[export] Instance plain_texts_dec texts : Decision (plain_texts texts).
Proof. unfold plain_texts. apply _. Defined.

(** Of an optional id and a text, one looks like a flag. *)
Lemma not_plain id text :
  ~ plain_texts (option_list id ++ [text]) ->
  (exists s, id = Some s /\ starts_with "--" s = true) \/
  plain_texts (option_list id) /\ starts_with "--" text = true.
Proof.
  intros H. destruct (decide (plain_texts (option_list id))) as [Hid|Hid].
  - right. split; [done|]. apply not_false_iff_true. intros Ht. apply H. unfold plain_texts.
    apply Forall_app. split; [done|]. by apply Forall_singleton.
  - left. destruct id as [s|]; [|by destruct Hid; constructor]. exists s. split; [done|].
    apply not_false_iff_true. intros Hs. apply Hid. by apply Forall_singleton.
Qed.

(** Claim C40. What the tool's command line can say. A mark price, funding rate or
    settlement tick written as flags, with integers in decimal, is read back as the
    same command, its optional input id included, when none of its texts (the input
    id, the source status or funding interval id) starts with --; when one does, the
    tool takes it for a flag and refuses the line for a missing value. *)
Theorem ingress_args_roundtrip command :
  supported command -> Forall in_i64 (command_ints command) ->
  if decide (plain_texts (command_texts command))
  then parse_engine_command_args (args_of command) = Ok command
  else exists name, name ∈ ["input-id"; "source-status"; "funding-interval-id"] /\
         parse_engine_command_args (args_of command) = Err (missing_value name).
Proof.
  intros [c Hc] Hi. case_decide as Ht.
  - destruct command as [p|p|p|i|i|i]; try done; clear c Hc;
      cbn in Hi, Ht; apply Forall_app in Ht as [Hid [Htext _]%Forall_cons];
      rewrite !Forall_cons in Hi; destruct_and?;
      cbn [args_of parse_engine_command_args]; rewrite parse_flags_input_id by done;
      rewrite ?parse_flags_int, ?parse_flags_flag, ?parse_flags_int, ?parse_flags_flag by done;
      cbn [parse_flags rbind].
    + rewrite bool_decide_true by done. unfold parse_mark_price. read_fields.
      find_flag. by destruct i.
    + rewrite bool_decide_false, bool_decide_true by done. unfold parse_funding_rate. read_fields.
      find_flag. by destruct i.
    + rewrite !bool_decide_false, bool_decide_true by done. unfold parse_funding_settlement_tick.
      read_fields. find_flag. by destruct i.
  - destruct command as [p|p|p|i|i|i]; try done; clear c Hc Hi; cbn [command_texts] in Ht;
      apply not_plain in Ht as [(s & Hid & Hs)|[Hid Hs]]; eexists;
      (split; [|cbn [args_of parse_engine_command_args];
        first [rewrite Hid; cbn [input_id_flag]|rewrite parse_flags_input_id by done];
        rewrite ?parse_flags_int, parse_flags_missing by done; reflexivity]); set_solver.
Qed.

(** ** Queueing *)

Section Ingress.
Context {SD : Serde} {SDL : SerdeLaws}.
Context (engine_command_from_str : string -> Result string EngineCommand).
Context (debug_error : WalletRepositoryError -> string).

Lemma supported_key command :
  supported command -> exists key, engine_command_dedupe_key command = Ok key.
Proof. intros [c Hc]. destruct command; try done; cbn; eauto. Qed.

Lemma parsed_supported args command :
  parse_engine_command_args args = Ok command -> supported command.
Proof.
  unfold parse_engine_command_args. destruct args as [|sub args]; [done|].
  destruct (parse_flags args ∅) as [flags|]; [|done]. cbn [rbind].
  unfold parse_mark_price, parse_funding_rate, parse_funding_settlement_tick, supported.
  intros H. repeat (case_match; try done);
    repeat match type of H with
    | rbind ?m _ = Ok _ => destruct m; [|done]; cbn [rbind] in H
    end; simplify_eq; cbn; eauto.
Qed.

Lemma read_supported args stdin command :
  read_command engine_command_from_str args stdin = Ok command -> supported command.
Proof.
  unfold read_command. destruct args as [|first rest]; [by apply parsed_supported|].
  case_bool_decide; [|by apply parsed_supported]. case_bool_decide; [|done].
  unfold parse_engine_command_json. destruct (engine_command_from_str stdin) as [c|]; [|done]. cbn.
  intros Hc. exists command. by destruct c; try done; injection Hc as <-.
Qed.

Definition ingress_message (topic key : string) (command : EngineCommand) (v : Value)
    : NewWalletOutboxMessage :=
  mkNewWalletOutboxMessage key topic None (engine_input_key command) "EngineCommand" v.

(** What the tool reads is always a command it may queue, and it
    queues it once: with its key free it stores one PENDING row that holds the
    command under its market; with the same message already there, published or
    not, it answers so and changes no row; with another message under the key it
    fails and changes no row. *)
Theorem ingress_queues_once now args stdin topic command db :
  read_command engine_command_from_str args stdin = Ok command ->
  exists key v, engine_command_dedupe_key command = Ok key /\
    engine_command_to_value command = Some v /\
    let message := ingress_message topic key command v in
    let '(result, db') := run_ingress engine_command_from_str debug_error now args stdin topic db in
    match wallet_outbox db !! key with
    | None =>
        result = Ok (Some (outbox_seq db)) /\
        wallet_outbox db' = <[key := new_outbox_row (outbox_seq db) now message]> (wallet_outbox db)
    | Some row =>
        wallet_outbox db' = wallet_outbox db /\
        result = if row_matches message row then Ok None
                 else Err ("failed to enqueue wallet outbox message: "
                           +:+ debug_error WalletRepositoryError_IdempotencyConflict)
    end.
Proof.
  intros Hread. destruct (supported_key command (read_supported _ _ _ Hread)) as [key Hkey].
  destruct (engine_command_total command) as [v Hv]. exists key, v. do 2 (split; [done|]).
  unfold run_ingress, bind, lift. rewrite Hread. unfold ingress_outbox_message. rewrite Hkey. cbn.
  unfold engine_command_outbox_message, EngineInputPublication_new, json. cbn. rewrite Hv. cbn.
  unfold enqueue_outbox_message, insert_outbox, next_outbox_id, bind, gets, modify, ret,
    outbox_duplicate_matches, throw. cbn.
  destruct (wallet_outbox db !! key) as [row|] eqn:Hrow; cbn; [|done]. rewrite Hrow. cbn.
  change (mkNewWalletOutboxMessage key topic None (engine_input_key command) "EngineCommand" v)
    with (ingress_message topic key command v).
  by destruct (row_matches _ row).
Qed.
End Ingress.

(** ** Examples *)

#[local] Existing Instance tagged_serde.
#[local] Existing Instance tagged_serde_laws.

Definition mark_price_1 : EngineCommand :=
  EngineCommand_MarkPriceUpdated
    (mkMarkPriceUpdatedInput (Some "mp-1") 7 (-5) 100 1710000000000 1710000000001 1710000009999 42 "LIVE").

Example mark_price_args : args_of mark_price_1 =
  ["mark-price"; "--input-id"; "mp-1"; "--market-id"; "7"; "--mark-price"; "-5"; "--index-price"; "100";
   "--source-timestamp-ms"; "1710000000000"; "--published-at-ms"; "1710000000001";
   "--valid-until-ms"; "1710000009999"; "--source-sequence"; "42"; "--source-status"; "LIVE"].
Proof. reflexivity. Qed.

Lemma ingress_args_roundtrip_witness :
  parse_engine_command_args (args_of mark_price_1) = Ok mark_price_1.
Proof.
  apply (ingress_args_roundtrip mark_price_1).
  - by exists mark_price_1.
  - repeat constructor; vm_compute; discriminate.
Defined.

Definition no_json (_ : string) : Result string EngineCommand := Err "no JSON".

Lemma mark_price_read : read_command no_json (args_of mark_price_1) EmptyString = Ok mark_price_1.
Proof. reflexivity. Qed.

Lemma ingress_queues_once_witness :
  exists key v, engine_command_dedupe_key mark_price_1 = Ok key /\
    engine_command_to_value mark_price_1 = Some v /\
    (run_ingress no_json (fun _ => EmptyString) 5 (args_of mark_price_1) EmptyString "engine.input" (empty_wallet {[1]})).1
      = Ok (Some 1).
Proof.
  pose proof (ingress_queues_once no_json (fun _ => EmptyString) 5
    (args_of mark_price_1) EmptyString "engine.input" mark_price_1 (empty_wallet {[1]})
    mark_price_read) as (key & v & Hk & Hv & H).
  exists key, v. split; [exact Hk|]. split; [exact Hv|]. revert H.
  destruct (run_ingress _ _ _ _ _ _ _) as [result db']. cbn [empty_wallet wallet_outbox].
  rewrite lookup_empty. intros [-> _]. reflexivity.
Defined.
