(* ===== verification/ProjectorMath.v ===== *)
(** * ProjectorMath: margins, prices and profits

    The integer functions of [apps/projector/src/repository.rs]: [i64] inputs,
    [i128] intermediates, division truncating towards zero. *)

From S2P Require Import Prelude Protocol.

Inductive SideType :=
| SideType_LONG
| SideType_SHORT.
#[export] Instance SideType_eq_dec : EqDecision SideType.
Proof. solve_decision. Defined.

Definition side_to_db (side : Side) : SideType :=
  match side with Side_LONG => SideType_LONG | Side_SHORT => SideType_SHORT end.
Definition opposite_side (side : Side) : SideType :=
  match side with Side_LONG => SideType_SHORT | Side_SHORT => SideType_LONG end.
Definition opposite_db_side (side : SideType) : SideType :=
  match side with SideType_LONG => SideType_SHORT | SideType_SHORT => SideType_LONG end.

(** ** [i128] *)

Definition i128_wrap (z : Z) : Z := (z - i128_min) mod 2 ^ 128 + i128_min.
Definition i128_saturating_mul (a b : Z) : Z := Z.max i128_min (Z.min i128_max (a * b)).

(** [Ord::clamp] *)
Definition clamp (value low high : Z) : Z :=
  if value <? low then low else if high <? value then high else value.

Definition clamp_i128_to_i64 (value : Z) : Z := clamp value i64_min i64_max.

Definition proportional_margin (source_margin source_quantity target_quantity : Z) : Z :=
  if (source_margin <=? 0) || (source_quantity <=? 0) || (target_quantity <=? 0) then 0
  else if source_quantity <=? target_quantity then source_margin
  else
    let margin := Z.quot (i128_wrap (source_margin * target_quantity)) source_quantity in
    clamp (clamp_i128_to_i64 margin) 1 source_margin.

Definition weighted_average_price (current_average current_quantity fill_price fill_quantity : Z)
    : Z :=
  let next_quantity := i64_wrap (current_quantity + fill_quantity) in
  if next_quantity <=? 0 then fill_price
  else
    let notional := i128_wrap (i128_wrap (current_average * current_quantity)
                               + i128_wrap (fill_price * fill_quantity)) in
    clamp_i128_to_i64 (Z.quot notional next_quantity).

Definition price_delta (side : SideType) (entry_price exit_price : Z) : Z :=
  match side with
  | SideType_LONG => exit_price - entry_price
  | SideType_SHORT => entry_price - exit_price
  end.

Definition realized_pnl (side : SideType) (entry_price exit_price quantity : Z) : Z :=
  clamp_i128_to_i64 (i128_saturating_mul (price_delta side entry_price exit_price) quantity).

Definition unrealized_pnl (side : SideType) (average_price mark_price quantity : Z) : Z :=
  if quantity <=? 0 then 0
  else clamp_i128_to_i64 (i128_saturating_mul (price_delta side average_price mark_price) quantity).

(** ** Lemmas *)

Lemma clamp_range value low high : low <= high -> low <= clamp value low high <= high.
Proof. intros. unfold clamp. repeat case_if; lia. Qed.

Lemma clamp_id value low high : low <= value <= high -> clamp value low high = value.
Proof. intros. unfold clamp. repeat case_if; lia. Qed.

Lemma clamp_i64_range value : in_i64 (clamp_i128_to_i64 value).
Proof. apply clamp_range. unfold i64_min, i64_max. lia. Qed.

Lemma clamp_i64_id value : in_i64 value -> clamp_i128_to_i64 value = value.
Proof. apply clamp_id. Qed.

Lemma i128_wrap_id z : in_i128 z -> i128_wrap z = z.
Proof.
  unfold in_i128, i128_wrap, i128_min, i128_max. intros. rewrite Z.mod_small by lia. lia.
Qed.

Lemma saturating_mul_id a b : in_i128 (a * b) -> i128_saturating_mul a b = a * b.
Proof. unfold in_i128, i128_saturating_mul. lia. Qed.

Lemma product_in_i128 a b : in_i64 a -> in_i64 b -> in_i128 (a * b).
Proof. unfold in_i64, in_i128, i64_min, i64_max, i128_min, i128_max. nia. Qed.

(** Below the whole, the share is the exact quotient, but at least one unit. *)
Lemma proportional_margin_part m q t :
  0 < m <= i64_max -> 0 < t < q -> q <= i64_max ->
  proportional_margin m q t = Z.max 1 (m * t / q).
Proof.
  intros Hm Ht Hq. unfold proportional_margin.
  destruct (Z.leb_spec m 0), (Z.leb_spec q 0), (Z.leb_spec t 0), (Z.leb_spec q t); try lia.
  cbn [orb]. rewrite i128_wrap_id by (apply product_in_i128; unfold in_i64, i64_min in *; lia).
  rewrite Z.quot_div_nonneg by nia.
  assert (0 <= m * t / q) by (apply Z.div_pos; nia).
  assert (m * t / q <= m) by (apply Z.div_le_upper_bound; nia).
  rewrite clamp_i64_id by (unfold in_i64, i64_min in *; lia).
  unfold clamp. repeat case_if; lia.
Qed.

Lemma proportional_margin_whole m q t :
  0 < m -> 0 < q <= t -> proportional_margin m q t = m.
Proof.
  intros. unfold proportional_margin.
  destruct (Z.leb_spec m 0), (Z.leb_spec q 0), (Z.leb_spec t 0), (Z.leb_spec q t); (lia || done).
Qed.

Lemma proportional_margin_none m q t :
  m <= 0 \/ q <= 0 \/ t <= 0 -> proportional_margin m q t = 0.
Proof.
  intros. unfold proportional_margin.
  destruct (Z.leb_spec m 0), (Z.leb_spec q 0), (Z.leb_spec t 0); (lia || done).
Qed.

Lemma proportional_margin_range m q t :
  m <= i64_max -> q <= i64_max -> 0 <= proportional_margin m q t <= Z.max 0 m.
Proof.
  intros Hm Hq. destruct (decide (m <= 0 \/ q <= 0 \/ t <= 0)) as [H|H].
  { rewrite proportional_margin_none by done. lia. }
  destruct (decide (q <= t)).
  { rewrite proportional_margin_whole by lia. lia. }
  rewrite proportional_margin_part by lia.
  assert (0 <= m * t / q) by (apply Z.div_pos; nia).
  assert (m * t / q <= m) by (apply Z.div_le_upper_bound; nia). lia.
Qed.

(** Claim C20 (bounds). The share of a margin is zero exactly when there is nothing
    to share, is otherwise between one unit and the whole, is the whole when
    the quantity is, never shrinks when the quantity grows, and differs from the
    exact proportion by less than one unit unless rounded up to one. *)
Theorem proportional_margin_bounds m q t t' :
  m <= i64_max -> q <= i64_max ->
  0 <= proportional_margin m q t <= Z.max 0 m /\
  (proportional_margin m q t = 0 <-> m <= 0 \/ q <= 0 \/ t <= 0) /\
  (0 < m -> 0 < q <= t -> proportional_margin m q t = m) /\
  (t <= t' -> proportional_margin m q t <= proportional_margin m q t') /\
  (0 < m -> 0 < t < q -> proportional_margin m q t = 1 \/
     m * t - q < proportional_margin m q t * q <= m * t).
Proof.
  intros Hm Hq. pose proof (proportional_margin_range m q t Hm Hq).
  pose proof (proportional_margin_range m q t' Hm Hq). split_and!; try lia.
  - split; [|apply proportional_margin_none]. intros H1.
    destruct (decide (m <= 0 \/ q <= 0 \/ t <= 0)); [done|].
    destruct (decide (q <= t)).
    + rewrite proportional_margin_whole in H1 by lia. lia.
    + rewrite proportional_margin_part in H1 by lia. lia.
  - intros. by apply proportional_margin_whole.
  - intros Hle. destruct (decide (m <= 0 \/ q <= 0 \/ t <= 0)).
    { rewrite (proportional_margin_none m q t) by done. lia. }
    destruct (decide (q <= t')).
    { rewrite (proportional_margin_whole m q t') by lia. lia. }
    rewrite !proportional_margin_part by lia.
    assert (m * t / q <= m * t' / q); [|lia]. apply Z.div_le_mono; nia.
  - intros. rewrite proportional_margin_part by lia.
    pose proof (Z.mul_div_le (m * t) q ltac:(lia)).
    pose proof (Z.mul_succ_div_gt (m * t) q ltac:(lia)). nia.
Qed.

(** Averaging an entry price with a fill never leaves the range
    of the two prices and never clamps, as long as the quantities are positive
    and their sum is an [i64]. *)
Theorem weighted_average_price_between average quantity price fill :
  0 <= average <= i64_max -> 0 <= price <= i64_max ->
  0 < quantity -> 0 < fill -> quantity + fill <= i64_max ->
  let next := weighted_average_price average quantity price fill in
  Z.min average price <= next <= Z.max average price /\
  next * (quantity + fill) <= average * quantity + price * fill
    < (next + 1) * (quantity + fill).
Proof.
  intros Ha Hp Hq Hf Hs. cbn zeta. unfold weighted_average_price.
  rewrite (i64_wrap_id (quantity + fill)) by (unfold in_i64, i64_min; lia).
  destruct (Z.leb_spec (quantity + fill) 0); [lia|].
  rewrite (i128_wrap_id (average * quantity))
    by (apply product_in_i128; unfold in_i64, i64_min; lia).
  rewrite (i128_wrap_id (price * fill)) by (apply product_in_i128; unfold in_i64, i64_min; lia).
  assert (average * quantity + price * fill <= i64_max * (quantity + fill)) as Hle by nia.
  rewrite i128_wrap_id by (unfold in_i128, i128_min, i128_max, i64_max in *; nia).
  rewrite Z.quot_div_nonneg by nia.
  set (n := average * quantity + price * fill) in *. set (s := quantity + fill) in *.
  assert (Z.min average price <= n / s) by (apply Z.div_le_lower_bound; unfold n, s; nia).
  assert (n / s <= Z.max average price).
  { apply Z.lt_succ_r, Z.div_lt_upper_bound; [lia|]. unfold n, s. nia. }
  rewrite clamp_i64_id by (unfold in_i64, i64_min, i64_max in *; lia).
  pose proof (Z.mul_div_le n s ltac:(lia)). pose proof (Z.mul_succ_div_gt n s ltac:(lia)).
  split; [lia|]. lia.
Qed.

Lemma realized_pnl_exact side entry exit quantity :
  in_i64 (price_delta side entry exit * quantity) ->
  realized_pnl side entry exit quantity = price_delta side entry exit * quantity.
Proof.
  intros H. unfold realized_pnl. rewrite saturating_mul_id, clamp_i64_id; [done|done|].
  revert H. unfold in_i64, in_i128, i64_min, i64_max, i128_min, i128_max. lia.
Qed.

(** While it fits an [i64], the profit of a position is the
    price difference times the quantity: what one side wins the other loses, a
    position closed in parts earns what it earns closed at once, and an open
    position marked at a price shows what closing it there would realize. *)
Theorem pnl_zero_sum entry exit q1 q2 side :
  0 < q1 -> 0 < q2 -> in_i64 ((exit - entry) * (q1 + q2)) -> in_i64 ((entry - exit) * (q1 + q2)) ->
  realized_pnl SideType_LONG entry exit q1 + realized_pnl SideType_SHORT entry exit q1 = 0 /\
  realized_pnl side entry exit (q1 + q2)
    = realized_pnl side entry exit q1 + realized_pnl side entry exit q2 /\
  unrealized_pnl side entry exit q1 = realized_pnl side entry exit q1.
Proof.
  intros H1 H2 Ha Hb.
  assert (forall s q, 0 < q <= q1 + q2 -> in_i64 (price_delta s entry exit * q)) as Hr.
  { intros s q Hq. unfold in_i64, i64_min, i64_max in *. destruct s; cbn; nia. }
  split_and!.
  - rewrite !realized_pnl_exact by (apply Hr; lia). cbn. lia.
  - rewrite !realized_pnl_exact by (apply Hr; lia). lia.
  - unfold unrealized_pnl, realized_pnl. by destruct (Z.leb_spec q1 0); [lia|].
Qed.

(** ** Examples *)

Lemma proportional_margin_bounds_witness :
  0 <= proportional_margin 100 3 1 <= Z.max 0 100 /\ proportional_margin 100 3 1 = 33.
Proof.
  split; [|reflexivity].
  exact (proj1 (proportional_margin_bounds 100 3 1 2 ltac:(unfold i64_max; lia)
                  ltac:(unfold i64_max; lia))).
Defined.

Lemma weighted_average_price_between_witness :
  Z.min 10 21 <= weighted_average_price 10 3 21 2 <= Z.max 10 21 /\
  weighted_average_price 10 3 21 2 = 14.
Proof.
  split; [|reflexivity].
  exact (proj1 (weighted_average_price_between 10 3 21 2 ltac:(unfold i64_max; lia)
                  ltac:(unfold i64_max; lia) ltac:(lia) ltac:(lia) ltac:(unfold i64_max; lia))).
Defined.

Lemma pnl_zero_sum_witness :
  realized_pnl SideType_LONG 10 15 2 + realized_pnl SideType_SHORT 10 15 2 = 0 /\
  realized_pnl SideType_LONG 10 15 2 = 10.
Proof.
  split; [|reflexivity].
  exact (proj1 (pnl_zero_sum 10 15 2 3 SideType_LONG ltac:(lia) ltac:(lia)
                  ltac:(unfold in_i64, i64_min, i64_max; lia)
                  ltac:(unfold in_i64, i64_min, i64_max; lia))).
Defined.
