(* ===== verification/ProjectorPositions.v ===== *)
(** * ProjectorPositions: what a fill does to a position

    The tables [positions], [closed_positions], [position_fills] and
    [closed_position_fills] and the functions of
    [apps/projector/src/repository.rs] that keep them, from
    [project_position_for_fill_in_tx] down. Times are milliseconds;
    [updated_at] and [closed_at] are not kept. *)

From S2P Require Import Prelude Protocol Postgres ProjectorMath.

Inductive DbOrderType :=
| DbOrderType_LIMIT
| DbOrderType_MARKET.
#[export] Instance DbOrderType_eq_dec : EqDecision DbOrderType.
Proof. solve_decision. Defined.

Inductive MarginType :=
| MarginType_ISOLATED
| MarginType_CROSS.

Inductive CloseType :=
| CloseType_TRADE
| CloseType_LIQUIDATION.

Definition close_type_from_execution_reason (execution_reason : ExecutionReason) : CloseType :=
  match execution_reason with
  | ExecutionReason_TRADE => CloseType_TRADE
  | ExecutionReason_LIQUIDATION => CloseType_LIQUIDATION
  end.

Record StoredOrderContext := mkStoredOrderContext {
  soc_reservation_id : option string;
  soc_request_id : string;
  soc_order_id : option Z;
  soc_user_id : Z;
  soc_market_id : Z;
  soc_market_name : string;
  soc_side : SideType;
  soc_order_type : DbOrderType;
  soc_quantity : Z;
  soc_price : Z;
  soc_margin : Z;
  soc_reduce_only : bool
}.

Record StoredPosition := mkStoredPosition {
  sp_position_id : Z;
  sp_side : SideType;
  sp_quantity : Z;
  sp_initial_margin : Z;
  sp_average_price : Z;
  sp_opened_at : Z;
  sp_open_order_id : option Z
}.

(** ** Tables *)

(** A row of [positions], without its unique pair (user, market). *)
Record PositionRow := mkPositionRow {
  ps_position_id : Z;
  ps_market_name : string;
  ps_side : SideType;
  ps_quantity : Z;
  ps_unrealized_pnl : Z;
  ps_initial_margin : Z;
  ps_maintenance_margin : Z;
  ps_margin_chosen : MarginType;
  ps_liquidation_price : Z;
  ps_average_price : Z;
  ps_opened_at : Z;
  ps_open_order_id : option Z
}.

(** A row of [closed_positions], without its id. *)
Record ClosedPositionRow := mkClosedPositionRow {
  cp_user_id : Z;
  cp_market_id : Z;
  cp_market_name : string;
  cp_side : SideType;
  cp_quantity : Z;
  cp_entry_price : Z;
  cp_exit_price : Z;
  cp_realized_pnl : Z;
  cp_initial_margin : Z;
  cp_closing_fee : Z;
  cp_opened_at : Z;
  cp_open_order_id : Z;
  cp_close_order_id : Z;
  cp_close_reason : CloseType
}.

Record PositionTables := mkPositionTables {
  positions : gmap (Z * Z) PositionRow;
  closed_positions : gmap Z ClosedPositionRow;
  (** pairs of a position id and a fill id *)
  position_fills : gset (Z * Z);
  closed_position_fills : gset (Z * Z);
  (** the value the next [nextval('projector_position_id_seq')] returns *)
  projector_position_id_seq : Z
}.

Definition set_positions (t : PositionTables) (m : gmap (Z * Z) PositionRow) : PositionTables :=
  mkPositionTables m (closed_positions t) (position_fills t) (closed_position_fills t)
    (projector_position_id_seq t).
Definition set_closed_positions (t : PositionTables) (m : gmap Z ClosedPositionRow)
    : PositionTables :=
  mkPositionTables (positions t) m (position_fills t) (closed_position_fills t)
    (projector_position_id_seq t).
Definition set_position_fills (t : PositionTables) (s : gset (Z * Z)) : PositionTables :=
  mkPositionTables (positions t) (closed_positions t) s (closed_position_fills t)
    (projector_position_id_seq t).
Definition set_closed_position_fills (t : PositionTables) (s : gset (Z * Z)) : PositionTables :=
  mkPositionTables (positions t) (closed_positions t) (position_fills t) s
    (projector_position_id_seq t).
Definition set_position_seq (t : PositionTables) (n : Z) : PositionTables :=
  mkPositionTables (positions t) (closed_positions t) (position_fills t)
    (closed_position_fills t) n.

Definition TM (A : Type) : Type := M PositionTables SqlError A.

(** What the foreign keys of these tables refer to. *)
Record Known := mkKnown {
  kn_users : gset Z;
  kn_markets : gset Z;
  kn_orders : gset Z;
  kn_fills : gset Z
}.

Definition check_fk {S} (b : bool) : M S SqlError unit :=
  if b then ret tt else throw ForeignKeyViolation.
Definition check_to_timestamp {S} (ms : Z) : M S SqlError unit :=
  if to_timestamp_ok ms then ret tt else throw NumericValueOutOfRange.

(** ** Statements *)

Definition next_projector_position_id_in_tx : TM Z :=
  let* position_id := gets projector_position_id_seq in
  do* modify (fun t => set_position_seq t (position_id + 1)) in
  ret position_id.

Definition has_position_id (position_id : Z) (m : gmap (Z * Z) PositionRow) : bool :=
  existsb (fun '(_, row) => ps_position_id row =? position_id) (map_to_list m).

Definition load_position_for_update_in_tx (user_id market_id : Z) : TM (option StoredPosition) :=
  let* row := gets (fun t => positions t !! (user_id, market_id)) in
  ret ((fun row => mkStoredPosition (ps_position_id row) (ps_side row) (ps_quantity row)
          (ps_initial_margin row) (ps_average_price row) (ps_opened_at row)
          (ps_open_order_id row)) <$> row).

(** [UPDATE positions SET ... WHERE position_id=$1] *)
Definition update_position (position_id : Z) (set : PositionRow -> PositionRow) : TM unit :=
  let* rows := gets positions in
  if existsb (fun '(_, row) => (ps_position_id row =? position_id) && (ps_quantity (set row) <=? 0))
       (map_to_list rows)
  then throw CheckViolation
  else modify (fun t => set_positions t
         ((fun row => if ps_position_id row =? position_id then set row else row)
          <$> positions t)).

Section WithKnown.
Variable known : Known.

Definition link_fill_to_open_position_in_tx (position_id fill_id : Z) : TM unit :=
  let* t := gets id in
  if bool_decide ((position_id, fill_id) ∈ position_fills t) then ret tt
  else
    do* check_fk (has_position_id position_id (positions t)) in
    do* check_fk (bool_decide (fill_id ∈ kn_fills known)) in
    modify (fun t => set_position_fills t ({[(position_id, fill_id)]} ∪ position_fills t)).

Definition link_fill_to_closed_position_in_tx (position_id fill_id : Z) : TM unit :=
  let* t := gets id in
  if bool_decide ((position_id, fill_id) ∈ closed_position_fills t) then ret tt
  else
    do* check_fk (bool_decide (is_Some (closed_positions t !! position_id))) in
    do* check_fk (bool_decide (fill_id ∈ kn_fills known)) in
    modify (fun t => set_closed_position_fills t
              ({[(position_id, fill_id)]} ∪ closed_position_fills t)).

Definition insert_open_position_in_tx (context : StoredOrderContext)
    (order_id fill_id quantity price initial_margin engine_timestamp_ms : Z) : TM unit :=
  let* position_id := next_projector_position_id_in_tx in
  do* check_to_timestamp engine_timestamp_ms in
  let k := (soc_user_id context, soc_market_id context) in
  let* rows := gets positions in
  if quantity <=? 0 then throw CheckViolation
  else if bool_decide (is_Some (rows !! k)) || has_position_id position_id rows
  then throw UniqueViolation
  else
    do* check_fk (bool_decide (soc_user_id context ∈ kn_users known)) in
    do* check_fk (bool_decide (soc_market_id context ∈ kn_markets known)) in
    do* check_fk (bool_decide (order_id ∈ kn_orders known)) in
    do* modify (fun t => set_positions t (<[k :=
          mkPositionRow position_id (soc_market_name context) (soc_side context) quantity 0
            initial_margin 0 MarginType_ISOLATED 0 price engine_timestamp_ms (Some order_id)]>
          (positions t))) in
    link_fill_to_open_position_in_tx position_id fill_id.

Definition increase_position_in_tx (position : StoredPosition)
    (fill_id quantity price added_margin : Z) : TM unit :=
  let next_quantity := i64_wrap (sp_quantity position + quantity) in
  let next_average_price :=
    weighted_average_price (sp_average_price position) (sp_quantity position) price quantity in
  do* update_position (sp_position_id position) (fun row =>
        mkPositionRow (ps_position_id row) (ps_market_name row) (ps_side row) next_quantity
          (ps_unrealized_pnl row) (i64_wrap (sp_initial_margin position + added_margin))
          (ps_maintenance_margin row) (ps_margin_chosen row) (ps_liquidation_price row)
          next_average_price (ps_opened_at row) (ps_open_order_id row)) in
  link_fill_to_open_position_in_tx (sp_position_id position) fill_id.

Definition insert_closed_position_in_tx (position : StoredPosition) (context : StoredOrderContext)
    (close_order_id fill_id quantity exit_price initial_margin engine_timestamp_ms : Z)
    (close_reason : CloseType) : TM Z :=
  let* closed_position_id := next_projector_position_id_in_tx in
  let open_order_id := default close_order_id (sp_open_order_id position) in
  let realized_pnl :=
    realized_pnl (sp_side position) (sp_average_price position) exit_price quantity in
  do* check_to_timestamp engine_timestamp_ms in
  let* rows := gets closed_positions in
  if quantity <=? 0 then throw CheckViolation
  else if bool_decide (is_Some (rows !! closed_position_id)) then throw UniqueViolation
  else
    do* check_fk (bool_decide (soc_user_id context ∈ kn_users known)) in
    do* check_fk (bool_decide (soc_market_id context ∈ kn_markets known)) in
    do* check_fk (bool_decide (open_order_id ∈ kn_orders known)) in
    do* check_fk (bool_decide (close_order_id ∈ kn_orders known)) in
    do* modify (fun t => set_closed_positions t (<[closed_position_id :=
          mkClosedPositionRow (soc_user_id context) (soc_market_id context)
            (soc_market_name context) (sp_side position) quantity (sp_average_price position)
            exit_price realized_pnl initial_margin 0 (sp_opened_at position) open_order_id
            close_order_id close_reason]> (closed_positions t))) in
    do* link_fill_to_closed_position_in_tx closed_position_id fill_id in
    ret closed_position_id.

(** [INSERT ... SELECT]: one row for each fill of the open position. *)
Definition transfer_open_position_fills_to_closed_in_tx
    (open_position_id closed_position_id : Z) : TM unit :=
  let* fills := gets position_fills in
  for_each (filter (fun '(position_id, _) => position_id = open_position_id) (elements fills))
    (fun '(_, fill_id) => link_fill_to_closed_position_in_tx closed_position_id fill_id).

(** The foreign key of [position_fills] is ON DELETE CASCADE. *)
Definition delete_open_position_in_tx (position_id : Z) : TM unit :=
  modify (fun t => set_position_fills
    (set_positions t (filter (fun '(_, row) => ps_position_id row <> position_id) (positions t)))
    (filter (fun '(id, _) => id <> position_id) (position_fills t))).

Definition reduce_or_reverse_position_in_tx (position : StoredPosition)
    (context : StoredOrderContext) (order_id fill_id price quantity engine_timestamp_ms : Z)
    (execution_reason : ExecutionReason) : TM unit :=
  let closed_quantity := Z.min (sp_quantity position) quantity in
  let closed_margin :=
    proportional_margin (sp_initial_margin position) (sp_quantity position) closed_quantity in
  let* closed_position_id :=
    insert_closed_position_in_tx position context order_id fill_id closed_quantity price
      closed_margin engine_timestamp_ms (close_type_from_execution_reason execution_reason) in
  if closed_quantity <? sp_quantity position then
    let remaining_quantity := i64_wrap (sp_quantity position - closed_quantity) in
    let remaining_margin := Z.max (i64_wrap (sp_initial_margin position - closed_margin)) 0 in
    do* check_to_timestamp engine_timestamp_ms in
    update_position (sp_position_id position) (fun row =>
      mkPositionRow (ps_position_id row) (ps_market_name row) (ps_side row) remaining_quantity
        (ps_unrealized_pnl row) remaining_margin (ps_maintenance_margin row)
        (ps_margin_chosen row) (ps_liquidation_price row) (ps_average_price row)
        (ps_opened_at row) (ps_open_order_id row))
  else
    do* transfer_open_position_fills_to_closed_in_tx (sp_position_id position)
          closed_position_id in
    do* delete_open_position_in_tx (sp_position_id position) in
    let reversal_quantity := i64_wrap (quantity - closed_quantity) in
    if 0 <? reversal_quantity then
      let reversal_margin :=
        proportional_margin (soc_margin context) (soc_quantity context) reversal_quantity in
      insert_open_position_in_tx context order_id fill_id reversal_quantity price
        reversal_margin engine_timestamp_ms
    else ret tt.

Definition project_position_for_fill_in_tx (context : StoredOrderContext)
    (order_id fill_id price quantity engine_timestamp_ms : Z)
    (execution_reason : ExecutionReason) : TM unit :=
  let* position := load_position_for_update_in_tx (soc_user_id context) (soc_market_id context) in
  match position with
  | None =>
      if soc_reduce_only context then ret tt
      else
        let initial_margin :=
          proportional_margin (soc_margin context) (soc_quantity context) quantity in
        insert_open_position_in_tx context order_id fill_id quantity price initial_margin
          engine_timestamp_ms
  | Some position =>
      if decide (sp_side position = soc_side context) then
        if soc_reduce_only context then ret tt
        else
          let added_margin :=
            proportional_margin (soc_margin context) (soc_quantity context) quantity in
          increase_position_in_tx position fill_id quantity price added_margin
      else
        reduce_or_reverse_position_in_tx position context order_id fill_id price quantity
          engine_timestamp_ms execution_reason
  end.
End WithKnown.

Definition refresh_position_pnl_for_market_in_tx (market_id mark_price engine_timestamp_ms : Z)
    : TM unit :=
  let* rows := gets (fun t =>
    filter (fun '((_, m), _) => m = market_id) (map_to_list (positions t))) in
  for_each rows (fun '(_, row) =>
    let unrealized_pnl :=
      unrealized_pnl (ps_side row) (ps_average_price row) mark_price (ps_quantity row) in
    do* check_to_timestamp engine_timestamp_ms in
    update_position (ps_position_id row) (fun r =>
      mkPositionRow (ps_position_id r) (ps_market_name r) (ps_side r) (ps_quantity r)
        unrealized_pnl (ps_initial_margin r) (ps_maintenance_margin r) (ps_margin_chosen r)
        (ps_liquidation_price r) (ps_average_price r) (ps_opened_at r) (ps_open_order_id r))).
