(* ===== verification/ProjectorPositionsTheorems.v ===== *)
(** * ProjectorPositionsTheorems: positions follow their fills

    The net exposure of an account in a market is a signed quantity; the tables
    refine the reference function [net_after] on it. *)

From S2P Require Import Prelude Protocol Postgres ProjectorMath ProjectorPositions.

(** ** The specification *)

Definition signed (side : SideType) (quantity : Z) : Z :=
  match side with SideType_LONG => quantity | SideType_SHORT => - quantity end.

Definition row_net (row : PositionRow) : Z := signed (ps_side row) (ps_quantity row).
Definition net (k : Z * Z) (t : PositionTables) : Z :=
  match positions t !! k with Some row => row_net row | None => 0 end.

(** A reduce-only order only trades against an opposite position. *)
Definition net_after (context : StoredOrderContext) (quantity n : Z) : Z :=
  let s := signed (soc_side context) quantity in
  if soc_reduce_only context && (0 <=? n * s) then n else n + s.

Definition context_key (context : StoredOrderContext) : Z * Z :=
  (soc_user_id context, soc_market_id context).

(** ** Invariants *)

Record positions_wf (t : PositionTables) : Prop := {
  pw_quantity k row : positions t !! k = Some row -> 0 < ps_quantity row <= i64_max;
  pw_ids k1 k2 row1 row2 : positions t !! k1 = Some row1 -> positions t !! k2 = Some row2 ->
    ps_position_id row1 = ps_position_id row2 -> k1 = k2;
  pw_below k row : positions t !! k = Some row -> ps_position_id row < projector_position_id_seq t;
  pw_closed id row : closed_positions t !! id = Some row -> id < projector_position_id_seq t
}.

(** The foreign keys of the tables. *)
Record positions_known (known : Known) (t : PositionTables) : Prop := {
  pk_orders k row id : positions t !! k = Some row -> ps_open_order_id row = Some id ->
    id ∈ kn_orders known;
  pk_fills position_id fill_id : (position_id, fill_id) ∈ position_fills t ->
    fill_id ∈ kn_fills known
}.

(** What the projector has made sure of before it projects a fill. *)
Record fill_known (known : Known) (context : StoredOrderContext) (order_id fill_id : Z) : Prop := {
  fk_user : soc_user_id context ∈ kn_users known;
  fk_market : soc_market_id context ∈ kn_markets known;
  fk_order : order_id ∈ kn_orders known;
  fk_fill : fill_id ∈ kn_fills known
}.

(** ** Statements *)

Lemma has_position_id_true id m :
  has_position_id id m = true <-> exists k row, m !! k = Some row /\ ps_position_id row = id.
Proof.
  unfold has_position_id. rewrite existsb_exists. split.
  - intros ([k row] & Hin & He). split_bool. exists k, row. split; [|done].
    by apply elem_of_map_to_list, list_elem_of_In.
  - intros (k & row & Hk & <-). exists (k, row). rewrite Z.eqb_refl. split; [|done].
    by apply list_elem_of_In, elem_of_map_to_list.
Qed.

Lemma update_position_eq t k row set :
  positions_wf t -> positions t !! k = Some row ->
  update_position (ps_position_id row) set t
    = if ps_quantity (set row) <=? 0 then (Err CheckViolation, t)
      else (Ok tt, set_positions t (<[k := set row]> (positions t))).
Proof.
  intros Hwf Hk. unfold update_position, bind, gets, modify, throw.
  assert (existsb (fun '(_, r) => (ps_position_id r =? ps_position_id row)
            && (ps_quantity (set r) <=? 0)) (map_to_list (positions t))
          = (ps_quantity (set row) <=? 0)) as ->.
  { apply eq_iff_eq_true. rewrite existsb_exists. split.
    - intros ([k' r] & Hin%list_elem_of_In%elem_of_map_to_list & He). split_bool.
      pose proof (pw_ids _ Hwf k' k r row Hin Hk ltac:(done)) as ->.
      rewrite Hk in Hin. injection Hin as ->. by apply Z.leb_le.
    - intros He. exists (k, row). rewrite Z.eqb_refl, He. split; [|done].
      by apply list_elem_of_In, elem_of_map_to_list. }
  case_if; [done|]. do 3 f_equal. apply map_eq. intros k'. rewrite lookup_fmap.
  destruct (decide (k' = k)) as [->|Hne].
  - rewrite lookup_insert_eq, Hk. cbn. by rewrite Z.eqb_refl.
  - rewrite lookup_insert_ne by done. destruct (positions t !! k') as [r|] eqn:Hk'; [|done].
    cbn. case_if; [|done]. exfalso. by apply Hne, (pw_ids _ Hwf k' k r row).
Qed.

Lemma set_closed_position_fills_id t :
  set_closed_position_fills t (closed_position_fills t) = t.
Proof. by destruct t. Qed.
Lemma set_position_fills_id t : set_position_fills t (position_fills t) = t.
Proof. by destruct t. Qed.

Section WithKnown.
Context {known : Known}.
#[local] Abbreviation link_open := (link_fill_to_open_position_in_tx known).
#[local] Abbreviation link_closed := (link_fill_to_closed_position_in_tx known).

Lemma check_fk_run {S} (b : bool) (s : S) : b = true -> check_fk b s = (Ok tt, s).
Proof. by intros ->. Qed.

Lemma check_to_timestamp_run {S} ms (s : S) :
  to_timestamp_ok ms = true -> check_to_timestamp ms s = (Ok tt, s).
Proof. unfold check_to_timestamp. by intros ->. Qed.

Lemma link_open_run t position_id fill_id :
  has_position_id position_id (positions t) = true -> fill_id ∈ kn_fills known ->
  link_open position_id fill_id t
    = (Ok tt, set_position_fills t ({[(position_id, fill_id)]} ∪ position_fills t)).
Proof.
  intros Hp Hf. unfold link_fill_to_open_position_in_tx, bind, gets, ret.
  case_bool_decide as Hin.
  - f_equal. rewrite (subseteq_union_1_L {[_]}) by set_solver. by rewrite set_position_fills_id.
  - cbn [id]. rewrite Hp. cbn. by rewrite bool_decide_true.
Qed.

Lemma link_closed_run t position_id fill_id :
  is_Some (closed_positions t !! position_id) -> fill_id ∈ kn_fills known ->
  link_closed position_id fill_id t
    = (Ok tt, set_closed_position_fills t
                ({[(position_id, fill_id)]} ∪ closed_position_fills t)).
Proof.
  intros Hp Hf. unfold link_fill_to_closed_position_in_tx, bind, gets, ret.
  case_bool_decide as Hin.
  - f_equal. rewrite (subseteq_union_1_L {[_]}) by set_solver.
    by rewrite set_closed_position_fills_id.
  - cbn [id]. rewrite (bool_decide_true (is_Some _)) by done. cbn. by rewrite bool_decide_true.
Qed.

Lemma transfer_run t position_id closed_id :
  is_Some (closed_positions t !! closed_id) -> positions_known known t ->
  exists s, transfer_open_position_fills_to_closed_in_tx known position_id closed_id t
    = (Ok tt, set_closed_position_fills t s) /\
    forall f, (position_id, f) ∈ position_fills t -> (closed_id, f) ∈ s.
Proof.
  intros Hc Hk. unfold transfer_open_position_fills_to_closed_in_tx, bind, gets.
  assert (forall l, (forall pf : Z * Z, pf ∈ l -> snd pf ∈ kn_fills known) ->
    forall t, is_Some (closed_positions t !! closed_id) ->
    exists s, for_each l (fun '(_, fill_id) => link_closed closed_id fill_id) t
      = (Ok tt, set_closed_position_fills t s) /\ closed_position_fills t ⊆ s /\
      forall pf : Z * Z, pf ∈ l -> (closed_id, snd pf) ∈ s) as Hl.
  { clear t Hc Hk. induction l as [|[p f] l IH]; intros Hfills t Hc.
    - exists (closed_position_fills t). rewrite set_closed_position_fills_id.
      split_and!; [done|done|]. intros pf ?%elem_of_nil. done.
    - cbn [for_each]. pose proof (Hfills (p, f) ltac:(set_solver)) as Hf.
      pose proof (link_closed_run t closed_id f Hc Hf) as Hrun.
      destruct (IH ltac:(set_solver)
        (set_closed_position_fills t ({[(closed_id, f)]} ∪ closed_position_fills t)) Hc)
        as (s & Hs & Hsub & Hin).
      exists s. cbn beta iota zeta. rewrite (bind_run _ _ _ _ _ Hrun). rewrite Hs. cbn in *. set_solver. }
  destruct (Hl (filter (fun '(p, _) => p = position_id) (elements (position_fills t)))) with (t := t)
    as (s & Hs & _ & Hin); [|done|].
  - intros [p f] [_ Hpf%elem_of_elements]%list_elem_of_filter. by apply (pk_fills _ _ Hk p).
  - exists s. split; [exact Hs|]. intros f Hf. apply (Hin (position_id, f)).
    apply list_elem_of_filter. split; [done|]. by apply elem_of_elements.
Qed.

Lemma positions_wf_insert t t' k row :
  positions_wf t -> positions t' = <[k := row]> (positions t) ->
  0 < ps_quantity row <= i64_max ->
  (forall k2 row2, k2 <> k -> positions t !! k2 = Some row2 ->
     ps_position_id row2 <> ps_position_id row) ->
  ps_position_id row < projector_position_id_seq t' ->
  projector_position_id_seq t <= projector_position_id_seq t' ->
  (forall id c, closed_positions t' !! id = Some c -> id < projector_position_id_seq t') ->
  positions_wf t'.
Proof.
  intros Hwf Hp Hq Hfresh Hid Hseq Hclosed. split; rewrite ?Hp; [..|done].
  - intros k2 r [[_ <-]|[_ ?]]%lookup_insert_Some; [done|]. by eapply (pw_quantity _ Hwf).
  - intros k1 k2 r1 r2 [[<- <-]|[Hn1 Hr1]]%lookup_insert_Some [[<- <-]|[Hn2 Hr2]]%lookup_insert_Some.
    + done.
    + intros He. by destruct (Hfresh k2 r2).
    + intros He. by destruct (Hfresh k1 r1).
    + by eapply (pw_ids _ Hwf).
  - intros k2 r [[_ <-]|[_ Hr]]%lookup_insert_Some; [done|].
    pose proof (pw_below _ Hwf k2 r Hr). lia.
Qed.

Definition opened_row (context : StoredOrderContext)
    (position_id order_id quantity price initial_margin engine_timestamp_ms : Z) : PositionRow :=
  mkPositionRow position_id (soc_market_name context) (soc_side context) quantity 0
    initial_margin 0 MarginType_ISOLATED 0 price engine_timestamp_ms (Some order_id).

Lemma insert_open_run t context order_id fill_id quantity price margin ts :
  positions_wf t -> positions_known known t -> fill_known known context order_id fill_id ->
  to_timestamp_ok ts = true -> 0 < quantity <= i64_max ->
  positions t !! context_key context = None ->
  exists t', insert_open_position_in_tx known context order_id fill_id quantity price margin ts t
      = (Ok tt, t') /\ positions_wf t' /\ positions_known known t' /\
    positions t' = <[context_key context := opened_row context (projector_position_id_seq t)
                       order_id quantity price margin ts]> (positions t) /\
    closed_positions t' = closed_positions t.
Proof.
  intros Hwf Hkn [Hu Hm Ho Hf] Hts Hq Hk.
  set (n := projector_position_id_seq t).
  set (row := opened_row context n order_id quantity price margin ts).
  set (t1 := set_positions (set_position_seq t (n + 1)) (<[context_key context := row]> (positions t))).
  assert (has_position_id n (positions t) = false) as Hfresh.
  { apply not_true_iff_false. intros (k & r & Hr & He)%has_position_id_true.
    pose proof (pw_below _ Hwf k r Hr). lia. }
  assert (has_position_id n (positions t1) = true) as Hnew.
  { apply has_position_id_true. exists (context_key context), row. split; [|done].
    apply lookup_insert_eq. }
  exists (set_position_fills t1 ({[(n, fill_id)]} ∪ position_fills t)). split_and!.
  - unfold insert_open_position_in_tx, next_projector_position_id_in_tx.
    unfold bind, gets, modify, ret. rewrite check_to_timestamp_run by done.
    cbn [set_position_seq positions]. fold n. destruct (Z.leb_spec quantity 0); [lia|].
    change (soc_user_id context, soc_market_id context) with (context_key context).
    rewrite Hk, Hfresh, bool_decide_false by (by intros []). cbn [orb].
    rewrite !check_fk_run by (by apply bool_decide_true).
    exact (link_open_run t1 n fill_id Hnew Hf).
  - apply (positions_wf_insert t _ (context_key context) row); cbn; try done; try lia.
    + intros k2 r2 _ Hr2. pose proof (pw_below _ Hwf k2 r2 Hr2). fold n. lia.
    + intros id c Hc. pose proof (pw_closed _ Hwf id c Hc). lia.
  - split; cbn.
    + intros k r id [[_ <-]|[_ Hr]]%lookup_insert_Some.
      * by intros [= <-].
      * by apply (pk_orders _ _ Hkn k).
    + intros p f Hpf. apply elem_of_union in Hpf as [[= -> ->]%elem_of_singleton|Hpf]; [done|].
      by apply (pk_fills _ _ Hkn p).
  - done.
  - done.
Qed.

(** Rewriting the row at [k] without touching its id. *)
Lemma positions_wf_replace t k row row' :
  positions_wf t -> positions t !! k = Some row -> ps_position_id row' = ps_position_id row ->
  0 < ps_quantity row' <= i64_max ->
  positions_wf (set_positions t (<[k := row']> (positions t))).
Proof.
  intros Hwf Hk Hid Hq. apply (positions_wf_insert t _ k row'); cbn; try done; try lia.
  - intros k2 r2 Hne Hr2 He. apply Hne. apply (pw_ids _ Hwf k2 k r2 row); congruence.
  - rewrite Hid. by apply (pw_below _ Hwf k).
  - apply (pw_closed _ Hwf).
Qed.

Lemma positions_known_replace t k row row' :
  positions_known known t -> positions t !! k = Some row ->
  ps_open_order_id row' = ps_open_order_id row ->
  positions_known known (set_positions t (<[k := row']> (positions t))).
Proof.
  intros Hkn Hk Ho. split; cbn; [|apply (pk_fills _ _ Hkn)].
  intros k2 r id [[_ <-]|[_ Hr]]%lookup_insert_Some; [rewrite Ho|]; by eapply (pk_orders _ _ Hkn).
Qed.

Definition stored (row : PositionRow) : StoredPosition :=
  mkStoredPosition (ps_position_id row) (ps_side row) (ps_quantity row) (ps_initial_margin row)
    (ps_average_price row) (ps_opened_at row) (ps_open_order_id row).

(** The row a position grows into, and the one part of it leaves. *)
Definition increased_row (row : PositionRow) (quantity price added_margin : Z) : PositionRow :=
  mkPositionRow (ps_position_id row) (ps_market_name row) (ps_side row)
    (ps_quantity row + quantity) (ps_unrealized_pnl row)
    (i64_wrap (ps_initial_margin row + added_margin)) (ps_maintenance_margin row)
    (ps_margin_chosen row) (ps_liquidation_price row)
    (weighted_average_price (ps_average_price row) (ps_quantity row) price quantity)
    (ps_opened_at row) (ps_open_order_id row).
Definition reduced_row (row : PositionRow) (quantity margin : Z) : PositionRow :=
  mkPositionRow (ps_position_id row) (ps_market_name row) (ps_side row)
    (ps_quantity row - quantity) (ps_unrealized_pnl row) margin (ps_maintenance_margin row)
    (ps_margin_chosen row) (ps_liquidation_price row) (ps_average_price row)
    (ps_opened_at row) (ps_open_order_id row).

(** The row a fill adds to [closed_positions] when it meets an opposite position. *)
Definition closed_row (row : PositionRow) (context : StoredOrderContext)
    (order_id price quantity : Z) (reason : ExecutionReason) : ClosedPositionRow :=
  let q := Z.min (ps_quantity row) quantity in
  mkClosedPositionRow (soc_user_id context) (soc_market_id context) (soc_market_name context)
    (ps_side row) q (ps_average_price row) price
    (realized_pnl (ps_side row) (ps_average_price row) price q)
    (proportional_margin (ps_initial_margin row) (ps_quantity row) q) 0 (ps_opened_at row)
    (default order_id (ps_open_order_id row)) order_id (close_type_from_execution_reason reason).

Lemma increase_run t k row fill_id quantity price margin :
  positions_wf t -> positions_known known t -> fill_id ∈ kn_fills known ->
  positions t !! k = Some row -> 0 < quantity -> ps_quantity row + quantity <= i64_max ->
  let t1 := set_positions t (<[k := increased_row row quantity price margin]> (positions t)) in
  increase_position_in_tx known (stored row) fill_id quantity price margin t
    = (Ok tt, set_position_fills t1 ({[(ps_position_id row, fill_id)]} ∪ position_fills t)).
Proof.
  intros Hwf Hkn Hf Hk Hq Hmax t1. unfold increase_position_in_tx. cbn [stored sp_position_id
    sp_quantity sp_initial_margin sp_average_price].
  pose proof (pw_quantity _ Hwf k row Hk). unfold bind.
  rewrite (update_position_eq t k row _ Hwf Hk). cbn [ps_quantity].
  rewrite i64_wrap_id by (unfold in_i64, i64_min in *; lia).
  destruct (Z.leb_spec (ps_quantity row + quantity) 0); [lia|].
  apply (link_open_run t1); [|done].
  apply has_position_id_true. exists k, (increased_row row quantity price margin).
  split; [apply lookup_insert_eq|done].
Qed.

Lemma insert_closed_run t k row context order_id fill_id price quantity ts reason :
  positions_wf t -> positions_known known t -> fill_known known context order_id fill_id ->
  to_timestamp_ok ts = true -> positions t !! k = Some row -> 0 < quantity ->
  let n := projector_position_id_seq t in
  let q := Z.min (ps_quantity row) quantity in
  let c := closed_row row context order_id price quantity reason in
  insert_closed_position_in_tx known (stored row) context order_id fill_id q price
      (proportional_margin (ps_initial_margin row) (ps_quantity row) q) ts
      (close_type_from_execution_reason reason) t
    = (Ok n, mkPositionTables (positions t) (<[n := c]> (closed_positions t)) (position_fills t)
               ({[(n, fill_id)]} ∪ closed_position_fills t) (n + 1)).
Proof.
  intros Hwf Hkn [Hu Hm Ho Hf] Hts Hk Hq n q c.
  pose proof (pw_quantity _ Hwf k row Hk).
  assert (closed_positions t !! n = None) as Hn.
  { apply eq_None_not_Some. intros [r Hr]. pose proof (pw_closed _ Hwf n r Hr). lia. }
  assert (default order_id (ps_open_order_id row) ∈ kn_orders known) as Hopen.
  { destruct (ps_open_order_id row) eqn:E; [|done]. by apply (pk_orders _ _ Hkn k row). }
  unfold insert_closed_position_in_tx, next_projector_position_id_in_tx.
  unfold bind at 1 2 3. unfold gets, modify, ret. unfold bind at 1.
  rewrite check_to_timestamp_run by done. unfold bind at 1. cbn [set_position_seq closed_positions].
  fold n. destruct (Z.leb_spec q 0); [lia|].
  rewrite Hn, bool_decide_false by (by intros []).
  cbn [stored sp_open_order_id sp_side sp_average_price sp_opened_at].
  unfold bind at 1. rewrite check_fk_run by (by apply bool_decide_true).
  unfold bind at 1. rewrite check_fk_run by (by apply bool_decide_true).
  unfold bind at 1. rewrite check_fk_run by (by apply bool_decide_true).
  unfold bind at 1. rewrite check_fk_run by (by apply bool_decide_true).
  unfold bind at 1. unfold bind.
  rewrite link_closed_run; [done| |done]. cbn. rewrite lookup_insert_eq. eauto.
Qed.

(** Deleting the row at [k]. *)
Lemma delete_open_run t k row :
  positions_wf t -> positions t !! k = Some row ->
  exists pf, delete_open_position_in_tx (ps_position_id row) t
    = (Ok tt, set_position_fills (set_positions t (delete k (positions t))) pf) /\
    pf ⊆ position_fills t.
Proof.
  intros Hwf Hk. exists (filter (fun '(id, _) => id <> ps_position_id row) (position_fills t)).
  split; [|set_solver].
  unfold delete_open_position_in_tx, modify. do 3 f_equal. apply map_eq. intros k'.
  destruct (decide (k' = k)) as [->|Hne].
  - rewrite lookup_delete_eq. apply map_lookup_filter_None. right. intros r Hr. cbn.
    rewrite Hk in Hr. injection Hr as <-. by intros [].
  - rewrite lookup_delete_ne by done. destruct (positions t !! k') as [r|] eqn:Hr.
    + apply map_lookup_filter_Some. split; [done|]. cbn. intros He.
      by apply Hne, (pw_ids _ Hwf k' k r row).
    + apply map_lookup_filter_None. by left.
Qed.

(** What is left of a position after a fill on the other side. *)
Definition left_after (t : PositionTables) (row : PositionRow) (context : StoredOrderContext)
    (order_id price quantity ts : Z) : option PositionRow :=
  if quantity <? ps_quantity row then
    Some (reduced_row row quantity
            (Z.max (i64_wrap (ps_initial_margin row -
               proportional_margin (ps_initial_margin row) (ps_quantity row) quantity)) 0))
  else if ps_quantity row <? quantity then
    Some (opened_row context (projector_position_id_seq t + 1) order_id
            (quantity - ps_quantity row) price
            (proportional_margin (soc_margin context) (soc_quantity context)
               (quantity - ps_quantity row)) ts)
  else None.

Lemma reduce_run t row context order_id fill_id price quantity ts reason :
  positions_wf t -> positions_known known t -> fill_known known context order_id fill_id ->
  to_timestamp_ok ts = true -> positions t !! context_key context = Some row ->
  0 < quantity <= i64_max ->
  exists t', reduce_or_reverse_position_in_tx known (stored row) context order_id fill_id price
      quantity ts reason t = (Ok tt, t') /\
    positions_wf t' /\ positions_known known t' /\
    positions t' !! context_key context = left_after t row context order_id price quantity ts /\
    (forall k, k <> context_key context -> positions t' !! k = positions t !! k) /\
    closed_positions t' = <[projector_position_id_seq t :=
      closed_row row context order_id price quantity reason]> (closed_positions t).
Proof.
  intros Hwf Hkn Hfk Hts Hk Hq. set (k := context_key context) in *.
  set (n := projector_position_id_seq t). pose proof (pw_quantity _ Hwf k row Hk) as Hrow.
  set (c := closed_row row context order_id price quantity reason).
  set (t1 := mkPositionTables (positions t) (<[n := c]> (closed_positions t)) (position_fills t)
               ({[(n, fill_id)]} ∪ closed_position_fills t) (n + 1)).
  assert (positions_wf t1) as Hwf1.
  { split; cbn.
    - apply (pw_quantity _ Hwf).
    - apply (pw_ids _ Hwf).
    - intros k' r Hr. pose proof (pw_below _ Hwf k' r Hr). fold n in H. lia.
    - intros id c' [[<- _]|[_ Hc]]%lookup_insert_Some; [lia|].
      pose proof (pw_closed _ Hwf id c' Hc). fold n in H. lia. }
  assert (positions_known known t1) as Hkn1.
  { split; cbn; [apply (pk_orders _ _ Hkn)|apply (pk_fills _ _ Hkn)]. }
  unfold reduce_or_reverse_position_in_tx, left_after.
  cbn [stored sp_quantity sp_initial_margin sp_position_id].
  rewrite (bind_run _ _ _ _ _ (insert_closed_run t k row context order_id fill_id price quantity ts
             reason Hwf Hkn Hfk Hts Hk ltac:(lia))).
  fold n c. fold t1.
  destruct (Z.ltb_spec quantity (ps_quantity row)) as [Hlt|Hge].
  - rewrite Z.min_r by lia. destruct (Z.ltb_spec quantity (ps_quantity row)); [|lia].
    unfold bind. rewrite check_to_timestamp_run by done.
    rewrite (update_position_eq t1 k row _ Hwf1 Hk). cbn [ps_quantity].
    rewrite (i64_wrap_id (ps_quantity row - quantity)) by (unfold in_i64, i64_min, i64_max in *; lia).
    destruct (Z.leb_spec (ps_quantity row - quantity) 0); [lia|]. eexists. split; [reflexivity|].
    split_and!.
    + apply (positions_wf_replace t1 k row); cbn; try done; lia.
    + by apply (positions_known_replace t1 k row).
    + cbn. by rewrite lookup_insert_eq.
    + intros k' Hne. cbn. by rewrite lookup_insert_ne.
    + done.
  - rewrite Z.min_l by lia. rewrite Z.ltb_irrefl.
    destruct (transfer_run t1 (ps_position_id row) n) as (s & Hs & _);
      [cbn; rewrite lookup_insert_eq; eauto|done|].
    rewrite (bind_run _ _ _ _ _ Hs). set (t2 := set_closed_position_fills t1 s).
    destruct (delete_open_run t2 k row) as (pf & Hpf & Hsub); [by destruct Hwf1|done|].
    rewrite (bind_run _ _ _ _ _ Hpf).
    set (t3 := set_position_fills (set_positions t2 (delete k (positions t2))) pf).
    assert (positions_wf t3) as Hwf3.
    { split; cbn.
      - intros k' r [_ Hr]%lookup_delete_Some. by eapply (pw_quantity _ Hwf).
      - intros k1 k2 r1 r2 [_ Hr1]%lookup_delete_Some [_ Hr2]%lookup_delete_Some.
        by apply (pw_ids _ Hwf).
      - intros k' r [_ Hr]%lookup_delete_Some. by apply (pw_below _ Hwf1 k').
      - apply (pw_closed _ Hwf1). }
    assert (positions_known known t3) as Hkn3.
    { split; cbn.
      - intros k' r id [_ Hr]%lookup_delete_Some. by apply (pk_orders _ _ Hkn k').
      - intros p f Hp%Hsub. by apply (pk_fills _ _ Hkn p). }
    rewrite i64_wrap_id by (unfold in_i64, i64_min, i64_max in *; lia).
    destruct (Z.ltb_spec 0 (quantity - ps_quantity row)) as [Hrev|Hrev].
    + destruct (Z.ltb_spec (ps_quantity row) quantity); [|lia].
      destruct (insert_open_run t3 context order_id fill_id
        (quantity - ps_quantity row) price (proportional_margin (soc_margin context)
        (soc_quantity context) (quantity - ps_quantity row)) ts) as (t' & Hrun & Hwf' & Hkn' & Hp & Hc);
        try done; [lia|apply lookup_delete_eq|].
      exists t'. split; [exact Hrun|]. split_and!; [done|done|..].
      * rewrite Hp. by rewrite lookup_insert_eq.
      * intros k' Hne. rewrite Hp, lookup_insert_ne by done. cbn. by rewrite lookup_delete_ne.
      * by rewrite Hc.
    + destruct (Z.ltb_spec (ps_quantity row) quantity); [lia|].
      exists t3. split; [done|]. split_and!; [done|done|..].
      * apply lookup_delete_eq.
      * intros k' Hne. cbn. by rewrite lookup_delete_ne.
      * done.
Qed.

Definition position_after (t : PositionTables) (context : StoredOrderContext)
    (order_id price quantity ts : Z) : option PositionRow :=
  match positions t !! context_key context with
  | None =>
      if soc_reduce_only context then None
      else Some (opened_row context (projector_position_id_seq t) order_id quantity price
                   (proportional_margin (soc_margin context) (soc_quantity context) quantity) ts)
  | Some row =>
      if decide (ps_side row = soc_side context) then
        if soc_reduce_only context then Some row
        else Some (increased_row row quantity price
                     (proportional_margin (soc_margin context) (soc_quantity context) quantity))
      else left_after t row context order_id price quantity ts
  end.

Definition closed_after (t : PositionTables) (context : StoredOrderContext)
    (order_id price quantity : Z) (reason : ExecutionReason) : gmap Z ClosedPositionRow :=
  match positions t !! context_key context with
  | None => closed_positions t
  | Some row =>
      if decide (ps_side row = soc_side context) then closed_positions t
      else <[projector_position_id_seq t := closed_row row context order_id price quantity reason]>
             (closed_positions t)
  end.

(** What a fill makes of the tables. *)
Record fill_outcome (context : StoredOrderContext) (order_id price quantity ts : Z)
    (reason : ExecutionReason) (t t' : PositionTables) : Prop := {
  fo_wf : positions_wf t';
  fo_known : positions_known known t';
  fo_row : positions t' !! context_key context = position_after t context order_id price quantity ts;
  fo_others k : k <> context_key context -> positions t' !! k = positions t !! k;
  fo_closed : closed_positions t' = closed_after t context order_id price quantity reason
}.

(** Growing a position stays within a BIGINT. *)
Definition room (t : PositionTables) (context : StoredOrderContext) (quantity : Z) : Prop :=
  forall row, positions t !! context_key context = Some row -> ps_side row = soc_side context ->
    soc_reduce_only context = false -> ps_quantity row + quantity <= i64_max.

Lemma project_fill_run t context order_id fill_id price quantity ts reason :
  positions_wf t -> positions_known known t -> fill_known known context order_id fill_id ->
  to_timestamp_ok ts = true -> 0 < quantity <= i64_max -> room t context quantity ->
  exists t', project_position_for_fill_in_tx known context order_id fill_id price quantity ts reason t
      = (Ok tt, t') /\ fill_outcome context order_id price quantity ts reason t t'.
Proof.
  intros Hwf Hkn Hfk Hts Hq Hroom.
  assert (fill_outcome context order_id price quantity ts reason t t <->
    positions t !! context_key context = position_after t context order_id price quantity ts /\
    closed_positions t = closed_after t context order_id price quantity reason) as Hskip.
  { split; [by intros []|]. by intros []. }
  unfold project_position_for_fill_in_tx, load_position_for_update_in_tx, bind at 1 2, gets, ret.
  change (soc_user_id context, soc_market_id context) with (context_key context).
  unfold room in Hroom. unfold position_after, closed_after in *.
  destruct (positions t !! context_key context) as [row|] eqn:Hk; cbn [fmap option_fmap option_map].
  2: { destruct (soc_reduce_only context) eqn:Hro; [exists t; split; [done|by apply Hskip]|].
    destruct (insert_open_run t context order_id fill_id quantity price
      (proportional_margin (soc_margin context) (soc_quantity context) quantity) ts)
      as (t' & Hrun & Hwf' & Hkn' & Hp & Hc); try done.
    exists t'. split; [exact Hrun|]. split; try done; unfold position_after, closed_after; rewrite ?Hk, ?Hro.
    - rewrite Hp. by rewrite lookup_insert_eq.
    - intros k Hne. rewrite Hp. by rewrite lookup_insert_ne.
    - done. }
  cbn [sp_side]. pose proof (pw_quantity _ Hwf _ row Hk) as Hrow.
  destruct (decide (ps_side row = soc_side context)) as [Hs|Hs].
  - destruct (soc_reduce_only context) eqn:Hro; [exists t; split; [done|by apply Hskip]|].
    pose proof (Hroom row eq_refl Hs eq_refl).
    eexists. split; [eapply (increase_run t (context_key context) row); try done; [apply Hfk|lia]|].
    set (row' := increased_row row quantity price
           (proportional_margin (soc_margin context) (soc_quantity context) quantity)).
    assert (positions_wf (set_positions t (<[context_key context := row']> (positions t)))) as Hwf'.
    { apply (positions_wf_replace t _ row); cbn; try done; lia. }
    split; unfold position_after, closed_after; rewrite ?Hk, ?decide_True, ?Hro by done.
    + by destruct Hwf'.
    + split; cbn.
      * pose proof (positions_known_replace t _ row row' Hkn Hk eq_refl) as Hkn'.
        apply (pk_orders _ _ Hkn').
      * intros p f [[= -> ->]%elem_of_singleton|Hpf]%elem_of_union; [apply Hfk|].
        by apply (pk_fills _ _ Hkn p).
    + cbn. by rewrite lookup_insert_eq.
    + intros k Hne. cbn. by rewrite lookup_insert_ne.
    + done.
  - destruct (reduce_run t row context order_id fill_id price quantity ts reason)
      as (t' & Hrun & Hwf' & Hkn' & Hp & Ho & Hc); try done.
    exists t'. split; [exact Hrun|].
    split; try done; unfold position_after, closed_after; by rewrite Hk, decide_False.
Qed.

(** Past a BIGINT the wrapped quantity violates the CHECK of the table. *)
Lemma project_fill_overflow t context order_id fill_id price quantity ts reason :
  positions_wf t -> 0 < quantity <= i64_max -> ~ room t context quantity ->
  exists e, project_position_for_fill_in_tx known context order_id fill_id price quantity ts reason t
    = (Err e, t).
Proof.
  intros Hwf Hq Hno. exists CheckViolation.
  unfold project_position_for_fill_in_tx, load_position_for_update_in_tx, bind at 1 2, gets, ret.
  change (soc_user_id context, soc_market_id context) with (context_key context).
  unfold room in Hno. destruct (positions t !! context_key context) as [row|] eqn:Hk;
    [|exfalso; by apply Hno]. cbn [fmap option_fmap option_map sp_side].
  pose proof (pw_quantity _ Hwf _ row Hk).
  destruct (decide (ps_side row = soc_side context)); [|exfalso; by apply Hno; intros ? [= <-]].
  destruct (soc_reduce_only context); [exfalso; by apply Hno; intros ? [= <-]|].
  destruct (decide (ps_quantity row + quantity <= i64_max)); [exfalso; by apply Hno; intros ? [= <-]|].
  unfold increase_position_in_tx. cbn [sp_position_id sp_quantity]. unfold bind.
  rewrite (update_position_eq t _ row _ Hwf Hk). cbn [ps_quantity].
  assert (i64_wrap (ps_quantity row + quantity) = ps_quantity row + quantity - 2 ^ 64) as ->.
  { unfold i64_wrap, i64_min, i64_max in *.
    replace (ps_quantity row + quantity - -9223372036854775808)
      with (ps_quantity row + quantity - 9223372036854775808 + 1 * 2 ^ 64) by lia.
    rewrite Z.mod_add, Z.mod_small by lia. lia. }
  unfold i64_max in *. case_if; [done|lia].
Qed.
End WithKnown.

(** ** The sequence only grows, whatever the outcome *)

#[local] Abbreviation seq_grows := (grows projector_position_id_seq).

Lemma check_fk_grows b : seq_grows (check_fk b).
Proof. unfold check_fk. auto with grows. Qed.
Lemma check_to_timestamp_grows ms : seq_grows (check_to_timestamp ms).
Proof. unfold check_to_timestamp. auto with grows. Qed.
Lemma update_position_grows id set : seq_grows (update_position id set).
Proof. unfold update_position. auto 10 with grows. Qed.
Lemma next_id_grows : seq_grows next_projector_position_id_in_tx.
Proof. intros t. cbn. lia. Qed.
#[export] Hint Resolve check_fk_grows check_to_timestamp_grows update_position_grows
  next_id_grows : grows.

Lemma link_open_grows known p f : seq_grows (link_fill_to_open_position_in_tx known p f).
Proof. unfold link_fill_to_open_position_in_tx. auto 10 with grows. Qed.
Lemma link_closed_grows known p f : seq_grows (link_fill_to_closed_position_in_tx known p f).
Proof. unfold link_fill_to_closed_position_in_tx. auto 10 with grows. Qed.
#[export] Hint Resolve link_open_grows link_closed_grows : grows.

Lemma insert_open_grows known c o f q p m ts :
  seq_grows (insert_open_position_in_tx known c o f q p m ts).
Proof. unfold insert_open_position_in_tx. cbn zeta. auto 20 with grows. Qed.
Lemma insert_closed_grows known s c o f q p m ts r :
  seq_grows (insert_closed_position_in_tx known s c o f q p m ts r).
Proof. unfold insert_closed_position_in_tx. cbn zeta. auto 20 with grows. Qed.
Lemma delete_open_grows id : seq_grows (delete_open_position_in_tx id).
Proof. unfold delete_open_position_in_tx. auto with grows. Qed.
Lemma transfer_grows known a b :
  seq_grows (transfer_open_position_fills_to_closed_in_tx known a b).
Proof.
  unfold transfer_open_position_fills_to_closed_in_tx.
  apply grows_bind; [auto with grows|]. intros fs. apply grows_for_each.
  intros []. auto with grows.
Qed.
#[export] Hint Resolve insert_open_grows insert_closed_grows delete_open_grows transfer_grows
  : grows.

Lemma project_fill_grows known c o f p q ts r :
  seq_grows (project_position_for_fill_in_tx known c o f p q ts r).
Proof.
  unfold project_position_for_fill_in_tx, load_position_for_update_in_tx.
  apply grows_bind; [auto with grows|]. intros [position|]; [|auto with grows].
  destruct (decide _); [destruct (soc_reduce_only c)|]; [auto with grows|..].
  - unfold increase_position_in_tx. auto 10 with grows.
  - unfold reduce_or_reverse_position_in_tx. cbn zeta. auto 10 with grows.
Qed.

Lemma refresh_grows m p ts : seq_grows (refresh_position_pnl_for_market_in_tx m p ts).
Proof.
  unfold refresh_position_pnl_for_market_in_tx. apply grows_bind; [auto with grows|].
  intros rows. apply grows_for_each. intros [k row]. auto 10 with grows.
Qed.

(** ** The refinement *)

Lemma outcome_net known context order_id price quantity ts reason t t' :
  positions_wf t -> 0 < quantity ->
  fill_outcome (known := known) context order_id price quantity ts reason t t' ->
  net (context_key context) t' = net_after context quantity (net (context_key context) t).
Proof.
  intros Hwf Hq [_ _ Hrow _ _]. unfold net in *. rewrite Hrow. clear Hrow.
  unfold position_after, left_after, net_after.
  destruct (positions t !! context_key context) as [row|] eqn:Hk.
  2: { rewrite Z.mul_0_l. cbn [Z.leb Z.compare]. rewrite andb_true_r.
    destruct (soc_reduce_only context); [done|]. unfold row_net, signed. cbn.
    by destruct (soc_side context). }
  pose proof (pw_quantity _ Hwf _ row Hk) as Hr.
  unfold row_net, signed in *. destruct (decide (ps_side row = soc_side context)) as [Hs|Hs].
  - assert (0 <= (match ps_side row with SideType_LONG => ps_quantity row
        | SideType_SHORT => - ps_quantity row end) * match soc_side context with
        SideType_LONG => quantity | SideType_SHORT => - quantity end) as Hpos.
    { rewrite Hs. destruct (soc_side context); nia. }
    apply Z.leb_le in Hpos as ->. rewrite andb_true_r.
    destruct (soc_reduce_only context); [done|]. cbn. rewrite Hs. destruct (soc_side context); lia.
  - assert ((match ps_side row with SideType_LONG => ps_quantity row
        | SideType_SHORT => - ps_quantity row end) * match soc_side context with
        SideType_LONG => quantity | SideType_SHORT => - quantity end < 0) as Hneg.
    { destruct (ps_side row), (soc_side context); (done || nia). }
    apply Z.leb_gt in Hneg as ->. rewrite andb_false_r.
    destruct (Z.ltb_spec quantity (ps_quantity row)); [|destruct (Z.ltb_spec (ps_quantity row) quantity)];
      cbn; destruct (ps_side row), (soc_side context); (done || lia).
Qed.

(** *** Marking to the last price *)

Definition marked_row (mark_price : Z) (row : PositionRow) : PositionRow :=
  mkPositionRow (ps_position_id row) (ps_market_name row) (ps_side row) (ps_quantity row)
    (unrealized_pnl (ps_side row) (ps_average_price row) mark_price (ps_quantity row))
    (ps_initial_margin row) (ps_maintenance_margin row) (ps_margin_chosen row)
    (ps_liquidation_price row) (ps_average_price row) (ps_opened_at row) (ps_open_order_id row).

Definition marked (market_id mark_price : Z) (k : Z * Z) (row : PositionRow) : PositionRow :=
  if k.2 =? market_id then marked_row mark_price row else row.

Lemma refresh_run t market_id mark_price ts :
  positions_wf t -> to_timestamp_ok ts = true ->
  exists t', refresh_position_pnl_for_market_in_tx market_id mark_price ts t = (Ok tt, t') /\
    positions_wf t' /\ t' = set_positions t (positions t') /\
    forall k, positions t' !! k = marked market_id mark_price k <$> positions t !! k.
Proof.
  intros Hwf Hts. unfold refresh_position_pnl_for_market_in_tx, bind at 1, gets.
  set (l := filter (fun '((_, m), _) => m = market_id) (map_to_list (positions t))).
  assert (forall l t1, positions_wf t1 -> NoDup l.*1 ->
    (forall k row, (k, row) ∈ l -> positions t1 !! k = Some row) ->
    exists t', for_each l (fun '(_, row) =>
        do* check_to_timestamp ts in
        update_position (ps_position_id row) (fun r =>
          mkPositionRow (ps_position_id r) (ps_market_name r) (ps_side r) (ps_quantity r)
            (unrealized_pnl (ps_side row) (ps_average_price row) mark_price (ps_quantity row))
            (ps_initial_margin r) (ps_maintenance_margin r) (ps_margin_chosen r)
            (ps_liquidation_price r) (ps_average_price r) (ps_opened_at r) (ps_open_order_id r))) t1
      = (Ok tt, t') /\ positions_wf t' /\ t' = set_positions t1 (positions t') /\
    forall k, positions t' !! k = if decide (k ∈ l.*1) then marked_row mark_price <$> positions t1 !! k
                                  else positions t1 !! k) as Hloop.
  { clear t Hwf l. induction l as [|[k row] l IH]; intros t Hwf Hnd Hl.
    - exists t. split_and!; [done|done|by destruct t|]. intros k. by rewrite decide_False by set_solver.
    - cbn [for_each]. apply NoDup_cons in Hnd as [Hk Hnd].
      pose proof (Hl k row ltac:(set_solver)) as Hrow.
      set (t1 := set_positions t (<[k := marked_row mark_price row]> (positions t))).
      assert (positions_wf t1) as Hwf1.
      { apply (positions_wf_replace t k row); try done. cbn. by apply (pw_quantity _ Hwf k row). }
      destruct (IH t1 Hwf1 Hnd) as (t' & Hrun & Hwf' & He & Hp).
      { intros k2 r2 Hin. cbn. rewrite lookup_insert_ne; [apply Hl; set_solver|].
        intros ->. apply Hk. apply list_elem_of_fmap. by exists (k2, r2). }
      exists t'. split_and!; [|done|by rewrite He|].
      + assert (0 < ps_quantity row <= i64_max) by (by apply (pw_quantity _ Hwf k row)).
        unfold bind. rewrite check_to_timestamp_run, (update_position_eq t k row _ Hwf Hrow) by done.
        cbn [ps_quantity]. destruct (Z.leb_spec (ps_quantity row) 0); [lia|]. exact Hrun.
      + intros k2. rewrite Hp. cbn [t1 set_positions positions fmap list_fmap fst].
        destruct (decide (k2 = k)) as [->|Hne].
        * rewrite decide_False, decide_True by set_solver. by rewrite lookup_insert_eq, Hrow.
        * rewrite lookup_insert_ne by done.
          destruct (decide (k2 ∈ l.*1)); [by rewrite decide_True by set_solver|].
          by rewrite decide_False by set_solver. }
  destruct (Hloop l t Hwf) as (t' & Hrun & Hwf' & He & Hp).
  - apply (sublist_NoDup _ ((map_to_list (positions t)).*1)); [apply NoDup_fst_map_to_list|].
    apply fmap_sublist, sublist_filter.
  - intros k row [_ Hin]%list_elem_of_filter. by apply elem_of_map_to_list.
  - exists t'. split_and!; [exact Hrun|done|done|]. intros k. rewrite Hp. unfold marked.
    destruct (positions t !! k) as [row|] eqn:Hk; [|by case_decide]. cbn [fmap option_fmap option_map].
    destruct (Z.eqb_spec k.2 market_id) as [Hm|Hm].
    + rewrite decide_True; [done|]. apply list_elem_of_fmap. exists (k, row). split; [done|].
      apply list_elem_of_filter. split; [by destruct k|]. by apply elem_of_map_to_list.
    + rewrite decide_False; [done|]. intros ([k2 r2] & -> & [Hf _]%list_elem_of_filter)%list_elem_of_fmap.
      by destruct k2.
Qed.

(** ** Exposure of a market *)

Definition exposure (market_id : Z) (t : PositionTables) : Z :=
  map_sum (fun k row => if k.2 =? market_id then row_net row else 0) (positions t).

Lemma exposure_change market_id t t' k :
  (forall k', k' <> k -> positions t' !! k' = positions t !! k') ->
  exposure market_id t' = exposure market_id t
    + (if k.2 =? market_id then net k t' - net k t else 0).
Proof.
  intros Hk. unfold exposure. rewrite (map_sum_agree _ (positions t) (positions t') k Hk).
  unfold net. destruct (positions t !! k), (positions t' !! k); cbn; case_if; lia.
Qed.

Lemma exposure_marked market_id mark_price t t' :
  (forall k, positions t' !! k = marked market_id mark_price k <$> positions t !! k) ->
  (forall k, net k t' = net k t) /\ forall m, exposure m t' = exposure m t.
Proof.
  intros Hk. assert (forall k row, row_net (marked market_id mark_price k row) = row_net row) as Hnet.
  { intros k row. unfold marked. by destruct (_ =? _). }
  split.
  - intros k. unfold net. rewrite Hk. destruct (positions t !! k); cbn; auto.
  - intros m. unfold exposure.
    replace (positions t') with (map_imap (fun k row => Some (marked market_id mark_price k row))
      (positions t)).
    + clear Hk. induction (positions t) as [|k row ps Hf IH] using map_ind; [done|].
      rewrite map_imap_insert. rewrite (map_sum_insert_fresh _ ps) by done.
      rewrite map_sum_insert_fresh by (by rewrite map_lookup_imap, Hf).
      by rewrite IH, Hnet.
    + apply map_eq. intros k. rewrite map_lookup_imap, Hk. by destruct (positions t !! k).
Qed.

(** Claim C18 (refinement). Projecting a fill succeeds and moves the account's signed
    position in the market by the signed quantity, except that a reduce-only
    order leaves a flat or same-sided position alone; no other position moves.
    A fill that meets an opposite position, and only such a fill, books the part
    it closes as one closed position with its realized profit; a partial close
    splits the margin without loss. *)
Theorem position_follows_fill known t context order_id fill_id price quantity ts reason :
  positions_wf t -> positions_known known t -> fill_known known context order_id fill_id ->
  to_timestamp_ok ts = true -> 0 < quantity ->
  Z.abs (net (context_key context) t) + quantity <= i64_max ->
  exists t', project_position_for_fill_in_tx known context order_id fill_id price quantity ts reason t
      = (Ok tt, t') /\
    positions_wf t' /\ positions_known known t' /\
    net (context_key context) t' = net_after context quantity (net (context_key context) t) /\
    (forall k, k <> context_key context -> positions t' !! k = positions t !! k) /\
    match positions t !! context_key context with
    | Some row =>
        if decide (ps_side row = soc_side context) then closed_positions t' = closed_positions t
        else
          let c := closed_row row context order_id price quantity reason in
          closed_positions t' = <[projector_position_id_seq t := c]> (closed_positions t) /\
          (quantity < ps_quantity row -> 0 <= ps_initial_margin row <= i64_max ->
           exists row', positions t' !! context_key context = Some row' /\
             ps_initial_margin row' + cp_initial_margin c = ps_initial_margin row)
    | None => closed_positions t' = closed_positions t
    end.
Proof.
  intros Hwf Hkn Hfk Hts Hq Hmax.
  destruct (project_fill_run (known := known) t context order_id fill_id price quantity ts reason)
    as (t' & Hrun & Ho); try done; [lia| |].
  { intros row Hk Hs _. unfold net, row_net, signed in Hmax. rewrite Hk in Hmax.
    destruct (ps_side row); lia. }
  exists t'. split; [exact Hrun|].
  split; [apply Ho|]. split; [apply Ho|]. split; [by eapply outcome_net|]. split; [apply Ho|].
  pose proof (fo_closed _ _ _ _ _ _ _ _ Ho) as Hc. pose proof (fo_row _ _ _ _ _ _ _ _ Ho) as Hr.
  unfold closed_after, position_after, left_after in *.
  destruct (positions t !! context_key context) as [row|] eqn:Hk; [|done].
  pose proof (pw_quantity _ Hwf _ row Hk).
  destruct (decide _); [done|]. split; [done|]. intros Hlt Hm.
  rewrite (proj2 (Z.ltb_lt _ _)) in Hr by done. eexists. split; [exact Hr|]. cbn.
  rewrite Z.min_r by lia.
  pose proof (proportional_margin_range (ps_initial_margin row) (ps_quantity row) quantity
    ltac:(lia) ltac:(lia)).
  rewrite i64_wrap_id; unfold in_i64, i64_min, i64_max in *; lia.
Qed.
