(* ===== verification/ProjectorBook.v ===== *)
(** * ProjectorBook: the projected order book

    The tables [orderbook_events], [orderbook_state] and [orderbook_levels] and
    what [project_orderbook_delta] of [apps/projector/src/repository.rs] does to
    them. *)

From S2P Require Import Prelude Protocol Postgres ProjectorPositions.

(** A row of [orderbook_events], without its key (market, engine sequence). *)
Record BookEventRow := mkBookEventRow {
  be_engine_timestamp_ms : Z;
  be_topic : string;
  be_partition : Z;
  be_offset_value : Z
}.

(** Levels are keyed by market, side and price, and hold a quantity and the
    sequence that wrote it; the state of a market is the sequence and timestamp
    of the last delta applied. *)
Record BookTables := mkBookTables {
  orderbook_events : gmap (Z * Z) BookEventRow;
  orderbook_state : gmap Z (Z * Z);
  orderbook_levels : gmap (Z * string * Z) (Z * Z)
}.

Definition BM (A : Type) : Type := M BookTables SqlError A.

Definition set_levels (t : BookTables) (m : gmap (Z * string * Z) (Z * Z)) : BookTables :=
  mkBookTables (orderbook_events t) (orderbook_state t) m.

Section WithMarkets.
Variable known_markets : gset Z.

(** The unique index on the place of a delta in its topic. *)
Definition book_event_clashes (row : BookEventRow) (m : gmap (Z * Z) BookEventRow) : bool :=
  existsb (fun '(_, r) => bool_decide (be_topic r = be_topic row)
             && (be_partition r =? be_partition row) && (be_offset_value r =? be_offset_value row))
    (map_to_list m).

(** [INSERT INTO orderbook_events ... ON CONFLICT(market_id, engine_sequence) DO
    NOTHING RETURNING engine_sequence]: whether the row was inserted. *)
Definition insert_orderbook_event (event : OrderBookDelta) (topic : string)
    (partition next_offset : Z) : BM bool :=
  let row := mkBookEventRow (obd_engine_timestamp_ms event) topic partition
               (i64_wrap (next_offset - 1)) in
  let k := (obd_market_id event, obd_engine_sequence event) in
  if (obd_engine_sequence event <=? 0) || (obd_engine_timestamp_ms event <? 0)
     || (be_offset_value row <? 0)
  then throw CheckViolation
  else
    let* m := gets orderbook_events in
    if bool_decide (is_Some (m !! k)) then ret false
    else if book_event_clashes row m then throw UniqueViolation
    else
      do* check_fk (bool_decide (obd_market_id event ∈ known_markets)) in
      do* modify (fun t => mkBookTables (<[k := row]> (orderbook_events t)) (orderbook_state t)
                             (orderbook_levels t)) in
      ret true.

Definition should_apply_orderbook_delta_in_tx (event : OrderBookDelta) : BM bool :=
  let* current_sequence := gets (fun t => fst <$> orderbook_state t !! obd_market_id event) in
  ret (match current_sequence with
       | Some sequence => sequence <? obd_engine_sequence event
       | None => true
       end).

Definition upsert_orderbook_state_in_tx (event : OrderBookDelta) : BM unit :=
  let row := (obd_engine_sequence event, obd_engine_timestamp_ms event) in
  if (obd_engine_sequence event <=? 0) || (obd_engine_timestamp_ms event <? 0)
  then throw CheckViolation
  else
    let* existing := gets (fun t => orderbook_state t !! obd_market_id event) in
    let write := modify (fun t => mkBookTables (orderbook_events t)
                   (<[obd_market_id event := row]> (orderbook_state t)) (orderbook_levels t)) in
    match existing with
    | Some (sequence, _) => if sequence <? obd_engine_sequence event then write else ret tt
    | None => do* check_fk (bool_decide (obd_market_id event ∈ known_markets)) in write
    end.

Definition apply_orderbook_level_in_tx (event : OrderBookDelta) (side : string)
    (level : OrderBookLevel) : BM unit :=
  let k := (obd_market_id event, side, obl_price level) in
  if obl_quantity level <=? 0 then
    modify (fun t => set_levels t
      (match orderbook_levels t !! k with
       | Some (_, last_engine_sequence) =>
           if last_engine_sequence <? obd_engine_sequence event
           then delete k (orderbook_levels t) else orderbook_levels t
       | None => orderbook_levels t
       end))
  else if negb (bool_decide (side ∈ ["BID"; "ASK"])) || (obl_price level <? 0)
          || (obd_engine_sequence event <=? 0)
  then throw CheckViolation
  else
    let* existing := gets (fun t => orderbook_levels t !! k) in
    let write := modify (fun t => set_levels t
                   (<[k := (obl_quantity level, obd_engine_sequence event)]>
                      (orderbook_levels t))) in
    match existing with
    | Some (_, last_engine_sequence) =>
        if last_engine_sequence <? obd_engine_sequence event then write else ret tt
    | None => do* check_fk (bool_decide (obd_market_id event ∈ known_markets)) in write
    end.

(** [project_orderbook_delta] before it saves the offset. *)
Definition project_orderbook_delta_in_tx (event : OrderBookDelta) (topic : string)
    (partition next_offset : Z) : BM unit :=
  let* inserted := insert_orderbook_event event topic partition next_offset in
  let* apply := (if inserted then should_apply_orderbook_delta_in_tx event else ret false) in
  if apply then
    do* for_each (obd_bids event) (apply_orderbook_level_in_tx event "BID") in
    do* for_each (obd_asks event) (apply_orderbook_level_in_tx event "ASK") in
    upsert_orderbook_state_in_tx event
  else ret tt.
End WithMarkets.
