(* ===== verification/ProjectorBookTheorems.v ===== *)
(** * ProjectorBookTheorems: the order book is a replay of its deltas *)

From S2P Require Import Prelude Protocol Postgres ProjectorPositions ProjectorBook.

(** ** The specification

    A book maps market, side and price to a quantity; a delta applies when its
    sequence exceeds those applied to its market before. *)

Record Book := mkBook {
  bk_sequence : Z -> option Z;
  bk_quantity : Z * string * Z -> option Z
}.

Definition delta_levels (event : OrderBookDelta) (side : string) : list OrderBookLevel :=
  if bool_decide (side = "BID") then obd_bids event
  else if bool_decide (side = "ASK") then obd_asks event else [].

(** What a delta says of a price: nothing, or the quantity there, if any. *)
Definition delta_says (event : OrderBookDelta) (k : Z * string * Z) : option (option Z) :=
  let '(market_id, side, price) := k in
  if market_id =? obd_market_id event then
    (fun level => if obl_quantity level <=? 0 then None else Some (obl_quantity level))
      <$> List.find (fun level => obl_price level =? price) (delta_levels event side)
  else None.

Definition applies (event : OrderBookDelta) (sequence : option Z) : bool :=
  match sequence with Some s => s <? obd_engine_sequence event | None => true end.

Definition book_step (b : Book) (event : OrderBookDelta) : Book :=
  if applies event (bk_sequence b (obd_market_id event)) then
    mkBook
      (fun m => if m =? obd_market_id event then Some (obd_engine_sequence event)
                else bk_sequence b m)
      (fun k => default (bk_quantity b k) (delta_says event k))
  else b.

Definition empty_book : Book := mkBook (fun _ => None) (fun _ => None).

(** What the tables show. *)
Record shows (t : BookTables) (b : Book) : Prop := {
  sh_sequence m : bk_sequence b m = fst <$> orderbook_state t !! m;
  sh_quantity k : bk_quantity b k = fst <$> orderbook_levels t !! k
}.

Record book_wf (t : BookTables) : Prop := {
  bw_events m s row : orderbook_events t !! (m, s) = Some row ->
    exists s', fst <$> orderbook_state t !! m = Some s' /\ s <= s';
  bw_levels m side p q s : orderbook_levels t !! (m, side, p) = Some (q, s) ->
    0 < q /\ exists s', fst <$> orderbook_state t !! m = Some s' /\ s <= s'
}.

(** A delta the engine can have sent: each side names a price once. *)
Record delta_ok (markets : gset Z) (event : OrderBookDelta) : Prop := {
  do_market : obd_market_id event ∈ markets;
  do_sequence : 0 < obd_engine_sequence event;
  do_timestamp : 0 <= obd_engine_timestamp_ms event;
  do_bids : NoDup (obl_price <$> obd_bids event);
  do_asks : NoDup (obl_price <$> obd_asks event);
  do_prices level : level ∈ obd_bids event ++ obd_asks event -> 0 <= obl_price level
}.

(** ** One side of a delta *)

Definition written (event : OrderBookDelta) (side : string) (levels : list OrderBookLevel)
    (k : Z * string * Z) (old : option (Z * Z)) : option (Z * Z) :=
  if bool_decide (k.1 = (obd_market_id event, side)) then
    match List.find (fun level => obl_price level =? k.2) levels with
    | Some level => if obl_quantity level <=? 0 then None
                    else Some (obl_quantity level, obd_engine_sequence event)
    | None => old
    end
  else old.

Lemma find_none_of (levels : list OrderBookLevel) p :
  p ∉ obl_price <$> levels -> List.find (fun level => obl_price level =? p) levels = None.
Proof.
  induction levels as [|level levels IH]; [done|]. rewrite fmap_cons. intros Hp. cbn.
  destruct (Z.eqb_spec (obl_price level) p); [set_solver|]. apply IH. set_solver.
Qed.

Lemma apply_level_run markets event side level t :
  delta_ok markets event -> side ∈ ["BID"; "ASK"] -> 0 <= obl_price level ->
  (forall q s, orderbook_levels t !! (obd_market_id event, side, obl_price level) = Some (q, s) ->
     s < obd_engine_sequence event) ->
  exists m', apply_orderbook_level_in_tx markets event side level t = (Ok tt, set_levels t m') /\
    forall k, m' !! k = written event side [level] k (orderbook_levels t !! k).
Proof.
  intros Hok Hside Hp Hs. set (k0 := (obd_market_id event, side, obl_price level)).
  assert (forall m' : gmap (Z * string * Z) (Z * Z), m' !! k0 = written event side [level] k0 (orderbook_levels t !! k0) ->
    (forall k, k <> k0 -> m' !! k = orderbook_levels t !! k) ->
    forall k, m' !! k = written event side [level] k (orderbook_levels t !! k)) as Hcases.
  { intros m' H0 Hne k. destruct (decide (k = k0)) as [->|Hk]; [done|]. rewrite Hne by done.
    unfold written. case_bool_decide as Hm; [|done]. cbn. destruct (Z.eqb_spec (obl_price level) k.2); [|done].
    exfalso. apply Hk. destruct k as [[? ?] ?]. cbn in *. unfold k0. congruence. }
  assert (written event side [level] k0 (orderbook_levels t !! k0) =
    if obl_quantity level <=? 0 then None else Some (obl_quantity level, obd_engine_sequence event))
    as Hw.
  { unfold written. rewrite bool_decide_true by done. cbn. by rewrite Z.eqb_refl. }
  unfold apply_orderbook_level_in_tx. fold k0. destruct (obl_quantity level <=? 0).
  - eexists. split; [reflexivity|]. apply Hcases.
    + rewrite Hw. destruct (orderbook_levels t !! k0) as [[q s]|] eqn:Hk; [|done].
      pose proof (Hs q s Hk). case_if; [|lia]. apply lookup_delete_eq.
    + intros k Hne. destruct (orderbook_levels t !! k0) as [[q s]|]; [|done].
      case_if; [|done]. by rewrite lookup_delete_ne.
  - destruct (Z.ltb_spec (obl_price level) 0); [lia|].
    pose proof (do_sequence _ _ Hok). destruct (Z.leb_spec (obd_engine_sequence event) 0); [lia|].
    rewrite bool_decide_true by done. cbn [negb orb]. unfold bind, gets, modify.
    exists (<[k0 := (obl_quantity level, obd_engine_sequence event)]> (orderbook_levels t)). split.
    + destruct (orderbook_levels t !! k0) as [[q s]|] eqn:Hk.
      * pose proof (Hs q s Hk). case_if; [done|lia].
      * unfold check_fk. rewrite bool_decide_true by apply (do_market _ _ Hok). done.
    + apply Hcases; [rewrite Hw; apply lookup_insert_eq|]. intros k Hne. by rewrite lookup_insert_ne.
Qed.

Lemma apply_side_run markets event side levels t :
  delta_ok markets event -> side ∈ ["BID"; "ASK"] -> NoDup (obl_price <$> levels) ->
  (forall level, level ∈ levels -> 0 <= obl_price level) ->
  (forall p q s, orderbook_levels t !! (obd_market_id event, side, p) = Some (q, s) ->
     s < obd_engine_sequence event) ->
  exists m', for_each levels (apply_orderbook_level_in_tx markets event side) t
      = (Ok tt, set_levels t m') /\
    forall k, m' !! k = written event side levels k (orderbook_levels t !! k).
Proof.
  intros Hok Hside Hnd Hp Hs.
  assert (forall p q s, p ∈ obl_price <$> levels ->
     orderbook_levels t !! (obd_market_id event, side, p) = Some (q, s) ->
     s < obd_engine_sequence event) as Hs'; [by eauto|]. clear Hs.
  revert t Hs'. induction levels as [|level levels IH]; intros t Hs.
  { exists (orderbook_levels t). split; [by destruct t|]. intros k. unfold written. by case_bool_decide. }
  rewrite fmap_cons in Hnd. apply NoDup_cons in Hnd as [Hfresh Hnd].
  destruct (apply_level_run markets event side level t) as (m1 & H1 & Hm1); try done.
  { apply Hp. set_solver. } { intros q s. apply Hs. set_solver. }
  cbn [for_each]. rewrite (bind_run _ _ _ _ _ H1).
  destruct (IH Hnd ltac:(set_solver) (set_levels t m1)) as (m2 & H2 & Hm2).
  { intros p q s Hin. cbn. rewrite Hm1. unfold written. rewrite bool_decide_true by done. cbn.
    destruct (Z.eqb_spec (obl_price level) p); [congruence|]. apply Hs. set_solver. }
  exists m2. split; [exact H2|]. intros k. rewrite Hm2. cbn [set_levels orderbook_levels].
  rewrite Hm1. unfold written. case_bool_decide; [|done]. cbn [List.find].
  destruct (Z.eqb_spec (obl_price level) k.2) as [He|He]; [|done].
  rewrite (find_none_of levels k.2); [done|]. by rewrite <- He.
Qed.

(** ** A delta *)

(** The place of a delta in its topic is not that of another delta. *)
Definition place_free (t : BookTables) (event : OrderBookDelta) (topic : string)
    (partition next_offset : Z) : Prop :=
  forall k row, orderbook_events t !! k = Some row -> be_topic row = topic ->
    be_partition row = partition -> be_offset_value row = next_offset - 1 ->
    k = (obd_market_id event, obd_engine_sequence event).

Lemma written_says event side levels k old :
  levels = delta_levels event side -> k.1.2 = side ->
  fst <$> written event side levels k old = default (fst <$> old) (delta_says event k).
Proof.
  intros -> <-. destruct k as [[m side] p]. unfold written, delta_says. cbn.
  case_bool_decide as Hm; destruct (Z.eqb_spec m (obd_market_id event)); try congruence; [|done].
  destruct (List.find _ _); [|done]. cbn. by destruct (_ <=? _).
Qed.

Lemma written_other event side levels k old :
  k.1.2 <> side -> written event side levels k old = old.
Proof. intros Hk. unfold written. case_bool_decide as H; [|done]. by rewrite H in Hk. Qed.

Lemma written_sequence event side levels k old q s :
  written event side levels k old = Some (q, s) ->
  old = Some (q, s) \/ (k.1 = (obd_market_id event, side) /\ 0 < q /\ s = obd_engine_sequence event).
Proof.
  unfold written. case_bool_decide; [|auto]. destruct (List.find _ _); [|auto].
  case_if; [done|]. intros [= <- <-]. auto.
Qed.

Lemma insert_event_run markets event topic partition next_offset t :
  delta_ok markets event -> 0 < next_offset <= i64_max ->
  place_free t event topic partition next_offset ->
  let k := (obd_market_id event, obd_engine_sequence event) in
  let row := mkBookEventRow (obd_engine_timestamp_ms event) topic partition (next_offset - 1) in
  insert_orderbook_event markets event topic partition next_offset t
    = if decide (is_Some (orderbook_events t !! k)) then (Ok false, t)
      else (Ok true, mkBookTables (<[k := row]> (orderbook_events t)) (orderbook_state t)
                       (orderbook_levels t)).
Proof.
  intros Hok Hn Hfree k row. unfold insert_orderbook_event.
  rewrite i64_wrap_id by (unfold in_i64, i64_min in *; lia). fold row k. cbn [row be_offset_value].
  pose proof (do_sequence _ _ Hok). pose proof (do_timestamp _ _ Hok).
  destruct (Z.leb_spec (obd_engine_sequence event) 0); [lia|].
  destruct (Z.ltb_spec (obd_engine_timestamp_ms event) 0); [lia|].
  destruct (Z.ltb_spec (next_offset - 1) 0); [lia|]. cbn [orb]. unfold bind, gets.
  destruct (decide _) as [Hk|Hk]; [by rewrite bool_decide_true|].
  rewrite bool_decide_false by done.
  assert (book_event_clashes row (orderbook_events t) = false) as ->.
  { apply not_true_iff_false. unfold book_event_clashes. rewrite existsb_exists.
    intros ([k' r] & Hin%list_elem_of_In%elem_of_map_to_list & He). split_bool.
    apply Hk. exists r. rewrite <- Hin. f_equal. symmetry. by apply (Hfree k' r). }
  unfold check_fk. by rewrite bool_decide_true by apply (do_market _ _ Hok).
Qed.

Lemma apply_delta_run markets event t :
  delta_ok markets event ->
  (forall side p q s, orderbook_levels t !! (obd_market_id event, side, p) = Some (q, s) ->
     s < obd_engine_sequence event) ->
  applies event (fst <$> orderbook_state t !! obd_market_id event) = true ->
  exists m', (do* for_each (obd_bids event) (apply_orderbook_level_in_tx markets event "BID") in
      do* for_each (obd_asks event) (apply_orderbook_level_in_tx markets event "ASK") in
      upsert_orderbook_state_in_tx markets event) t
    = (Ok tt, mkBookTables (orderbook_events t)
        (<[obd_market_id event := (obd_engine_sequence event, obd_engine_timestamp_ms event)]>
           (orderbook_state t)) m') /\
    forall k, m' !! k = written event "ASK" (obd_asks event) k
      (written event "BID" (obd_bids event) k (orderbook_levels t !! k)).
Proof.
  intros Hok Hlow Ha.
  destruct (apply_side_run markets event "BID" (obd_bids event) t) as (m1 & H1 & Hm1); try done.
  { set_solver. } { apply Hok. } { intros l Hl. apply (do_prices _ _ Hok). set_solver. } { eauto. }
  destruct (apply_side_run markets event "ASK" (obd_asks event) (set_levels t m1))
    as (m2 & H2 & Hm2); try done.
  { set_solver. } { apply Hok. } { intros l Hl. apply (do_prices _ _ Hok). set_solver. }
  { intros p q s. cbn. rewrite Hm1, written_other by done. apply Hlow. }
  exists m2. split; [|intros k; by rewrite Hm2; cbn; rewrite Hm1].
  rewrite (bind_run _ _ _ _ _ H1), (bind_run _ _ _ _ _ H2).
  unfold upsert_orderbook_state_in_tx.
  pose proof (do_sequence _ _ Hok). pose proof (do_timestamp _ _ Hok).
  destruct (Z.leb_spec (obd_engine_sequence event) 0); [lia|].
  destruct (Z.ltb_spec (obd_engine_timestamp_ms event) 0); [lia|]. cbn [orb].
  unfold bind, gets, modify. cbn [set_levels orderbook_state orderbook_events].
  destruct (orderbook_state t !! obd_market_id event) as [[s ts]|]; cbn in Ha.
  - by rewrite Ha.
  - unfold check_fk. by rewrite bool_decide_true by apply (do_market _ _ Hok).
Qed.

(** What both sides of a delta write, as the specification says it. *)
Lemma written_both_says event k old :
  fst <$> written event "ASK" (obd_asks event) k (written event "BID" (obd_bids event) k old)
    = default (fst <$> old) (delta_says event k).
Proof.
  destruct (decide (k.1.2 = "ASK")) as [Ha|Ha].
  - rewrite (written_says event "ASK"), (written_other event "BID"); [done|by rewrite Ha|done|done].
  - rewrite (written_other event "ASK") by done. destruct (decide (k.1.2 = "BID")) as [Hb|Hb].
    + by rewrite (written_says event "BID").
    + rewrite (written_other event "BID") by done. destruct k as [[m side] p]. cbn in *.
      unfold delta_levels. rewrite !bool_decide_false by done. by destruct (_ =? _).
Qed.

(** A delta newer than the state of its market. *)
Lemma newer_delta_run markets event t b :
  delta_ok markets event -> shows t b ->
  (forall m s row, orderbook_events t !! (m, s) = Some row -> (m, s) = (obd_market_id event,
     obd_engine_sequence event) \/
     exists s', fst <$> orderbook_state t !! m = Some s' /\ s <= s') ->
  (forall m side p q s, orderbook_levels t !! (m, side, p) = Some (q, s) ->
    0 < q /\ exists s', fst <$> orderbook_state t !! m = Some s' /\ s <= s') ->
  applies event (fst <$> orderbook_state t !! obd_market_id event) = true ->
  exists t', (do* for_each (obd_bids event) (apply_orderbook_level_in_tx markets event "BID") in
      do* for_each (obd_asks event) (apply_orderbook_level_in_tx markets event "ASK") in
      upsert_orderbook_state_in_tx markets event) t = (Ok tt, t') /\
    book_wf t' /\ orderbook_events t' = orderbook_events t /\ shows t' (book_step b event).
Proof.
  intros Hok Hb Hev Hlv Ha. destruct (apply_delta_run markets event t) as (m' & Hrun & Hm'); try done.
  { intros side p q s Hk. apply Hlv in Hk as (_ & s' & Hs & ?). rewrite Hs in Ha. cbn in Ha.
    split_bool. lia. }
  eexists. split; [exact Hrun|]. set (m := obd_market_id event) in *.
  set (sq := obd_engine_sequence event) in *.
  assert (forall m1 s, (exists s', fst <$> orderbook_state t !! m1 = Some s' /\ s <= s') ->
    exists s', fst <$> <[m := (sq, obd_engine_timestamp_ms event)]> (orderbook_state t) !! m1 = Some s'
      /\ s <= s') as Hgrow.
  { intros m1 s (s' & Hs & Hle). destruct (decide (m1 = m)) as [->|Hne].
    - rewrite lookup_insert_eq. exists sq. split; [done|]. rewrite Hs in Ha. cbn in Ha.
      fold sq in Ha. split_bool. lia.
    - rewrite lookup_insert_ne by done. eauto. }
  split_and!.
  - split; cbn.
    + intros m1 s row [[= -> ->]|?]%Hev; [|by apply Hgrow]. exists sq. rewrite lookup_insert_eq. done.
    + intros m1 side p q s. rewrite Hm'.
      intros [[Hk|(Hk & Hq & ->)]%written_sequence|(Hk & Hq & ->)]%written_sequence.
      * apply Hlv in Hk as (? & ?). split; [done|]. by apply Hgrow.
      * cbn in Hk. injection Hk as -> ->. split; [done|]. exists sq. rewrite lookup_insert_eq. done.
      * cbn in Hk. injection Hk as -> ->. split; [done|]. exists sq. rewrite lookup_insert_eq. done.
  - done.
  - unfold book_step. rewrite (sh_sequence _ _ Hb). fold m. rewrite Ha. split; cbn.
    + intros m1. fold m. destruct (Z.eqb_spec m1 m) as [->|Hne].
      * by rewrite lookup_insert_eq.
      * rewrite lookup_insert_ne by done. apply (sh_sequence _ _ Hb).
    + intros k. rewrite Hm', written_both_says. by rewrite (sh_quantity _ _ Hb).
Qed.

Lemma project_delta_run markets event topic partition next_offset t b :
  delta_ok markets event -> 0 < next_offset <= i64_max ->
  place_free t event topic partition next_offset -> book_wf t -> shows t b ->
  exists t', project_orderbook_delta_in_tx markets event topic partition next_offset t = (Ok tt, t') /\
    book_wf t' /\ shows t' (book_step b event) /\
    forall k row, orderbook_events t' !! k = Some row -> orderbook_events t !! k = Some row \/
      (k = (obd_market_id event, obd_engine_sequence event) /\ be_topic row = topic /\
       be_partition row = partition /\ be_offset_value row = next_offset - 1).
Proof.
  intros Hok Hn Hfree Hwf Hb. unfold project_orderbook_delta_in_tx.
  set (m := obd_market_id event) in *. set (sq := obd_engine_sequence event) in *.
  pose proof (insert_event_run markets event topic partition next_offset t Hok Hn Hfree) as Hins.
  cbn zeta in Hins. fold m sq in Hins. unfold bind at 1. rewrite Hins.
  destruct (decide _) as [[row Hk]|Hk].
  { exists t. split; [done|].
    assert (applies event (fst <$> orderbook_state t !! m) = false) as Ha.
    { apply (bw_events _ Hwf) in Hk as (s' & -> & ?). cbn. fold sq. apply Z.ltb_ge. lia. }
    unfold book_step. rewrite (sh_sequence _ _ Hb). fold m. rewrite Ha. split_and!; auto. }
  set (row := mkBookEventRow (obd_engine_timestamp_ms event) topic partition (next_offset - 1)).
  set (t1 := mkBookTables (<[(m, sq) := row]> (orderbook_events t)) (orderbook_state t)
               (orderbook_levels t)).
  assert (shows t1 b) as Hb1 by (by destruct Hb).
  assert (should_apply_orderbook_delta_in_tx event t1
    = (Ok (applies event (fst <$> orderbook_state t !! m)), t1)) as Hsh by reflexivity.
  cbn beta iota. rewrite (bind_run _ _ _ _ _ Hsh).
  assert (forall k r, orderbook_events t1 !! k = Some r -> orderbook_events t !! k = Some r \/
      (k = (m, sq) /\ be_topic r = topic /\ be_partition r = partition /\
       be_offset_value r = next_offset - 1)) as Hev.
  { intros k r. cbn. intros [[<- <-]|[_ ?]]%lookup_insert_Some; [|by left]. right. by split_and!. }
  destruct (applies event (fst <$> orderbook_state t !! m)) eqn:Ha.
  - destruct (newer_delta_run markets event t1 b) as (t' & Hrun & Hwf' & He & Hb'); try done.
    + intros m1 s r. cbn. intros [[[= <- <-] _]|[_ Hr]]%lookup_insert_Some; [by left|right].
      by apply (bw_events _ Hwf m1 s r).
    + apply (bw_levels _ Hwf).
    + exists t'. split; [exact Hrun|]. split_and!; [done|done|]. rewrite He. exact Hev.
  - exists t1. split; [done|]. unfold book_step. rewrite (sh_sequence _ _ Hb). fold m. rewrite Ha.
    split_and!; [|done|done]. split; cbn.
    + intros m1 s r [[[= <- <-] _]|[_ Hr]]%lookup_insert_Some; [|by eapply (bw_events _ Hwf)].
      destruct (orderbook_state t !! m) as [[s ts]|]; cbn in *; [|done]. split_bool.
      exists s. by split.
    + apply (bw_levels _ Hwf).
Qed.

(** ** A stream of deltas *)

(** A delta and the record it came in: topic, partition, the offset after it. *)
Record Delivery := mkDelivery {
  dl_event : OrderBookDelta;
  dl_topic : string;
  dl_partition : Z;
  dl_next_offset : Z
}.

Definition project_delivery (markets : gset Z) (d : Delivery) : BM unit :=
  project_orderbook_delta_in_tx markets (dl_event d) (dl_topic d) (dl_partition d)
    (dl_next_offset d).

Definition replay (deltas : list OrderBookDelta) : Book := foldl book_step empty_book deltas.

Definition empty_book_tables : BookTables := mkBookTables ∅ ∅ ∅.

Lemma empty_book_shown : book_wf empty_book_tables /\ shows empty_book_tables empty_book.
Proof.
  split; split; cbn.
  - intros m s row. by rewrite lookup_empty.
  - intros m side p q s. by rewrite lookup_empty.
  - intros m. by rewrite lookup_empty.
  - intros k. by rewrite lookup_empty.
Qed.

(** The key under which a delta is stored, and its place in its topic. *)
Definition delta_key (d : Delivery) : Z * Z :=
  (obd_market_id (dl_event d), obd_engine_sequence (dl_event d)).
Definition delta_place (d : Delivery) : string * Z * Z :=
  (dl_topic d, dl_partition d, dl_next_offset d).

Lemma deliveries_run markets l t b seen :
  (forall d, d ∈ l -> delta_ok markets (dl_event d) /\ 0 < dl_next_offset d <= i64_max) ->
  (forall d1 d2, d1 ∈ seen ++ l -> d2 ∈ seen ++ l -> delta_place d1 = delta_place d2 ->
     delta_key d1 = delta_key d2) ->
  (forall k row, orderbook_events t !! k = Some row -> exists d, d ∈ seen /\ k = delta_key d /\
     delta_place d = (be_topic row, be_partition row, be_offset_value row + 1)) ->
  book_wf t -> shows t b ->
  exists t', for_each l (project_delivery markets) t = (Ok tt, t') /\ book_wf t' /\
    shows t' (foldl book_step b (dl_event <$> l)).
Proof.
  revert t b seen. induction l as [|d l IH]; intros t b seen Hl Hplace Hev Hwf Hb.
  { exists t. by split_and!. }
  destruct (Hl d ltac:(set_solver)) as [Hok Hn].
  destruct (project_delta_run markets (dl_event d) (dl_topic d) (dl_partition d) (dl_next_offset d) t b)
    as (t1 & H1 & Hwf1 & Hb1 & Hev1); try done.
  { intros k row Hk Ht Hp Ho. destruct (Hev k row Hk) as (d' & Hd' & -> & Hpl).
    apply (Hplace d' d); [set_solver..|]. rewrite Hpl. unfold delta_place. rewrite Ht, Hp.
    f_equal. lia. }
  cbn [for_each fmap list_fmap foldl]. unfold project_delivery at 1.
  destruct (IH t1 (book_step b (dl_event d)) (seen ++ [d])) as (t' & Hrun & Hwf' & Hb').
  - set_solver.
  - by rewrite <- app_assoc.
  - intros k row [Hk|(-> & Ht & Hp & Ho)]%Hev1.
    + destruct (Hev k row Hk) as (d' & ? & ?). exists d'. set_solver.
    + exists d. split_and!; [set_solver|done|]. unfold delta_place. rewrite Ht, Hp.
      f_equal. lia.
  - done.
  - done.
  - exists t'. split; [|done]. exact (eq_trans (bind_run _ _ _ _ _ H1) Hrun).
Qed.

Lemma replay_sequence_ge deltas e :
  e ∈ deltas -> exists s, bk_sequence (replay deltas) (obd_market_id e) = Some s /\
    obd_engine_sequence e <= s.
Proof.
  unfold replay. induction deltas as [|d deltas IH] using rev_ind; [by intros ?%elem_of_nil|].
  rewrite foldl_app. cbn. set (b := foldl book_step empty_book deltas) in *.
  intros [Hin|He%list_elem_of_singleton]%elem_of_app; [|subst e].
  - destruct (IH Hin) as (s & Hs & Hle). unfold book_step. destruct (applies _ _) eqn:Ha; [|eauto].
    cbn. destruct (Z.eqb_spec (obd_market_id e) (obd_market_id d)) as [He|He]; [|eauto].
    rewrite <- He, Hs in Ha. cbn in Ha. split_bool. eexists. split; [done|lia].
  - unfold book_step. destruct (applies _ _) eqn:Ha; cbn.
    + rewrite Z.eqb_refl. eauto with lia.
    + destruct (bk_sequence b (obd_market_id d)) as [s|]; [|done]. cbn in Ha. split_bool. eauto.
Qed.

Lemma replay_again deltas again :
  (forall e, e ∈ again -> e ∈ deltas) -> replay (deltas ++ again) = replay deltas.
Proof.
  intros Hin. unfold replay. rewrite foldl_app. fold (replay deltas).
  assert (forall e, e ∈ again -> exists s, bk_sequence (replay deltas) (obd_market_id e) = Some s /\
    obd_engine_sequence e <= s) as Hs by (intros; by apply replay_sequence_ge, Hin).
  clear Hin. induction again as [|e again IH]; [done|]. cbn.
  destruct (Hs e ltac:(set_solver)) as (s & He & Hle).
  assert (book_step (replay deltas) e = replay deltas) as ->.
  { unfold book_step. rewrite He. cbn. case_if; [lia|done]. }
  apply IH. set_solver.
Qed.

(** Claim C19 (refinement). Projecting any stream of well-formed deltas succeeds,
    and the stored book is the replay of the deltas newer than what their market
    had seen: the last of them to name a price decides its quantity. Delivering
    deltas again, in any order, leaves the same book. *)
Theorem orderbook_is_replay markets l again :
  (forall d, d ∈ l ++ again -> delta_ok markets (dl_event d) /\ 0 < dl_next_offset d <= i64_max) ->
  (forall d1 d2, d1 ∈ l ++ again -> d2 ∈ l ++ again -> delta_place d1 = delta_place d2 ->
     delta_key d1 = delta_key d2) ->
  (forall d, d ∈ again -> dl_event d ∈ dl_event <$> l) ->
  exists t, for_each (l ++ again) (project_delivery markets) empty_book_tables = (Ok tt, t) /\
    forall k, fst <$> orderbook_levels t !! k = bk_quantity (replay (dl_event <$> l)) k.
Proof.
  intros Hl Hplace Hagain. destruct empty_book_shown as [Hwf Hb].
  destruct (deliveries_run markets (l ++ again) empty_book_tables empty_book [])
    as (t & Hrun & _ & Ht); try done.
  exists t. split; [done|]. intros k. rewrite <- (sh_quantity _ _ Ht). rewrite fmap_app.
  f_equal. fold (replay ((dl_event <$> l) ++ (dl_event <$> again))). apply replay_again.
  intros e (d & -> & Hd)%list_elem_of_fmap. by apply Hagain.
Qed.
