(* ===== verification/ProjectorDb.v ===== *)
(** * ProjectorDb: contexts, orders and fills of the projector

    The tables of [apps/projector/src/repository.rs] beside positions and book,
    and the statements its transactions are made of. [updated_at] and
    [created_at] are not kept; [status] of a context is text, as in the table. *)

From S2P Require Import Prelude Protocol Postgres ProjectorMath ProjectorPositions ProjectorBook.

Inductive OrderStatus :=
| OrderStatus_PENDING
| OrderStatus_OPEN
| OrderStatus_FILLED
| OrderStatus_PARTIAL
| OrderStatus_CANCELLED
| OrderStatus_REJECTED.
#[export] Instance OrderStatus_eq_dec : EqDecision OrderStatus.
Proof. solve_decision. Defined.

Definition order_type_to_db (order_type : OrderType) : DbOrderType :=
  match order_type with
  | OrderType_LIMIT => DbOrderType_LIMIT
  | OrderType_MARKET => DbOrderType_MARKET
  end.

Definition order_status_after_fill (order_quantity filled_quantity : Z) : OrderStatus :=
  if order_quantity <=? filled_quantity then OrderStatus_FILLED else OrderStatus_PARTIAL.

Definition context_status_for_order_status (status : OrderStatus) : string :=
  match status with
  | OrderStatus_PENDING => "PENDING"
  | OrderStatus_OPEN => "OPEN"
  | OrderStatus_FILLED => "FILLED"
  | OrderStatus_PARTIAL => "PARTIAL"
  | OrderStatus_CANCELLED => "CANCELLED"
  | OrderStatus_REJECTED => "REJECTED"
  end.

(** ** Tables *)

(** A row of [projector_order_context], without its reservation id. *)
Record ContextRow := mkContextRow {
  cx_request_id : string;
  cx_order_id : option Z;
  cx_user_id : Z;
  cx_market_id : Z;
  cx_market_name : string;
  cx_side : SideType;
  cx_order_type : DbOrderType;
  cx_quantity : Z;
  cx_price : Z;
  cx_status : string;
  cx_reject_reason : option string;
  cx_reduce_only : bool
}.

(** A row of [orders], without its id. *)
Record ProjectedOrder := mkProjectedOrder {
  or_user_id : Z;
  or_market_id : Z;
  or_market_name : string;
  or_side : SideType;
  or_order_type : DbOrderType;
  or_quantity : Z;
  or_price : Z;
  or_status : OrderStatus;
  or_margin : Z;
  or_reduce_only : bool
}.

(** A row of [fills], without its id. *)
Record ProjectedFill := mkProjectedFill {
  fl_market_id : Z;
  fl_engine_sequence : Z;
  fl_maker_id : Z;
  fl_taker_id : Z;
  fl_maker_order_id : Z;
  fl_taker_order_id : Z;
  fl_price : Z;
  fl_quantity : Z;
  fl_maker_position : SideType;
  fl_taker_position : SideType;
  fl_executed_at : Z
}.

Section WithSerde.
Context {SD : Serde}.

(** A row of [engine_event_log], without its engine event id. *)
Record EventLogRow := mkEventLogRow {
  el_event_type : string;
  el_market_id : option Z;
  el_engine_sequence : option Z;
  el_engine_timestamp_ms : Z;
  el_topic : string;
  el_partition : Z;
  el_offset_value : Z;
  el_payload : Value
}.

Record ProjectorDb := mkProjectorDb {
  pj_users : gset Z;
  (** [markets]: name and last traded price *)
  pj_markets : gmap Z (string * Z);
  (** [wallet_reservations.amount], which the wallet writes *)
  pj_reserved : gmap string Z;
  projector_order_context : gmap string ContextRow;
  orders : gmap Z ProjectedOrder;
  fills : gmap Z ProjectedFill;
  pj_positions : PositionTables;
  pj_book : BookTables;
  engine_event_log : gmap string EventLogRow;
  projector_offsets : Offsets
}.

Definition set_markets (db : ProjectorDb) m : ProjectorDb :=
  mkProjectorDb (pj_users db) m (pj_reserved db) (projector_order_context db) (orders db)
    (fills db) (pj_positions db) (pj_book db) (engine_event_log db) (projector_offsets db).
Definition set_contexts (db : ProjectorDb) m : ProjectorDb :=
  mkProjectorDb (pj_users db) (pj_markets db) (pj_reserved db) m (orders db)
    (fills db) (pj_positions db) (pj_book db) (engine_event_log db) (projector_offsets db).
Definition set_orders (db : ProjectorDb) m : ProjectorDb :=
  mkProjectorDb (pj_users db) (pj_markets db) (pj_reserved db) (projector_order_context db) m
    (fills db) (pj_positions db) (pj_book db) (engine_event_log db) (projector_offsets db).
Definition set_fills (db : ProjectorDb) m : ProjectorDb :=
  mkProjectorDb (pj_users db) (pj_markets db) (pj_reserved db) (projector_order_context db)
    (orders db) m (pj_positions db) (pj_book db) (engine_event_log db) (projector_offsets db).
Definition set_pj_positions (db : ProjectorDb) t : ProjectorDb :=
  mkProjectorDb (pj_users db) (pj_markets db) (pj_reserved db) (projector_order_context db)
    (orders db) (fills db) t (pj_book db) (engine_event_log db) (projector_offsets db).
Definition set_pj_book (db : ProjectorDb) t : ProjectorDb :=
  mkProjectorDb (pj_users db) (pj_markets db) (pj_reserved db) (projector_order_context db)
    (orders db) (fills db) (pj_positions db) t (engine_event_log db) (projector_offsets db).
Definition set_event_log (db : ProjectorDb) m : ProjectorDb :=
  mkProjectorDb (pj_users db) (pj_markets db) (pj_reserved db) (projector_order_context db)
    (orders db) (fills db) (pj_positions db) (pj_book db) m (projector_offsets db).
Definition set_offsets (db : ProjectorDb) t : ProjectorDb :=
  mkProjectorDb (pj_users db) (pj_markets db) (pj_reserved db) (projector_order_context db)
    (orders db) (fills db) (pj_positions db) (pj_book db) (engine_event_log db) t.

#[export] Instance ProjectorDb_rollback : Rollback ProjectorDb := fun before after =>
  set_pj_positions before (set_position_seq (pj_positions before)
    (projector_position_id_seq (pj_positions after))).

Inductive ProjectorRepositoryError :=
| ProjectorRepositoryError_MissingOrderContext (reservation_id : option string)
    (order_id : option Z)
| ProjectorRepositoryError_Serialization
| ProjectorRepositoryError_Storage (error : SqlError).

Definition is_missing_order_context (self : ProjectorRepositoryError) : bool :=
  match self with ProjectorRepositoryError_MissingOrderContext _ _ => true | _ => false end.

Definition PDb (A : Type) : Type := M ProjectorDb ProjectorRepositoryError A.

Definition pj_storage {A} (e : SqlError) : PDb A := throw (ProjectorRepositoryError_Storage e).
Definition pj_check_fk (b : bool) : PDb unit :=
  if b then ret tt else pj_storage ForeignKeyViolation.

(** A statement on the position tables or on the book. *)
Definition known_of (db : ProjectorDb) : Known :=
  mkKnown (pj_users db) (dom (pj_markets db)) (dom (orders db)) (dom (fills db)).
Definition on_positions {A} (m : Known -> TM A) : PDb A := fun db =>
  let '(r, t) := m (known_of db) (pj_positions db) in
  (map_err ProjectorRepositoryError_Storage r, set_pj_positions db t).
Definition on_book {A} (m : gset Z -> BM A) : PDb A := fun db =>
  let '(r, t) := m (dom (pj_markets db)) (pj_book db) in
  (map_err ProjectorRepositoryError_Storage r, set_pj_book db t).

(** ** Offsets *)

Definition projector_save_queue_offset_in_tx (topic : string) (partition next_offset : Z)
    : PDb unit :=
  let* t := gets projector_offsets in
  let* t' := lift (map_err ProjectorRepositoryError_Storage
                     (upsert_offset topic partition next_offset t)) in
  modify (fun db => set_offsets db t').

Definition projector_save_queue_offset (topic : string) (partition next_offset : Z) : PDb unit :=
  transaction (projector_save_queue_offset_in_tx topic partition next_offset).

Definition projector_load_queue_offset (topic : string) (partition : Z) (db : ProjectorDb)
    : option Z := projector_offsets db !! (topic, partition).

(** ** Order contexts *)

(** The unique indexes on [request_id] and [order_id]. *)
Definition context_clashes (reservation_id : string) (row : ContextRow)
    (m : gmap string ContextRow) : bool :=
  existsb (fun '(k, r) => negb (bool_decide (k = reservation_id))
      && (bool_decide (cx_request_id r = cx_request_id row)
          || match cx_order_id row with
             | Some _ => bool_decide (cx_order_id r = cx_order_id row)
             | None => false
             end))
    (map_to_list m).

Definition write_context (reservation_id : string) (row : ContextRow) : PDb unit :=
  let* m := gets projector_order_context in
  if context_clashes reservation_id row m then pj_storage UniqueViolation
  else
    do* (let* us := gets pj_users in pj_check_fk (bool_decide (cx_user_id row ∈ us))) in
    do* (let* ms := gets pj_markets in
         pj_check_fk (bool_decide (is_Some (ms !! cx_market_id row)))) in
    modify (fun db => set_contexts db (<[reservation_id := row]> (projector_order_context db))).

(** The upsert of [save_order_context] and [save_liquidation_context]. *)
Definition upsert_context (reservation_id : string) (proposed : ContextRow) : PDb unit :=
  if (cx_quantity proposed <=? 0) || (cx_price proposed <? 0) then pj_storage CheckViolation
  else
    let* existing := gets (fun db => projector_order_context db !! reservation_id) in
    match existing with
    | None => write_context reservation_id proposed
    | Some row =>
        write_context reservation_id
          (mkContextRow (cx_request_id proposed) (cx_order_id row) (cx_user_id proposed)
             (cx_market_id proposed) (cx_market_name proposed) (cx_side proposed)
             (cx_order_type proposed) (cx_quantity proposed) (cx_price proposed)
             (cx_status row) (cx_reject_reason row) (cx_reduce_only proposed))
    end.

Definition set_context_state (row : ContextRow) (order_id : option Z) (status : string)
    (reject_reason : option string) : ContextRow :=
  mkContextRow (cx_request_id row) order_id (cx_user_id row) (cx_market_id row)
    (cx_market_name row) (cx_side row) (cx_order_type row) (cx_quantity row) (cx_price row)
    status reject_reason (cx_reduce_only row).

(** [UPDATE projector_order_context SET ... WHERE reservation_id=$1] *)
Definition update_context (reservation_id : string) (set : ContextRow -> ContextRow) : PDb unit :=
  let* m := gets projector_order_context in
  match m !! reservation_id with
  | None => ret tt
  | Some row =>
      if context_clashes reservation_id (set row) m then pj_storage UniqueViolation
      else modify (fun db => set_contexts db
                     (<[reservation_id := set row]> (projector_order_context db)))
  end.

(** [CASE WHEN status IN (...) THEN status ELSE ... END] *)
Definition keep_status (kept : list string) (status otherwise : string) : string :=
  if bool_decide (status ∈ kept) then status else otherwise.

Definition accepted_context (order_id : Z) (row : ContextRow) : ContextRow :=
  set_context_state row (Some order_id)
    (keep_status ["OPEN"; "PARTIAL"; "FILLED"; "CANCELLED"] (cx_status row) "ACCEPTED") None.
Definition rejected_context (reason : string) (row : ContextRow) : ContextRow :=
  set_context_state row (cx_order_id row)
    (keep_status ["ACCEPTED"; "OPEN"; "PARTIAL"; "FILLED"; "CANCELLED"] (cx_status row) "REJECTED")
    (Some reason).
Definition opened_context (order_id : Z) (row : ContextRow) : ContextRow :=
  set_context_state row (Some order_id)
    (keep_status ["PARTIAL"; "FILLED"; "CANCELLED"] (cx_status row) "OPEN") (cx_reject_reason row).
(** [order_id=COALESCE(order_id, $2)] *)
Definition coalesce_order_id (order_id : Z) (row : ContextRow) : option Z :=
  match cx_order_id row with Some id => Some id | None => Some order_id end.
Definition cancelled_context (order_id : Z) (row : ContextRow) : ContextRow :=
  set_context_state row (coalesce_order_id order_id row) "CANCELLED" (cx_reject_reason row).

Definition update_context_order_id_in_tx (reservation_id : option string) (order_id : Z)
    : PDb unit :=
  match reservation_id with
  | Some reservation_id =>
      update_context reservation_id (fun row =>
        set_context_state row (coalesce_order_id order_id row) (cx_status row)
          (cx_reject_reason row))
  | None => ret tt
  end.

(** [c.*, COALESCE(w.amount, 0) AS margin] *)
Definition context_from_row (reservation_id : string) (row : ContextRow)
    (reserved : gmap string Z) : StoredOrderContext :=
  mkStoredOrderContext (Some reservation_id) (cx_request_id row) (cx_order_id row)
    (cx_user_id row) (cx_market_id row) (cx_market_name row) (cx_side row) (cx_order_type row)
    (cx_quantity row) (cx_price row) (default 0 (reserved !! reservation_id))
    (cx_reduce_only row).
Definition context_from_order (order_id : Z) (row : ProjectedOrder) : StoredOrderContext :=
  mkStoredOrderContext None "" (Some order_id) (or_user_id row) (or_market_id row)
    (or_market_name row) (or_side row) (or_order_type row) (or_quantity row) (or_price row)
    (or_margin row) (or_reduce_only row).

(** [context.order_id = Some(order_id)] *)
Definition with_order_id (context : StoredOrderContext) (order_id : Z) : StoredOrderContext :=
  mkStoredOrderContext (soc_reservation_id context) (soc_request_id context) (Some order_id)
    (soc_user_id context) (soc_market_id context) (soc_market_name context) (soc_side context)
    (soc_order_type context) (soc_quantity context) (soc_price context) (soc_margin context)
    (soc_reduce_only context).

Definition maybe_context_by_reservation_in_tx (reservation_id : string)
    : PDb (option StoredOrderContext) :=
  gets (fun db => (fun row => context_from_row reservation_id row (pj_reserved db))
                    <$> projector_order_context db !! reservation_id).

Definition maybe_context_by_order_id_in_tx (order_id : Z) : PDb (option StoredOrderContext) :=
  gets (fun db =>
    match List.find (fun '(_, row) => bool_decide (cx_order_id row = Some order_id))
            (map_to_list (projector_order_context db)) with
    | Some (reservation_id, row) => Some (context_from_row reservation_id row (pj_reserved db))
    | None => context_from_order order_id <$> orders db !! order_id
    end).

Definition load_context_by_reservation_in_tx (reservation_id : string) : PDb StoredOrderContext :=
  let* context := maybe_context_by_reservation_in_tx reservation_id in
  match context with
  | Some context => ret context
  | None => throw (ProjectorRepositoryError_MissingOrderContext (Some reservation_id) None)
  end.

Definition load_context_for_order_in_tx (reservation_id : option string) (order_id : Z)
    : PDb StoredOrderContext :=
  let* by_reservation :=
    match reservation_id with
    | Some reservation_id => maybe_context_by_reservation_in_tx reservation_id
    | None => ret None
    end in
  match by_reservation with
  | Some context => ret context
  | None =>
      let* by_order := maybe_context_by_order_id_in_tx order_id in
      match by_order with
      | Some context => ret context
      | None =>
          throw (ProjectorRepositoryError_MissingOrderContext reservation_id (Some order_id))
      end
  end.

Definition maybe_load_context_for_order_in_tx (reservation_id : option string) (order_id : Z)
    : PDb (option StoredOrderContext) := fun db =>
  match load_context_for_order_in_tx reservation_id order_id db with
  | (Ok context, db') => (Ok (Some context), db')
  | (Err error, db') => if is_missing_order_context error then (Ok None, db') else (Err error, db')
  end.
End WithSerde.
