(* ===== verification/Projector.v ===== *)
(** * Projector: the projector's transactions and its consumers

    The operations of [ProjectorRepository] ([apps/projector/src/repository.rs])
    with the statements they share, their dispatch ([processor.rs], [worker.rs])
    and one turn of the consumer of a partition ([redpanda.rs]). *)

From S2P Require Import Prelude Protocol Postgres ProjectorMath ProjectorPositions ProjectorBook.
From S2P Require Import ProjectorDb.

Section WithSerde.
Context {SD : Serde}.

(** ** The event log *)

Record EngineEventLogMetadata := mkEngineEventLogMetadata {
  elm_event_type : string;
  elm_engine_event_id : option string;
  elm_market_id : option Z;
  elm_engine_sequence : option Z;
  elm_engine_timestamp_ms : Z;
  elm_checkpoint_id : option string
}.

Record EngineEventLogEntry := mkEngineEventLogEntry {
  ele_engine_event_id : string;
  ele_event_type : string;
  ele_market_id : option Z;
  ele_engine_sequence : option Z;
  ele_engine_timestamp_ms : Z;
  ele_payload : Value
}.

Definition engine_event_log_metadata (event : EngineEvent) : EngineEventLogMetadata :=
  let metadata event_type id market_id sequence timestamp :=
    mkEngineEventLogMetadata event_type id (Some market_id) (Some sequence) timestamp None in
  match event with
  | EngineEvent_OrderOpened e => metadata "OrderOpened" (oo_engine_event_id e) (oo_market_id e)
      (oo_engine_sequence e) (oo_engine_timestamp_ms e)
  | EngineEvent_OrderCancelled e => metadata "OrderCancelled" (oc_engine_event_id e)
      (oc_market_id e) (oc_engine_sequence e) (oc_engine_timestamp_ms e)
  | EngineEvent_OrderExpired e => metadata "OrderExpired" (oe_engine_event_id e)
      (oe_market_id e) (oe_engine_sequence e) (oe_engine_timestamp_ms e)
  | EngineEvent_ReservationReleased e => metadata "ReservationReleased" (rrl_engine_event_id e)
      (rrl_market_id e) (rrl_engine_sequence e) (rrl_engine_timestamp_ms e)
  | EngineEvent_TradeExecuted e => metadata "TradeExecuted" (te_engine_event_id e)
      (te_market_id e) (te_engine_sequence e) (te_engine_timestamp_ms e)
  | EngineEvent_OrderBookDelta e => metadata "OrderBookDelta" (obd_engine_event_id e)
      (obd_market_id e) (obd_engine_sequence e) (obd_engine_timestamp_ms e)
  | EngineEvent_MarkPriceUpdated e => metadata "MarkPriceUpdated" (mpu_engine_event_id e)
      (mpu_market_id e) (mpu_engine_sequence e) (mpu_engine_timestamp_ms e)
  | EngineEvent_FundingRateUpdated e => metadata "FundingRateUpdated" (fru_engine_event_id e)
      (fru_market_id e) (fru_engine_sequence e) (fru_engine_timestamp_ms e)
  | EngineEvent_FundingPaymentApplied e => metadata "FundingPaymentApplied"
      (fpa_engine_event_id e) (fpa_market_id e) (fpa_engine_sequence e)
      (fpa_engine_timestamp_ms e)
  | EngineEvent_PositionChanged e => metadata "PositionChanged" (pc_engine_event_id e)
      (pc_market_id e) (pc_engine_sequence e) (pc_engine_timestamp_ms e)
  | EngineEvent_RiskStateUpdated e => metadata "RiskStateUpdated" (rsu_engine_event_id e)
      (rsu_market_id e) (rsu_engine_sequence e) (rsu_engine_timestamp_ms e)
  | EngineEvent_LiquidationStarted e => metadata "LiquidationStarted" (ls_engine_event_id e)
      (ls_market_id e) (ls_engine_sequence e) (ls_engine_timestamp_ms e)
  | EngineEvent_LiquidationExecuted e => metadata "LiquidationExecuted" (le_engine_event_id e)
      (le_market_id e) (le_engine_sequence e) (le_engine_timestamp_ms e)
  | EngineEvent_LiquidationCompleted e => metadata "LiquidationCompleted" (lc_engine_event_id e)
      (lc_market_id e) (lc_engine_sequence e) (lc_engine_timestamp_ms e)
  | EngineEvent_AdlExecuted e => metadata "AdlExecuted" (adl_engine_event_id e)
      (adl_market_id e) (adl_engine_sequence e) (adl_engine_timestamp_ms e)
  | EngineEvent_AccountDelta e => metadata "AccountDelta" (ad_engine_event_id e)
      (ad_market_id e) (ad_engine_sequence e) (ad_engine_timestamp_ms e)
  end.

(** [Option::filter(|id| !id.is_empty())] *)
Definition non_empty (o : option string) : option string :=
  match o with Some id => if bool_decide (id = "") then None else Some id | None => None end.

Definition engine_event_log_id (metadata : EngineEventLogMetadata) : string :=
  match non_empty (elm_engine_event_id metadata) with
  | Some engine_event_id => engine_event_id
  | None =>
      match non_empty (elm_checkpoint_id metadata) with
      | Some checkpoint_id => "checkpoint:" +:+ checkpoint_id
      | None =>
          match elm_market_id metadata, elm_engine_sequence metadata with
          | Some market_id, Some engine_sequence =>
              elm_event_type metadata +:+ ":" +:+ to_string market_id +:+ ":"
              +:+ to_string engine_sequence
          | _, _ =>
              elm_event_type metadata +:+ ":" +:+ to_string (elm_engine_timestamp_ms metadata)
          end
      end
  end.

Definition engine_event_log_entry (event : EngineEvent)
    : Result ProjectorRepositoryError EngineEventLogEntry :=
  let metadata := engine_event_log_metadata event in
  match engine_event_to_value event with
  | None => Err ProjectorRepositoryError_Serialization
  | Some payload =>
      Ok (mkEngineEventLogEntry (engine_event_log_id metadata) (elm_event_type metadata)
            (elm_market_id metadata) (elm_engine_sequence metadata)
            (elm_engine_timestamp_ms metadata) payload)
  end.

(** The unique index on the place of a record in its topic. *)
Definition event_log_clashes (row : EventLogRow) (m : gmap string EventLogRow) : bool :=
  existsb (fun '(_, r) => bool_decide (el_topic r = el_topic row)
             && (el_partition r =? el_partition row) && (el_offset_value r =? el_offset_value row))
    (map_to_list m).

Definition event_log_row (entry : EngineEventLogEntry) (topic : string)
    (partition next_offset : Z) : EventLogRow :=
  mkEventLogRow (ele_event_type entry) (ele_market_id entry) (ele_engine_sequence entry)
    (ele_engine_timestamp_ms entry) topic partition (i64_wrap (next_offset - 1))
    (ele_payload entry).

(** [INSERT_ENGINE_EVENT_LOG_SQL]: [ON CONFLICT(engine_event_id) DO NOTHING] *)
Definition insert_engine_event_log_in_tx (entry : EngineEventLogEntry) (topic : string)
    (partition next_offset : Z) : PDb unit :=
  let row := event_log_row entry topic partition next_offset in
  if bool_decide (ele_engine_event_id entry = "")
     || match el_engine_sequence row with Some s => s <=? 0 | None => false end
     || (el_engine_timestamp_ms row <? 0) || (el_offset_value row <? 0)
  then pj_storage CheckViolation
  else
    let* m := gets engine_event_log in
    if bool_decide (is_Some (m !! ele_engine_event_id entry)) then ret tt
    else if event_log_clashes row m then pj_storage UniqueViolation
    else
      do* match el_market_id row with
          | Some market_id =>
              let* ms := gets pj_markets in pj_check_fk (bool_decide (is_Some (ms !! market_id)))
          | None => ret tt
          end in
      modify (fun db => set_event_log db
        (<[ele_engine_event_id entry := row]> (engine_event_log db))).

Definition save_engine_event_log (event : EngineEvent) (topic : string)
    (partition next_offset : Z) : PDb unit :=
  let* entry := lift (engine_event_log_entry event) in
  transaction (insert_engine_event_log_in_tx entry topic partition next_offset).

Definition project_engine_event_log (event : EngineEvent) (topic : string)
    (partition next_offset : Z) : PDb unit :=
  let* entry := lift (engine_event_log_entry event) in
  transaction (
    do* insert_engine_event_log_in_tx entry topic partition next_offset in
    projector_save_queue_offset_in_tx topic partition next_offset).

(** ** Inputs and replies of the engine *)

Definition save_order_context (order : ReservedPlaceOrder) (topic : string)
    (partition next_offset : Z) : PDb unit :=
  transaction (
    do* upsert_context (rpo_reservation_id order)
          (mkContextRow (env_request_id (rpo_envelope order)) None
             (env_user_id (rpo_envelope order)) (rpo_market_id order) (rpo_market_name order)
             (side_to_db (rpo_side order)) (order_type_to_db (rpo_order_type order))
             (rpo_quantity order) (rpo_price order) "PENDING" None (rpo_reduce_only order)) in
    projector_save_queue_offset_in_tx topic partition next_offset).

Definition save_liquidation_context (liquidation : LiquidatePosition) (topic : string)
    (partition next_offset : Z) : PDb unit :=
  let close_side := opposite_side (lp_position_side liquidation) in
  let order_type :=
    if lp_price liquidation =? 0 then DbOrderType_MARKET else DbOrderType_LIMIT in
  transaction (
    do* upsert_context (lp_liquidation_id liquidation)
          (mkContextRow (env_request_id (lp_envelope liquidation)) None
             (lp_liquidated_user_id liquidation) (lp_market_id liquidation)
             (lp_market_name liquidation) close_side order_type (lp_quantity liquidation)
             (lp_price liquidation) "PENDING" None true) in
    projector_save_queue_offset_in_tx topic partition next_offset).

Definition mark_order_accepted (reply : OrderAccepted) (topic : string)
    (partition next_offset : Z) : PDb unit :=
  transaction (
    do* load_context_by_reservation_in_tx (oa_reservation_id reply) in
    do* update_context (oa_reservation_id reply) (accepted_context (oa_order_id reply)) in
    projector_save_queue_offset_in_tx topic partition next_offset).

Definition mark_order_rejected (reply : OrderRejected) (topic : string)
    (partition next_offset : Z) : PDb unit :=
  transaction (
    do* match orj_reservation_id reply with
        | Some reservation_id =>
            do* load_context_by_reservation_in_tx reservation_id in
            update_context reservation_id (rejected_context (orj_reason reply))
        | None => ret tt
        end in
    projector_save_queue_offset_in_tx topic partition next_offset).

Definition mark_liquidation_accepted (reply : LiquidationAccepted) (topic : string)
    (partition next_offset : Z) : PDb unit :=
  transaction (
    do* load_context_by_reservation_in_tx (la_liquidation_id reply) in
    do* update_context (la_liquidation_id reply) (accepted_context (la_order_id reply)) in
    projector_save_queue_offset_in_tx topic partition next_offset).

Definition mark_liquidation_rejected (reply : LiquidationRejected) (topic : string)
    (partition next_offset : Z) : PDb unit :=
  transaction (
    do* load_context_by_reservation_in_tx (lrj_liquidation_id reply) in
    do* update_context (lrj_liquidation_id reply) (rejected_context (lrj_reason reply)) in
    projector_save_queue_offset_in_tx topic partition next_offset).

(** ** Orders *)

(** [INSERT INTO orders ... ON CONFLICT(order_id)]: what happens to a row already
    there is [on_conflict]. *)
Definition upsert_order (order_id : Z) (proposed : ProjectedOrder)
    (on_conflict : ProjectedOrder -> ProjectedOrder) : PDb unit :=
  if (or_quantity proposed <=? 0) || (or_price proposed <? 0) || (or_margin proposed <? 0)
  then pj_storage CheckViolation
  else
    let* existing := gets (fun db => orders db !! order_id) in
    match existing with
    | Some row => modify (fun db => set_orders db (<[order_id := on_conflict row]> (orders db)))
    | None =>
        do* (let* us := gets pj_users in pj_check_fk (bool_decide (or_user_id proposed ∈ us))) in
        do* (let* ms := gets pj_markets in
             pj_check_fk (bool_decide (is_Some (ms !! or_market_id proposed)))) in
        modify (fun db => set_orders db (<[order_id := proposed]> (orders db)))
    end.

Definition order_from_context (context : StoredOrderContext) (status : OrderStatus)
    : ProjectedOrder :=
  mkProjectedOrder (soc_user_id context) (soc_market_id context) (soc_market_name context)
    (soc_side context) (soc_order_type context) (soc_quantity context) (soc_price context)
    status (soc_margin context) (soc_reduce_only context).

Definition set_order_status (row : ProjectedOrder) (status : OrderStatus) (reduce_only : bool)
    : ProjectedOrder :=
  mkProjectedOrder (or_user_id row) (or_market_id row) (or_market_name row) (or_side row)
    (or_order_type row) (or_quantity row) (or_price row) status (or_margin row) reduce_only.

Definition insert_order_if_missing_in_tx (context : StoredOrderContext) (order_id : Z)
    : PDb unit :=
  upsert_order order_id (order_from_context context OrderStatus_PENDING) (fun row => row).

Definition upsert_order_open_in_tx (context : StoredOrderContext) (order_id : Z) : PDb unit :=
  upsert_order order_id (order_from_context context OrderStatus_OPEN) (fun row =>
    set_order_status row
      (if bool_decide (or_status row ∈ [OrderStatus_FILLED; OrderStatus_CANCELLED])
       then or_status row else OrderStatus_OPEN)
      (soc_reduce_only context)).

Definition upsert_order_cancelled_in_tx (context : StoredOrderContext) (order_id : Z)
    : PDb unit :=
  upsert_order order_id (order_from_context context OrderStatus_CANCELLED) (fun row =>
    set_order_status row OrderStatus_CANCELLED (soc_reduce_only context)).

Definition project_order_opened (event : OrderOpened) (topic : string)
    (partition next_offset : Z) : PDb unit :=
  transaction (
    let* context := load_context_by_reservation_in_tx (oo_reservation_id event) in
    let context := with_order_id context (oo_order_id event) in
    do* update_context (oo_reservation_id event) (opened_context (oo_order_id event)) in
    do* upsert_order_open_in_tx context (oo_order_id event) in
    projector_save_queue_offset_in_tx topic partition next_offset).

Definition project_order_cancelled (event : OrderCancelled) (topic : string)
    (partition next_offset : Z) : PDb unit :=
  transaction (
    let* context :=
      load_context_for_order_in_tx (Some (oc_reservation_id event)) (oc_order_id event) in
    let context := with_order_id context (oc_order_id event) in
    do* update_context (oc_reservation_id event) (cancelled_context (oc_order_id event)) in
    do* upsert_order_cancelled_in_tx context (oc_order_id event) in
    projector_save_queue_offset_in_tx topic partition next_offset).
End WithSerde.
