(* ===== verification/ProjectorTrades.v ===== *)
(** * ProjectorTrades: a trade, its dispatch and the consumers

    [project_trade_executed] of [apps/projector/src/repository.rs] with the
    contexts it makes up for liquidations, the dispatch of [processor.rs] and
    [worker.rs], and one turn of [run_source_partition] of [redpanda.rs]. *)

From S2P Require Import Prelude Protocol Postgres ProjectorMath ProjectorPositions ProjectorBook.
From S2P Require Import ProjectorDb Projector.

Inductive TradeParticipant :=
| TradeParticipant_Maker
| TradeParticipant_Taker.

Definition label (self : TradeParticipant) : string :=
  match self with TradeParticipant_Maker => "maker" | TradeParticipant_Taker => "taker" end.
Definition participant_order_id (self : TradeParticipant) (event : TradeExecuted) : Z :=
  match self with
  | TradeParticipant_Maker => te_maker_order_id event
  | TradeParticipant_Taker => te_taker_order_id event
  end.
Definition participant_user_id (self : TradeParticipant) (event : TradeExecuted) : Z :=
  match self with
  | TradeParticipant_Maker => te_maker_user_id event
  | TradeParticipant_Taker => te_taker_user_id event
  end.
Definition participant_reservation_id (self : TradeParticipant) (event : TradeExecuted)
    : option string :=
  match self with
  | TradeParticipant_Maker => te_maker_reservation_id event
  | TradeParticipant_Taker => te_taker_reservation_id event
  end.

Definition missing_order_context_for_participant (event : TradeExecuted)
    (participant : TradeParticipant) : ProjectorRepositoryError :=
  ProjectorRepositoryError_MissingOrderContext (participant_reservation_id participant event)
    (Some (participant_order_id participant event)).

Definition is_synthetic_liquidation_or_adl_trade (event : TradeExecuted) : bool :=
  bool_decide (te_execution_reason event = ExecutionReason_LIQUIDATION)
  || bool_decide (is_Some (te_liquidation_id event))
  || bool_decide (is_Some (te_liquidated_user_id event))
  || bool_decide (is_Some (te_position_side event)).

Definition synthetic_liquidation_side (event : TradeExecuted) (participant : TradeParticipant)
    (counterpart_side : option SideType) : option SideType :=
  match te_position_side event with
  | Some position_side =>
      match te_liquidated_user_id event with
      | Some liquidated_user_id =>
          Some (if participant_user_id participant event =? liquidated_user_id
                then opposite_side position_side else side_to_db position_side)
      | None =>
          Some (match participant with
                | TradeParticipant_Maker => side_to_db position_side
                | TradeParticipant_Taker => opposite_side position_side
                end)
      end
  | None =>
      match counterpart_side with
      | Some side => Some (opposite_db_side side)
      | None =>
          Some (match participant with
                | TradeParticipant_Maker => SideType_LONG
                | TradeParticipant_Taker => SideType_SHORT
                end)
      end
  end.

Definition synthetic_liquidation_context (event : TradeExecuted) (participant : TradeParticipant)
    (market_name : string) (counterpart_side : option SideType)
    : Result ProjectorRepositoryError StoredOrderContext :=
  let? side := ok_or (missing_order_context_for_participant event participant)
                 (synthetic_liquidation_side event participant counterpart_side) in
  Ok {|
    soc_reservation_id :=
      match participant_reservation_id participant event with
      | Some id => Some id
      | None => (fun liquidation_id => liquidation_id +:+ ":" +:+ label participant)
                  <$> te_liquidation_id event
      end;
    soc_request_id :=
      match te_source_input_id event with
      | Some id => id
      | None => "synthetic:" +:+ to_string (te_market_id event) +:+ ":"
                  +:+ to_string (te_engine_sequence event) +:+ ":" +:+ label participant
      end;
    soc_order_id := Some (participant_order_id participant event);
    soc_user_id := participant_user_id participant event;
    soc_market_id := te_market_id event;
    soc_market_name := market_name;
    soc_side := side;
    soc_order_type := DbOrderType_MARKET;
    soc_quantity := te_quantity event;
    soc_price := te_price event;
    soc_margin := 0;
    soc_reduce_only := true
  |}.

Section WithSerde.
Context {SD : Serde}.

(** [fetch_one]: no such market is [RowNotFound]. *)
Definition load_market_name_in_tx (market_id : Z) : PDb string :=
  let* market := gets (fun db => pj_markets db !! market_id) in
  match market with Some (name, _) => ret name | None => pj_storage RowNotFound end.

Definition load_trade_contexts_in_tx (event : TradeExecuted)
    : PDb (StoredOrderContext * StoredOrderContext) :=
  let* maker :=
    maybe_load_context_for_order_in_tx (te_maker_reservation_id event) (te_maker_order_id event) in
  let* taker :=
    maybe_load_context_for_order_in_tx (te_taker_reservation_id event) (te_taker_order_id event) in
  if negb (is_synthetic_liquidation_or_adl_trade event) then
    let* maker := lift (ok_or
      (missing_order_context_for_participant event TradeParticipant_Maker) maker) in
    let* taker := lift (ok_or
      (missing_order_context_for_participant event TradeParticipant_Taker) taker) in
    ret (maker, taker)
  else
    let needs_synthetic := negb (bool_decide (is_Some maker) && bool_decide (is_Some taker)) in
    let* market_name :=
      if needs_synthetic
      then (let* name := load_market_name_in_tx (te_market_id event) in ret (Some name))
      else ret None in
    let maker_side := soc_side <$> maker in
    let taker_side := soc_side <$> taker in
    let* maker := lift (match maker with
      | Some context => Ok context
      | None => synthetic_liquidation_context event TradeParticipant_Maker
                  (default "" market_name) taker_side
      end) in
    let* taker := lift (match taker with
      | Some context => Ok context
      | None => synthetic_liquidation_context event TradeParticipant_Taker
                  (default "" market_name) maker_side
      end) in
    ret (maker, taker).

(** ** Fills *)

(** The unique indexes of [fills]: its id, and market with engine sequence. *)
Definition fill_conflicts (event : TradeExecuted) (m : gmap Z ProjectedFill) : bool :=
  bool_decide (is_Some (m !! te_fill_id event))
  || existsb (fun '(_, r) => (fl_market_id r =? te_market_id event)
                && (fl_engine_sequence r =? te_engine_sequence event)) (map_to_list m).

(** [INSERT INTO fills ... ON CONFLICT DO NOTHING RETURNING fill_id] *)
Definition insert_fill (event : TradeExecuted) (maker taker : StoredOrderContext) : PDb bool :=
  if negb (to_timestamp_ok (te_engine_timestamp_ms event)) then pj_storage NumericValueOutOfRange
  else if (te_price event <? 0) || (te_quantity event <=? 0) || (te_engine_sequence event <=? 0)
  then pj_storage CheckViolation
  else
    let* m := gets fills in
    if fill_conflicts event m then ret false
    else
      let* us := gets pj_users in
      do* pj_check_fk (bool_decide (soc_user_id maker ∈ us)) in
      do* pj_check_fk (bool_decide (soc_user_id taker ∈ us)) in
      let* os := gets orders in
      do* pj_check_fk (bool_decide (is_Some (os !! te_maker_order_id event))) in
      do* pj_check_fk (bool_decide (is_Some (os !! te_taker_order_id event))) in
      let* ms := gets pj_markets in
      do* pj_check_fk (bool_decide (is_Some (ms !! te_market_id event))) in
      do* modify (fun db => set_fills db (<[te_fill_id event :=
            mkProjectedFill (te_market_id event) (te_engine_sequence event) (soc_user_id maker)
              (soc_user_id taker) (te_maker_order_id event) (te_taker_order_id event)
              (te_price event) (te_quantity event) (soc_side maker) (soc_side taker)
              (te_engine_timestamp_ms event)]> (fills db))) in
      ret true.

Definition filled_quantity (order_id : Z) (m : gmap Z ProjectedFill) : Z :=
  map_sum (fun _ r => if (fl_maker_order_id r =? order_id) || (fl_taker_order_id r =? order_id)
                      then fl_quantity r else 0) m.

Definition cumulative_filled_quantity_in_tx (order_id : Z) : PDb Z :=
  let* m := gets fills in
  lift (map_err ProjectorRepositoryError_Storage (pg_int8 (filled_quantity order_id m))).

Definition update_order_after_fill_in_tx (context : StoredOrderContext) (order_id : Z)
    : PDb unit :=
  let* filled_quantity := cumulative_filled_quantity_in_tx order_id in
  let status := order_status_after_fill (soc_quantity context) filled_quantity in
  let context_status := context_status_for_order_status status in
  do* modify (fun db => set_orders db (alter (fun row =>
        if decide (or_status row = OrderStatus_CANCELLED) then row
        else set_order_status row status (or_reduce_only row)) order_id (orders db))) in
  modify (fun db => set_contexts db (map_imap (fun reservation_id row =>
    Some (if bool_decide (cx_order_id row = Some order_id)
             || bool_decide (soc_reservation_id context = Some reservation_id)
          then set_context_state row (cx_order_id row)
                 (keep_status ["CANCELLED"] (cx_status row) context_status)
                 (cx_reject_reason row)
          else row)) (projector_order_context db))).

Definition update_last_traded_price (market_id price : Z) : PDb unit :=
  modify (fun db => set_markets db (alter (fun '(name, _) => (name, price)) market_id
                                      (pj_markets db))).

(** The effects of a fill that was not there before. *)
Definition project_new_fill (event : TradeExecuted) (maker taker : StoredOrderContext) : PDb unit :=
  do* update_last_traded_price (te_market_id event) (te_price event) in
  do* on_positions (fun known =>
        project_position_for_fill_in_tx known maker (te_maker_order_id event) (te_fill_id event)
          (te_price event) (te_quantity event) (te_engine_timestamp_ms event)
          (te_execution_reason event)) in
  do* on_positions (fun known =>
        project_position_for_fill_in_tx known taker (te_taker_order_id event) (te_fill_id event)
          (te_price event) (te_quantity event) (te_engine_timestamp_ms event)
          (te_execution_reason event)) in
  on_positions (fun _ =>
    refresh_position_pnl_for_market_in_tx (te_market_id event) (te_price event)
      (te_engine_timestamp_ms event)).

(** [project_trade_executed] before it saves the offset. *)
Definition project_trade_in_tx (event : TradeExecuted) : PDb unit :=
  let* (maker, taker) := load_trade_contexts_in_tx event in
  let maker := with_order_id maker (te_maker_order_id event) in
  let taker := with_order_id taker (te_taker_order_id event) in
  do* insert_order_if_missing_in_tx maker (te_maker_order_id event) in
  do* insert_order_if_missing_in_tx taker (te_taker_order_id event) in
  do* update_context_order_id_in_tx (soc_reservation_id maker) (te_maker_order_id event) in
  do* update_context_order_id_in_tx (soc_reservation_id taker) (te_taker_order_id event) in
  let* inserted_fill := insert_fill event maker taker in
  do* update_order_after_fill_in_tx maker (te_maker_order_id event) in
  do* update_order_after_fill_in_tx taker (te_taker_order_id event) in
  if inserted_fill then project_new_fill event maker taker else ret tt.

Definition project_trade_executed (event : TradeExecuted) (topic : string)
    (partition next_offset : Z) : PDb unit :=
  transaction (
    do* project_trade_in_tx event in
    projector_save_queue_offset_in_tx topic partition next_offset).

Definition project_orderbook_delta (event : OrderBookDelta) (topic : string)
    (partition next_offset : Z) : PDb unit :=
  transaction (
    do* on_book (fun markets =>
          project_orderbook_delta_in_tx markets event topic partition next_offset) in
    projector_save_queue_offset_in_tx topic partition next_offset).

(** ** Dispatch: [processor.rs] *)

Definition processor_engine_input (input : EngineCommand) (topic : string)
    (partition next_offset : Z) : PDb unit :=
  match input with
  | EngineCommand_PlaceOrder order => save_order_context order topic partition next_offset
  | EngineCommand_LiquidatePosition liquidation =>
      save_liquidation_context liquidation topic partition next_offset
  | EngineCommand_CancelOrder _ | EngineCommand_MarkPriceUpdated _
  | EngineCommand_FundingRateUpdated _ | EngineCommand_FundingSettlementTick _ =>
      projector_save_queue_offset topic partition next_offset
  end.

Definition processor_engine_reply (reply : EngineReply) (topic : string)
    (partition next_offset : Z) : PDb unit :=
  match reply with
  | EngineReply_OrderAccepted reply => mark_order_accepted reply topic partition next_offset
  | EngineReply_OrderRejected reply => mark_order_rejected reply topic partition next_offset
  | EngineReply_LiquidationAccepted reply =>
      mark_liquidation_accepted reply topic partition next_offset
  | EngineReply_LiquidationRejected reply =>
      mark_liquidation_rejected reply topic partition next_offset
  | EngineReply_CancelAccepted _ | EngineReply_CancelRejected _ =>
      projector_save_queue_offset topic partition next_offset
  end.

Definition processor_engine_event (event : EngineEvent) (topic : string)
    (partition next_offset : Z) : PDb unit :=
  match event with
  | EngineEvent_OrderOpened event => project_order_opened event topic partition next_offset
  | EngineEvent_OrderCancelled event => project_order_cancelled event topic partition next_offset
  | EngineEvent_TradeExecuted event => project_trade_executed event topic partition next_offset
  | EngineEvent_OrderBookDelta event => project_orderbook_delta event topic partition next_offset
  | EngineEvent_OrderExpired _ | EngineEvent_ReservationReleased _
  | EngineEvent_MarkPriceUpdated _ | EngineEvent_FundingRateUpdated _
  | EngineEvent_FundingPaymentApplied _ | EngineEvent_PositionChanged _
  | EngineEvent_RiskStateUpdated _ | EngineEvent_LiquidationStarted _
  | EngineEvent_LiquidationExecuted _ | EngineEvent_LiquidationCompleted _
  | EngineEvent_AdlExecuted _ | EngineEvent_AccountDelta _ =>
      project_engine_event_log event topic partition next_offset
  end.

Definition processor_wallet_event (_event : WalletEvent) (topic : string)
    (partition next_offset : Z) : PDb unit :=
  projector_save_queue_offset topic partition next_offset.

(** ** [worker.rs] *)

Inductive ProjectorErrorKind :=
| ProjectorErrorKind_MissingOrderContext
| ProjectorErrorKind_Other.

Definition projector_error (error : ProjectorRepositoryError) : ProjectorErrorKind :=
  if is_missing_order_context error then ProjectorErrorKind_MissingOrderContext
  else ProjectorErrorKind_Other.

Definition PW (A : Type) : Type := M ProjectorDb ProjectorErrorKind A.

Definition worker {A} (m : PDb A) : PW A := fun db =>
  let '(r, db') := m db in (map_err projector_error r, db').

Definition worker_engine_event (event : EngineEvent) (topic : string)
    (partition next_offset : Z) : PW unit :=
  do* worker (save_engine_event_log event topic partition next_offset) in
  worker (processor_engine_event event topic partition next_offset).

(** ** [redpanda.rs] *)

Inductive SourceKind :=
| SourceKind_EngineInput
| SourceKind_EngineReply
| SourceKind_EngineEvent
| SourceKind_WalletEvent.

(** [serde_json::from_slice] at the four types. *)
Record Parsers := mkParsers {
  parse_input : string -> option EngineCommand;
  parse_reply : string -> option EngineReply;
  parse_event : string -> option EngineEvent;
  parse_wallet_event : string -> option WalletEvent
}.

Definition skip_invalid_payload (topic : string) (partition next_offset : Z) : PW unit :=
  worker (projector_save_queue_offset topic partition next_offset).

Definition process_payload (parsers : Parsers) (kind : SourceKind) (topic : string)
    (partition next_offset : Z) (payload : string) : PW unit :=
  match kind with
  | SourceKind_EngineInput =>
      match parse_input parsers payload with
      | Some input => worker (processor_engine_input input topic partition next_offset)
      | None => skip_invalid_payload topic partition next_offset
      end
  | SourceKind_EngineReply =>
      match parse_reply parsers payload with
      | Some reply => worker (processor_engine_reply reply topic partition next_offset)
      | None => skip_invalid_payload topic partition next_offset
      end
  | SourceKind_EngineEvent =>
      match parse_event parsers payload with
      | Some event => worker_engine_event event topic partition next_offset
      | None => skip_invalid_payload topic partition next_offset
      end
  | SourceKind_WalletEvent =>
      match parse_wallet_event parsers payload with
      | Some event => worker (processor_wallet_event event topic partition next_offset)
      | None => skip_invalid_payload topic partition next_offset
      end
  end.

(** One turn of [run_source_partition] on a record. On a missing context the
    consumer waits and fetches the record again; on any other error it ends. *)
Definition handle_source_record (parsers : Parsers) (kind : SourceKind) (topic : string)
    (partition : Z) (offset : Z) (value : option string) : PW unit :=
  let record_next_offset := i64_wrap (offset + 1) in
  match value with
  | None => worker (projector_save_queue_offset topic partition record_next_offset)
  | Some payload => process_payload parsers kind topic partition record_next_offset payload
  end.
End WithSerde.
