(* ===== verification/ProjectorStatements.v ===== *)
(** * ProjectorStatements: what each statement of the projector changes

    A successful statement is a known update of one table; the lemmas the proofs
    about transactions are made of. *)

From S2P Require Import Prelude Protocol Postgres ProjectorMath ProjectorPositions ProjectorBook.
From S2P Require Import ProjectorPositionsTheorems ProjectorDb Projector ProjectorTrades.

Section WithSerde.
Context {SD : Serde}.
Implicit Types db : ProjectorDb.

Lemma set_contexts_id db : set_contexts db (projector_order_context db) = db.
Proof. by destruct db. Qed.
Lemma set_event_log_id db : set_event_log db (engine_event_log db) = db.
Proof. by destruct db. Qed.

Lemma pj_check_fk_ok b u db db' : pj_check_fk b db = (Ok u, db') -> b = true /\ db' = db.
Proof. unfold pj_check_fk. destruct b; [|done]. by intros [= _ <-]. Qed.

Lemma save_offset_ok topic partition n db db' :
  projector_save_queue_offset_in_tx topic partition n db = (Ok tt, db') ->
  exists t, db' = set_offsets db t /\ upsert_offset topic partition n (projector_offsets db) = Ok t.
Proof.
  unfold projector_save_queue_offset_in_tx. intros H. inv_m H. unfold lift in *.
  destruct (upsert_offset _ _ _ _) as [t|] eqn:E; [|done]. unfold map_err in *. simplify_eq. eauto.
Qed.

Lemma save_offset_run topic partition n db :
  0 <= n -> exists t, projector_save_queue_offset_in_tx topic partition n db
    = (Ok tt, set_offsets db t).
Proof.
  intros Hn. destruct (upsert_offset_total topic partition n (projector_offsets db) Hn) as [t Ht].
  exists t. unfold projector_save_queue_offset_in_tx, bind, gets, lift. by rewrite Ht.
Qed.

Lemma write_context_ok reservation_id row db db' :
  write_context reservation_id row db = (Ok tt, db') ->
  db' = set_contexts db (<[reservation_id := row]> (projector_order_context db)) /\
  cx_user_id row ∈ pj_users db /\ is_Some (pj_markets db !! cx_market_id row).
Proof.
  unfold write_context. intros H. inv_m H. apply pj_check_fk_ok in Hm as [? ->].
  apply pj_check_fk_ok in Hm0 as [? ->]. split_bool. done.
Qed.

Lemma upsert_context_ok reservation_id proposed db db' :
  upsert_context reservation_id proposed db = (Ok tt, db') ->
  exists row, db' = set_contexts db (<[reservation_id := row]> (projector_order_context db)) /\
    cx_user_id row ∈ pj_users db /\ is_Some (pj_markets db !! cx_market_id row) /\
    0 < cx_quantity row /\
    match projector_order_context db !! reservation_id with
    | Some old => cx_status row = cx_status old /\ cx_order_id row = cx_order_id old
    | None => row = proposed
    end.
Proof.
  unfold upsert_context. intros H. inv_m H; split_bool.
  - apply write_context_ok in H as (-> & Hu & Hk). eexists. split; [done|]. auto.
  - apply write_context_ok in H as (-> & Hu & Hk). eexists. split; [done|]. auto.
Qed.

Lemma update_context_ok reservation_id set db db' :
  update_context reservation_id set db = (Ok tt, db') ->
  db' = set_contexts db (alter set reservation_id (projector_order_context db)).
Proof.
  unfold update_context. intros H. inv_m H.
  - f_equal. apply map_eq. intros k. destruct (decide (k = reservation_id)) as [->|Hne].
    + by rewrite lookup_insert_eq, lookup_alter_eq, Heqo.
    + by rewrite lookup_insert_ne, lookup_alter_ne.
  - replace (alter set reservation_id (projector_order_context db'))
      with (projector_order_context db'); [by rewrite set_contexts_id|].
    apply map_eq. intros k. destruct (decide (k = reservation_id)) as [->|Hne].
    + by rewrite lookup_alter_eq, Heqo.
    + by rewrite lookup_alter_ne.
Qed.

Lemma update_context_order_id_ok reservation_id order_id db db' :
  update_context_order_id_in_tx reservation_id order_id db = (Ok tt, db') ->
  exists f, db' = set_contexts db (f (projector_order_context db)) /\
    f = match reservation_id with
        | Some k => alter (fun row => set_context_state row (coalesce_order_id order_id row)
                             (cx_status row) (cx_reject_reason row)) k
        | None => fun m => m
        end.
Proof.
  unfold update_context_order_id_in_tx. destruct reservation_id as [k|].
  - intros ->%update_context_ok. eauto.
  - intros [= <-]. eexists. split; [|done]. by rewrite set_contexts_id.
Qed.

Lemma upsert_order_ok order_id proposed on_conflict db db' :
  upsert_order order_id proposed on_conflict db = (Ok tt, db') ->
  0 < or_quantity proposed /\
  exists row, db' = set_orders db (<[order_id := row]> (orders db)) /\
    match orders db !! order_id with
    | Some old => row = on_conflict old
    | None => row = proposed /\ or_user_id proposed ∈ pj_users db /\
              is_Some (pj_markets db !! or_market_id proposed)
    end.
Proof.
  unfold upsert_order. intros H. inv_m H; split_bool.
  - split; [done|]. eexists. by split.
  - apply pj_check_fk_ok in Hm as [? ->]. apply pj_check_fk_ok in Hm0 as [? ->]. split_bool.
    split; [done|]. eexists. by split.
Qed.

Definition fill_row (event : TradeExecuted) (maker taker : StoredOrderContext) : ProjectedFill :=
  mkProjectedFill (te_market_id event) (te_engine_sequence event) (soc_user_id maker)
    (soc_user_id taker) (te_maker_order_id event) (te_taker_order_id event) (te_price event)
    (te_quantity event) (soc_side maker) (soc_side taker) (te_engine_timestamp_ms event).

Lemma insert_fill_ok event maker taker db b db' :
  insert_fill event maker taker db = (Ok b, db') ->
  b = negb (fill_conflicts event (fills db)) /\
  if fill_conflicts event (fills db) then db' = db
  else db' = set_fills db (<[te_fill_id event := fill_row event maker taker]> (fills db)) /\
    to_timestamp_ok (te_engine_timestamp_ms event) = true /\ 0 < te_quantity event /\
    soc_user_id maker ∈ pj_users db /\ soc_user_id taker ∈ pj_users db /\
    is_Some (orders db !! te_maker_order_id event) /\ is_Some (orders db !! te_taker_order_id event) /\
    is_Some (pj_markets db !! te_market_id event).
Proof.
  unfold insert_fill. intros H. inv_m H; split_bool; [done|].
  repeat match goal with H : pj_check_fk _ _ = (Ok _, _) |- _ =>
    apply pj_check_fk_ok in H as [? ?]; split_bool; subst end.
  split; [done|]. by split_and!.
Qed.

Definition order_filled (status : OrderStatus) (row : ProjectedOrder) : ProjectedOrder :=
  if decide (or_status row = OrderStatus_CANCELLED) then row
  else set_order_status row status (or_reduce_only row).
Definition context_filled (context : StoredOrderContext) (order_id : Z) (status : OrderStatus)
    (reservation_id : string) (row : ContextRow) : ContextRow :=
  if bool_decide (cx_order_id row = Some order_id)
     || bool_decide (soc_reservation_id context = Some reservation_id)
  then set_context_state row (cx_order_id row)
         (keep_status ["CANCELLED"] (cx_status row) (context_status_for_order_status status))
         (cx_reject_reason row)
  else row.

Lemma update_order_after_fill_ok context order_id db db' :
  update_order_after_fill_in_tx context order_id db = (Ok tt, db') ->
  let status := order_status_after_fill (soc_quantity context) (filled_quantity order_id (fills db)) in
  db' = set_contexts
    (set_orders db (alter (order_filled status) order_id (orders db)))
    (map_imap (fun k row => Some (context_filled context order_id status k row))
       (projector_order_context db)) /\
  in_i64 (filled_quantity order_id (fills db)).
Proof.
  unfold update_order_after_fill_in_tx, cumulative_filled_quantity_in_tx. intros H. inv_m H.
  unfold lift in *. destruct (pg_int8 _) as [q|] eqn:E; [|done]. apply pg_int8_ok in E as [-> ?].
  unfold map_err in *. simplify_eq. done.
Qed.

Lemma on_positions_ok {A} (m : Known -> TM A) db a db' :
  on_positions m db = (Ok a, db') ->
  exists t, m (known_of db) (pj_positions db) = (Ok a, t) /\ db' = set_pj_positions db t.
Proof.
  unfold on_positions. destruct (m _ _) as [[a'|e] t]; [|done]. cbn. intros [= -> <-]. eauto.
Qed.

Lemma on_positions_run {A} (m : Known -> TM A) db a t :
  m (known_of db) (pj_positions db) = (Ok a, t) ->
  on_positions m db = (Ok a, set_pj_positions db t).
Proof. unfold on_positions. by intros ->. Qed.

Lemma on_book_ok {A} (m : gset Z -> BM A) db a db' :
  on_book m db = (Ok a, db') ->
  exists t, m (dom (pj_markets db)) (pj_book db) = (Ok a, t) /\ db' = set_pj_book db t.
Proof.
  unfold on_book. destruct (m _ _) as [[a'|e] t]; [|done]. cbn. intros [= -> <-]. eauto.
Qed.

Lemma insert_event_log_ok entry topic partition n db db' :
  insert_engine_event_log_in_tx entry topic partition n db = (Ok tt, db') ->
  db' = set_event_log db (match engine_event_log db !! ele_engine_event_id entry with
    | Some _ => engine_event_log db
    | None => <[ele_engine_event_id entry := event_log_row entry topic partition n]>
                (engine_event_log db)
    end).
Proof.
  unfold insert_engine_event_log_in_tx. intros H. inv_m H.
  - split_bool. destruct Heqb0 as [row ->]. by rewrite set_event_log_id.
  - apply pj_check_fk_ok in Hm as [_ ->]. split_bool.
    destruct (engine_event_log _ !! _) eqn:E; [destruct Heqb0; eauto|done].
  - split_bool. destruct (engine_event_log _ !! _) eqn:E; [destruct Heqb0; eauto|done].
Qed.

(** *** Loading contexts reads only *)

Lemma load_by_reservation_ok reservation_id db context db' :
  load_context_by_reservation_in_tx reservation_id db = (Ok context, db') ->
  db' = db /\ exists row, projector_order_context db !! reservation_id = Some row /\
    context = context_from_row reservation_id row (pj_reserved db).
Proof.
  unfold load_context_by_reservation_in_tx, maybe_context_by_reservation_in_tx.
  intros H. inv_m H. destruct (projector_order_context _ !! _) as [row|] eqn:E; [|done].
  simplify_eq/=. eauto.
Qed.

(** A context comes from a context row or from an order row. *)
Definition loaded (db : ProjectorDb) (context : StoredOrderContext) : Prop :=
  (exists k row, projector_order_context db !! k = Some row /\
     context = context_from_row k row (pj_reserved db)) \/
  (exists id row, orders db !! id = Some row /\ context = context_from_order id row).

Lemma load_for_order_reads reservation_id order_id db :
  (load_context_for_order_in_tx reservation_id order_id db).2 = db.
Proof.
  unfold load_context_for_order_in_tx, maybe_context_by_reservation_in_tx,
    maybe_context_by_order_id_in_tx, bind, gets, ret, throw.
  destruct reservation_id as [k|]; [destruct (projector_order_context db !! k); [done|]|];
    cbn [fmap option_fmap option_map]; by repeat case_match.
Qed.

Lemma load_for_order_ok reservation_id order_id db context db' :
  load_context_for_order_in_tx reservation_id order_id db = (Ok context, db') ->
  db' = db /\ loaded db context.
Proof.
  intros H. split; [by rewrite <- (load_for_order_reads reservation_id order_id db), H|].
  unfold load_context_for_order_in_tx in H. apply bind_ok in H as (by_res & s1 & H1 & H).
  assert (s1 = db /\ forall c, by_res = Some c -> loaded db c) as [-> Hres].
  { destruct reservation_id as [k|]; [|by injection H1 as <- <-].
    injection H1 as <- <-. split; [done|]. intros c (row & Hk & ->)%fmap_Some. left; eauto. }
  destruct by_res as [c|]; [injection H as <- <-; by apply Hres|].
  apply bind_ok in H as (by_order & s2 & H2 & H). injection H2 as <- <-.
  destruct (List.find _ _) as [[k row]|] eqn:Hf.
  - injection H as <- _. left. exists k, row. split; [|done].
    apply find_some in Hf as [Hin _]. by apply elem_of_map_to_list, list_elem_of_In.
  - destruct (orders db !! order_id) as [row|] eqn:Ho; [|done]. injection H as <- _. right; eauto.
Qed.
End WithSerde.
