(* ===== verification/ProjectorInvariant.v ===== *)
(** * ProjectorInvariant: what every transaction of the projector keeps

    Foreign keys and the well-formedness of the positions, preserved by every
    statement, every transaction, and every record any of the consumers
    handles, whether it succeeds or fails. *)

From S2P Require Import Prelude Protocol Postgres ProjectorMath ProjectorPositions ProjectorBook.
From S2P Require Import ProjectorPositionsTheorems ProjectorDb Projector ProjectorTrades.
From S2P Require Import ProjectorStatements.

Section WithSerde.
Context {SD : Serde}.
Implicit Types db : ProjectorDb.

Definition context_known (db : ProjectorDb) (user_id market_id : Z) : Prop :=
  user_id ∈ pj_users db /\ is_Some (pj_markets db !! market_id).

Record projector_inv (db : ProjectorDb) : Prop := {
  pi_positions : positions_wf (pj_positions db);
  pi_known : positions_known (known_of db) (pj_positions db);
  pi_contexts k row : projector_order_context db !! k = Some row ->
    context_known db (cx_user_id row) (cx_market_id row);
  pi_orders id row : orders db !! id = Some row ->
    context_known db (or_user_id row) (or_market_id row);
  pi_fills id row : fills db !! id = Some row -> 0 < fl_quantity row /\
    is_Some (orders db !! fl_maker_order_id row) /\ is_Some (orders db !! fl_taker_order_id row)
}.

(** ** Updating one table *)

Lemma inv_set_offsets db t : projector_inv db -> projector_inv (set_offsets db t).
Proof. by intros []. Qed.
Lemma inv_set_event_log db m : projector_inv db -> projector_inv (set_event_log db m).
Proof. by intros []. Qed.
Lemma inv_set_pj_book db t : projector_inv db -> projector_inv (set_pj_book db t).
Proof. by intros []. Qed.

Lemma inv_set_contexts db m :
  projector_inv db ->
  (forall k row, m !! k = Some row -> context_known db (cx_user_id row) (cx_market_id row)) ->
  projector_inv (set_contexts db m).
Proof. by intros [] Hm. Qed.

Lemma inv_set_orders db m :
  projector_inv db -> (forall id, is_Some (orders db !! id) -> is_Some (m !! id)) ->
  (forall id row, m !! id = Some row -> context_known db (or_user_id row) (or_market_id row)) ->
  projector_inv (set_orders db m).
Proof.
  intros [Hp Hk Hc Ho Hf] Hsub Hm. split; try done.
  - split; cbn; [|apply (pk_fills _ _ Hk)]. intros k row id Hr Hid.
    apply elem_of_dom, Hsub, elem_of_dom. by apply (pk_orders _ _ Hk k row).
  - cbn. intros id row (? & ? & ?)%Hf. auto.
Qed.

Lemma inv_set_positions db t :
  projector_inv db -> positions_wf t -> positions_known (known_of db) t ->
  projector_inv (set_pj_positions db t).
Proof. by intros []. Qed.

Lemma inv_set_markets db m :
  projector_inv db -> dom m = dom (pj_markets db) -> projector_inv (set_markets db m).
Proof.
  intros [Hp Hk Hc Ho Hf] Hdom.
  assert (forall u i, context_known db u i -> context_known (set_markets db m) u i) as Hck.
  { intros u i [Hu Hi]. split; [done|]. cbn. by rewrite <- elem_of_dom, Hdom, elem_of_dom. }
  split; try done; eauto. split; cbn; apply Hk.
Qed.

Lemma inv_set_fills db id row :
  projector_inv db -> 0 < fl_quantity row -> is_Some (orders db !! fl_maker_order_id row) ->
  is_Some (orders db !! fl_taker_order_id row) ->
  projector_inv (set_fills db (<[id := row]> (fills db))).
Proof.
  intros [Hp Hk Hc Ho Hf] ? ? ?. split; try done.
  - split; cbn; [apply (pk_orders _ _ Hk)|]. intros p f Hpf. rewrite dom_insert_L.
    apply elem_of_union_r. by apply (pk_fills _ _ Hk p).
  - cbn. intros i r [[_ <-]|[_ ?]]%lookup_insert_Some; [done|]. by apply (Hf i).
Qed.

(** ** Statements *)

Lemma inv_save_offset topic partition n db db' :
  projector_inv db -> projector_save_queue_offset_in_tx topic partition n db = (Ok tt, db') ->
  projector_inv db'.
Proof. intros Hi (t & -> & _)%save_offset_ok. by apply inv_set_offsets. Qed.

Lemma inv_upsert_context k proposed db db' :
  projector_inv db -> upsert_context k proposed db = (Ok tt, db') -> projector_inv db'.
Proof.
  intros Hi (row & -> & ? & ? & _)%upsert_context_ok. apply inv_set_contexts; [done|].
  intros k' r [[_ <-]|[_ ?]]%lookup_insert_Some; [done|]. by apply (pi_contexts _ Hi k').
Qed.

(** Setting the state of a context keeps its owner and market. *)
Definition keeps_owner (f : ContextRow -> ContextRow) : Prop :=
  forall row, cx_user_id (f row) = cx_user_id row /\ cx_market_id (f row) = cx_market_id row.

Lemma inv_alter_context db k f :
  projector_inv db -> keeps_owner f ->
  projector_inv (set_contexts db (alter f k (projector_order_context db))).
Proof.
  intros Hi Hf. apply inv_set_contexts; [done|]. intros k' r.
  destruct (decide (k' = k)) as [->|Hne].
  - rewrite lookup_alter_eq. intros (row & Hk & ->)%fmap_Some. destruct (Hf row) as [-> ->].
    by apply (pi_contexts _ Hi k).
  - rewrite lookup_alter_ne by done. apply (pi_contexts _ Hi).
Qed.

Lemma inv_update_context k f db db' :
  projector_inv db -> keeps_owner f -> update_context k f db = (Ok tt, db') -> projector_inv db'.
Proof. intros Hi Hf ->%update_context_ok. by apply inv_alter_context. Qed.

Lemma inv_update_order_id k id db db' :
  projector_inv db -> update_context_order_id_in_tx k id db = (Ok tt, db') -> projector_inv db'.
Proof.
  intros Hi (f & -> & ->)%update_context_order_id_ok. destruct k as [k|].
  - by apply inv_alter_context.
  - by rewrite set_contexts_id.
Qed.

Lemma inv_upsert_order id proposed on_conflict db db' :
  projector_inv db ->
  (forall row, or_user_id (on_conflict row) = or_user_id row /\
     or_market_id (on_conflict row) = or_market_id row) ->
  upsert_order id proposed on_conflict db = (Ok tt, db') -> projector_inv db'.
Proof.
  intros Hi Hc (_ & row & -> & Hrow)%upsert_order_ok. apply inv_set_orders; [done|..].
  - intros i Hs. destruct (decide (i = id)) as [->|]; [by rewrite lookup_insert_eq|].
    by rewrite lookup_insert_ne.
  - intros i r [[<- <-]|[_ ?]]%lookup_insert_Some; [|by apply (pi_orders _ Hi i)].
    destruct (orders db !! id) as [old|] eqn:Ho; [|by destruct Hrow as (-> & ?)].
    subst row. destruct (Hc old) as [-> ->]. by apply (pi_orders _ Hi id).
Qed.

Lemma inv_insert_fill event maker taker b db db' :
  projector_inv db -> insert_fill event maker taker db = (Ok b, db') -> projector_inv db'.
Proof.
  intros Hi [_ H]%insert_fill_ok. destruct (fill_conflicts _ _); [by subst|].
  destruct H as (-> & _ & ? & _ & _ & ? & ? & _). by apply inv_set_fills.
Qed.

Lemma inv_order_after_fill context id db db' :
  projector_inv db -> update_order_after_fill_in_tx context id db = (Ok tt, db') ->
  projector_inv db'.
Proof.
  intros Hi [-> _]%update_order_after_fill_ok. apply inv_set_contexts.
  - apply inv_set_orders; [done|..].
    + intros i. by rewrite lookup_alter_is_Some.
    + intros i r. destruct (decide (i = id)) as [->|Hne].
      * rewrite lookup_alter_eq. intros (row & Hk & ->)%fmap_Some. unfold order_filled.
        destruct (decide _); by apply (pi_orders _ Hi id row).
      * rewrite lookup_alter_ne by done. apply (pi_orders _ Hi).
  - intros k r. rewrite map_lookup_imap. intros (row & Hk & [= <-])%bind_Some.
    unfold context_filled. destruct (_ || _); by apply (pi_contexts _ Hi k row).
Qed.

Lemma inv_last_price m p db db' :
  projector_inv db -> update_last_traded_price m p db = (Ok tt, db') -> projector_inv db'.
Proof. intros Hi [= <-]. apply inv_set_markets; [done|]. by rewrite dom_alter_L. Qed.

(** ** Contexts of a trade *)

(** A context that was found, or one made up for a participant of the trade. *)
Definition trade_context (db : ProjectorDb) (event : TradeExecuted) (c : StoredOrderContext)
    : Prop :=
  loaded db c \/ soc_market_id c = te_market_id event.

Lemma loaded_known db c :
  projector_inv db -> loaded db c -> context_known db (soc_user_id c) (soc_market_id c).
Proof.
  intros Hi [(k & row & Hk & ->)|(id & row & Ho & ->)]; cbn.
  - by apply (pi_contexts _ Hi k).
  - by apply (pi_orders _ Hi id).
Qed.

Lemma maybe_load_ok r id db o db' :
  maybe_load_context_for_order_in_tx r id db = (Ok o, db') ->
  db' = db /\ forall c, o = Some c -> loaded db c.
Proof.
  unfold maybe_load_context_for_order_in_tx.
  pose proof (load_for_order_reads r id db) as Hr.
  destruct (load_context_for_order_in_tx r id db) as [[c|e] s] eqn:E; cbn in Hr; subst s.
  - intros [= <- <-]. split; [done|]. intros c' [= <-]. by apply load_for_order_ok in E as [_ ?].
  - destruct (is_missing_order_context e); [|done]. by intros [= <- <-].
Qed.

Lemma synthetic_ok event participant name side c :
  synthetic_liquidation_context event participant name side = Ok c ->
  soc_market_id c = te_market_id event /\ soc_reduce_only c = true.
Proof.
  unfold synthetic_liquidation_context. destruct (ok_or _ _) as [sd|]; [|done]. cbn.
  by intros [= <-].
Qed.

Lemma load_trade_contexts_ok event db maker taker db' :
  load_trade_contexts_in_tx event db = (Ok (maker, taker), db') ->
  db' = db /\ trade_context db event maker /\ trade_context db event taker.
Proof.
  unfold load_trade_contexts_in_tx. intros H.
  apply bind_ok in H as (m & s1 & [-> Hm]%maybe_load_ok & H).
  apply bind_ok in H as (t & s2 & [-> Ht]%maybe_load_ok & H).
  unfold trade_context. destruct (negb _).
  - apply bind_ok in H as (m' & s1 & H1 & H). apply bind_ok in H as (t' & s2 & H2 & H).
    destruct m as [m|], t as [t|]; try done. injection H1 as <- <-. injection H2 as <- <-.
    injection H as <- <- <-. auto.
  - apply bind_ok in H as (name & s1 & H1 & H).
    assert (s1 = db) as ->.
    { destruct (negb _); [|by injection H1]. unfold load_market_name_in_tx in H1. inv_m H1; done. }
    apply bind_ok in H as (m' & s1 & H2 & H). apply bind_ok in H as (t' & s2 & H3 & H).
    injection H as <- <- <-. unfold lift in *.
    destruct m as [m|], t as [t|]; simplify_eq; split; eauto;
      repeat match goal with H : synthetic_liquidation_context _ _ _ _ = Ok _ |- _ =>
        apply synthetic_ok in H as [? _] end; auto.
Qed.

(** ** A new fill *)

Definition fill_known_in (db : ProjectorDb) (c : StoredOrderContext) (order_id fill_id : Z) : Prop :=
  fill_known (known_of db) c order_id fill_id.

Lemma project_fill_ok db c order_id fill_id price quantity ts reason db' :
  projector_inv db -> fill_known_in db c order_id fill_id -> to_timestamp_ok ts = true ->
  0 < quantity <= i64_max ->
  on_positions (fun known => project_position_for_fill_in_tx known c order_id fill_id price
    quantity ts reason) db = (Ok tt, db') ->
  exists t, db' = set_pj_positions db t /\ projector_inv db' /\
    fill_outcome (known := known_of db) c order_id price quantity ts reason (pj_positions db) t /\
    room (pj_positions db) c quantity.
Proof.
  intros Hi Hfk Hts Hq (t & Hrun & ->)%on_positions_ok. exists t.
  assert (room (pj_positions db) c quantity) as Hroom.
  { destruct (positions (pj_positions db) !! context_key c) as [row|] eqn:Hk;
      [|by intros row Hk'; rewrite Hk in Hk']. intros row' Hrow'. rewrite Hk in Hrow'. injection Hrow' as <-.
    intros Hs Hro. destruct (decide (ps_quantity row + quantity <= i64_max)) as [?|Hno]; [done|].
    destruct (project_fill_overflow (known := known_of db) (pj_positions db) c order_id fill_id price
      quantity ts reason (pi_positions _ Hi) Hq) as (e & He).
    - intros Hr. apply Hno. by apply (Hr row).
    - by rewrite Hrun in He. }
  destruct (project_fill_run (known := known_of db) (pj_positions db) c order_id fill_id price
    quantity ts reason) as (t' & Hrun' & Ho); try done; [apply Hi..|].
  rewrite Hrun in Hrun'. injection Hrun' as <-.
  split; [done|]. split; [|done]. apply inv_set_positions; [done|apply Ho|apply Ho].
Qed.

Lemma project_new_fill_ok event maker taker db db' :
  projector_inv db ->
  fill_known_in db maker (te_maker_order_id event) (te_fill_id event) ->
  fill_known_in db taker (te_taker_order_id event) (te_fill_id event) ->
  to_timestamp_ok (te_engine_timestamp_ms event) = true -> 0 < te_quantity event <= i64_max ->
  project_new_fill event maker taker db = (Ok tt, db') ->
  projector_inv db' /\
  exists t1 t2 t3,
    fill_outcome (known := known_of db) maker (te_maker_order_id event) (te_price event)
      (te_quantity event) (te_engine_timestamp_ms event) (te_execution_reason event)
      (pj_positions db) t1 /\
    fill_outcome (known := known_of db) taker (te_taker_order_id event) (te_price event)
      (te_quantity event) (te_engine_timestamp_ms event) (te_execution_reason event) t1 t2 /\
    (forall k, positions t3 !! k
       = marked (te_market_id event) (te_price event) k <$> positions t2 !! k) /\
    closed_positions t3 = closed_positions t2 /\
    db' = set_pj_positions (set_markets db (alter (fun '(name, _) => (name, te_price event))
            (te_market_id event) (pj_markets db))) t3.
Proof.
  intros Hi Hmk Htk Hts Hq H. unfold project_new_fill in H.
  apply bind_ok in H as ([] & s0 & H0 & H). pose proof (inv_last_price _ _ _ _ Hi H0) as Hi0.
  injection H0 as <-. set (db0 := set_markets db _) in *.
  assert (known_of db0 = known_of db) as Hk0.
  { unfold known_of, db0. cbn. by rewrite dom_alter_L. }
  apply bind_ok in H as ([] & s1 & H1 & H).
  destruct (project_fill_ok db0 maker (te_maker_order_id event) (te_fill_id event) (te_price event)
    (te_quantity event) (te_engine_timestamp_ms event) (te_execution_reason event) s1)
    as (t1 & -> & Hi1 & Ho1 & _); try done; [unfold fill_known_in; by rewrite Hk0|].
  apply bind_ok in H as ([] & s2 & H2 & H).
  destruct (project_fill_ok (set_pj_positions db0 t1) taker (te_taker_order_id event)
    (te_fill_id event) (te_price event) (te_quantity event) (te_engine_timestamp_ms event)
    (te_execution_reason event) s2) as (t2 & -> & Hi2 & Ho2 & _); try done.
  { unfold fill_known_in. change (known_of (set_pj_positions db0 t1)) with (known_of db0).
    by rewrite Hk0. }
  apply on_positions_ok in H as (t3 & H3 & ->).
  destruct (refresh_run t2 (te_market_id event) (te_price event) (te_engine_timestamp_ms event))
    as (t3' & H3' & Hwf3 & He3 & Hm3); [apply Hi2|done|].
  cbn [set_pj_positions pj_positions] in H3. rewrite H3 in H3'. injection H3' as <-.
  change (known_of (set_pj_positions db0 t1)) with (known_of db0) in *. rewrite Hk0 in *.
  split.
  - apply inv_set_positions; [done|done|]. change (known_of _) with (known_of db0). rewrite Hk0.
    split.
    + intros k row id. rewrite Hm3. intros (r & Hr & ->)%fmap_Some. unfold marked.
      intros Hid. apply (pk_orders _ _ (fo_known _ _ _ _ _ _ _ _ Ho2) k r); [done|].
      by destruct (_ =? _).
    + rewrite He3. apply (pk_fills _ _ (fo_known _ _ _ _ _ _ _ _ Ho2)).
  - exists t1, t2, t3. split; [done|]. split; [done|]. split; [done|]. split; [by rewrite He3|done].
Qed.
End WithSerde.
