(* ===== verification/ProjectorProgress.v ===== *)
(** * ProjectorProgress: what the projector never takes back

    Rows of orders, contexts, fills, closed positions and the event log stay;
    the first two only move forward. *)

From S2P Require Import Prelude Protocol Postgres ProjectorMath ProjectorPositions ProjectorBook.
From S2P Require Import ProjectorPositionsTheorems ProjectorDb Projector ProjectorTrades.
From S2P Require Import ProjectorStatements ProjectorInvariant.

(** An order keeps what it was placed with; once CANCELLED it stays so, it never
    becomes PENDING again and is never REJECTED. *)
Record order_step (row row' : ProjectedOrder) : Prop := {
  os_user : or_user_id row' = or_user_id row;
  os_market : or_market_id row' = or_market_id row;
  os_side : or_side row' = or_side row;
  os_quantity : or_quantity row' = or_quantity row;
  os_price : or_price row' = or_price row;
  os_margin : or_margin row' = or_margin row;
  os_cancelled : or_status row = OrderStatus_CANCELLED -> or_status row' = OrderStatus_CANCELLED;
  os_pending : or_status row' = OrderStatus_PENDING -> or_status row = OrderStatus_PENDING;
  os_rejected : or_status row' = OrderStatus_REJECTED -> or_status row = OrderStatus_REJECTED
}.

(** A context of a cancelled order stays CANCELLED; once it has left PENDING it
    never goes back, and an order id is never unset. *)
Record context_step (row row' : ContextRow) : Prop := {
  cs_cancelled : cx_status row = "CANCELLED" -> cx_status row' = "CANCELLED";
  cs_pending : cx_status row' = "PENDING" -> cx_status row = "PENDING";
  cs_order_id : is_Some (cx_order_id row) -> is_Some (cx_order_id row')
}.

#[export] Instance order_step_preorder : PreOrder order_step.
Proof.
  split; [by split|]. intros a b c [] []. split; try congruence; eauto.
Qed.
#[export] Instance context_step_preorder : PreOrder context_step.
Proof. split; [by split|]. intros a b c [] []. split; eauto. Qed.

(** Every row of one map is in the other, related by [R]. *)
Definition rows_kept {K A} `{Countable K} (R : A -> A -> Prop) (m m' : gmap K A) : Prop :=
  forall k a, m !! k = Some a -> exists a', m' !! k = Some a' /\ R a a'.

#[export] Instance rows_kept_preorder {K A} `{Countable K} (R : A -> A -> Prop) `{!PreOrder R} :
  PreOrder (rows_kept R : relation (gmap K A)).
Proof.
  split.
  - intros m k a Hk. exists a. by split.
  - intros m1 m2 m3 H12 H23 k a (b & Hb & Hab)%H12. apply H23 in Hb as (c & Hc & Hbc).
    exists c. split; [done|by etrans].
Qed.

Lemma rows_kept_insert {K A} `{Countable K} (R : A -> A -> Prop) `{!PreOrder R}
    (m : gmap K A) k a :
  (forall old, m !! k = Some old -> R old a) -> rows_kept R m (<[k := a]> m).
Proof.
  intros Ha k' b Hb. destruct (decide (k' = k)) as [->|Hne].
  - exists a. rewrite lookup_insert_eq. auto.
  - exists b. by rewrite lookup_insert_ne.
Qed.

Lemma rows_kept_alter {K A} `{Countable K} (R : A -> A -> Prop) `{!PreOrder R}
    (m : gmap K A) k f :
  (forall a, R a (f a)) -> rows_kept R m (alter f k m).
Proof.
  intros Hf k' b Hb. destruct (decide (k' = k)) as [->|Hne].
  - exists (f b). by rewrite lookup_alter_eq, Hb.
  - exists b. by rewrite lookup_alter_ne.
Qed.

Section WithSerde.
Context {SD : Serde}.
Implicit Types db : ProjectorDb.

Record progress (db db' : ProjectorDb) : Prop := {
  pg_orders : rows_kept order_step (orders db) (orders db');
  pg_contexts : rows_kept context_step (projector_order_context db) (projector_order_context db');
  pg_fills : rows_kept eq (fills db) (fills db');
  pg_closed : rows_kept eq (closed_positions (pj_positions db)) (closed_positions (pj_positions db'));
  pg_log : rows_kept eq (engine_event_log db) (engine_event_log db')
}.

#[export] Instance progress_preorder : PreOrder progress.
Proof.
  split; [intros db; by split|].
  intros a b c [] []. split; by etrans.
Qed.

Lemma progress_save_offset topic partition n db db' :
  projector_save_queue_offset_in_tx topic partition n db = (Ok tt, db') -> progress db db'.
Proof. intros (t & -> & _)%save_offset_ok. by split. Qed.

Lemma progress_upsert_context k proposed db db' :
  upsert_context k proposed db = (Ok tt, db') -> progress db db'.
Proof.
  intros (row & -> & _ & _ & _ & Hrow)%upsert_context_ok. split; try done.
  apply rows_kept_insert; [apply _|]. intros old Hk. cbn in Hk. rewrite Hk in Hrow.
  destruct Hrow as [Hs Ho]. split; rewrite ?Hs, ?Ho; auto.
Qed.

Lemma progress_set_contexts db m :
  rows_kept context_step (projector_order_context db) m -> progress db (set_contexts db m).
Proof. by split. Qed.

Lemma progress_update_context k f db db' :
  (forall row, context_step row (f row)) -> update_context k f db = (Ok tt, db') ->
  progress db db'.
Proof. intros Hf ->%update_context_ok. apply progress_set_contexts. by apply rows_kept_alter; [apply _|]. Qed.

Lemma coalesced_step id row :
  context_step row (set_context_state row (coalesce_order_id id row) (cx_status row)
                      (cx_reject_reason row)).
Proof. split; cbn; auto. unfold coalesce_order_id. by destruct (cx_order_id row). Qed.

Lemma progress_update_order_id k id db db' :
  update_context_order_id_in_tx k id db = (Ok tt, db') -> progress db db'.
Proof.
  intros (f & -> & ->)%update_context_order_id_ok. apply progress_set_contexts.
  destruct k; [|done]. apply rows_kept_alter; [apply _|apply coalesced_step].
Qed.

Lemma keep_status_kept kept status otherwise :
  status ∈ kept -> keep_status kept status otherwise = status.
Proof. intros. unfold keep_status. by rewrite bool_decide_true. Qed.

Lemma keep_status_not kept status otherwise s :
  keep_status kept status otherwise = s -> otherwise <> s -> status = s.
Proof. unfold keep_status. by destruct (bool_decide _); intros. Qed.

(** The contexts the transactions write. *)
Lemma state_step kept otherwise id reason row :
  "CANCELLED" ∈ kept -> otherwise <> "PENDING" ->
  (is_Some (cx_order_id row) -> is_Some id) ->
  context_step row (set_context_state row id (keep_status kept (cx_status row) otherwise) reason).
Proof.
  intros Hc Hp Hid. split; cbn; [|intros ?; by eapply keep_status_not|done].
  intros ->. by apply keep_status_kept.
Qed.

Lemma accepted_step id row : context_step row (accepted_context id row).
Proof. apply state_step; [set_solver|done|eauto]. Qed.
Lemma rejected_step reason row : context_step row (rejected_context reason row).
Proof. apply state_step; [set_solver|done|done]. Qed.
Lemma opened_step id row : context_step row (opened_context id row).
Proof. apply state_step; [set_solver|done|eauto]. Qed.
Lemma cancelled_step id row : context_step row (cancelled_context id row).
Proof. split; cbn; [done|done|]. unfold coalesce_order_id. by destruct (cx_order_id row). Qed.

Lemma filled_status_not_pending c q : order_status_after_fill c q <> OrderStatus_PENDING /\
  order_status_after_fill c q <> OrderStatus_REJECTED /\
  context_status_for_order_status (order_status_after_fill c q) <> "PENDING".
Proof. unfold order_status_after_fill. by destruct (_ <=? _). Qed.

Lemma progress_order_after_fill context id db db' :
  update_order_after_fill_in_tx context id db = (Ok tt, db') -> progress db db'.
Proof.
  intros [-> _]%update_order_after_fill_ok.
  destruct (filled_status_not_pending (soc_quantity context) (filled_quantity id (fills db)))
    as (H1 & H2 & H3).
  set (status := order_status_after_fill _ _) in *. split; try done; cbn.
  - apply rows_kept_alter; [apply _|]. intros row. unfold order_filled.
    destruct (decide _); [done|]. by split.
  - intros k row Hk. rewrite map_lookup_imap, Hk. cbn. eexists. split; [done|].
    unfold context_filled. destruct (_ || _); [|done]. apply state_step; [set_solver|done|done].
Qed.

Lemma progress_upsert_order id proposed on_conflict db db' :
  (forall row, order_step row (on_conflict row)) ->
  upsert_order id proposed on_conflict db = (Ok tt, db') -> progress db db'.
Proof.
  intros Hc (_ & row & -> & Hrow)%upsert_order_ok. split; try done; cbn.
  apply rows_kept_insert; [apply _|]. intros old Hk. rewrite Hk in Hrow. by subst.
Qed.

Lemma open_order_step context row :
  order_step row (set_order_status row
    (if bool_decide (or_status row ∈ [OrderStatus_FILLED; OrderStatus_CANCELLED])
     then or_status row else OrderStatus_OPEN) (soc_reduce_only context)).
Proof. case_bool_decide as Hs; split; cbn; try done. intros He. rewrite He in Hs. set_solver. Qed.

Lemma progress_insert_fill event maker taker b db db' :
  insert_fill event maker taker db = (Ok b, db') -> progress db db'.
Proof.
  intros [_ H]%insert_fill_ok. destruct (fill_conflicts _ _) eqn:Hc; [by subst|].
  destruct H as (-> & _). split; try done; cbn. apply rows_kept_insert; [apply _|].
  intros old Hk. unfold fill_conflicts in Hc. split_bool. destruct H. by rewrite Hk.
Qed.

Lemma progress_event_log entry topic partition n db db' :
  insert_engine_event_log_in_tx entry topic partition n db = (Ok tt, db') -> progress db db'.
Proof.
  intros ->%insert_event_log_ok. split; try done; cbn.
  destruct (engine_event_log db !! _) eqn:Hk; [done|].
  apply rows_kept_insert; [apply _|]. intros old. by rewrite Hk.
Qed.

Lemma progress_closed_after c order_id price quantity reason t :
  positions_wf t ->
  rows_kept eq (closed_positions t) (closed_after t c order_id price quantity reason).
Proof.
  intros Hwf. unfold closed_after. destruct (positions t !! _) as [row|]; [|done].
  destruct (decide _); [done|]. apply rows_kept_insert; [apply _|].
  intros old Hk. pose proof (pw_closed _ Hwf _ _ Hk). lia.
Qed.

Lemma progress_new_fill event maker taker db db' :
  projector_inv db ->
  fill_known_in db maker (te_maker_order_id event) (te_fill_id event) ->
  fill_known_in db taker (te_taker_order_id event) (te_fill_id event) ->
  to_timestamp_ok (te_engine_timestamp_ms event) = true -> 0 < te_quantity event <= i64_max ->
  project_new_fill event maker taker db = (Ok tt, db') -> progress db db'.
Proof.
  intros Hi Hm Ht Hts Hq (_ & t1 & t2 & t3 & H1 & H2 & _ & Hc & ->)%project_new_fill_ok; try done.
  split; try done; cbn. rewrite Hc, (fo_closed _ _ _ _ _ _ _ _ H2).
  etrans; [|apply progress_closed_after, (fo_wf _ _ _ _ _ _ _ _ H1)].
  rewrite (fo_closed _ _ _ _ _ _ _ _ H1). apply progress_closed_after, Hi.
Qed.
End WithSerde.
