(* ===== verification/ProjectorTheorems.v ===== *)
(** * ProjectorTheorems: trades, invariants and consumption of the projector *)

From S2P Require Import Prelude Protocol Postgres ProjectorMath ProjectorPositions ProjectorBook.
From S2P Require Import ProjectorPositionsTheorems ProjectorDb Projector ProjectorTrades.
From S2P Require Import ProjectorStatements ProjectorInvariant ProjectorProgress Queue.

Section WithSerde.
Context {SD : Serde}.
Implicit Types db : ProjectorDb.

(** The tables a trade touches only when its fill is new. *)
Definition same_books (db db' : ProjectorDb) : Prop :=
  pj_users db' = pj_users db /\ pj_markets db' = pj_markets db /\ fills db' = fills db /\
  pj_positions db' = pj_positions db /\ pj_book db' = pj_book db /\
  pj_reserved db' = pj_reserved db /\
  engine_event_log db' = engine_event_log db /\ projector_offsets db' = projector_offsets db.

Lemma same_books_trans db1 db2 db3 :
  same_books db1 db2 -> same_books db2 db3 -> same_books db1 db3.
Proof. unfold same_books. intros. intuition congruence. Qed.

(** The steps of a trade before its fill. *)
Definition prepare_trade (event : TradeExecuted) (maker taker : StoredOrderContext) : PDb unit :=
  do* insert_order_if_missing_in_tx maker (te_maker_order_id event) in
  do* insert_order_if_missing_in_tx taker (te_taker_order_id event) in
  do* update_context_order_id_in_tx (soc_reservation_id maker) (te_maker_order_id event) in
  update_context_order_id_in_tx (soc_reservation_id taker) (te_taker_order_id event).

Lemma insert_order_ok c id db db' :
  projector_inv db -> insert_order_if_missing_in_tx c id db = (Ok tt, db') ->
  projector_inv db' /\ progress db db' /\ same_books db db' /\ is_Some (orders db' !! id).
Proof.
  intros Hi H. split_and!.
  - by eapply inv_upsert_order.
  - by eapply progress_upsert_order.
  - by apply upsert_order_ok in H as (_ & row & -> & _).
  - apply upsert_order_ok in H as (_ & row & -> & _). cbn. by rewrite lookup_insert_eq.
Qed.

Lemma order_id_ok k id db db' :
  projector_inv db -> update_context_order_id_in_tx k id db = (Ok tt, db') ->
  projector_inv db' /\ progress db db' /\ same_books db db' /\ orders db' = orders db.
Proof.
  intros Hi H. split_and!.
  - by eapply inv_update_order_id.
  - by eapply progress_update_order_id.
  - by apply update_context_order_id_ok in H as (f & -> & _).
  - by apply update_context_order_id_ok in H as (f & -> & _).
Qed.

Lemma prepare_trade_ok event maker taker db db' :
  projector_inv db -> prepare_trade event maker taker db = (Ok tt, db') ->
  projector_inv db' /\ progress db db' /\ same_books db db' /\
  is_Some (orders db' !! te_maker_order_id event) /\ is_Some (orders db' !! te_taker_order_id event).
Proof.
  intros Hi H. unfold prepare_trade in H.
  apply bind_ok in H as ([] & s1 & (Hi1 & Hp1 & Hs1 & Ho1)%(insert_order_ok _ _ _ _ Hi) & H).
  apply bind_ok in H as ([] & s2 & (Hi2 & Hp2 & Hs2 & Ho2)%(insert_order_ok _ _ _ _ Hi1) & H).
  apply bind_ok in H as ([] & s3 & (Hi3 & Hp3 & Hs3 & Ho3)%(order_id_ok _ _ _ _ Hi2) & H).
  apply (order_id_ok _ _ _ _ Hi3) in H as (Hi4 & Hp4 & Hs4 & Ho4).
  split; [done|]. split; [by do 3 (etrans; [eassumption|])|]. split.
  - by do 3 (eapply same_books_trans; [eassumption|]).
  - rewrite Ho4, Ho3. split; [|done]. destruct Ho1 as [row Hrow].
    destruct (pg_orders _ _ Hp2 _ _ Hrow) as (row' & ? & _). eauto.
Qed.

Lemma order_after_fill_ok c id db db' :
  projector_inv db -> update_order_after_fill_in_tx c id db = (Ok tt, db') ->
  projector_inv db' /\ progress db db' /\ same_books db db'.
Proof.
  intros Hi H. split_and!.
  - by eapply inv_order_after_fill.
  - by eapply progress_order_after_fill.
  - by apply update_order_after_fill_ok in H as [-> _].
Qed.

(** What a trade does to fills, prices and positions. *)
Definition trade_effect (event : TradeExecuted) (maker taker : StoredOrderContext)
    (db db' : ProjectorDb) : Prop :=
  if fill_conflicts event (fills db) then
    fills db' = fills db /\ pj_markets db' = pj_markets db /\ pj_positions db' = pj_positions db
  else
    fills db' = <[te_fill_id event := fill_row event maker taker]> (fills db) /\
    pj_markets db' = alter (fun '(name, _) => (name, te_price event)) (te_market_id event)
                       (pj_markets db) /\
    exists known t1 t2,
      fill_outcome (known := known) maker (te_maker_order_id event) (te_price event)
        (te_quantity event) (te_engine_timestamp_ms event) (te_execution_reason event)
        (pj_positions db) t1 /\
      fill_outcome (known := known) taker (te_taker_order_id event) (te_price event)
        (te_quantity event) (te_engine_timestamp_ms event) (te_execution_reason event) t1 t2 /\
      (forall k, positions (pj_positions db') !! k
         = marked (te_market_id event) (te_price event) k <$> positions t2 !! k) /\
      closed_positions (pj_positions db') = closed_positions t2.

(** Both orders show what the fills add up to, unless they are cancelled. *)
Definition orders_filled (event : TradeExecuted) (maker taker : StoredOrderContext)
    (db : ProjectorDb) : Prop :=
  let shows c id := forall row, orders db !! id = Some row ->
    or_status row = OrderStatus_CANCELLED \/
    or_status row = order_status_after_fill (soc_quantity c) (filled_quantity id (fills db)) in
  shows taker (te_taker_order_id event) /\
  (te_maker_order_id event <> te_taker_order_id event -> shows maker (te_maker_order_id event)).

Lemma filled_status status (m : gmap Z ProjectedOrder) id row :
  alter (order_filled status) id m !! id = Some row ->
  or_status row = OrderStatus_CANCELLED \/ or_status row = status.
Proof.
  rewrite lookup_alter_eq. intros (r & _ & ->)%fmap_Some. unfold order_filled.
  destruct (decide _); auto.
Qed.

Lemma orders_filled_run event maker taker s2 s3 s4 :
  update_order_after_fill_in_tx maker (te_maker_order_id event) s2 = (Ok tt, s3) ->
  update_order_after_fill_in_tx taker (te_taker_order_id event) s3 = (Ok tt, s4) ->
  orders_filled event maker taker s4.
Proof.
  intros [-> _]%update_order_after_fill_ok [-> _]%update_order_after_fill_ok. split; cbn.
  - intros row. apply filled_status.
  - intros Hne row. rewrite lookup_alter_ne by done. apply filled_status.
Qed.

Lemma trade_context_known db event c :
  projector_inv db -> is_Some (pj_markets db !! te_market_id event) -> trade_context db event c ->
  is_Some (pj_markets db !! soc_market_id c).
Proof. intros Hi Hm [Hl| ->]; [|done]. by apply (loaded_known _ _ Hi). Qed.

Lemma project_trade_ok event db db' :
  projector_inv db -> te_quantity event <= i64_max ->
  project_trade_in_tx event db = (Ok tt, db') ->
  projector_inv db' /\ progress db db' /\
  exists maker taker, load_trade_contexts_in_tx event db = (Ok (maker, taker), db) /\
    trade_effect event maker taker db db' /\ orders_filled event maker taker db'.
Proof.
  intros Hi Hmax H. unfold project_trade_in_tx in H.
  apply bind_ok in H as ([maker taker] & s0 & Hload & H).
  pose proof Hload as (-> & Hcm & Hct)%load_trade_contexts_ok. cbn beta iota in H.
  set (maker' := with_order_id maker (te_maker_order_id event)) in *.
  set (taker' := with_order_id taker (te_taker_order_id event)) in *.
  assert (exists s1, prepare_trade event maker' taker' db = (Ok tt, s1) /\
    (let* inserted_fill := insert_fill event maker' taker' in
     do* update_order_after_fill_in_tx maker' (te_maker_order_id event) in
     do* update_order_after_fill_in_tx taker' (te_taker_order_id event) in
     if inserted_fill then project_new_fill event maker' taker' else ret tt) s1 = (Ok tt, db'))
    as (s1 & H1 & H').
  { unfold prepare_trade. apply bind_ok in H as ([] & sa & Ha & H).
    apply bind_ok in H as ([] & sb & Hb & H). apply bind_ok in H as ([] & sc & Hc & H).
    apply bind_ok in H as ([] & sd & Hd & H). exists sd. split; [|done].
    by rewrite (bind_run _ _ _ _ _ Ha), (bind_run _ _ _ _ _ Hb), (bind_run _ _ _ _ _ Hc). }
  clear H. destruct (prepare_trade_ok _ _ _ _ _ Hi H1) as (Hi1 & Hp1 & Hs1 & Hom & Hot).
  apply bind_ok in H' as (b & s2 & Hins & H).
  pose proof (inv_insert_fill _ _ _ _ _ _ Hi1 Hins) as Hi2.
  pose proof (progress_insert_fill _ _ _ _ _ _ Hins) as Hp2.
  apply insert_fill_ok in Hins as [-> Hins].
  apply bind_ok in H as ([] & s3 & Hm3 & H).
  destruct (order_after_fill_ok _ _ _ _ Hi2 Hm3) as (Hi3 & Hp3 & Hs3).
  apply bind_ok in H as ([] & s4 & Hm4 & H).
  destruct (order_after_fill_ok _ _ _ _ Hi3 Hm4) as (Hi4 & Hp4 & Hs4).
  assert (orders_filled event maker taker s4) as Hof by exact (orders_filled_run _ maker' taker' _ _ _ Hm3 Hm4).
  pose proof (same_books_trans _ _ _ Hs3 Hs4) as Hs24.
  assert (progress db s4) as Hp by (by do 3 (etrans; [eassumption|])).
  destruct Hs1 as (Eu1 & Em1 & Ef1 & Ep1 & _). destruct Hs24 as (Eu2 & Em2 & Ef2 & Ep2 & _).
  unfold trade_effect. rewrite Ef1 in Hins, H.
  destruct (fill_conflicts event (fills db)) eqn:Hconf.
  { subst s2. injection H as <-. split; [done|]. split; [done|].
    exists maker, taker. split; [done|]. split; [split_and!; congruence|done]. }
  destruct Hins as (-> & Hts & Hq & Hum & Hut & Hsm & Hst & Hmk).
  cbn [set_fills pj_users pj_markets fills pj_positions orders] in Eu2, Em2, Ef2, Ep2.
  assert (forall c id, trade_context db event c -> soc_user_id c ∈ pj_users s1 ->
    is_Some (orders s1 !! id) -> fill_known_in s4 c id (te_fill_id event)) as Hfk.
  { intros c id Hc Hu Ho. split; cbn.
    - by rewrite Eu2.
    - rewrite Em2, Em1. apply elem_of_dom. eapply trade_context_known; [done| |done]. by rewrite <- Em1.
    - apply elem_of_dom. destruct Ho as [row Hrow].
      destruct (pg_orders _ _ Hp3 id row Hrow) as (r3 & Hr3 & _).
      destruct (pg_orders _ _ Hp4 id r3 Hr3) as (r4 & Hr4 & _). eauto.
    - rewrite Ef2. apply elem_of_dom. rewrite lookup_insert_eq. eauto. }
  assert (fill_known_in s4 maker' (te_maker_order_id event) (te_fill_id event)) as Hkm
    by (by destruct (Hfk maker (te_maker_order_id event) Hcm Hum Hsm)).
  assert (fill_known_in s4 taker' (te_taker_order_id event) (te_fill_id event)) as Hkt
    by (by destruct (Hfk taker (te_taker_order_id event) Hct Hut Hst)).
  cbn [negb] in H. pose proof H as Hnew.
  apply project_new_fill_ok in H as (Hi5 & t1 & t2 & t3 & Ho1 & Ho2 & Hmk3 & Hcl & ->); try done.
  split; [done|]. split; [etrans; [exact Hp|]; by eapply (progress_new_fill event maker' taker')|].
  exists maker, taker. split; [done|]. split; [|done]. cbn.
  rewrite Ep1 in Ep2. rewrite Em1 in Em2. rewrite Em2. split; [exact Ef2|]. split; [done|].
  exists (known_of s4), t1, t2. rewrite Ep2 in Ho1.
  split; [by destruct Ho1|]. split; [by destruct Ho2|]. done.
Qed.

(** ** Transactions *)

#[local] Abbreviation position_seq := (fun db => projector_position_id_seq (pj_positions db)).

Lemma on_positions_grows {A} (m : Known -> TM A) :
  (forall known, grows projector_position_id_seq (m known)) -> grows position_seq (on_positions m).
Proof.
  intros Hm db. unfold on_positions. specialize (Hm (known_of db) (pj_positions db)).
  by destruct (m _ _).
Qed.
Lemma on_book_grows {A} (m : gset Z -> BM A) : grows position_seq (on_book m).
Proof. intros db. unfold on_book. destruct (m _ _). cbn. lia. Qed.
#[local] Hint Resolve on_positions_grows on_book_grows project_fill_grows refresh_grows : grows.

Lemma pj_storage_grows {A} e : grows position_seq (pj_storage e : PDb A).
Proof. unfold pj_storage. auto with grows. Qed.
Lemma pj_check_fk_grows b : grows position_seq (pj_check_fk b).
Proof. unfold pj_check_fk. destruct b; [apply grows_ret|apply pj_storage_grows]. Qed.
#[local] Hint Resolve pj_storage_grows pj_check_fk_grows : grows.

Lemma save_offset_grows topic partition n :
  grows position_seq (projector_save_queue_offset_in_tx topic partition n).
Proof. unfold projector_save_queue_offset_in_tx. auto 10 with grows. Qed.
Lemma write_context_grows k row : grows position_seq (write_context k row).
Proof. unfold write_context. auto 20 with grows. Qed.
#[local] Hint Resolve save_offset_grows write_context_grows : grows.
Lemma upsert_context_grows k row : grows position_seq (upsert_context k row).
Proof. unfold upsert_context. auto 20 with grows. Qed.
Lemma update_context_grows k f : grows position_seq (update_context k f).
Proof. unfold update_context. auto 20 with grows. Qed.
Lemma update_order_id_grows k id : grows position_seq (update_context_order_id_in_tx k id).
Proof. unfold update_context_order_id_in_tx. destruct k; [apply update_context_grows|apply grows_ret]. Qed.
Lemma upsert_order_grows id row f : grows position_seq (upsert_order id row f).
Proof. unfold upsert_order. cbn zeta. auto 20 with grows. Qed.
Lemma insert_fill_grows e a b : grows position_seq (insert_fill e a b).
Proof. unfold insert_fill. cbn zeta. auto 30 with grows. Qed.
Lemma order_after_fill_grows c id : grows position_seq (update_order_after_fill_in_tx c id).
Proof.
  unfold update_order_after_fill_in_tx, cumulative_filled_quantity_in_tx. cbn zeta.
  auto 20 with grows.
Qed.
Lemma insert_event_log_grows e topic partition n :
  grows position_seq (insert_engine_event_log_in_tx e topic partition n).
Proof. unfold insert_engine_event_log_in_tx. cbn zeta. auto 20 with grows. Qed.
Lemma new_fill_grows e a b : grows position_seq (project_new_fill e a b).
Proof. unfold project_new_fill, update_last_traded_price. auto 20 with grows. Qed.
#[local] Hint Resolve upsert_context_grows update_context_grows update_order_id_grows
  upsert_order_grows insert_fill_grows order_after_fill_grows insert_event_log_grows
  new_fill_grows : grows.

Lemma load_by_reservation_grows k : grows position_seq (load_context_by_reservation_in_tx k).
Proof.
  unfold load_context_by_reservation_in_tx, maybe_context_by_reservation_in_tx. auto 20 with grows.
Qed.
Lemma load_for_order_grows k id : grows position_seq (load_context_for_order_in_tx k id).
Proof. intros db. rewrite load_for_order_reads. lia. Qed.
Lemma maybe_load_grows k id : grows position_seq (maybe_load_context_for_order_in_tx k id).
Proof.
  intros db. unfold maybe_load_context_for_order_in_tx.
  pose proof (load_for_order_reads k id db) as Hr.
  destruct (load_context_for_order_in_tx k id db) as [[c|e] s]; cbn in Hr; subst s; [cbn; lia|].
  destruct (is_missing_order_context e); cbn; lia.
Qed.
Lemma load_market_name_grows m : grows position_seq (load_market_name_in_tx m).
Proof. unfold load_market_name_in_tx. auto 20 with grows. Qed.
#[local] Hint Resolve load_by_reservation_grows load_for_order_grows maybe_load_grows
  load_market_name_grows : grows.

Lemma project_trade_grows event : grows position_seq (project_trade_in_tx event).
Proof.
  unfold project_trade_in_tx, load_trade_contexts_in_tx, insert_order_if_missing_in_tx. cbn zeta.
  auto 40 with grows.
Qed.
#[local] Hint Resolve project_trade_grows : grows.

(** A transaction keeps the invariant and only makes progress. *)
Definition keeps {A} (m : PDb A) : Prop := forall db a db',
  projector_inv db -> m db = (Ok a, db') -> projector_inv db' /\ progress db db'.

(** ... and so does its failure. *)
Definition sound {E A} (m : M ProjectorDb E A) : Prop := forall db r db',
  projector_inv db -> m db = (r, db') -> projector_inv db' /\ progress db db'.

Lemma keeps_bind {A B} (m : PDb A) (k : A -> PDb B) :
  keeps m -> (forall a, keeps (k a)) -> keeps (bind m k).
Proof.
  intros Hm Hk db b db' Hi (a & s1 & H1 & H2)%bind_ok.
  destruct (Hm _ _ _ Hi H1) as [Hi1 Hp1]. destruct (Hk a _ _ _ Hi1 H2) as [Hi2 Hp2].
  split; [done|by etrans].
Qed.
Lemma keeps_gets {A} (f : ProjectorDb -> A) : keeps (gets f).
Proof. by intros db a db' Hi [= <- <-]. Qed.
Lemma keeps_ret {A} (a : A) : keeps (ret a).
Proof. by intros db b db' Hi [= <- <-]. Qed.
Lemma keeps_throw {A} e : keeps (throw e : PDb A).
Proof. done. Qed.

Lemma transaction_sound {A} (m : PDb A) : keeps m -> grows position_seq m -> sound (transaction m).
Proof.
  intros Hk Hg db r db' Hi. unfold transaction. specialize (Hg db). cbn in Hg.
  destruct (m db) as [[a|e] s] eqn:E; intros [= <- <-]; [by apply (Hk db a)|].
  split; [|by split]. destruct Hi as [Hp Hkn Hc Ho Hf]. split; try done.
  - cbn in *. split; cbn; try apply Hp.
    + intros k row Hk'. pose proof (pw_below _ Hp k row Hk'). lia.
    + intros id row Hk'. pose proof (pw_closed _ Hp id row Hk'). lia.
  - split; apply Hkn.
Qed.

Lemma lift_bind_sound {A B} (r : Result _ A) (k : A -> PDb B) :
  (forall a, sound (k a)) -> sound (bind (lift r) k).
Proof.
  intros Hk db x db' Hi. unfold bind, lift. destruct r as [a|e]; [by apply Hk|].
  by intros [= <- <-].
Qed.

Create HintDb keeps.
#[local] Hint Resolve keeps_bind keeps_gets keeps_ret keeps_throw transaction_sound : keeps.

Lemma save_offset_keeps topic partition n :
  keeps (projector_save_queue_offset_in_tx topic partition n).
Proof.
  intros db [] db' Hi H. split; [by eapply inv_save_offset|by eapply progress_save_offset].
Qed.
Lemma upsert_context_keeps k row : keeps (upsert_context k row).
Proof.
  intros db [] db' Hi H. split; [by eapply inv_upsert_context|by eapply progress_upsert_context].
Qed.
Lemma update_context_keeps k f :
  keeps_owner f -> (forall row, context_step row (f row)) -> keeps (update_context k f).
Proof.
  intros Hf Hs db [] db' Hi H.
  split; [by eapply inv_update_context|by eapply progress_update_context].
Qed.
Lemma upsert_order_keeps id row f :
  (forall row, order_step row (f row)) -> keeps (upsert_order id row f).
Proof.
  intros Hf db [] db' Hi H. split; [|by eapply progress_upsert_order].
  eapply inv_upsert_order; [done| |done]. intros r. split; [apply (os_user _ _ (Hf r))|apply (os_market _ _ (Hf r))].
Qed.
Lemma insert_event_log_keeps e topic partition n :
  keeps (insert_engine_event_log_in_tx e topic partition n).
Proof.
  intros db [] db' Hi H. split; [|by eapply progress_event_log].
  apply insert_event_log_ok in H as ->. by apply inv_set_event_log.
Qed.
Lemma load_by_reservation_keeps k : keeps (load_context_by_reservation_in_tx k).
Proof. by intros db a db' Hi [-> _]%load_by_reservation_ok. Qed.
Lemma load_for_order_keeps k id : keeps (load_context_for_order_in_tx k id).
Proof. by intros db a db' Hi [-> _]%load_for_order_ok. Qed.
Lemma on_book_keeps {A} (m : gset Z -> BM A) : keeps (on_book m).
Proof. intros db a db' Hi (t & _ & ->)%on_book_ok. split; [by apply inv_set_pj_book|by split]. Qed.
#[local] Hint Resolve save_offset_keeps upsert_context_keeps insert_event_log_keeps
  load_by_reservation_keeps load_for_order_keeps on_book_keeps : keeps.
#[local] Hint Extern 1 (keeps (update_context _ _)) =>
  (apply update_context_keeps; [done|intros; auto using accepted_step, rejected_step, opened_step,
     cancelled_step]) : keeps.

Lemma save_queue_offset_sound topic partition n :
  sound (projector_save_queue_offset topic partition n).
Proof. apply transaction_sound; auto with keeps grows. Qed.

Lemma engine_input_sound input topic partition n :
  sound (processor_engine_input input topic partition n).
Proof.
  destruct input; cbn; try apply save_queue_offset_sound;
    apply transaction_sound; auto with keeps grows.
Qed.

Lemma engine_reply_sound reply topic partition n :
  sound (processor_engine_reply reply topic partition n).
Proof.
  destruct reply as [?|r|?|?|?|?]; cbn; try apply save_queue_offset_sound;
    apply transaction_sound; auto 10 with keeps grows.
  apply keeps_bind; [|auto with keeps]. destruct (orj_reservation_id r); auto with keeps.
Qed.

Lemma project_trade_keeps event :
  te_quantity event <= i64_max -> keeps (project_trade_in_tx event).
Proof. intros Hq db [] db' Hi H. by destruct (project_trade_ok _ _ _ Hi Hq H) as (? & ? & _). Qed.

Lemma event_log_sound event topic partition n :
  sound (project_engine_event_log event topic partition n).
Proof. apply lift_bind_sound. intros. apply transaction_sound; auto with keeps grows. Qed.

Definition event_in_range (event : EngineEvent) : Prop :=
  match event with EngineEvent_TradeExecuted e => te_quantity e <= i64_max | _ => True end.

Lemma engine_event_sound event topic partition n :
  event_in_range event -> sound (processor_engine_event event topic partition n).
Proof.
  intros Hr. destruct event; cbn; try apply event_log_sound; apply transaction_sound.
  - unfold upsert_order_open_in_tx. auto 10 using upsert_order_keeps, open_order_step with keeps.
  - unfold upsert_order_open_in_tx. auto 10 with grows.
  - apply keeps_bind; [auto with keeps|]. intros c. apply keeps_bind; [auto with keeps|]. intros _.
    apply keeps_bind; [|auto with keeps]. apply upsert_order_keeps. by split.
  - unfold upsert_order_cancelled_in_tx. auto 10 with grows.
  - apply keeps_bind; [by apply project_trade_keeps|auto with keeps].
  - auto with grows.
  - auto with keeps.
  - auto with grows.
Qed.

Lemma worker_sound {A} (m : PDb A) : sound m -> sound (worker m).
Proof.
  intros Hm db r db' Hi. unfold worker. destruct (m db) as [r1 s] eqn:E. intros [= _ <-].
  by apply (Hm db r1).
Qed.

Lemma sound_bind {E A B} (m : M ProjectorDb E A) (k : A -> M ProjectorDb E B) :
  sound m -> (forall a, sound (k a)) -> sound (bind m k).
Proof.
  intros Hm Hk db r db' Hi. unfold bind. destruct (m db) as [[a|e] s] eqn:E1.
  - intros H. destruct (Hm _ _ _ Hi E1) as [Hi1 Hp1]. destruct (Hk a _ _ _ Hi1 H) as [? ?].
    split; [done|by etrans].
  - intros [= <- <-]. by apply (Hm db (Err e)).
Qed.

(** [serde_json] only gives quantities that are [i64]. *)
Definition parsers_in_range (parsers : Parsers) : Prop :=
  forall payload event, parse_event parsers payload = Some event -> event_in_range event.

Lemma handle_source_sound parsers kind topic partition offset value :
  parsers_in_range parsers -> sound (handle_source_record parsers kind topic partition offset value).
Proof.
  intros Hr. unfold handle_source_record. cbn zeta.
  destruct value as [payload|]; [|apply worker_sound, save_queue_offset_sound].
  destruct kind; cbn; case_match eqn:E; try (apply worker_sound, save_queue_offset_sound).
  - apply worker_sound, engine_input_sound.
  - apply worker_sound, engine_reply_sound.
  - apply sound_bind.
    + apply worker_sound, lift_bind_sound. intros. apply transaction_sound; auto with keeps grows.
    + intros _. apply worker_sound, engine_event_sound. by apply (Hr payload).
Qed.
End WithSerde.
