(* ===== verification/ProjectorClaims.v ===== *)
(** * ProjectorClaims: the projector's properties

    Trades against the positions they move, redelivery, the history the
    projector keeps, and the consumption of a partition among the others. *)

From S2P Require Import Prelude Protocol Postgres ProjectorMath ProjectorPositions ProjectorBook.
From S2P Require Import ProjectorPositionsTheorems ProjectorDb Projector ProjectorTrades.
From S2P Require Import ProjectorStatements ProjectorInvariant ProjectorProgress ProjectorTheorems.
From S2P Require Import Queue.

Section WithSerde.
Context {SD : Serde}.
Implicit Types db : ProjectorDb.

(** ** Net positions after a trade *)

(** The signed position at [k] after one participant's side of a trade. *)
Definition moved (c : StoredOrderContext) (quantity : Z) (k : Z * Z) (n : Z) : Z :=
  if decide (k = context_key c) then net_after c quantity n else n.

Lemma outcome_moved known c order_id price quantity ts reason t t' k :
  positions_wf t -> 0 < quantity ->
  fill_outcome (known := known) c order_id price quantity ts reason t t' ->
  net k t' = moved c quantity k (net k t).
Proof.
  intros Hwf Hq Ho. unfold moved. destruct (decide (k = context_key c)) as [->|Hne].
  - by eapply outcome_net.
  - unfold net. by rewrite (fo_others _ _ _ _ _ _ _ _ Ho).
Qed.

(** What a participant's side of a trade adds to the exposure of market [m], when its
    signed position there was [n]. *)
Definition exposure_shift (m : Z) (c : StoredOrderContext) (quantity n : Z) : Z :=
  if soc_market_id c =? m then net_after c quantity n - n else 0.

Lemma outcome_exposure known c order_id price quantity ts reason t t' m :
  positions_wf t -> 0 < quantity ->
  fill_outcome (known := known) c order_id price quantity ts reason t t' ->
  exposure m t' = exposure m t + exposure_shift m c quantity (net (context_key c) t).
Proof.
  intros Hwf Hq Ho. unfold exposure_shift.
  rewrite (exposure_change m t t' (context_key c)) by apply (fo_others _ _ _ _ _ _ _ _ Ho).
  rewrite (outcome_net _ _ _ _ _ _ _ _ _ Hwf Hq Ho). cbn. case_if; lia.
Qed.

(** An order that is not reduce-only adds its signed quantity. *)
Lemma open_side_shift m c quantity n :
  soc_reduce_only c = false ->
  exposure_shift m c quantity n
  = if soc_market_id c =? m then signed (soc_side c) quantity else 0.
Proof. intros H. unfold exposure_shift, net_after. rewrite H. cbn. case_if; lia. Qed.

Lemma trade_effect_nets event maker taker db db' :
  projector_inv db -> 0 < te_quantity event -> fill_conflicts event (fills db) = false ->
  trade_effect event maker taker db db' ->
  (forall k, net k (pj_positions db')
     = moved taker (te_quantity event) k (moved maker (te_quantity event) k (net k (pj_positions db))))
  /\ (forall m, exposure m (pj_positions db') = exposure m (pj_positions db)
        + exposure_shift m maker (te_quantity event) (net (context_key maker) (pj_positions db))
        + exposure_shift m taker (te_quantity event)
            (moved maker (te_quantity event) (context_key taker)
               (net (context_key taker) (pj_positions db)))).
Proof.
  intros Hi Hq Hc H. unfold trade_effect in H. rewrite Hc in H.
  destruct H as (_ & _ & known & t1 & t2 & H1 & H2 & Hm & _).
  destruct (exposure_marked _ _ t2 (pj_positions db') Hm) as [Hn He].
  pose proof (pi_positions _ Hi) as Hwf. pose proof (fo_wf _ _ _ _ _ _ _ _ H1) as Hwf1.
  split.
  - intros k. by rewrite Hn, (outcome_moved _ _ _ _ _ _ _ _ _ k Hwf1 Hq H2),
      (outcome_moved _ _ _ _ _ _ _ _ _ k Hwf Hq H1).
  - intros m. rewrite He, (outcome_exposure _ _ _ _ _ _ _ _ _ m Hwf1 Hq H2),
      (outcome_exposure _ _ _ _ _ _ _ _ _ m Hwf Hq H1).
    by rewrite (outcome_moved _ _ _ _ _ _ _ _ _ (context_key taker) Hwf Hq H1).
Qed.

Lemma new_fill_quantity event maker taker db db' :
  projector_inv db' -> fill_conflicts event (fills db) = false ->
  trade_effect event maker taker db db' -> 0 < te_quantity event.
Proof.
  intros Hi Hc H. unfold trade_effect in H. rewrite Hc in H. destruct H as (Hf & _).
  apply (pi_fills _ Hi (te_fill_id event) (fill_row event maker taker)).
  by rewrite Hf, lookup_insert_eq.
Qed.

Lemma executed_ok event topic partition n db db' :
  project_trade_executed event topic partition n db = (Ok tt, db') ->
  exists db1 t, project_trade_in_tx event db = (Ok tt, db1) /\ db' = set_offsets db1 t.
Proof.
  intros H%transaction_ok. apply bind_ok in H as ([] & db1 & H1 & (t & -> & _)%save_offset_ok).
  eauto.
Qed.

(** Claim C15 (refinement). A projected trade whose fill is new adds that fill and
    moves the signed position of maker and taker, in this order, by the rule of
    [net_after], and no other; a fill already known changes neither fills, nor
    prices, nor positions. Both orders then show the status of their filled
    quantity, unless cancelled. The exposure of a market changes by what the two
    sides add to it, and is what it was when the sides are opposite, in one market,
    and neither is reduce-only (a reduce-only side with nothing to close, as one side
    of a liquidation can be, is left out). *)
Theorem trade_projected event topic partition n db db' :
  projector_inv db -> te_quantity event <= i64_max ->
  project_trade_executed event topic partition n db = (Ok tt, db') ->
  projector_inv db' /\
  exists maker taker, load_trade_contexts_in_tx event db = (Ok (maker, taker), db) /\
    orders_filled event maker taker db' /\
    if fill_conflicts event (fills db) then
      fills db' = fills db /\ pj_markets db' = pj_markets db /\ pj_positions db' = pj_positions db
    else
      fills db' = <[te_fill_id event := fill_row event maker taker]> (fills db) /\
      (forall k, net k (pj_positions db')
         = moved taker (te_quantity event) k
             (moved maker (te_quantity event) k (net k (pj_positions db)))) /\
      (forall m, exposure m (pj_positions db') = exposure m (pj_positions db)
         + exposure_shift m maker (te_quantity event) (net (context_key maker) (pj_positions db))
         + exposure_shift m taker (te_quantity event)
             (moved maker (te_quantity event) (context_key taker)
                (net (context_key taker) (pj_positions db)))) /\
      (soc_market_id maker = soc_market_id taker ->
       soc_reduce_only maker = false -> soc_reduce_only taker = false ->
       soc_side taker = opposite_db_side (soc_side maker) ->
       forall m, exposure m (pj_positions db') = exposure m (pj_positions db)).
Proof.
  intros Hi Hq (db1 & t & H1 & ->)%executed_ok.
  destruct (project_trade_ok _ _ _ Hi Hq H1) as (Hi1 & _ & maker & taker & Hl & He & Ho).
  split; [by apply inv_set_offsets|]. exists maker, taker. split; [done|]. split; [done|].
  destruct (fill_conflicts event (fills db)) eqn:Hc.
  - unfold trade_effect in He. by rewrite Hc in He.
  - pose proof (new_fill_quantity _ _ _ _ _ Hi1 Hc He) as Hpos.
    destruct (trade_effect_nets _ _ _ _ _ Hi Hpos Hc He) as [Hn Hx].
    unfold trade_effect in He. rewrite Hc in He. split; [apply He|].
    do 2 (split; [done|]). intros Emk Hr1 Hr2 Hs m.
    rewrite Hx, (open_side_shift _ maker), (open_side_shift _ taker) by done. rewrite Emk, Hs.
    destruct (soc_side maker); cbn; case_if; lia.
Qed.

(** ** The projector as a whole *)

(** What one consumer, of any source and partition, does to the database: it
    handles a record, with whatever outcome, or it crashes after the event log
    of an event is written and before the event is projected. *)
Inductive projector_step (parsers : Parsers) : ProjectorDb -> ProjectorDb -> Prop :=
| step_record kind topic partition offset value r db db' :
    handle_source_record parsers kind topic partition offset value db = (r, db') ->
    projector_step parsers db db'
| step_log_only event topic partition n r db db' :
    save_engine_event_log event topic partition n db = (r, db') ->
    projector_step parsers db db'.

Lemma log_only_sound event topic partition n :
  sound (save_engine_event_log event topic partition n).
Proof.
  apply lift_bind_sound. intros e. apply transaction_sound.
  - apply insert_event_log_keeps.
  - apply insert_event_log_grows.
Qed.

Lemma step_sound parsers db db' :
  parsers_in_range parsers -> projector_inv db -> projector_step parsers db db' ->
  projector_inv db' /\ progress db db'.
Proof.
  intros Hr Hi Hs. revert Hi.
  destruct Hs as [kind topic partition offset value r s s' H|event topic partition n r s s' H];
    intros Hi.
  - exact (handle_source_sound _ _ _ _ _ _ Hr _ _ _ Hi H).
  - exact (log_only_sound _ _ _ _ _ _ _ Hi H).
Qed.

Lemma steps_sound parsers db db' :
  parsers_in_range parsers -> projector_inv db -> rtc (projector_step parsers) db db' ->
  projector_inv db' /\ progress db db'.
Proof.
  intros Hr Hi H. induction H as [|a b c Hs _ IH]; [by split|].
  destruct (step_sound _ _ _ Hr Hi Hs) as [Hb Hab]. destruct (IH Hb) as [? ?].
  split; [done|by etrans].
Qed.

(** The tables before the first record: the users and markets others maintain. *)
Definition empty_projector (us : gset Z) (ms : gmap Z (string * Z)) (reserved : gmap string Z)
    : ProjectorDb :=
  mkProjectorDb us ms reserved ∅ ∅ ∅ (mkPositionTables ∅ ∅ ∅ ∅ 1) (mkBookTables ∅ ∅ ∅) ∅ ∅.

Lemma empty_projector_inv us ms reserved : projector_inv (empty_projector us ms reserved).
Proof.
  split; cbn.
  - split; cbn; intros *; by rewrite lookup_empty.
  - split; cbn; [intros *; by rewrite lookup_empty|]. intros p f []%not_elem_of_empty.
  - intros k row. by rewrite lookup_empty.
  - intros id row. by rewrite lookup_empty.
  - intros id row. by rewrite lookup_empty.
Qed.

(** Claim C17 (invariant). Whatever records the consumers of all sources handle,
    in whatever interleaving and with whatever failures and crashes: positions
    keep distinct ids and positive quantities, every row refers to users,
    markets and orders that exist; and from any moment on no fill, closed
    position or logged event is lost or changed, orders keep what they were
    placed with, and an order or context that is CANCELLED stays so. *)
Theorem projector_history_kept parsers us ms reserved db1 db2 :
  parsers_in_range parsers ->
  rtc (projector_step parsers) (empty_projector us ms reserved) db1 ->
  rtc (projector_step parsers) db1 db2 ->
  projector_inv db1 /\ progress db1 db2.
Proof.
  intros Hr H1 H2.
  destruct (steps_sound _ _ _ Hr (empty_projector_inv us ms reserved) H1) as [Hi1 _].
  split; [done|]. by destruct (steps_sound _ _ _ Hr Hi1 H2).
Qed.

(** ** Redelivery of a trade *)

Lemma fill_conflicts_kept event m m' :
  rows_kept eq m m' -> fill_conflicts event m = true -> fill_conflicts event m' = true.
Proof.
  intros Hk. unfold fill_conflicts. rewrite !orb_true_iff, !existsb_exists. intros [H|(p & Hin & Hp)].
  - left. split_bool. destruct H as [row Hrow]. destruct (Hk _ _ Hrow) as (row' & ? & _).
    apply bool_decide_eq_true. eauto.
  - right. destruct p as [k row]. exists (k, row). split; [|done].
    apply list_elem_of_In, elem_of_map_to_list in Hin. destruct (Hk _ _ Hin) as (row' & Hr & <-).
    by apply list_elem_of_In, elem_of_map_to_list.
Qed.

Lemma trade_in_fills event maker taker db db' :
  trade_effect event maker taker db db' -> fill_conflicts event (fills db') = true.
Proof.
  unfold trade_effect. destruct (fill_conflicts event (fills db)) eqn:Hc.
  - intros (-> & _). done.
  - intros (-> & _). unfold fill_conflicts. rewrite lookup_insert_eq. by rewrite bool_decide_true.
Qed.

(** Claim C16 (safety). A trade counts once: after it has been projected, and
    whatever the projector has done since, projecting it again leaves fills,
    prices and positions alone, whether it succeeds or fails. *)
Theorem trade_counts_once parsers event topic partition n db db1 db2 topic' partition' n' r db3 :
  parsers_in_range parsers -> projector_inv db -> te_quantity event <= i64_max ->
  project_trade_executed event topic partition n db = (Ok tt, db1) ->
  rtc (projector_step parsers) db1 db2 ->
  project_trade_executed event topic' partition' n' db2 = (r, db3) ->
  fills db3 = fills db2 /\ pj_markets db3 = pj_markets db2 /\
  positions (pj_positions db3) = positions (pj_positions db2) /\
  closed_positions (pj_positions db3) = closed_positions (pj_positions db2).
Proof.
  intros Hr Hi Hq (db1' & t & H1 & ->)%executed_ok Hsteps H3.
  destruct (project_trade_ok _ _ _ Hi Hq H1) as (Hi1 & _ & maker & taker & _ & He & _).
  assert (projector_inv (set_offsets db1' t)) as Hi1' by (by apply inv_set_offsets).
  destruct (steps_sound _ _ _ Hr Hi1' Hsteps) as [Hi2 Hp2].
  assert (fill_conflicts event (fills db2) = true) as Hc.
  { eapply fill_conflicts_kept; [apply (pg_fills _ _ Hp2)|]. by eapply trade_in_fills. }
  destruct r as [[]|e].
  - apply executed_ok in H3 as (db3' & t3 & H3 & ->).
    destruct (project_trade_ok _ _ _ Hi2 Hq H3) as (_ & _ & m & tk & _ & He3 & _).
    unfold trade_effect in He3. rewrite Hc in He3. cbn. destruct He3 as (-> & -> & ->). done.
  - apply transaction_err in H3 as (s1 & _ & ->). done.
Qed.

(** ** Consuming a partition *)

Section Consume.
Variable parsers : Parsers.
Variable kind : SourceKind.
Variable topic : string.
Variable partition : Z.

Definition projector_stored (db : ProjectorDb) : option Z :=
  projector_load_queue_offset topic partition db.
Definition projector_handle (offset : Z) (value : option string) :=
  handle_source_record parsers kind topic partition offset value.

(** What happens between two successes of this consumer: records of the other
    partitions and topics, its own failures, and crashes between its two
    transactions. *)
Inductive between_step : ProjectorDb -> ProjectorDb -> Prop :=
| between_other kind' topic' partition' offset value r db db' :
    (topic', partition') <> (topic, partition) ->
    handle_source_record parsers kind' topic' partition' offset value db = (r, db') ->
    between_step db db'
| between_failure offset value e db db' :
    projector_handle offset value db = (Err e, db') -> between_step db db'
| between_log_only event topic' partition' n r db db' :
    save_engine_event_log event topic' partition' n db = (r, db') -> between_step db db'.

Lemma between_projector_step db db' : between_step db db' -> projector_step parsers db db'.
Proof.
  intros [kind' topic' partition' offset value r s s' _ H|offset value e s s' H
         |event topic' partition' n r s s' H]; [by eapply step_record|by eapply step_record|].
  by eapply step_log_only.
Qed.

(** Transactions of the projector end by saving the offset. *)
Definition saves (n : Z) {A} (m : PDb A) : Prop := forall db a db',
  m db = (Ok a, db') ->
  exists t, upsert_offset topic partition n (projector_offsets db) = Ok t /\
    projector_offsets db' = t.

Definition leaves_offsets {A} (m : PDb A) : Prop := forall db a db',
  m db = (Ok a, db') -> projector_offsets db' = projector_offsets db.

Lemma leaves_bind {A B} (m : PDb A) (k : A -> PDb B) :
  leaves_offsets m -> (forall a, leaves_offsets (k a)) -> leaves_offsets (bind m k).
Proof.
  intros Hm Hk db b db' (a & s & H1 & H2)%bind_ok. by rewrite (Hk _ _ _ _ H2), (Hm _ _ _ H1).
Qed.

Lemma saves_after {A} n (m : PDb A) (k : A -> PDb unit) :
  leaves_offsets m -> (forall a, saves n (k a)) -> saves n (bind m k).
Proof.
  intros Hm Hk db b db' (a & s & H1 & H2)%bind_ok.
  destruct (Hk _ _ _ _ H2) as (t & Ht & ?). exists t. by rewrite <- (Hm _ _ _ H1).
Qed.

Lemma saves_transaction {A} n (m : PDb A) : saves n m -> saves n (transaction m).
Proof. intros Hm db a db' H%transaction_ok. by eapply Hm. Qed.

Lemma saves_offset n : saves n (projector_save_queue_offset_in_tx topic partition n).
Proof. intros db [] db' (t & -> & Ht)%save_offset_ok. eauto. Qed.

Lemma saves_lift {A} n (r : Result ProjectorRepositoryError A) (k : A -> PDb unit) :
  (forall a, saves n (k a)) -> saves n (bind (lift r) k).
Proof. intros Hk. apply saves_after; [|done]. by intros db a db' [= _ <-]. Qed.

Create HintDb leaves.
#[local] Hint Resolve leaves_bind saves_after saves_transaction saves_offset saves_lift : leaves.

Lemma leaves_gets {A} (f : ProjectorDb -> A) : leaves_offsets (gets f).
Proof. by intros db a db' [= _ <-]. Qed.
Lemma leaves_ret {A} (a : A) : leaves_offsets (ret a).
Proof. by intros db b db' [= _ <-]. Qed.
Lemma leaves_upsert_context k row : leaves_offsets (upsert_context k row).
Proof. by intros db [] db' (? & -> & _)%upsert_context_ok. Qed.
Lemma leaves_update_context k f : leaves_offsets (update_context k f).
Proof. by intros db [] db' ->%update_context_ok. Qed.
Lemma leaves_order_id k id : leaves_offsets (update_context_order_id_in_tx k id).
Proof. by intros db [] db' (? & -> & _)%update_context_order_id_ok. Qed.
Lemma leaves_upsert_order id row f : leaves_offsets (upsert_order id row f).
Proof. by intros db [] db' (_ & ? & -> & _)%upsert_order_ok. Qed.
Lemma leaves_event_log e t p n : leaves_offsets (insert_engine_event_log_in_tx e t p n).
Proof. by intros db [] db' ->%insert_event_log_ok. Qed.
Lemma leaves_by_reservation k : leaves_offsets (load_context_by_reservation_in_tx k).
Proof. by intros db a db' [-> _]%load_by_reservation_ok. Qed.
Lemma leaves_for_order k id : leaves_offsets (load_context_for_order_in_tx k id).
Proof. by intros db a db' [-> _]%load_for_order_ok. Qed.
Lemma leaves_on_book {A} (m : gset Z -> BM A) : leaves_offsets (on_book m).
Proof. by intros db a db' (? & _ & ->)%on_book_ok. Qed.
Lemma leaves_on_positions {A} (m : Known -> TM A) : leaves_offsets (on_positions m).
Proof. by intros db a db' (? & _ & ->)%on_positions_ok. Qed.
Lemma leaves_insert_fill e a b : leaves_offsets (insert_fill e a b).
Proof.
  intros db b' db' [_ H]%insert_fill_ok. destruct (fill_conflicts _ _); [by subst|].
  by destruct H as (-> & _).
Qed.
Lemma leaves_order_after_fill c id : leaves_offsets (update_order_after_fill_in_tx c id).
Proof. by intros db [] db' [-> _]%update_order_after_fill_ok. Qed.
Lemma leaves_last_price m p : leaves_offsets (update_last_traded_price m p).
Proof. by intros db [] db' [= <-]. Qed.
#[local] Hint Resolve leaves_gets leaves_ret leaves_upsert_context leaves_update_context
  leaves_order_id leaves_upsert_order leaves_event_log leaves_by_reservation leaves_for_order
  leaves_on_book leaves_on_positions leaves_insert_fill leaves_order_after_fill
  leaves_last_price : leaves.
#[local] Hint Extern 2 (leaves_offsets (match ?x with _ => _ end)) => destruct x : leaves.

Lemma leaves_trade event : leaves_offsets (project_trade_in_tx event).
Proof.
  unfold project_trade_in_tx, project_new_fill, insert_order_if_missing_in_tx. cbn zeta.
  apply leaves_bind; [|intros []; auto 20 with leaves].
  by intros db [] db' (-> & _)%load_trade_contexts_ok.
Qed.
#[local] Hint Resolve leaves_trade : leaves.

Lemma save_queue_offset_saves n : saves n (projector_save_queue_offset topic partition n).
Proof. unfold projector_save_queue_offset. auto with leaves. Qed.

Lemma engine_input_saves n input : saves n (processor_engine_input input topic partition n).
Proof.
  destruct input; cbn; try apply save_queue_offset_saves; apply saves_transaction;
    auto with leaves.
Qed.
Lemma engine_reply_saves n reply : saves n (processor_engine_reply reply topic partition n).
Proof.
  destruct reply; cbn; try apply save_queue_offset_saves; apply saves_transaction;
    auto 10 with leaves.
Qed.
Lemma engine_event_saves n event : saves n (processor_engine_event event topic partition n).
Proof.
  destruct event; cbn; try (apply saves_lift; intros; apply saves_transaction; auto with leaves);
    apply saves_transaction;
    unfold upsert_order_open_in_tx, upsert_order_cancelled_in_tx; auto 10 with leaves.
Qed.

(** The same for the worker, whose errors are translated. *)
Lemma worker_saves n (m : PDb unit) db db' :
  saves n m -> worker m db = (Ok tt, db') ->
  exists t, upsert_offset topic partition n (projector_offsets db) = Ok t /\
    projector_offsets db' = t.
Proof.
  intros Hm. unfold worker. destruct (m db) as [[[]|e] s] eqn:E; [|done]. intros [= <-].
  by eapply Hm.
Qed.

Lemma log_offsets event n db r db' :
  save_engine_event_log event topic partition n db = (r, db') ->
  projector_offsets db' = projector_offsets db.
Proof.
  unfold save_engine_event_log, bind, lift.
  destruct (engine_event_log_entry event); [|by intros [= _ <-]].
  unfold transaction. destruct (insert_engine_event_log_in_tx _ _ _ _ db) as [[[]|e] s] eqn:E;
    intros [= _ <-]; [by eapply leaves_event_log|done].
Qed.

Lemma handle_saves_offset offset value db db' :
  projector_handle offset value db = (Ok tt, db') ->
  exists t, upsert_offset topic partition (i64_wrap (offset + 1)) (projector_offsets db) = Ok t /\
    projector_offsets db' = t.
Proof.
  unfold projector_handle, handle_source_record. cbn zeta.
  destruct value as [payload|]; [|apply worker_saves, save_queue_offset_saves].
  unfold process_payload.
  destruct kind; case_match; try (apply worker_saves, save_queue_offset_saves).
  - apply worker_saves, engine_input_saves.
  - apply worker_saves, engine_reply_saves.
  - intros ([] & s & H1 & H2)%bind_ok.
    destruct (worker_saves _ _ _ _ (engine_event_saves _ e) H2) as (t & Ht & ?). exists t.
    split; [|done]. rewrite <- Ht. f_equal. symmetry. unfold worker in H1.
    destruct (save_engine_event_log _ _ _ _ db) as [[[]|err] s'] eqn:E; [|done].
    injection H1 as <-. by eapply log_offsets.
Qed.

(** A failure leaves the offset where it was. *)
Lemma transaction_err_offsets {A} (m : PDb A) db e db' :
  transaction m db = (Err e, db') -> projector_offsets db' = projector_offsets db.
Proof. by intros (s & _ & ->)%transaction_err. Qed.

Definition err_offsets {A} (m : PDb A) : Prop := forall db e db',
  m db = (Err e, db') -> projector_offsets db' = projector_offsets db.

Lemma lift_err_offsets {A B} (r : Result ProjectorRepositoryError A) (k : A -> PDb B) :
  (forall a, err_offsets (k a)) -> err_offsets (bind (lift r) k).
Proof.
  intros Hk db e db'. unfold bind, lift. destruct r as [a|e']; [apply Hk|by intros [= _ <-]].
Qed.

Lemma input_err input n : err_offsets (processor_engine_input input topic partition n).
Proof. destruct input; cbn; intros db e db'; apply transaction_err_offsets. Qed.
Lemma reply_err reply n : err_offsets (processor_engine_reply reply topic partition n).
Proof. destruct reply; cbn; intros db e db'; apply transaction_err_offsets. Qed.
Lemma event_err event n : err_offsets (processor_engine_event event topic partition n).
Proof.
  destruct event; cbn; try (apply lift_err_offsets; intros ? db e db'; apply transaction_err_offsets);
    intros db e db'; apply transaction_err_offsets.
Qed.
Lemma save_err n : err_offsets (projector_save_queue_offset topic partition n).
Proof. intros db e db'. apply transaction_err_offsets. Qed.

Lemma worker_err (m : PDb unit) db e db' :
  err_offsets m -> worker m db = (Err e, db') -> projector_offsets db' = projector_offsets db.
Proof.
  intros Hm. unfold worker. destruct (m db) as [[[]|e'] s] eqn:E; [done|]. intros [= _ <-].
  by eapply Hm.
Qed.

Lemma handle_err_offsets offset value db e db' :
  projector_handle offset value db = (Err e, db') -> projector_offsets db' = projector_offsets db.
Proof.
  unfold projector_handle, handle_source_record. cbn zeta.
  destruct value as [payload|]; [|apply worker_err, save_err].
  unfold process_payload.
  destruct kind; case_match; try (apply worker_err, save_err).
  - apply worker_err, input_err.
  - apply worker_err, reply_err.
  - assert (forall r s,
      worker (save_engine_event_log e0 topic partition (i64_wrap (offset + 1))) db = (r, s) -> projector_offsets s = projector_offsets db) as Hlog.
    { intros r s. unfold worker. destruct (save_engine_event_log _ _ _ _ db) as [r' s'] eqn:E.
      intros [= _ <-]. by eapply log_offsets. }
    intros [He|([] & s & Hs1 & Hs2)]%bind_err; [by eapply Hlog|].
    rewrite (worker_err _ _ _ _ (event_err e0 _) Hs2). by eapply Hlog.
Qed.

(** Claim C14 (safety). Whatever the consumers of the other partitions do in the
    meantime, and through crashes, restarts, failures and waits for a missing
    order context, the projector has handled exactly the records of the
    partition before its stored offset, once each and in order, and the
    invariant holds and nothing recorded was lost. *)
Theorem projector_consumes_exactly_once log earliest db0 db c :
  parsers_in_range parsers -> offsets_from earliest log -> projector_inv db0 ->
  projector_offsets db0 !! (topic, partition) = None ->
  rtc (consumer_step (rtc between_step) projector_stored projector_handle log earliest)
    (db0, Stopped) (db, c) ->
  exists done rest, log = done ++ rest /\
    handled_all (rtc between_step) projector_handle db0 done db /\
    default earliest (projector_stored db) = offset_after earliest done /\
    projector_inv db /\ progress db0 db.
Proof.
  intros Hr Hlog Hi H0 Hrun.
  assert (exists done rest, exactly_once (rtc between_step) projector_stored projector_handle log
    earliest db0 (db, c) done rest) as (done & rest & [Hl Hh Hs _]).
  { apply exactly_once_reachable; try done.
    - intros o p db1 db2 Ho Hle (t & Ht & He)%handle_saves_offset.
      unfold projector_stored, projector_load_queue_offset. rewrite He.
      by eapply upsert_next_offset.
    - intros o p db1 e db2 Herr. split.
      + unfold projector_stored, projector_load_queue_offset.
        by rewrite (handle_err_offsets _ _ _ _ _ Herr).
      + apply rtc_once. by eapply between_failure. }
  exists done, rest. split; [done|]. split; [done|]. split; [done|].
  clear Hl Hs Hrun Hlog H0 rest. cbn in Hh. revert Hi.
  induction Hh as [s|s o p l s1 s2 H _ IH|s s1 l s2 H _ IH]; intros Hi; [by split|..].
  - destruct (handle_source_sound _ _ _ _ _ _ Hr _ _ _ Hi H) as [Hi1 Hp1].
    destruct (IH Hi1) as [? ?]. split; [done|by etrans].
  - destruct (steps_sound parsers s s1) as [Hi1 Hp1]; [done|done| |].
      { eapply rtc_congruence with (f := id); [|exact H]. apply between_projector_step. }
      destruct (IH Hi1) as [? ?]. split; [done|by etrans].
Qed.
End Consume.
End WithSerde.
