(* ===== verification/ProjectorExamples.v ===== *)
(** * ProjectorExamples: the projector's theorems on concrete inputs

    Two orders of users 1 and 2 in market 7, and the trade between them. *)

From S2P Require Import Prelude Protocol Postgres ProjectorMath ProjectorPositions ProjectorBook.
From S2P Require Import ProjectorPositionsTheorems ProjectorBookTheorems ProjectorDb Projector.
From S2P Require Import ProjectorTrades ProjectorStatements ProjectorInvariant ProjectorProgress.
From S2P Require Import ProjectorTheorems ProjectorClaims Queue FeedExamples.

#[local] Existing Instance tagged_serde.
#[local] Transparent gmap_empty.

Module ProjectorExample.
Definition context (request : string) (user : Z) (side : SideType) : ContextRow :=
  mkContextRow request None user 7 "x" side DbOrderType_LIMIT 3 50 "PENDING" None false.

Definition before : ProjectorDb :=
  set_contexts (empty_projector {[1; 2]} {[7 := ("x", 0)]} ∅)
    {["m" := context "a" 1 SideType_LONG; "t" := context "b" 2 SideType_SHORT]}.

Definition trade : TradeExecuted :=
  mkTradeExecuted None 1 90000 None None 5 7 50 2 11 12 1 2 (Some "m") (Some "t")
    ExecutionReason_TRADE None None None None [] [].

Definition after : ProjectorDb := (project_trade_executed trade "t" 0 1 before).2.
Definition again : ProjectorDb := (project_trade_executed trade "t" 0 2 after).2.

Lemma ok_unit {S E} (m : M S E unit) s : is_ok (m s).1 = true -> m s = (Ok tt, (m s).2).
Proof. by destruct (m s) as [[[]|e] s']. Qed.

Lemma traded : project_trade_executed trade "t" 0 1 before = (Ok tt, after).
Proof. unfold after. refine (ok_unit (project_trade_executed trade "t" 0 1) before _). reflexivity. Qed.

Lemma before_inv : projector_inv before.
Proof.
  apply inv_set_contexts; [apply empty_projector_inv|].
  intros k row [[_ <-]|[_ [_ <-]%lookup_singleton_Some]]%lookup_insert_Some;
    (split; [cbn; set_solver|by eexists]).
Qed.

Definition parsers : Parsers :=
  mkParsers (fun _ => None) (fun _ => None)
    (fun p => if decide (p = "x") then Some (EngineEvent_TradeExecuted trade) else None)
    (fun _ => None).

Lemma parsers_ok : parsers_in_range parsers.
Proof.
  intros p e. cbn. destruct (decide (p = "x")); [|done]. intros [= <-]. cbn. unfold i64_max. lia.
Qed.

Definition handled : ProjectorDb :=
  (handle_source_record parsers SourceKind_EngineEvent "t" 0 0 (Some "x") before).2.

Lemma handled_ok :
  handle_source_record parsers SourceKind_EngineEvent "t" 0 0 (Some "x") before = (Ok tt, handled).
Proof.
  unfold handled.
  refine (ok_unit (handle_source_record parsers SourceKind_EngineEvent "t" 0 0 (Some "x")) before _).
  reflexivity.
Qed.

(** The first sell of an account opens a position; the next buy reduces it. *)
Definition opener : StoredOrderContext :=
  mkStoredOrderContext None "" None 2 7 "x" SideType_SHORT DbOrderType_LIMIT 3 50 9 false.
Definition known : Known := mkKnown {[1; 2]} {[7]} {[11; 12]} {[5]}.
Definition no_positions : PositionTables := mkPositionTables ∅ ∅ ∅ ∅ 1.

Definition delta (sequence : Z) (quantity : Z) : OrderBookDelta :=
  mkOrderBookDelta None sequence 0 None None 7 [mkOrderBookLevel 50 quantity] [].
End ProjectorExample.
Import ProjectorExample.

Lemma position_follows_fill_witness : exists t,
  project_position_for_fill_in_tx known opener 12 5 50 2 90000 ExecutionReason_TRADE no_positions
    = (Ok tt, t) /\ net (2, 7) t = -2.
Proof.
  destruct (position_follows_fill known no_positions opener 12 5 50 2 90000 ExecutionReason_TRADE)
    as (t & Hrun & _ & _ & Hnet & _).
  - apply (pi_positions _ (empty_projector_inv ∅ ∅ ∅)).
  - split; cbn; [intros *; by rewrite lookup_empty|]. intros p f []%not_elem_of_empty.
  - split; cbn; set_solver.
  - reflexivity.
  - lia.
  - cbn. unfold i64_max. lia.
  - exists t. split; [exact Hrun|]. exact Hnet.
Defined.

Lemma orderbook_is_replay_witness : exists t,
  for_each [mkDelivery (delta 2 4) "t" 0 1; mkDelivery (delta 1 9) "t" 0 2;
            mkDelivery (delta 2 4) "t" 0 3]
    (project_delivery {[7]}) empty_book_tables = (Ok tt, t) /\
  fst <$> orderbook_levels t !! (7, "BID", 50) = Some 4.
Proof.
  destruct (orderbook_is_replay {[7]}
    [mkDelivery (delta 2 4) "t" 0 1; mkDelivery (delta 1 9) "t" 0 2]
    [mkDelivery (delta 2 4) "t" 0 3]) as (t & Hrun & Hq).
  - intros d Hd. assert (exists s q n, d = mkDelivery (delta s q) "t" 0 n /\ 0 < s /\ 0 < n <= 3)
      as (s & q & n & -> & Hs & Hn).
    { cbn in Hd. rewrite !elem_of_cons, elem_of_nil in Hd.
      destruct Hd as [->|[->|[->|[]]]]; do 3 eexists; (split; [done|lia]). }
    split; [|unfold i64_max; cbn; lia]. split; cbn; try lia; try set_solver; try apply NoDup_nil_2.
    + apply NoDup_singleton.
    + intros l ->%list_elem_of_singleton. cbn. lia.
  - intros d1 d2 H1 H2. cbn in H1, H2. rewrite !elem_of_cons, elem_of_nil in H1, H2.
    destruct H1 as [->|[->|[->|[]]]], H2 as [->|[->|[->|[]]]]; cbn; by intros [=].
  - intros d ->%list_elem_of_singleton. left.
  - exists t. split; [exact Hrun|]. rewrite Hq. reflexivity.
Defined.

Lemma trade_projected_witness :
  projector_inv after /\ net (1, 7) (pj_positions after) = 2 /\ net (2, 7) (pj_positions after) = -2.
Proof.
  destruct (trade_projected trade "t" 0 1 before after before_inv ltac:(cbn; unfold i64_max; lia)
    traded) as (Hi & _).
  split; [exact Hi|]. split; reflexivity.
Defined.

Lemma projector_history_kept_witness :
  projector_inv (empty_projector {[1; 2]} {[7 := ("x", 0)]} ∅).
Proof.
  apply (projector_history_kept parsers {[1; 2]} {[7 := ("x", 0)]} ∅
    (empty_projector {[1; 2]} {[7 := ("x", 0)]} ∅)
    (handle_source_record parsers SourceKind_EngineEvent "t" 0 0 (Some "x")
       (empty_projector {[1; 2]} {[7 := ("x", 0)]} ∅)).2 parsers_ok (rtc_refl _ _)).
  apply rtc_once. eapply step_record. apply surjective_pairing.
Defined.

Lemma trade_counts_once_witness :
  positions (pj_positions again) = positions (pj_positions after) /\
  map_size (fills again) = 1%nat.
Proof.
  split; [|reflexivity].
  destruct (trade_counts_once parsers trade "t" 0 1 before after after "t" 0 2
    (project_trade_executed trade "t" 0 2 after).1 again parsers_ok before_inv
    ltac:(cbn; unfold i64_max; lia) traded (rtc_refl _ _) (surjective_pairing _))
    as (_ & _ & Hp & _). exact Hp.
Defined.

Lemma projector_consumes_exactly_once_witness : exists done rest,
  [(0, Some "x")] = done ++ rest /\ 1 = offset_after 0 done.
Proof.
  pose proof (FeedExample.one_record
    (rtc (between_step parsers SourceKind_EngineEvent "t" 0)) (projector_stored "t" 0)
    (projector_handle parsers SourceKind_EngineEvent "t" 0) before handled eq_refl handled_ok)
    as Hrun.
  destruct (projector_consumes_exactly_once parsers SourceKind_EngineEvent "t" 0 FeedExample.log 0
    before handled (Running 1) parsers_ok FeedExample.log_from before_inv eq_refl Hrun)
    as (done & rest & Hl & _ & Hs & _).
  exists done, rest. split; [exact Hl|]. rewrite <- Hs. reflexivity.
Defined.
