(* ===== verification/WsHub.v ===== *)
(** * WsHub: the registry of websocket sessions and its messages

    [apps/ws]: the messages exchanged with a client ([messages.rs]) and the hub
    that indexes the sessions by user and by market and pushes a message to the
    sessions it concerns ([hub.rs]). Every operation of the hub runs under its
    lock; only the session counter is touched outside it, so that a
    registration is two steps. *)

From S2P Require Import Prelude Protocol WalletOutbox.

(** ** Messages: [messages.rs] *)

Record MarketSubscription := mkMarketSubscription { ms_markets : list Z }.
Record PingPayload := mkPingPayload { ping_nonce : option string }.
Record WelcomePayload := mkWelcomePayload { welcome_user_id : Z; welcome_username : string }.
Record ErrorPayload := mkErrorPayload { error_message : string }.
Record StreamMetadata := mkStreamMetadata {
  sm_topic : string;
  sm_partition : Z;
  sm_offset : Z
}.
Inductive EventSource :=
| EventSource_Engine
| EventSource_Wallet.

Inductive ClientMessage :=
| ClientMessage_Subscribe (payload : MarketSubscription)
| ClientMessage_Unsubscribe (payload : MarketSubscription)
| ClientMessage_Ping (payload : PingPayload).

Section Messages.
Context {SD : Serde}.

Record EventPayload := mkEventPayload {
  ep_source : EventSource;
  ep_event : Value;
  ep_metadata : StreamMetadata
}.
Record MarketEventPayload := mkMarketEventPayload {
  mep_market_id : Z;
  mep_source : EventSource;
  mep_event : Value;
  mep_metadata : StreamMetadata
}.

Inductive ServerMessage :=
| ServerMessage_Welcome (payload : WelcomePayload)
| ServerMessage_AccountEvent (payload : EventPayload)
| ServerMessage_MarketEvent (payload : MarketEventPayload)
| ServerMessage_Subscribed (payload : MarketSubscription)
| ServerMessage_Unsubscribed (payload : MarketSubscription)
| ServerMessage_Pong (payload : PingPayload)
| ServerMessage_Error (payload : ErrorPayload).

Definition account_event (source : EventSource) (event : Value) (metadata : StreamMetadata)
    : ServerMessage :=
  ServerMessage_AccountEvent (mkEventPayload source event metadata).
Definition market_event (market_id : Z) (source : EventSource) (event : Value)
    (metadata : StreamMetadata) : ServerMessage :=
  ServerMessage_MarketEvent (mkMarketEventPayload market_id source event metadata).
Definition error (message : string) : ServerMessage :=
  ServerMessage_Error (mkErrorPayload message).

Definition engine_event_value (event : EngineEvent) : option Value :=
  engine_event_to_value event.
Definition wallet_event_value (event : WalletEvent) : option Value :=
  wallet_event_to_value event.
End Messages.

(** The texts [serde_json] writes and reads on a websocket. *)
Class WsSerde `{Serde} := {
  server_message_to_string : ServerMessage -> option string;
  client_message_from_str : string -> option ClientMessage
}.

(** ** The hub: [hub.rs] *)

(** An index from a key to the sessions under it: [entry().or_default().insert()],
    and a removal that drops the key with its last session. *)
Definition index_insert (k session_id : Z) (index : gmap Z (gset Z)) : gmap Z (gset Z) :=
  <[k := {[session_id]} ∪ default ∅ (index !! k)]> index.
Definition index_remove (k session_id : Z) (index : gmap Z (gset Z)) : gmap Z (gset Z) :=
  match index !! k with
  | None => index
  | Some sessions =>
      let sessions := sessions ∖ {[session_id]} in
      if bool_decide (sessions = ∅) then delete k index else <[k := sessions]> index
  end.

Section Hub.
Context {Recipient : Type}.

Record SessionHandle := mkSessionHandle {
  sh_user_id : Z;
  sh_recipient : Recipient;
  sh_markets : gset Z
}.

Record HubState := mkHubState {
  hs_sessions : gmap Z SessionHandle;
  hs_users : gmap Z (gset Z);
  hs_markets : gmap Z (gset Z)
}.

Definition HubState_default : HubState := mkHubState ∅ ∅ ∅.

(** [state.sessions.get_mut(&session_id)] followed by a change of the markets. *)
Definition update_session_markets (f : gset Z -> gset Z) (session_id : Z)
    (sessions : gmap Z SessionHandle) : gmap Z SessionHandle :=
  match sessions !! session_id with
  | None => sessions
  | Some s =>
      <[session_id := mkSessionHandle (sh_user_id s) (sh_recipient s) (f (sh_markets s))]>
        sessions
  end.

(** What [register] does once it holds the lock. *)
Definition register_session (session_id user_id : Z) (recipient : Recipient) (state : HubState)
    : HubState :=
  mkHubState (<[session_id := mkSessionHandle user_id recipient ∅]> (hs_sessions state))
    (index_insert user_id session_id (hs_users state)) (hs_markets state).

Definition subscribe_market (session_id : Z) (state : HubState) (market_id : Z) : HubState :=
  mkHubState (update_session_markets (fun ms => {[market_id]} ∪ ms) session_id (hs_sessions state))
    (hs_users state) (index_insert market_id session_id (hs_markets state)).
Definition subscribe_markets (session_id : Z) (markets : list Z) (state : HubState) : HubState :=
  foldl (subscribe_market session_id) state markets.

Definition unsubscribe_market (session_id : Z) (state : HubState) (market_id : Z) : HubState :=
  mkHubState (update_session_markets (fun ms => ms ∖ {[market_id]}) session_id (hs_sessions state))
    (hs_users state) (index_remove market_id session_id (hs_markets state)).
Definition unsubscribe_markets (session_id : Z) (markets : list Z) (state : HubState) : HubState :=
  foldl (unsubscribe_market session_id) state markets.

(** A hash set is traversed in an order of its own. *)
Variable iter : gset Z -> list Z.

Definition remove_session_locked (state : HubState) (session_id : Z) : HubState :=
  match hs_sessions state !! session_id with
  | None => state
  | Some session =>
      mkHubState (delete session_id (hs_sessions state))
        (index_remove (sh_user_id session) session_id (hs_users state))
        (foldl (fun index market_id => index_remove market_id session_id index)
           (hs_markets state) (iter (sh_markets session)))
  end.

Definition unregister (session_id : Z) (state : HubState) : HubState :=
  remove_session_locked state session_id.

(** Whether a recipient's mailbox takes a push is its own affair: [accepts] may
    depend on every attempt made before. The attempts are kept in a log. *)
Record Attempt := mkAttempt {
  at_session_id : Z;
  at_recipient : Recipient;
  at_text : string;
  at_accepted : bool
}.
Variable accepts : list Attempt -> Recipient -> string -> bool.

Definition send_one (sessions : gmap Z SessionHandle) (text : string)
    (acc : list Z * Z * list Attempt) (session_id : Z) : list Z * Z * list Attempt :=
  let '(stale, delivered, log) := acc in
  match sessions !! session_id with
  | None => acc
  | Some session =>
      let ok := accepts log (sh_recipient session) text in
      let log := log ++ [mkAttempt session_id (sh_recipient session) text ok] in
      if ok then (stale, delivered + 1, log) else (stale ++ [session_id], delivered, log)
  end.

Definition send_to_sessions_locked (state : HubState) (sessions : gset Z) (text : string)
    (log : list Attempt) : Z * HubState * list Attempt :=
  let '(stale, delivered, log) :=
    foldl (send_one (hs_sessions state) text) ([], 0, log) (iter sessions) in
  (delivered, foldl remove_session_locked state stale, log).

Section Broadcast.
Context {SD : Serde} {WS : WsSerde}.

(** [None] is a message that does not serialise. *)
Definition broadcast_account (user_id : Z) (message : ServerMessage) (state : HubState)
    (log : list Attempt) : option (Z * HubState * list Attempt) :=
  text ← server_message_to_string message;
  Some (send_to_sessions_locked state (default ∅ (hs_users state !! user_id)) text log).

Definition broadcast_market (market_id : Z) (message : ServerMessage) (state : HubState)
    (log : list Attempt) : option (Z * HubState * list Attempt) :=
  text ← server_message_to_string message;
  Some (send_to_sessions_locked state (default ∅ (hs_markets state !! market_id)) text log).
End Broadcast.

(** ** Runs of the hub

    The hub with its session counter, the registrations that have their number
    but not yet the lock, and the pushes attempted so far. *)
Record Hub := mkHub {
  hub_inner : HubState;
  hub_next_session_id : Z;
  hub_registering : gset Z;
  hub_log : list Attempt
}.

Definition Hub_default : Hub := mkHub HubState_default 1 ∅ [].

(** The id of a session that has registered, now or once. *)
Definition registered_id (h : Hub) (session_id : Z) : Prop :=
  1 <= session_id < hub_next_session_id h /\ session_id ∉ hub_registering h.

Definition set_inner (state : HubState) (h : Hub) : Hub :=
  mkHub state (hub_next_session_id h) (hub_registering h) (hub_log h).

Inductive hub_step : Hub -> Hub -> Prop :=
(** [next_session_id.fetch_add(1)] of [register], and the rest of it. *)
| hub_fetch_add h :
    hub_step h (mkHub (hub_inner h) (u64_wrap (hub_next_session_id h + 1))
      ({[hub_next_session_id h]} ∪ hub_registering h) (hub_log h))
| hub_register h session_id user_id recipient :
    session_id ∈ hub_registering h ->
    hub_step h (mkHub (register_session session_id user_id recipient (hub_inner h))
      (hub_next_session_id h) (hub_registering h ∖ {[session_id]}) (hub_log h))
| hub_unregister h session_id :
    registered_id h session_id ->
    hub_step h (set_inner (unregister session_id (hub_inner h)) h)
| hub_subscribe h session_id markets :
    registered_id h session_id ->
    hub_step h (set_inner (subscribe_markets session_id markets (hub_inner h)) h)
| hub_unsubscribe h session_id markets :
    registered_id h session_id ->
    hub_step h (set_inner (unsubscribe_markets session_id markets (hub_inner h)) h)
(** A broadcast, to the sessions of a user or of a market. *)
| hub_broadcast h sessions text delivered state log :
    (exists user_id, sessions = default ∅ (hs_users (hub_inner h) !! user_id)) \/
    (exists market_id, sessions = default ∅ (hs_markets (hub_inner h) !! market_id)) ->
    send_to_sessions_locked (hub_inner h) sessions text (hub_log h) = (delivered, state, log) ->
    hub_step h (mkHub state (hub_next_session_id h) (hub_registering h) log).
End Hub.
Arguments SessionHandle : clear implicits.
Arguments HubState : clear implicits.
Arguments Attempt : clear implicits.
Arguments Hub : clear implicits.
