(* ===== verification/WsHubTheorems.v ===== *)
(** * WsHubTheorems: the hub's indexes, and whom a broadcast reaches *)

From S2P Require Import Prelude Protocol WalletOutbox WsHub.

(** ** Indexes *)

(** The sessions an index has under a key. *)
Definition under (index : gmap Z (gset Z)) (k : Z) : gset Z := default ∅ (index !! k).

Definition no_empty (index : gmap Z (gset Z)) : Prop := forall k, index !! k <> Some ∅.

Lemma under_insert index k s k' s' :
  s' ∈ under (index_insert k s index) k' <-> (k' = k /\ s' = s) \/ s' ∈ under index k'.
Proof.
  unfold under, index_insert. destruct (decide (k' = k)) as [->|Hne].
  - rewrite lookup_insert_eq. cbn. set_solver.
  - rewrite lookup_insert_ne by congruence. set_solver.
Qed.

Lemma under_remove index k s k' s' :
  s' ∈ under (index_remove k s index) k' <-> s' ∈ under index k' /\ ~ (k' = k /\ s' = s).
Proof.
  unfold under, index_remove. destruct (decide (k' = k)) as [->|Hne].
  - destruct (index !! k) as [ss|] eqn:Hk.
    + case_bool_decide as He.
      * rewrite lookup_delete_eq. cbn. set_solver.
      * rewrite lookup_insert_eq. cbn. set_solver.
    + rewrite Hk. cbn. set_solver.
  - destruct (index !! k) as [ss|] eqn:Hk; [case_bool_decide|].
    + rewrite lookup_delete_ne by congruence. set_solver.
    + rewrite lookup_insert_ne by congruence. set_solver.
    + set_solver.
Qed.

Lemma no_empty_insert index k s : no_empty index -> no_empty (index_insert k s index).
Proof.
  intros H k'. unfold index_insert. destruct (decide (k' = k)) as [->|Hne].
  - rewrite lookup_insert_eq. intros [= He]. set_solver.
  - by rewrite lookup_insert_ne by congruence.
Qed.

Lemma no_empty_remove index k s : no_empty index -> no_empty (index_remove k s index).
Proof.
  intros H k'. unfold index_remove. destruct (index !! k) as [ss|]; [|done].
  case_bool_decide as He; destruct (decide (k' = k)) as [->|Hne].
  - by rewrite lookup_delete_eq.
  - by rewrite lookup_delete_ne by congruence.
  - rewrite lookup_insert_eq. by intros [= ?].
  - by rewrite lookup_insert_ne by congruence.
Qed.

(** An index without empty sets is determined by what it has under each key. *)
Lemma no_empty_lookup index k :
  no_empty index ->
  index !! k = if bool_decide (under index k = ∅) then None else Some (under index k).
Proof.
  intros H. unfold under. specialize (H k). destruct (index !! k) as [ss|]; cbn.
  - case_bool_decide; congruence.
  - by rewrite bool_decide_true.
Qed.

Create HintDb hub.
#[export] Hint Resolve no_empty_insert no_empty_remove : hub.

Section Hub.
Context {Recipient : Type} (iter : gset Z -> list Z) (iter_perm : forall X, iter X ≡ₚ elements X).
Context (accepts : list (Attempt Recipient) -> Recipient -> string -> bool).
Implicit Types (state : HubState Recipient) (h : Hub Recipient).

(** ** The invariant *)

(** [known] are the ids a market may have. *)
Record indexed (known : Z -> Prop) state : Prop := {
  ix_users u sid :
    sid ∈ under (hs_users state) u <->
    exists s, hs_sessions state !! sid = Some s /\ sh_user_id s = u;
  ix_markets m sid s :
    hs_sessions state !! sid = Some s ->
    (sid ∈ under (hs_markets state) m <-> m ∈ sh_markets s);
  ix_users_ne : no_empty (hs_users state);
  ix_markets_ne : no_empty (hs_markets state);
  ix_sessions_known sid s : hs_sessions state !! sid = Some s -> known sid;
  ix_markets_known m sid : sid ∈ under (hs_markets state) m -> known sid
}.

Lemma indexed_mono (known known' : Z -> Prop) state :
  (forall sid, known sid -> known' sid) -> indexed known state -> indexed known' state.
Proof. intros Hk []. split; eauto. Qed.

Lemma indexed_register known state sid u r :
  ~ known sid -> indexed known state ->
  indexed (fun x => known x \/ x = sid) (register_session sid u r state).
Proof.
  intros Hf [Hu Hm Hue Hme Hk Hmk].
  assert (hs_sessions state !! sid = None) as Hnone.
  { destruct (hs_sessions state !! sid) eqn:E; [|done]. destruct Hf; eauto. }
  assert (forall m, sid ∉ under (hs_markets state) m) as Hnm by eauto.
  split; cbn; auto with hub.
  - intros u' sid'. rewrite under_insert, Hu.
    destruct (decide (sid' = sid)) as [->|Hne].
    + rewrite lookup_insert_eq, Hnone. split.
      * intros [[-> _]|(? & ? & _)]; [eauto|congruence].
      * intros (s & [= <-] & ?). cbn in *. left. done.
    + rewrite lookup_insert_ne by congruence. split; [|by auto]. intros [[_ ?]|?]; [done|done].
  - intros m sid' s. destruct (decide (sid' = sid)) as [->|Hne].
    + rewrite lookup_insert_eq. intros [= <-]. cbn. specialize (Hnm m). set_solver.
    + rewrite lookup_insert_ne by congruence. apply Hm.
  - intros sid' s. destruct (decide (sid' = sid)) as [->|Hne]; [by auto|].
    rewrite lookup_insert_ne by congruence. eauto.
  - eauto.
Qed.

(** Looking up a session after its markets changed. *)
Lemma lookup_update_markets f sid (sessions : gmap Z (SessionHandle Recipient)) sid' :
  update_session_markets f sid sessions !! sid' =
  if bool_decide (sid' = sid)
  then (fun s => mkSessionHandle (sh_user_id s) (sh_recipient s) (f (sh_markets s))) <$> (sessions !! sid')
  else sessions !! sid'.
Proof.
  unfold update_session_markets. case_bool_decide as Hs.
  - subst. destruct (sessions !! sid) eqn:E; cbn; [by rewrite lookup_insert_eq|done].
  - destruct (sessions !! sid); [by rewrite lookup_insert_ne by congruence|done].
Qed.

(** The operations that change a session's markets and the market index alike. *)
Lemma indexed_markets known state sid f index' :
  (forall m sid', sid' ∈ under index' m ->
     sid' ∈ under (hs_markets state) m \/ known sid') ->
  (forall m sid', sid' <> sid ->
     (sid' ∈ under index' m <-> sid' ∈ under (hs_markets state) m)) ->
  (forall m s, hs_sessions state !! sid = Some s ->
     (sid ∈ under index' m <-> m ∈ f (sh_markets s))) ->
  no_empty index' -> indexed known state ->
  indexed known (mkHubState (update_session_markets f sid (hs_sessions state)) (hs_users state) index').
Proof.
  intros Hnew Hother Hsame Hne [Hu Hm Hue Hme Hk Hmk]. split; cbn; auto.
  - intros u sid'. rewrite Hu, lookup_update_markets. case_bool_decide; [|done]. subst sid'.
    destruct (hs_sessions state !! sid) as [s|]; cbn.
    + split; intros (? & [= <-] & ?); eauto.
    + by split; intros (? & ? & _).
  - intros m sid' s. rewrite lookup_update_markets. case_bool_decide as Hs.
    + subst sid'. intros (s0 & Hs0 & ->)%fmap_Some. by apply Hsame.
    + intros Hs'. rewrite Hother by done. by apply Hm.
  - intros sid' s. rewrite lookup_update_markets. case_bool_decide; [|by eauto].
    intros (s0 & Hs0 & ->)%fmap_Some. eauto.
  - intros m sid' [?|?]%Hnew; eauto.
Qed.

Lemma indexed_subscribe known state sid ms :
  known sid -> indexed known state -> indexed known (subscribe_markets sid ms state).
Proof.
  intros Hk. unfold subscribe_markets. revert state. induction ms as [|m ms IH]; intros state Hi; [done|].
  apply IH. apply indexed_markets; auto; [..|apply no_empty_insert, Hi].
  - intros m' s'. rewrite under_insert. intros [[_ ->]|?]; auto.
  - intros m' s' ?. rewrite under_insert. naive_solver.
  - intros m' s Hs. rewrite under_insert, (ix_markets _ _ Hi _ _ _ Hs). set_solver.
Qed.

Lemma indexed_unsubscribe known state sid ms :
  indexed known state -> indexed known (unsubscribe_markets sid ms state).
Proof.
  unfold unsubscribe_markets. revert state. induction ms as [|m ms IH]; intros state Hi; [done|].
  apply IH. apply indexed_markets; auto; [..|apply no_empty_remove, Hi].
  - intros m' s'. rewrite under_remove. tauto.
  - intros m' s' ?. rewrite under_remove. naive_solver.
  - intros m' s Hs. rewrite under_remove, (ix_markets _ _ Hi _ _ _ Hs). set_solver.
Qed.

Lemma under_remove_all sid ms index k s' :
  s' ∈ under (foldl (fun index m => index_remove m sid index) index ms) k <->
  s' ∈ under index k /\ ~ (k ∈ ms /\ s' = sid).
Proof.
  revert index; induction ms as [|m ms IH]; intros index; cbn; [set_solver|].
  rewrite IH, under_remove, elem_of_cons. tauto.
Qed.

Lemma no_empty_remove_all sid ms index :
  no_empty index -> no_empty (foldl (fun index m => index_remove m sid index) index ms).
Proof. revert index; induction ms; cbn; auto with hub. Qed.

Lemma indexed_remove known state sid :
  indexed known state -> indexed known (remove_session_locked iter state sid).
Proof.
  intros Hi. unfold remove_session_locked. destruct (hs_sessions state !! sid) as [s|] eqn:Hs; [|done].
  destruct Hi as [Hu Hm Hue Hme Hk Hmk]. split; cbn; auto using no_empty_remove_all with hub.
  - intros u sid'. rewrite under_remove, Hu.
    destruct (decide (sid' = sid)) as [->|Hne].
    + rewrite lookup_delete_eq, Hs. naive_solver.
    + rewrite lookup_delete_ne by congruence. naive_solver.
  - intros m sid' s' Hs'. apply lookup_delete_Some in Hs' as [Hne Hs'].
    rewrite under_remove_all, <- (Hm m sid' s' Hs'). naive_solver.
  - intros sid' s' [_ ?]%lookup_delete_Some. eauto.
  - intros m sid' [? _]%under_remove_all. eauto.
Qed.

Lemma indexed_remove_all known stale state :
  indexed known state -> indexed known (foldl (remove_session_locked iter) state stale).
Proof. revert state; induction stale; cbn; auto using indexed_remove. Qed.

Lemma sessions_remove_all stale state sid :
  hs_sessions (foldl (remove_session_locked iter) state stale) !! sid =
  if bool_decide (sid ∈ stale) then None else hs_sessions state !! sid.
Proof.
  revert state; induction stale as [|x stale IH]; intros state; cbn; [done|].
  rewrite IH. unfold remove_session_locked.
  destruct (decide (sid = x)) as [->|Hne].
  - rewrite (bool_decide_true (x ∈ x :: stale)) by set_solver.
    case_bool_decide; [done|]. destruct (hs_sessions state !! x) eqn:E; [apply lookup_delete_eq|done].
  - rewrite (bool_decide_ext (sid ∈ x :: stale) (sid ∈ stale)) by set_solver.
    case_bool_decide; [done|]. destruct (hs_sessions state !! x); [|done].
    by apply lookup_delete_ne.
Qed.

(** *** Runs *)

Record hub_ok (n : nat) h : Prop := {
  ok_next : 1 <= hub_next_session_id h <= 1 + Z.of_nat n;
  ok_registering sid : sid ∈ hub_registering h -> 1 <= sid < hub_next_session_id h;
  ok_indexed : indexed (registered_id h) (hub_inner h)
}.

Lemma hub_ok_step n h h' :
  Z.of_nat (S n) < 2 ^ 64 - 1 ->
  hub_ok n h -> hub_step iter accepts h h' -> hub_ok (S n) h'.
Proof.
  intros Hn [Hnext Hreg Hix] Hs.
  destruct Hs as [h|h sid u r Hin|h sid Hk|h sid ms Hk|h sid ms Hk|h ss t d st log _ Hsend];
    try (split; cbn; [lia|done|]).
  - assert (u64_wrap (hub_next_session_id h + 1) = hub_next_session_id h + 1) as E.
    { unfold u64_wrap. apply Z.mod_small. lia. }
    split; cbn; rewrite ?E; [lia|set_solver by lia|].
    revert Hix. apply indexed_mono. unfold registered_id. cbn.
    intros x [? ?]. split; [lia|]. intros [Hx|?]%elem_of_union; [|done].
    apply elem_of_singleton in Hx. lia.
  - split; cbn; [lia|intros x [? _]%elem_of_difference; auto|].
    eapply indexed_mono; [|apply indexed_register; [|exact Hix]].
    + unfold registered_id. cbn. intros x [[? ?]| ->]; split; auto; set_solver.
    + by intros [_ ?].
  - by apply indexed_remove.
  - by apply indexed_subscribe.
  - by apply indexed_unsubscribe.
  - unfold send_to_sessions_locked in Hsend.
    destruct (foldl _ _ _) as [[stale d'] l'] in Hsend. injection Hsend as <- <- <-.
    by apply indexed_remove_all.
Qed.

Lemma hub_ok_default : hub_ok 0 Hub_default.
Proof.
  split; cbn; [lia|set_solver|]. split; cbn.
  - intros u sid. unfold under. rewrite lookup_empty. cbn. split; [set_solver|].
    intros (s & Hs & _). by rewrite lookup_empty in Hs.
  - intros m sid s Hs. by rewrite lookup_empty in Hs.
  - intros k. by rewrite lookup_empty.
  - intros k. by rewrite lookup_empty.
  - intros sid s Hs. by rewrite lookup_empty in Hs.
  - intros m sid. unfold under. rewrite lookup_empty. cbn. set_solver.
Qed.

Lemma hub_ok_reachable n h :
  Z.of_nat n < 2 ^ 64 - 1 -> nsteps (hub_step iter accepts) n Hub_default h -> hub_ok n h.
Proof.
  revert h. induction n as [|n IH]; intros h Hn Hs.
  - inversion Hs; subst. apply hub_ok_default.
  - apply nsteps_inv_r in Hs as (h1 & Hs & Hstep). eapply hub_ok_step; [done| |exact Hstep].
    apply IH; [lia|done].
Qed.

(** ** Pushing to a set of sessions *)

(** Each attempt of a list carries the answer of its recipient's mailbox. *)
Definition answered (log atts : list (Attempt Recipient)) : Prop :=
  forall l1 a l2, atts = l1 ++ a :: l2 ->
    at_accepted a = accepts (log ++ l1) (at_recipient a) (at_text a).

(** The sessions that refused their push, and the number of those that took it. *)
Definition refused (atts : list (Attempt Recipient)) : list Z :=
  map at_session_id (filter (fun a => at_accepted a = false) atts).
Definition taken (atts : list (Attempt Recipient)) : Z :=
  Z.of_nat (length (filter (fun a => at_accepted a = true) atts)).

Lemma refused_cons a atts :
  refused (a :: atts) =
    if at_accepted a then refused atts else at_session_id a :: refused atts.
Proof. unfold refused. rewrite filter_cons. by destruct (at_accepted a). Qed.

Lemma taken_cons a atts :
  taken (a :: atts) = if at_accepted a then taken atts + 1 else taken atts.
Proof. unfold taken. rewrite filter_cons. destruct (at_accepted a); [|done].
  rewrite decide_True by done. cbn [length]. lia. Qed.

(** [text] pushed once to each session of which [P] holds and to no other, the
    sessions that refused it dropped from the hub. *)
Record pushed (P : SessionHandle Recipient -> Prop) (text : string)
    (sessions : gmap Z (SessionHandle Recipient)) (log : list (Attempt Recipient))
    (delivered : Z) (sessions' : gmap Z (SessionHandle Recipient))
    (log' : list (Attempt Recipient)) (atts : list (Attempt Recipient)) : Prop := {
  pu_log : log' = log ++ atts;
  pu_answered : answered log atts;
  pu_once : NoDup (map at_session_id atts);
  pu_targets sid :
    sid ∈ map at_session_id atts <-> exists s, sessions !! sid = Some s /\ P s;
  pu_recipients a :
    a ∈ atts -> at_text a = text /\
      exists s, sessions !! at_session_id a = Some s /\ at_recipient a = sh_recipient s;
  pu_delivered : delivered = taken atts;
  pu_sessions sid :
    sessions' !! sid = if bool_decide (sid ∈ refused atts) then None else sessions !! sid
}.

Lemma answered_cons log a atts :
  at_accepted a = accepts log (at_recipient a) (at_text a) ->
  answered (log ++ [a]) atts -> answered log (a :: atts).
Proof.
  intros Ha Hatts [|b l1] c l2; cbn; intros [= <- Heq].
  - by rewrite app_nil_r.
  - rewrite (Hatts l1 c l2 Heq). by rewrite <- app_assoc.
Qed.

Lemma send_all sessions text ids stale d log :
  exists atts,
    foldl (send_one accepts sessions text) (stale, d, log) ids =
      (stale ++ refused atts, d + taken atts, log ++ atts) /\
    answered log atts /\
    map at_session_id atts = filter (fun sid => is_Some (sessions !! sid)) ids /\
    forall a, a ∈ atts -> at_text a = text /\
      exists s, sessions !! at_session_id a = Some s /\ at_recipient a = sh_recipient s.
Proof.
  revert stale d log. induction ids as [|sid ids IH]; intros stale d log; cbn [foldl].
  - exists []. rewrite !app_nil_r, Z.add_0_r. split; [done|]. split; [by intros []|].
    split; [done|set_solver].
  - unfold send_one at 2. destruct (sessions !! sid) as [s|] eqn:Hs.
    + set (ok := accepts log (sh_recipient s) text).
      set (a := mkAttempt sid (sh_recipient s) text ok).
      destruct (IH (if ok then stale else stale ++ [sid]) (if ok then d + 1 else d) (log ++ [a]))
        as (atts & Heq & Hans & Hids & Hrec).
      exists (a :: atts). repeat split.
      * replace (if ok then (stale, d + 1, log ++ [a]) else (stale ++ [sid], d, log ++ [a]))
          with (if ok then stale else stale ++ [sid], if ok then d + 1 else d, log ++ [a])
          by (by destruct ok).
        rewrite Heq, refused_cons, taken_cons. change (at_accepted a) with ok.
        rewrite <- !app_assoc. by destruct ok; rewrite <- ?app_assoc, <- ?Z.add_assoc, ?(Z.add_comm 1).
      * by apply answered_cons.
      * rewrite filter_cons, decide_True by (rewrite Hs; eauto). cbn. by f_equal.
      * apply elem_of_cons in H as [->|Ha]; [done|]. by apply Hrec.
      * apply elem_of_cons in H as [->|Ha]; [cbn; eauto|]. by apply Hrec.
    + destruct (IH stale d log) as (atts & Heq & Hans & Hids & Hrec). exists atts.
      repeat split; auto; [|by apply Hrec..].
      rewrite filter_cons, decide_False; [done|]. rewrite Hs. by intros [].
Qed.

Lemma pushed_send P text state log ids delivered state' log' :
  (forall sid s, hs_sessions state !! sid = Some s -> (sid ∈ ids <-> P s)) ->
  send_to_sessions_locked iter accepts state ids text log = (delivered, state', log') ->
  exists atts, pushed P text (hs_sessions state) log delivered (hs_sessions state') log' atts.
Proof.
  intros HP. unfold send_to_sessions_locked.
  destruct (send_all (hs_sessions state) text (iter ids) [] 0 log) as (atts & -> & Hans & Hids & Hrec).
  intros [= <- <- <-]. exists atts. split; try done.
  - rewrite Hids. apply NoDup_filter. rewrite iter_perm. apply NoDup_elements.
  - intros sid. rewrite Hids, list_elem_of_filter, iter_perm, elem_of_elements. split.
    + intros [[s Hs] Hin]. exists s. split; [done|]. by apply (HP sid).
    + intros (s & Hs & Hp). split; [eauto|]. by apply (HP sid s).
  - intros sid. by rewrite sessions_remove_all.
Qed.
End Hub.
