(* ===== verification/WsRouter.v ===== *)
(** * WsRouter: from engine and wallet events to websocket sessions

    [apps/ws]: the routing of an event to the accounts and the market it
    concerns, the window of wallet events already delivered ([router.rs]), and
    the loop that reads a partition and routes its records ([consumer.rs]). *)

From S2P Require Import Prelude Protocol WalletOutbox WsHub.

(** ** Wallet events already seen: [EventDedupe] *)

Definition WALLET_EVENT_DEDUPE_CAPACITY : Z := 10000.

Record EventDedupe := mkEventDedupe {
  ed_capacity : Z;
  ed_order : list string;
  ed_seen : gset string
}.

Definition EventDedupe_new (capacity : Z) : EventDedupe := mkEventDedupe capacity [] ∅.

(** [while self.order.len() > self.capacity]: each turn pops the oldest id. *)
Fixpoint expire (capacity : Z) (order : list string) (seen : gset string)
    : list string * gset string :=
  match order with
  | [] => (order, seen)
  | expired :: rest =>
      if capacity <? Z.of_nat (length order)
      then expire capacity rest (seen ∖ {[expired]})
      else (order, seen)
  end.

Definition is_duplicate (event_id : option string) (self : EventDedupe) : bool * EventDedupe :=
  match event_id with
  | None => (false, self)
  | Some id =>
      if bool_decide (id = "") then (false, self)
      else if bool_decide (id ∈ ed_seen self) then (true, self)
      else if ed_capacity self =? 0 then (false, self)
      else
        let '(order, seen) :=
          expire (ed_capacity self) (ed_order self ++ [id]) ({[id]} ∪ ed_seen self) in
        (false, mkEventDedupe (ed_capacity self) order seen)
  end.

(** ** Whom an event concerns *)

Definition wallet_event_user_id (event : WalletEvent) : Z :=
  match event with
  | WalletEvent_FundsReserved event => wfr_user_id event
  | WalletEvent_FundsReleased event => wfl_user_id event
  | WalletEvent_TradeSettled event => wts_user_id event
  | WalletEvent_DepositApplied event => wda_user_id event
  | WalletEvent_WithdrawalApplied event => wwa_user_id event
  | WalletEvent_AccountDeltaApplied event => wad_user_id event
  end.

Definition engine_event_market_id (event : EngineEvent) : option Z :=
  match event with
  | EngineEvent_OrderOpened event => Some (oo_market_id event)
  | EngineEvent_OrderCancelled event => Some (oc_market_id event)
  | EngineEvent_OrderExpired event => Some (oe_market_id event)
  | EngineEvent_ReservationReleased event => Some (rrl_market_id event)
  | EngineEvent_TradeExecuted event => Some (te_market_id event)
  | EngineEvent_OrderBookDelta event => Some (obd_market_id event)
  | EngineEvent_MarkPriceUpdated event => Some (mpu_market_id event)
  | EngineEvent_FundingRateUpdated event => Some (fru_market_id event)
  | EngineEvent_FundingPaymentApplied event => Some (fpa_market_id event)
  | EngineEvent_PositionChanged event => Some (pc_market_id event)
  | EngineEvent_RiskStateUpdated event => Some (rsu_market_id event)
  | EngineEvent_LiquidationStarted event => Some (ls_market_id event)
  | EngineEvent_LiquidationExecuted event => Some (le_market_id event)
  | EngineEvent_LiquidationCompleted event => Some (lc_market_id event)
  | EngineEvent_AdlExecuted event => Some (adl_market_id event)
  | EngineEvent_AccountDelta event => Some (ad_market_id event)
  end.

Definition trade_users (maker_user_id taker_user_id : Z) : list Z :=
  btree_collect [maker_user_id; taker_user_id].

Definition engine_event_account_user_ids (event : EngineEvent) : list Z :=
  match event with
  | EngineEvent_OrderOpened event => btree_insert (oo_user_id event) []
  | EngineEvent_OrderCancelled event => btree_insert (oc_user_id event) []
  | EngineEvent_OrderExpired event => btree_insert (oe_user_id event) []
  | EngineEvent_ReservationReleased event => btree_insert (rrl_user_id event) []
  | EngineEvent_TradeExecuted event =>
      let user_ids := btree_extend [] (trade_users (te_maker_user_id event) (te_taker_user_id event)) in
      let user_ids :=
        match te_liquidated_user_id event with
        | Some user_id => btree_insert user_id user_ids
        | None => user_ids
        end in
      btree_extend user_ids (map fd_user_id (te_fee_deltas event))
  | EngineEvent_OrderBookDelta _ => []
  | EngineEvent_MarkPriceUpdated _ => []
  | EngineEvent_FundingRateUpdated _ => []
  | EngineEvent_FundingPaymentApplied event => btree_extend [] (map fp_user_id (fpa_payments event))
  | EngineEvent_PositionChanged event => btree_insert (pc_user_id event) []
  | EngineEvent_RiskStateUpdated event => btree_insert (rsu_user_id event) []
  | EngineEvent_LiquidationStarted event => btree_insert (ls_user_id event) []
  | EngineEvent_LiquidationExecuted event => btree_insert (le_user_id event) []
  | EngineEvent_LiquidationCompleted event => btree_insert (lc_user_id event) []
  | EngineEvent_AdlExecuted event =>
      btree_insert (adl_deleveraged_user_id event) (btree_insert (adl_liquidated_user_id event) [])
  | EngineEvent_AccountDelta event => btree_insert (ad_user_id event) []
  end.

(** ** The router *)

Inductive RouterError :=
| RouterError_Serialization.

Section Router.
Context {Recipient : Type} {SD : Serde} {WS : WsSerde}.
Variable iter : gset Z -> list Z.
Variable accepts : list (Attempt Recipient) -> Recipient -> string -> bool.

(** The state the router's tasks share: the hub and the window of wallet events. *)
Record RouterState := mkRouterState {
  rt_hub : HubState Recipient;
  rt_log : list (Attempt Recipient);
  rt_dedupe : EventDedupe
}.

Definition Router (A : Type) : Type := M RouterState RouterError A.

Definition EventRouter_new (hub : HubState Recipient) (log : list (Attempt Recipient)) : RouterState :=
  mkRouterState hub log (EventDedupe_new WALLET_EVENT_DEDUPE_CAPACITY).

Definition run_broadcast
    (broadcast : HubState Recipient -> list (Attempt Recipient) ->
                 option (Z * HubState Recipient * list (Attempt Recipient))) : Router unit :=
  fun st =>
    match broadcast (rt_hub st) (rt_log st) with
    | Some (_, hub, log) => (Ok tt, mkRouterState hub log (rt_dedupe st))
    | None => (Err RouterError_Serialization, st)
    end.

Definition send_account (user_id : Z) (source : EventSource) (event : Value)
    (metadata : StreamMetadata) : Router unit :=
  let message := account_event source event metadata in
  run_broadcast (broadcast_account iter accepts user_id message).

Definition send_market (market_id : Z) (source : EventSource) (event : Value)
    (metadata : StreamMetadata) : Router unit :=
  let message := market_event market_id source event metadata in
  run_broadcast (broadcast_market iter accepts market_id message).

Definition process_engine_event (event : EngineEvent) (metadata : StreamMetadata) : Router unit :=
  let account_user_ids := engine_event_account_user_ids event in
  let market_id := engine_event_market_id event in
  if bool_decide (account_user_ids = []) && bool_decide (market_id = None) then ret tt
  else
    let* event_value := lift (ok_or RouterError_Serialization (engine_event_value event)) in
    do* for_each account_user_ids (fun user_id =>
          send_account user_id EventSource_Engine event_value metadata) in
    match market_id with
    | Some market_id => send_market market_id EventSource_Engine event_value metadata
    | None => ret tt
    end.

Definition process_wallet_event (event : WalletEvent) (metadata : StreamMetadata) : Router unit :=
  let* duplicate := fun st =>
    let '(duplicate, dedupe) := is_duplicate (event_id event) (rt_dedupe st) in
    (Ok duplicate, mkRouterState (rt_hub st) (rt_log st) dedupe) in
  if duplicate : bool then ret tt
  else
    let* event_value := lift (ok_or RouterError_Serialization (wallet_event_value event)) in
    let user_id := wallet_event_user_id event in
    send_account user_id EventSource_Wallet event_value metadata.

(** ** The consumers: [consumer.rs] *)

Inductive SourceKind :=
| SourceKind_EngineEvent
| SourceKind_WalletEvent.

Context {Payload : Type}.
Variable engine_event_from_slice : Payload -> option EngineEvent.
Variable wallet_event_from_slice : Payload -> option WalletEvent.

(** An error of the router is printed and forgotten. *)
Definition log_error (m : Router unit) : Router unit :=
  fun st => (Ok tt, (m st).2).

(** One turn of the loop on a record; a record may have no payload. *)
Definition route_record (kind : SourceKind) (topic : string) (partition offset : Z)
    (payload : option Payload) : Router unit :=
  match payload with
  | None => ret tt
  | Some payload =>
      let metadata := mkStreamMetadata topic partition offset in
      match kind with
      | SourceKind_EngineEvent =>
          match engine_event_from_slice payload with
          | Some event => log_error (process_engine_event event metadata)
          | None => ret tt
          end
      | SourceKind_WalletEvent =>
          match wallet_event_from_slice payload with
          | Some event => log_error (process_wallet_event event metadata)
          | None => ret tt
          end
      end
  end.

(** The records of one fetch, and the offset of the next. *)
Fixpoint route_records (kind : SourceKind) (topic : string) (partition next_offset : Z)
    (records : list (Z * option Payload)) (st : RouterState) : Z * RouterState :=
  match records with
  | [] => (next_offset, st)
  | (offset, payload) :: records =>
      let next_offset := offset + 1 in
      route_records kind topic partition next_offset records
        (route_record kind topic partition offset payload st).2
  end.
End Router.
Arguments RouterState : clear implicits.
