(* ===== verification/WsRouterTheorems.v ===== *)
(** * WsRouterTheorems: the window of wallet events, and the routing of an event *)

From S2P Require Import Prelude Protocol WalletOutbox WsHub WsHubTheorems WsRouter.

(** ** The window of wallet events *)

(** The last [n] elements of a list. *)
Definition lastn {A} (n : nat) (l : list A) : list A := drop (length l - n) l.
#[global] Arguments lastn : simpl never.

Lemma lastn_lastn_app {A} n (l k : list A) : lastn n (lastn n l ++ k) = lastn n (l ++ k).
Proof.
  unfold lastn. rewrite <- drop_app_le by lia. rewrite drop_drop. f_equal.
  rewrite length_drop, length_app. lia.
Qed.

Lemma length_lastn {A} n (l : list A) : length (lastn n l) = min n (length l).
Proof. unfold lastn. rewrite length_drop. lia. Qed.

Lemma lastn_short {A} n (l : list A) : (length l <= n)%nat -> lastn n l = l.
Proof. intros. unfold lastn. by replace (length l - n)%nat with O by lia. Qed.

Lemma elem_of_lastn_app {A} n (x : A) (l k : list A) :
  (length k < n)%nat -> x ∈ lastn n (l ++ x :: k).
Proof.
  intros Hn. unfold lastn. rewrite drop_app. apply elem_of_app. right.
  rewrite length_app. cbn.
  replace (length l + S (length k) - n - length l)%nat with O by lia. set_solver.
Qed.

(** *** The reference

    All the ids ever let through, oldest first: an id is a duplicate when it is
    among the last [capacity] of them. *)
Definition let_through (capacity : Z) (accepted : list string) (event_id : option string)
    : bool * list string :=
  match event_id with
  | None => (false, accepted)
  | Some id =>
      if bool_decide (id = "") then (false, accepted)
      else if bool_decide (id ∈ lastn (Z.to_nat capacity) accepted) then (true, accepted)
      else (false, accepted ++ [id])
  end.

Fixpoint run_reference (capacity : Z) (accepted : list string) (ids : list (option string))
    : list bool * list string :=
  match ids with
  | [] => ([], accepted)
  | id :: ids =>
      let '(answer, accepted) := let_through capacity accepted id in
      let '(answers, accepted) := run_reference capacity accepted ids in
      (answer :: answers, accepted)
  end.

Fixpoint run_dedupe (self : EventDedupe) (ids : list (option string)) : list bool * EventDedupe :=
  match ids with
  | [] => ([], self)
  | id :: ids =>
      let '(answer, self) := is_duplicate id self in
      let '(answers, self) := run_dedupe self ids in
      (answer :: answers, self)
  end.

Record window_of (accepted : list string) (d : EventDedupe) : Prop := {
  wi_capacity : 0 <= ed_capacity d;
  wi_order : ed_order d = lastn (Z.to_nat (ed_capacity d)) accepted;
  wi_seen : ed_seen d = list_to_set (ed_order d);
  wi_nodup : NoDup (ed_order d)
}.

Lemma window_of_new capacity : 0 <= capacity -> window_of [] (EventDedupe_new capacity).
Proof. intros. split; cbn; [done|done|done|constructor]. Qed.

Lemma expire_spec capacity order :
  0 <= capacity -> NoDup order ->
  expire capacity order (list_to_set order) =
    (lastn (Z.to_nat capacity) order, list_to_set (lastn (Z.to_nat capacity) order)).
Proof.
  intros Hc. induction 1 as [|x order Hx Hnd IH]; [done|].
  cbn [expire]. case_if.
  - replace (list_to_set (x :: order) ∖ {[x]}) with (list_to_set order : gset string)
      by (apply set_eq; intros y; destruct (decide (y = x)); set_solver).
    rewrite IH. unfold lastn.
    replace (length (x :: order) - Z.to_nat capacity)%nat
      with (S (length order - Z.to_nat capacity)) by (cbn in *; lia). done.
  - by rewrite lastn_short by lia.
Qed.

Lemma window_step accepted d id :
  window_of accepted d ->
  (is_duplicate id d).1 = (let_through (ed_capacity d) accepted id).1 /\
  window_of (let_through (ed_capacity d) accepted id).2 (is_duplicate id d).2 /\
  ed_capacity (is_duplicate id d).2 = ed_capacity d.
Proof.
  intros Hw. pose proof Hw as [Hc Ho Hs Hn]. unfold is_duplicate, let_through.
  destruct id as [id|]; [|done]. case_bool_decide; [done|].
  assert (id ∈ ed_seen d <-> id ∈ lastn (Z.to_nat (ed_capacity d)) accepted) as Hin
    by (by rewrite Hs, <- Ho, elem_of_list_to_set).
  destruct (decide (id ∈ ed_seen d)) as [Hd|Hd].
  { rewrite !bool_decide_true by tauto. done. }
  rewrite !bool_decide_false by tauto. case_if.
  - split; [done|]. split; [|done]. split; cbn; try done.
    rewrite Ho. unfold lastn. by rewrite Heqb, !Nat.sub_0_r, !drop_all.
  - assert (NoDup (ed_order d ++ [id])) as Hn'.
    { apply NoDup_app. split; [done|]. split; [|apply NoDup_singleton].
      intros x Hx Hi%list_elem_of_singleton. subst. apply Hd. rewrite Hs. set_solver. }
    replace ({[id]} ∪ ed_seen d) with (list_to_set (ed_order d ++ [id]) : gset string)
      by (rewrite list_to_set_app_L, Hs; cbn; set_solver).
    rewrite expire_spec by done. cbn. split; [done|]. split; [|done]. split; cbn; try done.
    + by rewrite Ho, lastn_lastn_app.
    + eapply sublist_NoDup; [exact Hn'|apply sublist_drop].
Qed.

Lemma window_run accepted d ids :
  window_of accepted d ->
  (run_dedupe d ids).1 = (run_reference (ed_capacity d) accepted ids).1 /\
  window_of (run_reference (ed_capacity d) accepted ids).2 (run_dedupe d ids).2 /\
  ed_capacity (run_dedupe d ids).2 = ed_capacity d.
Proof.
  revert accepted d. induction ids as [|id ids IH]; intros accepted d Hw; [done|]. cbn.
  destruct (window_step accepted d id Hw) as (Ha & Hw1 & Hc).
  destruct (is_duplicate id d) as [a d1], (let_through (ed_capacity d) accepted id) as [b acc1].
  cbn in *. destruct (IH acc1 d1 Hw1) as (Hr & Hw2 & Hc2). rewrite Hc in *.
  destruct (run_dedupe d1 ids), (run_reference (ed_capacity d) acc1 ids). cbn in *.
  by subst.
Qed.

(** The ids let through are only ever added to, one at most for each call. *)
Lemma run_reference_grows capacity accepted ids :
  exists more, (run_reference capacity accepted ids).2 = accepted ++ more /\
    (length more <= length ids)%nat.
Proof.
  revert accepted. induction ids as [|id ids IH]; intros accepted; cbn.
  - exists []. by rewrite app_nil_r.
  - assert (exists m, (let_through capacity accepted id).2 = accepted ++ m /\ (length m <= 1)%nat)
      as (m & Hm & Hl).
    { unfold let_through.
      destruct id as [id|]; [repeat case_bool_decide|];
        try (exists []; rewrite app_nil_r; split; [done|cbn; lia]).
      exists [id]. split; [done|cbn; lia]. }
    destruct (let_through capacity accepted id) as [a acc1]. cbn in *. subst acc1.
    destruct (IH (accepted ++ m)) as (m2 & Hm2 & Hl2).
    destruct (run_reference capacity (accepted ++ m) ids) as [as_ acc2]. cbn in *. subst acc2.
    exists (m ++ m2). rewrite app_assoc. split; [done|]. rewrite length_app. lia.
Qed.

Lemma window_accept accepted d id :
  window_of accepted d -> id <> "" -> (is_duplicate (Some id) d).1 = false ->
  window_of (accepted ++ [id]) (is_duplicate (Some id) d).2.
Proof.
  intros Hw Hne Hnew. destruct (window_step accepted d (Some id) Hw) as (Ha & Hw1 & _).
  rewrite Hnew in Ha. revert Ha Hw1. unfold let_through. rewrite bool_decide_false by done.
  by case_bool_decide.
Qed.

Lemma window_recent accepted d id more :
  window_of (accepted ++ id :: more) d -> id <> "" -> Z.of_nat (length more) < ed_capacity d ->
  is_duplicate (Some id) d = (true, d).
Proof.
  intros [Hc Ho Hs _] Hne Hl. unfold is_duplicate. rewrite bool_decide_false by done.
  rewrite bool_decide_true; [done|]. rewrite Hs, elem_of_list_to_set, Ho.
  apply elem_of_lastn_app. lia.
Qed.

(** ** Routing *)

(** What the router relies on of the encoder: its messages serialise. *)
Class WsSerdeLaws `{WsSerde} := {
  server_message_total m : is_Some (server_message_to_string m)
}.

(** The users the payload of an event names. *)
Definition named_users (event : EngineEvent) : list Z :=
  match event with
  | EngineEvent_OrderOpened e => [oo_user_id e]
  | EngineEvent_OrderCancelled e => [oc_user_id e]
  | EngineEvent_OrderExpired e => [oe_user_id e]
  | EngineEvent_ReservationReleased e => [rrl_user_id e]
  | EngineEvent_TradeExecuted e =>
      te_maker_user_id e :: te_taker_user_id e :: option_list (te_liquidated_user_id e)
        ++ map fd_user_id (te_fee_deltas e)
  | EngineEvent_OrderBookDelta _ | EngineEvent_MarkPriceUpdated _
  | EngineEvent_FundingRateUpdated _ => []
  | EngineEvent_FundingPaymentApplied e => map fp_user_id (fpa_payments e)
  | EngineEvent_PositionChanged e => [pc_user_id e]
  | EngineEvent_RiskStateUpdated e => [rsu_user_id e]
  | EngineEvent_LiquidationStarted e => [ls_user_id e]
  | EngineEvent_LiquidationExecuted e => [le_user_id e]
  | EngineEvent_LiquidationCompleted e => [lc_user_id e]
  | EngineEvent_AdlExecuted e => [adl_liquidated_user_id e; adl_deleveraged_user_id e]
  | EngineEvent_AccountDelta e => [ad_user_id e]
  end.

Lemma account_user_ids_named u event :
  u ∈ engine_event_account_user_ids event <-> u ∈ named_users event.
Proof.
  destruct event as [| | | |e| | | | | | | | | | |]; cbn -[btree_extend btree_insert];
    unfold trade_users, btree_collect;
    try destruct (te_liquidated_user_id e);
    rewrite ?elem_of_btree_extend, ?elem_of_btree_insert, ?elem_of_btree_extend; cbn;
    rewrite ?elem_of_btree_insert, ?elem_of_cons, ?elem_of_nil; tauto.
Qed.

Lemma account_user_ids_sorted event :
  StronglySorted Z.lt (engine_event_account_user_ids event).
Proof.
  destruct event as [| | | |e| | | | | | | | | | |]; cbn -[btree_extend btree_insert];
    try destruct (te_liquidated_user_id e); auto with btree.
Qed.

Lemma sorted_lt_NoDup (l : list Z) : StronglySorted Z.lt l -> NoDup l.
Proof.
  induction 1 as [|x l Hl IH Hx]; constructor; [|done].
  rewrite Forall_forall in Hx. intros Hin%Hx. lia.
Qed.

Section Routing.
Context {Recipient : Type} {SD : Serde} {SDL : SerdeLaws} {WS : WsSerde} {WSL : WsSerdeLaws}.
Context (iter : gset Z -> list Z) (iter_perm : forall X, iter X ≡ₚ elements X).
Context (accepts : list (Attempt Recipient) -> Recipient -> string -> bool).
Implicit Types (st : RouterState Recipient).

Notation pushed := (pushed accepts).

Lemma answered_app log atts1 atts2 :
  answered accepts log atts1 -> answered accepts (log ++ atts1) atts2 ->
  answered accepts log (atts1 ++ atts2).
Proof.
  intros H1 H2 l1 a l2 Heq.
  destruct (app_eq_inv atts1 atts2 l1 (a :: l2) Heq) as [(k & -> & Hk)|(k & -> & Hk)].
  - destruct k as [|b k]; cbn in *.
    + rewrite (H2 [] a l2 (eq_sym Hk)), !app_nil_r. done.
    + injection Hk as <- ->. by rewrite (H1 l1 a k eq_refl).
  - rewrite (H2 k a l2 Hk). by rewrite app_assoc.
Qed.

(** Two pushes of one text to disjoint groups of sessions are one push. *)
Lemma pushed_union (P1 P2 P : SessionHandle Recipient -> Prop) text sessions0 log0 d1 sessions1 log1 atts1
    d2 sessions2 log2 atts2 :
  (forall s, P s <-> P1 s \/ P2 s) -> (forall s, P1 s -> ~ P2 s) ->
  pushed P1 text sessions0 log0 d1 sessions1 log1 atts1 ->
  pushed P2 text sessions1 log1 d2 sessions2 log2 atts2 ->
  pushed P text sessions0 log0 (d1 + d2) sessions2 log2 (atts1 ++ atts2).
Proof.
  intros HP Hdisj [-> Hans1 Hnd1 Ht1 Hr1 -> Hs1] [-> Hans2 Hnd2 Ht2 Hr2 -> Hs2].
  assert (forall sid s, sessions1 !! sid = Some s -> sessions0 !! sid = Some s) as Hsub.
  { intros sid s. rewrite Hs1. by case_bool_decide. }
  split.
  - by rewrite app_assoc.
  - by apply answered_app.
  - rewrite map_app. apply NoDup_app. split; [done|]. split; [|done].
    intros sid (s & Hs & Hp)%Ht1 (s' & Hs'%Hsub & Hp')%Ht2. simplify_eq. by destruct (Hdisj s).
  - intros sid. rewrite map_app, elem_of_app, Ht1, Ht2. split.
    + intros [(s & Hs & Hp)|(s & Hs%Hsub & Hp)]; exists s; (split; [done|]); apply HP; auto.
    + intros (s & Hs & [Hp|Hp]%HP); [by left; eauto|right; exists s; split; [|done]].
      rewrite Hs1, bool_decide_false; [done|]. intros Hin. unfold refused in Hin.
      apply list_elem_of_fmap in Hin as (a & -> & [_ Ha]%list_elem_of_filter).
      destruct (Ht1 (at_session_id a)) as [Hx _].
      destruct Hx as (s' & Hs' & Hp'); [by apply list_elem_of_fmap_2|].
      replace s' with s in Hp' by congruence. by destruct (Hdisj s).
  - intros a [Ha|Ha]%elem_of_app; [by apply Hr1|].
    destruct (Hr2 a Ha) as (? & s & ?%Hsub & ?). eauto.
  - unfold taken. rewrite filter_app, length_app. lia.
  - intros sid. rewrite Hs2, Hs1. unfold refused. rewrite filter_app, map_app.
    repeat case_bool_decide; set_solver.
Qed.

(** Nothing is pushed to a group without sessions. *)
Lemma pushed_none (P : SessionHandle Recipient -> Prop) text sessions log :
  (forall s, ~ P s) -> pushed P text sessions log 0 sessions log [].
Proof.
  intros HP. split; cbn; try done.
  - by rewrite app_nil_r.
  - by intros [].
  - constructor.
  - intros sid. split; [set_solver|]. intros (s & _ & Hs). by destruct (HP s).
  - set_solver.
Qed.

Lemma send_account_run known u src v md st :
  indexed known (rt_hub st) ->
  exists text st1 d atts,
    server_message_to_string (account_event src v md) = Some text /\
    send_account iter accepts u src v md st = (Ok tt, st1) /\
    rt_dedupe st1 = rt_dedupe st /\ indexed known (rt_hub st1) /\
    pushed (fun s => sh_user_id s = u) text (hs_sessions (rt_hub st)) (rt_log st) d
      (hs_sessions (rt_hub st1)) (rt_log st1) atts.
Proof.
  intros Hix. destruct (server_message_total (account_event src v md)) as [text Htext].
  unfold send_account, run_broadcast, broadcast_account. rewrite Htext. cbn.
  destruct (send_to_sessions_locked _ _ _ _ _ _) as [[d hub] log] eqn:Hsend.
  edestruct (pushed_send iter iter_perm accepts (fun s => sh_user_id s = u)) as [atts Hp];
    [|exact Hsend|].
  { intros sid s Hs. change (default ∅ (hs_users (rt_hub st) !! u)) with (under (hs_users (rt_hub st)) u).
    rewrite (ix_users _ _ Hix). naive_solver. }
  exists text, (mkRouterState hub log (rt_dedupe st)), d, atts.
  repeat (split; [done|]). split; [|done]. unfold send_to_sessions_locked in Hsend.
  destruct (foldl _ _ _) as [[stale d'] l'] in Hsend. injection Hsend as <- <- <-.
  by apply indexed_remove_all.
Qed.

Lemma send_market_run known m src v md st :
  indexed known (rt_hub st) ->
  exists text st1 d atts,
    server_message_to_string (market_event m src v md) = Some text /\
    send_market iter accepts m src v md st = (Ok tt, st1) /\
    rt_dedupe st1 = rt_dedupe st /\ indexed known (rt_hub st1) /\
    pushed (fun s => m ∈ sh_markets s) text (hs_sessions (rt_hub st)) (rt_log st) d
      (hs_sessions (rt_hub st1)) (rt_log st1) atts.
Proof.
  intros Hix. destruct (server_message_total (market_event m src v md)) as [text Htext].
  unfold send_market, run_broadcast, broadcast_market. rewrite Htext. cbn.
  destruct (send_to_sessions_locked _ _ _ _ _ _) as [[d hub] log] eqn:Hsend.
  edestruct (pushed_send iter iter_perm accepts (fun s => m ∈ sh_markets s)) as [atts Hp];
    [|exact Hsend|].
  { intros sid s Hs. by apply (ix_markets _ _ Hix). }
  exists text, (mkRouterState hub log (rt_dedupe st)), d, atts.
  repeat (split; [done|]). split; [|done]. unfold send_to_sessions_locked in Hsend.
  destruct (foldl _ _ _) as [[stale d'] l'] in Hsend. injection Hsend as <- <- <-.
  by apply indexed_remove_all.
Qed.

Lemma send_accounts_run known us src v md st :
  NoDup us -> indexed known (rt_hub st) ->
  exists text st1 d atts,
    server_message_to_string (account_event src v md) = Some text /\
    for_each us (fun u => send_account iter accepts u src v md) st = (Ok tt, st1) /\
    rt_dedupe st1 = rt_dedupe st /\ indexed known (rt_hub st1) /\
    pushed (fun s => sh_user_id s ∈ us) text (hs_sessions (rt_hub st)) (rt_log st) d
      (hs_sessions (rt_hub st1)) (rt_log st1) atts.
Proof.
  intros Hnd. revert st. induction Hnd as [|u us Hu Hnd IH]; intros st Hix.
  - destruct (server_message_total (account_event src v md)) as [text Htext].
    exists text, st, 0, []. repeat (split; [done|]). apply pushed_none. set_solver.
  - destruct (send_account_run known u src v md st Hix)
      as (text & st1 & d1 & atts1 & Htext & Hrun1 & Hd1 & Hix1 & Hp1).
    destruct (IH st1 Hix1) as (text' & st2 & d2 & atts2 & Htext' & Hrun2 & Hd2 & Hix2 & Hp2).
    rewrite Htext in Htext'. injection Htext' as <-.
    exists text, st2, (d1 + d2), (atts1 ++ atts2). split; [done|]. split.
    { cbn [for_each]. by rewrite (bind_run _ _ _ _ _ Hrun1). }
    split; [congruence|]. split; [done|].
    refine (pushed_union (fun s => sh_user_id s = u) (fun s => sh_user_id s ∈ us) _ _ _ _ _ _ _ _ _ _ _ _ _ _ Hp1 Hp2).
    + intros s. by rewrite elem_of_cons.
    + intros s ->. done.
Qed.

Lemma process_engine_event_run known event md st v :
  engine_event_to_value event = Some v -> indexed known (rt_hub st) ->
  exists market_id account_text market_text st1 st2 d1 atts1 d2 atts2,
    engine_event_market_id event = Some market_id /\
    server_message_to_string (account_event EventSource_Engine v md) = Some account_text /\
    server_message_to_string (market_event market_id EventSource_Engine v md) = Some market_text /\
    process_engine_event iter accepts event md st = (Ok tt, st2) /\
    pushed (fun s => sh_user_id s ∈ named_users event) account_text
      (hs_sessions (rt_hub st)) (rt_log st) d1 (hs_sessions (rt_hub st1)) (rt_log st1) atts1 /\
    pushed (fun s => market_id ∈ sh_markets s) market_text
      (hs_sessions (rt_hub st1)) (rt_log st1) d2 (hs_sessions (rt_hub st2)) (rt_log st2) atts2 /\
    indexed known (rt_hub st2).
Proof.
  intros Hv Hix. assert (exists m, engine_event_market_id event = Some m) as [m Hm]
    by (destruct event; cbn; eauto).
  destruct (send_accounts_run known (engine_event_account_user_ids event) EventSource_Engine v md st)
    as (at_ & st1 & d1 & atts1 & Hat & Hrun1 & _ & Hix1 & Hp1);
    [apply sorted_lt_NoDup, account_user_ids_sorted|done|].
  destruct (send_market_run known m EventSource_Engine v md st1 Hix1)
    as (mt & st2 & d2 & atts2 & Hmt & Hrun2 & _ & Hix2 & Hp2).
  exists m, at_, mt, st1, st2, d1, atts1, d2, atts2. repeat (split; [done|]). split.
  - unfold process_engine_event. rewrite Hm.
    rewrite (bool_decide_false (Some m = None)) by done. rewrite andb_false_r.
    unfold engine_event_value. rewrite Hv. rewrite (bind_run (lift (ok_or _ (Some v))) _ st v st eq_refl).
    by rewrite (bind_run _ _ _ _ _ Hrun1).
  - split; [|done]. destruct Hp1 as [? ? ? Ht ? ? ?]. split; try done.
    intros sid. rewrite Ht. split; intros (s & ? & ?); exists s; (split; [done|]);
      by apply account_user_ids_named.
Qed.
End Routing.
