(* ===== verification/WsSession.v ===== *)
(** * WsSession: the actor of one websocket connection

    [apps/ws/src/session.rs]: what the actor does with what it receives, and the
    connections of a server as a step relation over the hub they share. An
    actor spawns the calls it makes to the hub as futures of its own: a future
    runs when it gets the hub's lock, and is dropped when the actor stops. *)

From S2P Require Import Prelude Protocol WalletOutbox WsHub.

(** Milliseconds. *)
Definition HEARTBEAT_INTERVAL : Z := 30000.
Definition CLIENT_TIMEOUT : Z := 90000.
Definition MAILBOX_CAPACITY : Z := 1024.

Definition normalize_markets (markets : list Z) : Result string (list Z) :=
  if existsb (fun market_id => market_id <=? 0) markets
  then Err "market ids must be greater than zero"
  else Ok (btree_collect markets).

(** [ws::Message], or the error of a frame that is not one. *)
Inductive Item :=
| Item_Ping (bytes : string)
| Item_Pong (bytes : string)
| Item_Text (text : string)
| Item_Binary (bytes : string)
| Item_Close
| Item_Continuation
| Item_Nop
| Item_Error.

Inductive Frame :=
| Frame_Text (text : string)
| Frame_Ping (bytes : string)
| Frame_Pong (bytes : string)
| Frame_Close.

(** The futures an actor spawns; a registration that has its number waits for
    the lock. *)
Inductive Future :=
| Future_Register
| Future_Registering (session_id : Z)
| Future_Subscribe (session_id : Z) (markets : list Z)
| Future_Unsubscribe (session_id : Z) (markets : list Z).

(** A JSON string needs its quotes. *)
Definition quoted (s : string) : string :=
  let q := String (Ascii.ascii_of_nat 34) EmptyString in q +:+ s +:+ q.
Definition serialize_failure : string :=
  "{" +:+ quoted "type" +:+ ":" +:+ quoted "Error" +:+ "," +:+ quoted "payload" +:+ ":{"
    +:+ quoted "message" +:+ ":" +:+ quoted "failed to serialize server message" +:+ "}}".

Section Session.
Context {SD : Serde} {WS : WsSerde}.

(** The actor and its context. *)
Record WsSession := mkWsSession {
  ses_session_id : option Z;
  ses_user_id : Z;
  ses_username : string;
  ses_heartbeat_at : Z;
  ses_sent : list Frame;
  ses_futures : list Future;
  ses_stopping : bool
}.

Definition WsSession_new (user_id : Z) (username : string) (now : Z) : WsSession :=
  mkWsSession None user_id username now [] [] false.

Definition send_frame (frame : Frame) (self : WsSession) : WsSession :=
  mkWsSession (ses_session_id self) (ses_user_id self) (ses_username self) (ses_heartbeat_at self)
    (ses_sent self ++ [frame]) (ses_futures self) (ses_stopping self).
Definition spawn (future : Future) (self : WsSession) : WsSession :=
  mkWsSession (ses_session_id self) (ses_user_id self) (ses_username self) (ses_heartbeat_at self)
    (ses_sent self) (ses_futures self ++ [future]) (ses_stopping self).
Definition set_futures (futures : list Future) (self : WsSession) : WsSession :=
  mkWsSession (ses_session_id self) (ses_user_id self) (ses_username self) (ses_heartbeat_at self)
    (ses_sent self) futures (ses_stopping self).
Definition set_session_id (session_id : Z) (self : WsSession) : WsSession :=
  mkWsSession (Some session_id) (ses_user_id self) (ses_username self) (ses_heartbeat_at self)
    (ses_sent self) (ses_futures self) (ses_stopping self).
Definition heard (now : Z) (self : WsSession) : WsSession :=
  mkWsSession (ses_session_id self) (ses_user_id self) (ses_username self) now
    (ses_sent self) (ses_futures self) (ses_stopping self).
Definition stop (self : WsSession) : WsSession :=
  mkWsSession (ses_session_id self) (ses_user_id self) (ses_username self) (ses_heartbeat_at self)
    (ses_sent self) (ses_futures self) true.

Definition send_server_message (message : ServerMessage) (self : WsSession) : WsSession :=
  match server_message_to_string message with
  | Some text => send_frame (Frame_Text text) self
  | None => send_frame (Frame_Text serialize_failure) self
  end.

Definition subscribe (markets : list Z) (self : WsSession) : WsSession :=
  match ses_session_id self with
  | None => send_server_message (error "session is not ready") self
  | Some session_id =>
      match normalize_markets markets with
      | Err message => send_server_message (error message) self
      | Ok markets => spawn (Future_Subscribe session_id markets) self
      end
  end.

Definition unsubscribe (markets : list Z) (self : WsSession) : WsSession :=
  match ses_session_id self with
  | None => send_server_message (error "session is not ready") self
  | Some session_id =>
      match normalize_markets markets with
      | Err message => send_server_message (error message) self
      | Ok markets => spawn (Future_Unsubscribe session_id markets) self
      end
  end.

Definition handle_text (text : string) (self : WsSession) : WsSession :=
  match client_message_from_str text with
  | Some (ClientMessage_Subscribe payload) => subscribe (ms_markets payload) self
  | Some (ClientMessage_Unsubscribe payload) => unsubscribe (ms_markets payload) self
  | Some (ClientMessage_Ping payload) => send_server_message (ServerMessage_Pong payload) self
  | None => send_server_message (error "invalid client message") self
  end.

Definition handle_item (now : Z) (item : Item) (self : WsSession) : WsSession :=
  match item with
  | Item_Ping bytes => send_frame (Frame_Pong bytes) (heard now self)
  | Item_Pong _ => heard now self
  | Item_Text text => handle_text text self
  | Item_Binary _ => send_server_message (error "binary messages are not supported") self
  | Item_Close => stop (send_frame Frame_Close self)
  | Item_Continuation =>
      send_server_message (error "continuation messages are not supported") self
  | Item_Nop => self
  | Item_Error => stop self
  end.

Definition handle_push (text : string) (self : WsSession) : WsSession :=
  send_frame (Frame_Text text) self.

Definition heartbeat (now : Z) (self : WsSession) : WsSession :=
  if CLIENT_TIMEOUT <? now - ses_heartbeat_at self then stop self
  else send_frame (Frame_Ping "") self.

Definition started (self : WsSession) : WsSession := spawn Future_Register self.

Definition welcome (self : WsSession) : ServerMessage :=
  ServerMessage_Welcome (mkWelcomePayload (ses_user_id self) (ses_username self)).

(** What a future's continuation does to the actor. *)
Definition registered (session_id : Z) (self : WsSession) : WsSession :=
  send_server_message (welcome self) (set_session_id session_id self).
Definition subscribed (markets : list Z) (self : WsSession) : WsSession :=
  send_server_message (ServerMessage_Subscribed (mkMarketSubscription markets)) self.
Definition unsubscribed (markets : list Z) (self : WsSession) : WsSession :=
  send_server_message (ServerMessage_Unsubscribed (mkMarketSubscription markets)) self.

(** ** The connections of a server

    An actor's address is its recipient, and no two actors ever have the same;
    the tasks are the unregistrations that stopped actors left behind. *)
Variable iter : gset Z -> list Z.
Variable accepts : list (Attempt Z) -> Z -> string -> bool.

Record Server := mkServer {
  sv_hub : Hub Z;
  sv_actors : gmap Z WsSession;
  sv_tasks : list Z;
  sv_addresses : gset Z
}.

Definition stopped (self : WsSession) (tasks : list Z) : list Z :=
  match ses_session_id self with
  | None => tasks
  | Some session_id => tasks ++ [session_id]
  end.

Definition Server_default : Server := mkServer Hub_default ∅ [] ∅.

Inductive server_step : Server -> Server -> Prop :=
| server_connect hub actors tasks used a user_id username now :
    a ∉ used ->
    server_step (mkServer hub actors tasks used)
      (mkServer hub (<[a := started (WsSession_new user_id username now)]> actors) tasks
        ({[a]} ∪ used))
| server_item hub actors tasks used a self now item :
    actors !! a = Some self ->
    server_step (mkServer hub actors tasks used)
      (mkServer hub (<[a := handle_item now item self]> actors) tasks used)
| server_heartbeat hub actors tasks used a self now :
    actors !! a = Some self ->
    server_step (mkServer hub actors tasks used)
      (mkServer hub (<[a := heartbeat now self]> actors) tasks used)
(** A push a mailbox took reaches its actor. *)
| server_push hub actors tasks used a self p :
    actors !! a = Some self -> p ∈ hub_log hub -> at_recipient p = a -> at_accepted p = true ->
    server_step (mkServer hub actors tasks used)
      (mkServer hub (<[a := handle_push (at_text p) self]> actors) tasks used)
(** [Hub::register]: its number first, then the lock. *)
| server_fetch_add hub actors tasks used a self fs1 fs2 :
    actors !! a = Some self -> ses_futures self = fs1 ++ Future_Register :: fs2 ->
    server_step (mkServer hub actors tasks used)
      (mkServer
        (mkHub (hub_inner hub) (u64_wrap (hub_next_session_id hub + 1))
          ({[hub_next_session_id hub]} ∪ hub_registering hub) (hub_log hub))
        (<[a := set_futures (fs1 ++ Future_Registering (hub_next_session_id hub) :: fs2) self]> actors)
        tasks used)
| server_register hub actors tasks used a self fs1 session_id fs2 :
    actors !! a = Some self -> ses_futures self = fs1 ++ Future_Registering session_id :: fs2 ->
    server_step (mkServer hub actors tasks used)
      (mkServer
        (mkHub (register_session session_id (ses_user_id self) a (hub_inner hub))
          (hub_next_session_id hub) (hub_registering hub ∖ {[session_id]}) (hub_log hub))
        (<[a := registered session_id (set_futures (fs1 ++ fs2) self)]> actors) tasks used)
| server_subscribe hub actors tasks used a self fs1 session_id markets fs2 :
    actors !! a = Some self ->
    ses_futures self = fs1 ++ Future_Subscribe session_id markets :: fs2 ->
    server_step (mkServer hub actors tasks used)
      (mkServer (set_inner (subscribe_markets session_id markets (hub_inner hub)) hub)
        (<[a := subscribed markets (set_futures (fs1 ++ fs2) self)]> actors) tasks used)
| server_unsubscribe hub actors tasks used a self fs1 session_id markets fs2 :
    actors !! a = Some self ->
    ses_futures self = fs1 ++ Future_Unsubscribe session_id markets :: fs2 ->
    server_step (mkServer hub actors tasks used)
      (mkServer (set_inner (unsubscribe_markets session_id markets (hub_inner hub)) hub)
        (<[a := unsubscribed markets (set_futures (fs1 ++ fs2) self)]> actors) tasks used)
(** An actor stops, by itself or because its connection is gone. *)
| server_stopped hub actors tasks used a self :
    actors !! a = Some self ->
    server_step (mkServer hub actors tasks used)
      (mkServer hub (delete a actors) (stopped self tasks) used)
| server_unregister hub actors tasks1 session_id tasks2 used :
    server_step (mkServer hub actors (tasks1 ++ session_id :: tasks2) used)
      (mkServer (set_inner (unregister iter session_id (hub_inner hub)) hub) actors
        (tasks1 ++ tasks2) used)
| server_broadcast hub actors tasks used sessions text delivered state log :
    (exists user_id, sessions = default ∅ (hs_users (hub_inner hub) !! user_id)) \/
    (exists market_id, sessions = default ∅ (hs_markets (hub_inner hub) !! market_id)) ->
    send_to_sessions_locked iter accepts (hub_inner hub) sessions text (hub_log hub) =
      (delivered, state, log) ->
    server_step (mkServer hub actors tasks used)
      (mkServer (mkHub state (hub_next_session_id hub) (hub_registering hub) log) actors tasks used).
End Session.
