(* ===== verification/WsSessionTheorems.v ===== *)
(** * WsSessionTheorems: connections drive the hub the way it expects

    Every run of the server is, seen from the hub, a run of the hub; and a
    session of the hub belongs to the connection that registered it. *)

From S2P Require Import Prelude Protocol WalletOutbox WsHub WsHubTheorems WsSession.

(** ** Hub operations keep the owner of a session *)

Section Owners.
Context {Recipient : Type} (iter : gset Z -> list Z) (iter_perm : forall X, iter X ≡ₚ elements X).
Context (accepts : list (Attempt Recipient) -> Recipient -> string -> bool).
Implicit Types (state : HubState Recipient).

(** The sessions of [state'] are sessions of [state], with the same owner. *)
Definition same_owners state state' : Prop :=
  forall sid s', hs_sessions state' !! sid = Some s' ->
    exists s, hs_sessions state !! sid = Some s /\
      sh_user_id s = sh_user_id s' /\ sh_recipient s = sh_recipient s'.

Lemma same_owners_refl state : same_owners state state.
Proof. intros sid s. eauto. Qed.

Lemma same_owners_trans state1 state2 state3 :
  same_owners state1 state2 -> same_owners state2 state3 -> same_owners state1 state3.
Proof.
  intros H1 H2 sid s3 (s2 & (s1 & ? & ? & ?)%H1 & ? & ?)%H2. exists s1. repeat split; congruence.
Qed.

Lemma same_owners_update f sid state index :
  same_owners state
    (mkHubState (update_session_markets f sid (hs_sessions state)) (hs_users state) index).
Proof.
  intros sid' s'. cbn. rewrite lookup_update_markets. case_bool_decide; [|by eauto].
  intros (s & Hs & ->)%fmap_Some. eauto.
Qed.

Lemma same_owners_subscribe sid ms state : same_owners state (subscribe_markets sid ms state).
Proof.
  unfold subscribe_markets. revert state. induction ms as [|m ms IH]; intros state;
    [apply same_owners_refl|]. eapply same_owners_trans; [apply same_owners_update|apply IH].
Qed.

Lemma same_owners_unsubscribe sid ms state : same_owners state (unsubscribe_markets sid ms state).
Proof.
  unfold unsubscribe_markets. revert state. induction ms as [|m ms IH]; intros state;
    [apply same_owners_refl|]. eapply same_owners_trans; [apply same_owners_update|apply IH].
Qed.

Lemma same_owners_remove_all stale state :
  same_owners state (foldl (remove_session_locked iter) state stale).
Proof. intros sid s. rewrite (sessions_remove_all iter iter_perm). case_bool_decide; [done|]. intros Hs. by exists s. Qed.

Lemma same_owners_send state ids text log d state' log' :
  send_to_sessions_locked iter accepts state ids text log = (d, state', log') ->
  same_owners state state'.
Proof.
  unfold send_to_sessions_locked. destruct (foldl _ _ _) as [[stale d'] l'].
  intros [= <- <- <-]. apply same_owners_remove_all.
Qed.
End Owners.

Section Server.
Context {SD : Serde} {WS : WsSerde}.
Context (iter : gset Z -> list Z) (iter_perm : forall X, iter X ≡ₚ elements X).
Context (accepts : list (Attempt Z) -> Z -> string -> bool).
Implicit Types (hub : Hub Z) (self : WsSession) (s : Server).

(** ** The phases of an actor *)

(** A future that changes the markets of one session. *)
Definition markets_future (session_id : Z) (f : Future) : Prop :=
  exists ms, f = Future_Subscribe session_id ms \/ f = Future_Unsubscribe session_id ms.

(** It asks for a number, waits for the lock with one, or is registered. *)
Inductive phase hub self : Prop :=
| phase_new :
    ses_session_id self = None -> ses_futures self = [Future_Register] -> phase hub self
| phase_registering sid :
    ses_session_id self = None -> ses_futures self = [Future_Registering sid] ->
    sid ∈ hub_registering hub -> phase hub self
| phase_registered sid :
    ses_session_id self = Some sid -> registered_id hub sid ->
    Forall (markets_future sid) (ses_futures self) -> phase hub self.

(** The number an actor has, if it has one already. *)
Definition number_of self : option Z :=
  match ses_session_id self, ses_futures self with
  | Some sid, _ => Some sid
  | None, [Future_Registering sid] => Some sid
  | None, _ => None
  end.

(** [self'] is [self] after it sent frames and spawned changes of its markets,
    or finished some. *)
Definition evolves self self' : Prop :=
  ses_session_id self' = ses_session_id self /\ ses_user_id self' = ses_user_id self /\
  (ses_futures self' = ses_futures self \/
   exists sid, ses_session_id self = Some sid /\
     (Forall (markets_future sid) (ses_futures self) -> Forall (markets_future sid) (ses_futures self'))).

Lemma evolves_trans self1 self2 self3 :
  evolves self1 self2 -> evolves self2 self3 -> evolves self1 self3.
Proof.
  intros (Hs1 & Hu1 & Hf1) (Hs2 & Hu2 & Hf2). split; [congruence|]. split; [congruence|].
  destruct Hf1 as [Hf1|(sid & Hs & Hf1)], Hf2 as [Hf2|(sid' & Hs' & Hf2)].
  - left. congruence.
  - right. exists sid'. rewrite <- Hs1, <- Hf1. auto.
  - right. exists sid. rewrite Hf2. auto.
  - right. exists sid. replace sid' with sid in * by congruence. auto.
Qed.

Lemma evolves_phase hub self self' : phase hub self -> evolves self self' -> phase hub self'.
Proof.
  intros Hp (Hs & _ & Hf). destruct Hp as [Hn Hr|sid Hn Hr Hi|sid Hn Hr Hfs].
  - apply phase_new; [congruence|]. destruct Hf as [->|(? & ? & _)]; congruence.
  - eapply phase_registering; [congruence| |exact Hi]. destruct Hf as [->|(? & ? & _)]; congruence.
  - apply (phase_registered _ _ sid); [congruence|done|]. destruct Hf as [->|(sid' & Hs' & Hf)]; [done|].
    replace sid' with sid in * by congruence. auto.
Qed.

Lemma evolves_number hub self self' :
  phase hub self -> evolves self self' -> number_of self' = number_of self.
Proof.
  intros Hp (Hs & _ & Hf). unfold number_of. rewrite Hs.
  destruct (ses_session_id self) eqn:E; [done|]. destruct Hf as [->|(? & ? & _)]; congruence.
Qed.

Lemma evolves_refl self : evolves self self.
Proof. split; [done|]. split; [done|]. by left. Qed.

Lemma evolves_frame f self self' : evolves self self' -> evolves self (send_frame f self').
Proof. done. Qed.
Lemma evolves_heard now self self' : evolves self self' -> evolves self (heard now self').
Proof. done. Qed.
Lemma evolves_stop self self' : evolves self self' -> evolves self (stop self').
Proof. done. Qed.
Lemma evolves_message m self self' : evolves self self' -> evolves self (send_server_message m self').
Proof. unfold send_server_message. by destruct (server_message_to_string m). Qed.
Lemma evolves_spawn sid f self :
  ses_session_id self = Some sid -> markets_future sid f -> evolves self (spawn f self).
Proof.
  intros Hs Hf. split; [done|]. split; [done|]. right. exists sid. split; [done|].
  intros Hfs. apply Forall_app. auto.
Qed.

Hint Resolve evolves_refl evolves_frame evolves_heard evolves_stop evolves_message : core.

Lemma evolves_item now item self : evolves self (handle_item now item self).
Proof.
  destruct item as [| |text| | | | |]; cbn; auto. unfold handle_text.
  destruct (client_message_from_str text) as [[[ms]|[ms]|p]|]; cbn; auto;
    unfold subscribe, unsubscribe; destruct (ses_session_id self) as [sid|] eqn:Hs; auto;
    destruct (normalize_markets ms); auto;
    eapply evolves_spawn; unfold markets_future; eauto.
Qed.

Lemma evolves_heartbeat now self : evolves self (heartbeat now self).
Proof. unfold heartbeat. case_if; auto. Qed.

(** A future that is over is dropped. *)
Lemma evolves_finished sid f fs1 fs2 self :
  ses_session_id self = Some sid -> ses_futures self = fs1 ++ f :: fs2 ->
  evolves self (set_futures (fs1 ++ fs2) self).
Proof.
  intros Hs Hf. split; [done|]. split; [done|]. right. exists sid. split; [done|]. cbn.
  rewrite Hf, !Forall_app, Forall_cons. tauto.
Qed.

(** ** The invariant *)

Record server_ok s : Prop := {
  so_actor a self : sv_actors s !! a = Some self -> a ∈ sv_addresses s /\ phase (sv_hub s) self;
  so_numbers a1 a2 self1 self2 sid :
    sv_actors s !! a1 = Some self1 -> sv_actors s !! a2 = Some self2 ->
    number_of self1 = Some sid -> number_of self2 = Some sid -> a1 = a2;
  so_owner sid h :
    hs_sessions (hub_inner (sv_hub s)) !! sid = Some h ->
    sh_recipient h ∈ sv_addresses s /\
    forall self, sv_actors s !! sh_recipient h = Some self ->
      ses_session_id self = Some sid /\ ses_user_id self = sh_user_id h;
  so_tasks : Forall (registered_id (sv_hub s)) (sv_tasks s)
}.

Lemma server_ok_default : server_ok Server_default.
Proof.
  split; cbn.
  - intros a self Ha. by rewrite lookup_empty in Ha.
  - intros a1 a2 self1 self2 sid Ha. by rewrite lookup_empty in Ha.
  - intros sid h Hh. by rewrite lookup_empty in Hh.
  - constructor.
Qed.

Lemma server_ok_actor hub actors tasks used a self self' :
  actors !! a = Some self -> evolves self self' ->
  server_ok (mkServer hub actors tasks used) ->
  server_ok (mkServer hub (<[a := self']> actors) tasks used).
Proof.
  intros Ha Hev [Hactor Hnum Howner Htasks]. cbn in *. split; cbn; [..|done].
  - intros a' self1 [[<- <-]|[_ H1]]%lookup_insert_Some; [|by apply Hactor].
    destruct (Hactor a self Ha). eauto using evolves_phase.
  - assert (forall a' self1, <[a:=self']> actors !! a' = Some self1 ->
      exists self0, actors !! a' = Some self0 /\ number_of self1 = number_of self0) as Hback.
    { intros a' self1 [[<- <-]|[_ H1]]%lookup_insert_Some; [|by eauto].
      exists self. split; [done|]. destruct (Hactor a self Ha). by eapply evolves_number. }
    intros a1 a2 self1 self2 sid (s1 & H1 & ->)%Hback (s2 & H2 & ->)%Hback. by eapply Hnum.
  - intros sid h Hh. destruct (Howner sid h Hh) as [Hu Ho]. split; [done|].
    intros self1 [[Heq <-]|[_ H1]]%lookup_insert_Some; [|by apply Ho].
    destruct Hev as (-> & -> & _). apply Ho. by rewrite <- Heq.
Qed.

(** The hub changes and keeps its numbers; the tasks are among those there were. *)
Lemma server_ok_hub hub hub' actors tasks tasks' used :
  same_owners (hub_inner hub) (hub_inner hub') ->
  hub_next_session_id hub' = hub_next_session_id hub ->
  hub_registering hub' = hub_registering hub -> tasks' ⊆ tasks ->
  server_ok (mkServer hub actors tasks used) -> server_ok (mkServer hub' actors tasks' used).
Proof.
  intros Hsame Hn Hr Hsub [Hactor Hnum Howner Htasks]. cbn in *.
  assert (forall sid, registered_id hub sid -> registered_id hub' sid) as Hreg
    by (unfold registered_id; by rewrite Hn, Hr).
  split; cbn; [|done|..].
  - intros a self [Hu Hp]%Hactor. split; [done|].
    destruct Hp; [by apply phase_new|eapply phase_registering; eauto; by rewrite Hr|].
    eapply phase_registered; eauto.
  - intros sid h (h0 & Hh0 & Hu & Hrec)%Hsame. rewrite <- Hu, <- Hrec. by apply Howner.
  - apply Forall_forall. intros sid Hin%Hsub. rewrite Forall_forall in Htasks. auto.
Qed.

Lemma phase_number n hub self sid :
  hub_ok n hub -> phase hub self -> number_of self = Some sid ->
  1 <= sid < hub_next_session_id hub.
Proof.
  intros [_ Hreg _] Hp. unfold number_of. destruct Hp as [-> -> | x -> -> Hx | x -> [Hx _] _].
  - done.
  - intros [= <-]. by apply Hreg.
  - by intros [= <-].
Qed.

(** An actor that asks for its number does nothing else yet. *)
Lemma phase_register_inv hub self fs1 fs2 :
  phase hub self -> ses_futures self = fs1 ++ Future_Register :: fs2 ->
  fs1 = [] /\ fs2 = [] /\ ses_session_id self = None.
Proof.
  intros Hp Hf. destruct Hp as [Hn Hr|sid Hn Hr _|sid _ _ Hfs].
  - rewrite Hr in Hf. by destruct fs1 as [|f [|]]; simplify_list_eq.
  - rewrite Hr in Hf. by destruct fs1 as [|f [|]]; simplify_list_eq.
  - rewrite Hf, Forall_app, Forall_cons in Hfs. by destruct Hfs as (_ & (ms & [?|?]) & _).
Qed.

Lemma phase_registering_inv hub self fs1 sid fs2 :
  phase hub self -> ses_futures self = fs1 ++ Future_Registering sid :: fs2 ->
  fs1 = [] /\ fs2 = [] /\ ses_session_id self = None /\ sid ∈ hub_registering hub.
Proof.
  intros Hp Hf. destruct Hp as [Hn Hr|x Hn Hr Hx|x _ _ Hfs].
  - rewrite Hr in Hf. by destruct fs1 as [|f [|]]; simplify_list_eq.
  - rewrite Hr in Hf. by destruct fs1 as [|f [|]]; simplify_list_eq.
  - rewrite Hf, Forall_app, Forall_cons in Hfs. by destruct Hfs as (_ & (ms & [?|?]) & _).
Qed.

Lemma phase_markets_inv hub self fs1 f sid fs2 :
  phase hub self -> ses_futures self = fs1 ++ f :: fs2 -> markets_future sid f ->
  ses_session_id self = Some sid /\ registered_id hub sid.
Proof.
  intros Hp Hf (ms & Hms). destruct Hp as [Hn Hr|x Hn Hr Hx|x Hs Hk Hfs].
  - rewrite Hr in Hf. destruct Hms as [-> | ->]; by destruct fs1 as [|g [|]]; simplify_list_eq.
  - rewrite Hr in Hf. destruct Hms as [-> | ->]; by destruct fs1 as [|g [|]]; simplify_list_eq.
  - rewrite Hf, Forall_app, Forall_cons in Hfs. destruct Hfs as (_ & (ms' & Hms') & _).
    assert (x = sid) as -> by (destruct Hms as [-> | ->], Hms' as [[=]|[=]]; done). done.
Qed.

Lemma server_ok_fetch_add n hub actors tasks used a self :
  hub_ok n hub -> hub_next_session_id hub + 1 < 2 ^ 64 ->
  actors !! a = Some self -> ses_futures self = [Future_Register] -> ses_session_id self = None ->
  server_ok (mkServer hub actors tasks used) ->
  server_ok
    (mkServer
      (mkHub (hub_inner hub) (u64_wrap (hub_next_session_id hub + 1))
        ({[hub_next_session_id hub]} ∪ hub_registering hub) (hub_log hub))
      (<[a := set_futures [Future_Registering (hub_next_session_id hub)] self]> actors) tasks used).
Proof.
  intros Hok Hwrap Ha Hf Hs [Hactor Hnum Howner Htasks]. cbn in *.
  pose proof (ok_next _ _ Hok) as Hnext.
  assert (u64_wrap (hub_next_session_id hub + 1) = hub_next_session_id hub + 1) as ->
    by (apply Z.mod_small; lia).
  assert (forall sid, registered_id hub sid ->
    registered_id (mkHub (hub_inner hub) (hub_next_session_id hub + 1)
      ({[hub_next_session_id hub]} ∪ hub_registering hub) (hub_log hub)) sid) as Hreg.
  { intros sid [? ?]. split; cbn; [lia|]. intros [->%elem_of_singleton|?]%elem_of_union; [lia|done]. }
  assert (forall a' self' sid, actors !! a' = Some self' -> number_of self' = Some sid ->
    sid <> hub_next_session_id hub) as Hfresh.
  { intros a' self' sid [_ Hp]%Hactor Hx. pose proof (phase_number _ _ _ _ Hok Hp Hx). lia. }
  split; cbn.
  - intros a' self' [[<- <-]|[_ H']]%lookup_insert_Some.
    + destruct (Hactor a self Ha) as [? _]. split; [done|].
      eapply phase_registering; cbn; [done|done|]. set_solver.
    + destruct (Hactor a' self' H') as [? [? ?|x ? ? ?|x ? ? ?]]; (split; [done|]).
      * by apply phase_new.
      * eapply phase_registering; [done|done|]. cbn. set_solver.
      * eapply phase_registered; eauto.
  - assert (number_of (set_futures [Future_Registering (hub_next_session_id hub)] self)
      = Some (hub_next_session_id hub)) as Hnew by (unfold number_of; cbn; by rewrite Hs).
    intros a1 a2 self1 self2 sid [[<- <-]|[? H1]]%lookup_insert_Some
      [[<- <-]|[? H2]]%lookup_insert_Some Hn1 Hn2; [done|..|by eapply Hnum].
    + destruct (Hfresh _ _ _ H2 Hn2). congruence.
    + destruct (Hfresh _ _ _ H1 Hn1). congruence.
  - intros sid h Hh. destruct (Howner sid h Hh) as [? Ho]. split; [done|].
    intros self' [[Heq <-]|[_ H']]%lookup_insert_Some; [|by apply Ho].
    cbn. apply Ho. by rewrite <- Heq.
  - eapply Forall_impl; [exact Htasks|exact Hreg].
Qed.

Lemma server_ok_register hub actors tasks used a self sid :
  actors !! a = Some self -> ses_futures self = [Future_Registering sid] ->
  ses_session_id self = None -> 1 <= sid < hub_next_session_id hub ->
  server_ok (mkServer hub actors tasks used) ->
  server_ok
    (mkServer
      (mkHub (register_session sid (ses_user_id self) a (hub_inner hub))
        (hub_next_session_id hub) (hub_registering hub ∖ {[sid]}) (hub_log hub))
      (<[a := set_session_id sid (set_futures [] self)]> actors) tasks used).
Proof.
  intros Ha Hf Hs Hsid [Hactor Hnum Howner Htasks]. cbn in *.
  assert (number_of self = Some sid) as Hself by (unfold number_of; by rewrite Hs, Hf).
  assert (forall x, registered_id hub x ->
    registered_id (mkHub (register_session sid (ses_user_id self) a (hub_inner hub))
      (hub_next_session_id hub) (hub_registering hub ∖ {[sid]}) (hub_log hub)) x) as Hreg.
  { intros x [? ?]. split; cbn; [lia|set_solver]. }
  split; cbn.
  - intros a' self' [[<- <-]|[Hne H']]%lookup_insert_Some.
    + destruct (Hactor a self Ha) as [? _]. split; [done|].
      apply (phase_registered _ _ sid); cbn; [done|split; cbn; [lia|set_solver]|constructor].
    + destruct (Hactor a' self' H') as [? [? ?|x Hsx Hfx ?|x ? ? ?]]; (split; [done|]).
      * by apply phase_new.
      * eapply phase_registering; [done|done|]. cbn. apply elem_of_difference. split; [done|].
        intros ->%elem_of_singleton. destruct Hne. eapply Hnum; [exact Ha|exact H'|done|].
        unfold number_of. by rewrite Hsx, Hfx.
      * eapply phase_registered; eauto.
  - assert (forall a' self', <[a:=set_session_id sid (set_futures [] self)]> actors !! a' = Some self' ->
      exists self0, actors !! a' = Some self0 /\ number_of self' = number_of self0) as Hback.
    { intros a' self' [[<- <-]|[_ H']]%lookup_insert_Some; [|by eauto]. exists self. by rewrite Hself. }
    intros a1 a2 self1 self2 x (s1 & H1 & ->)%Hback (s2 & H2 & ->)%Hback. by eapply Hnum.
  - intros x h [[<- <-]|[Hne Hh]]%lookup_insert_Some; cbn.
    + split; [by apply (Hactor a self)|]. intros self'. rewrite lookup_insert_eq. by intros [= <-].
    + destruct (Howner x h Hh) as [? Ho]. split; [done|].
      intros self' [[Heq <-]|[_ H']]%lookup_insert_Some; [|by apply Ho].
      rewrite Heq in Ha. destruct (Ho self Ha) as [Hx _]. congruence.
  - eapply Forall_impl; [exact Htasks|exact Hreg].
Qed.

Lemma server_ok_connect hub actors tasks used a user_id username now :
  a ∉ used -> server_ok (mkServer hub actors tasks used) ->
  server_ok (mkServer hub (<[a := started (WsSession_new user_id username now)]> actors) tasks
    ({[a]} ∪ used)).
Proof.
  intros Ha [Hactor Hnum Howner Htasks]. cbn in *. split; cbn; [..|done].
  - intros a' self' [[<- <-]|[_ H']]%lookup_insert_Some.
    + split; [set_solver|]. by apply phase_new.
    + destruct (Hactor a' self' H'). split; [set_solver|done].
  - intros a1 a2 self1 self2 sid [[<- <-]|[? H1]]%lookup_insert_Some
      [[<- <-]|[? H2]]%lookup_insert_Some; try discriminate. by eapply Hnum.
  - intros sid h Hh. destruct (Howner sid h Hh) as [? Ho]. split; [set_solver|].
    intros self' [[Heq <-]|[_ H']]%lookup_insert_Some; [|by apply Ho]. congruence.
Qed.

Lemma server_ok_stopped hub actors tasks used a self :
  actors !! a = Some self -> server_ok (mkServer hub actors tasks used) ->
  server_ok (mkServer hub (delete a actors) (stopped self tasks) used).
Proof.
  intros Ha [Hactor Hnum Howner Htasks]. cbn in *. split; cbn.
  - intros a' self' [_ H']%lookup_delete_Some. by apply Hactor.
  - intros a1 a2 self1 self2 sid [_ H1]%lookup_delete_Some [_ H2]%lookup_delete_Some.
    by eapply Hnum.
  - intros sid h Hh. destruct (Howner sid h Hh) as [? Ho]. split; [done|].
    intros self' [_ H']%lookup_delete_Some. by apply Ho.
  - unfold stopped. destruct (Hactor a self Ha) as [_ [Hs _|x Hs _ _|x Hs Hx _]]; rewrite Hs; [done..|].
    apply Forall_app. auto.
Qed.

(** ** Every step of the server is a step of the hub, or none *)

Lemma server_step_ok n s s' :
  hub_ok n (sv_hub s) -> Z.of_nat (S n) < 2 ^ 64 - 1 ->
  server_ok s -> server_step iter accepts s s' ->
  server_ok s' /\ (sv_hub s' = sv_hub s \/ hub_step iter accepts (sv_hub s) (sv_hub s')).
Proof.
  intros Hhub Hn Hok Hstep. pose proof (ok_next _ _ Hhub) as Hnext.
  destruct Hstep as [hub actors tasks used a u name now Ha|hub actors tasks used a self now item Ha
    |hub actors tasks used a self now Ha|hub actors tasks used a self p Ha _ _ _
    |hub actors tasks used a self fs1 fs2 Ha Hf|hub actors tasks used a self fs1 sid fs2 Ha Hf
    |hub actors tasks used a self fs1 sid ms fs2 Ha Hf|hub actors tasks used a self fs1 sid ms fs2 Ha Hf
    |hub actors tasks used a self Ha|hub actors tasks1 sid tasks2 used
    |hub actors tasks used ids text d state log Hids Hsend]; cbn in *.
  - split; [by apply server_ok_connect|by left].
  - split; [|by left]. eapply server_ok_actor; eauto using evolves_item.
  - split; [|by left]. eapply server_ok_actor; eauto using evolves_heartbeat.
  - split; [|by left]. eapply server_ok_actor; [done| |done]. apply evolves_frame, evolves_refl.
  - destruct (so_actor _ Hok a self Ha) as [_ Hp]. cbn in Hp.
    destruct (phase_register_inv _ _ _ _ Hp Hf) as (-> & -> & Hs).
    split; [|right; constructor]. eapply server_ok_fetch_add; eauto. lia.
  - destruct (so_actor _ Hok a self Ha) as [_ Hp]. cbn in Hp.
    destruct (phase_registering_inv _ _ _ _ _ Hp Hf) as (-> & -> & Hs & Hin).
    split; [|right; by apply hub_register].
    pose proof (server_ok_register hub actors tasks used a self sid Ha Hf Hs
      (ok_registering _ _ Hhub _ Hin) Hok) as Hok'.
    assert (evolves (set_session_id sid (set_futures [] self)) (registered sid (set_futures [] self)))
      as Hev by apply evolves_message, evolves_refl.
    rewrite <- (insert_insert_eq actors a _ (set_session_id sid (set_futures [] self))).
    eapply server_ok_actor; [apply lookup_insert_eq|exact Hev|exact Hok'].
  - destruct (so_actor _ Hok a self Ha) as [_ Hp]. cbn in Hp.
    destruct (phase_markets_inv _ _ _ _ sid _ Hp Hf) as [Hs Hreg]; [exists ms; auto|].
    split; [|right; by apply hub_subscribe].
    eapply server_ok_actor; [exact Ha|eapply evolves_message, evolves_finished; eauto|].
    eapply (server_ok_hub hub _ _ tasks); [|done..|exact Hok]. apply same_owners_subscribe.
  - destruct (so_actor _ Hok a self Ha) as [_ Hp]. cbn in Hp.
    destruct (phase_markets_inv _ _ _ _ sid _ Hp Hf) as [Hs Hreg]; [exists ms; auto|].
    split; [|right; by apply hub_unsubscribe].
    eapply server_ok_actor; [exact Ha|eapply evolves_message, evolves_finished; eauto|].
    eapply (server_ok_hub hub _ _ tasks); [|done..|exact Hok]. apply same_owners_unsubscribe.
  - split; [by eapply server_ok_stopped|by left].
  - pose proof (so_tasks _ Hok) as Ht. cbn in Ht. rewrite Forall_app, Forall_cons in Ht.
    split; [|right; apply hub_unregister; tauto].
    eapply (server_ok_hub hub); [|done..| |exact Hok]; [|set_solver].
    by apply (same_owners_remove_all iter iter_perm [sid]).
  - split; [|right; by eapply hub_broadcast].
    eapply (server_ok_hub hub _ _ tasks); [|done..|exact Hok]. by eapply same_owners_send.
Qed.

Lemma server_reachable n s :
  Z.of_nat n < 2 ^ 64 - 1 -> nsteps (server_step iter accepts) n Server_default s ->
  server_ok s /\ exists k, (k <= n)%nat /\ nsteps (hub_step iter accepts) k Hub_default (sv_hub s).
Proof.
  revert s. induction n as [|n IH]; intros s Hn Hs.
  - inversion Hs; subst. split; [apply server_ok_default|]. exists O. split; [done|constructor].
  - apply nsteps_inv_r in Hs as (s1 & Hs & Hstep). destruct (IH s1) as (Hok & k & Hk & Hrun); [lia|done|].
    destruct (server_step_ok k s1 s) as [Hok' Hhub]; [|lia|done..|].
    { eapply hub_ok_reachable; [exact iter_perm|lia|exact Hrun]. }
    split; [done|]. destruct Hhub as [->|Hhub]; [exists k; split; [lia|done]|].
    exists (S k). split; [lia|]. by eapply nsteps_r.
Qed.
End Server.
