(* ===== verification/WsClaims.v ===== *)
(** * WsClaims: what the websocket service promises

    Theorems about runs of the server of [WsSession] and about the router of
    [WsRouter], each with an example run. *)

From S2P Require Import Prelude Protocol WalletOutbox WsHub WsHubTheorems WsRouter WsRouterTheorems WsSession WsSessionTheorems.

(** ** The hub under the connections of a server *)

Section Server.
Context {SD : Serde} {WS : WsSerde}.
Context (iter : gset Z -> list Z) (iter_perm : forall X, iter X ≡ₚ elements X).
Context (accepts : list (Attempt Z) -> Z -> string -> bool).

(** Claim C21. However connections come, talk, stop and are pushed to, the
    hub sees only operations it expects (ids it gave out itself, once each). Its user
    index lists under each user exactly the live sessions of that user; its market
    index has every live session under exactly the markets it listens to; and neither
    keeps a key without a session. (Under a market the index may besides list sessions
    the hub has dropped: [dropped_session_leaks] below shows one.) *)
Theorem hub_indexes_exact n s :
  Z.of_nat n < 2 ^ 64 - 1 ->
  nsteps (server_step iter accepts) n Server_default s ->
  let state := hub_inner (sv_hub s) in
  (exists k, (k <= n)%nat /\ nsteps (hub_step iter accepts) k Hub_default (sv_hub s)) /\
  (forall u sid, sid ∈ under (hs_users state) u <->
     exists h, hs_sessions state !! sid = Some h /\ sh_user_id h = u) /\
  (forall m sid h, hs_sessions state !! sid = Some h ->
     sid ∈ under (hs_markets state) m <-> m ∈ sh_markets h) /\
  (forall k, hs_users state !! k <> Some ∅) /\ (forall k, hs_markets state !! k <> Some ∅).
Proof.
  intros Hn Hs state.
  destruct (server_reachable iter iter_perm accepts n s Hn Hs) as (_ & k & Hk & Hrun).
  assert (hub_ok k (sv_hub s)) as Hok by (eapply hub_ok_reachable; eauto; lia).
  destruct (ok_indexed _ _ Hok). split; [by exists k|]. auto.
Qed.

(** Claim C22. An account message for a user is pushed exactly once to each
    live session of that user and to nobody else: a connection that receives it
    was authenticated as that user. A session whose mailbox refuses it is dropped
    from the hub, every other one stays. *)
Theorem account_broadcast_isolated n s u message text :
  Z.of_nat n < 2 ^ 64 - 1 ->
  nsteps (server_step iter accepts) n Server_default s ->
  server_message_to_string message = Some text ->
  let hub := sv_hub s in
  exists delivered state log atts,
    broadcast_account iter accepts u message (hub_inner hub) (hub_log hub) =
      Some (delivered, state, log) /\
    pushed accepts (fun h => sh_user_id h = u) text (hs_sessions (hub_inner hub)) (hub_log hub)
      delivered (hs_sessions state) log atts /\
    forall p self, p ∈ atts -> sv_actors s !! at_recipient p = Some self ->
      ses_user_id self = u /\ ses_session_id self = Some (at_session_id p).
Proof.
  intros Hn Hs Htext hub.
  destruct (server_reachable iter iter_perm accepts n s Hn Hs) as (Hok & k & Hk & Hrun).
  assert (hub_ok k hub) as [_ _ Hix] by (eapply hub_ok_reachable; eauto; lia).
  unfold broadcast_account. rewrite Htext. cbn.
  destruct (send_to_sessions_locked _ _ _ _ _ _) as [[d state] log] eqn:Hsend.
  edestruct (pushed_send iter iter_perm accepts (fun h => sh_user_id h = u)) as [atts Hp];
    [|exact Hsend|].
  { intros sid h Hh. change (default ∅ (hs_users (hub_inner hub) !! u))
      with (under (hs_users (hub_inner hub)) u). rewrite (ix_users _ _ Hix). naive_solver. }
  exists d, state, log, atts. split; [done|]. split; [done|]. intros p self Hin Hself.
  destruct (pu_recipients _ _ _ _ _ _ _ _ _ Hp p Hin) as (_ & h & Hh & Hr).
  destruct (so_owner _ Hok _ _ Hh) as [_ Ho]. rewrite Hr in Hself.
  destruct (Ho self Hself) as [-> ->]. split; [|done].
  assert (at_session_id p ∈ map at_session_id atts) as (h' & Hh' & Hu)%(pu_targets _ _ _ _ _ _ _ _ _ Hp)
    by (by apply list_elem_of_fmap_2). congruence.
Qed.

(** A market message is pushed exactly once to each live session
    that listens to the market, and to no other, whatever stale entries the
    market's index still holds. *)
Theorem market_broadcast_reaches_subscribers n s market_id message text :
  Z.of_nat n < 2 ^ 64 - 1 ->
  nsteps (server_step iter accepts) n Server_default s ->
  server_message_to_string message = Some text ->
  let hub := sv_hub s in
  exists delivered state log atts,
    broadcast_market iter accepts market_id message (hub_inner hub) (hub_log hub) =
      Some (delivered, state, log) /\
    pushed accepts (fun h => market_id ∈ sh_markets h) text (hs_sessions (hub_inner hub)) (hub_log hub)
      delivered (hs_sessions state) log atts.
Proof.
  intros Hn Hs Htext hub.
  destruct (server_reachable iter iter_perm accepts n s Hn Hs) as (Hok & k & Hk & Hrun).
  assert (hub_ok k hub) as [_ _ Hix] by (eapply hub_ok_reachable; eauto; lia).
  unfold broadcast_market. rewrite Htext. cbn.
  destruct (send_to_sessions_locked _ _ _ _ _ _) as [[d state] log] eqn:Hsend.
  edestruct (pushed_send iter iter_perm accepts (fun h => market_id ∈ sh_markets h)) as [atts Hp];
    [|exact Hsend|by exists d, state, log, atts].
  intros sid h Hh. by apply (ix_markets _ _ Hix).
Qed.

(** A session that the hub has dropped, because its mailbox was full, may still
    subscribe: the market then keeps its id, which no later removal clears. *)
Lemma dropped_session_leaks (state : HubState Z) sid m :
  hs_sessions state !! sid = None ->
  let state' := subscribe_markets sid [m] state in
  sid ∈ under (hs_markets state') m /\ hs_sessions state' = hs_sessions state /\
  unregister iter sid state' = state'.
Proof.
  intros Hs. cbn. unfold update_session_markets. rewrite Hs.
  split; [apply under_insert; auto|]. split; [done|].
  unfold unregister, remove_session_locked, subscribe_market, update_session_markets. cbn.
  by rewrite !Hs.
Qed.
End Server.

(** ** The router *)

(** Claim C24. The window of wallet events answers, on any sequence of ids,
    as one would that kept every id it ever let through and looked at the last
    [capacity] of them; and it keeps no more than [capacity] ids, the same in its
    queue and in its set. *)
Theorem event_dedupe_window capacity ids :
  0 <= capacity ->
  let '(answers, d) := run_dedupe (EventDedupe_new capacity) ids in
  let '(expected, accepted) := run_reference capacity [] ids in
  answers = expected /\ ed_order d = lastn (Z.to_nat capacity) accepted /\
  ed_seen d = list_to_set (ed_order d) /\ NoDup (ed_order d) /\
  Z.of_nat (length (ed_order d)) <= capacity.
Proof.
  intros Hc. destruct (window_run [] (EventDedupe_new capacity) ids (window_of_new _ Hc))
    as (Ha & [_ Ho Hs Hn] & Hcap). cbn in *. rewrite Hcap in Ho.
  destruct (run_dedupe (EventDedupe_new capacity) ids) as [answers d].
  destruct (run_reference capacity [] ids) as [expected accepted]. cbn in *.
  split; [done|]. split; [done|]. split; [done|]. split; [done|]. rewrite Ho, length_lastn. lia.
Qed.

Section Router.
Context {SD : Serde} {SDL : SerdeLaws} {WS : WsSerde} {WSL : WsSerdeLaws}.
Context {Recipient : Type}.
Context (iter : gset Z -> list Z) (iter_perm : forall X, iter X ≡ₚ elements X).
Context (accepts : list (Attempt Recipient) -> Recipient -> string -> bool).

(** Claim C23. An engine event reaches, as an account event, every live session
    of every user it names (maker, taker, liquidated, fee payers; each once, also
    when a user is named twice), then, as a market event, every session that still
    listens to its market; no other session gets either. *)
Theorem engine_event_routed known (event : EngineEvent) md (st : RouterState Recipient) :
  indexed known (rt_hub st) ->
  exists v market_id account_text market_text st1 st2 d1 atts1 d2 atts2,
    engine_event_to_value event = Some v /\
    engine_event_market_id event = Some market_id /\
    server_message_to_string (account_event EventSource_Engine v md) = Some account_text /\
    server_message_to_string (market_event market_id EventSource_Engine v md) = Some market_text /\
    process_engine_event iter accepts event md st = (Ok tt, st2) /\
    pushed accepts (fun s => sh_user_id s ∈ named_users event) account_text
      (hs_sessions (rt_hub st)) (rt_log st) d1 (hs_sessions (rt_hub st1)) (rt_log st1) atts1 /\
    pushed accepts (fun s => market_id ∈ sh_markets s) market_text
      (hs_sessions (rt_hub st1)) (rt_log st1) d2 (hs_sessions (rt_hub st2)) (rt_log st2) atts2 /\
    indexed known (rt_hub st2).
Proof.
  intros Hix. destruct (engine_event_total event) as [v Hv].
  edestruct (process_engine_event_run iter iter_perm accepts known event md st v Hv Hix)
    as (m & at_ & mt & st1 & st2 & d1 & a1 & d2 & a2 & H).
  exists v, m, at_, mt, st1, st2, d1, a1, d2, a2. tauto.
Qed.

(** The wallet events a router processes, with anything happening to the hub in
    between. *)
Inductive wallet_run : RouterState Recipient -> list WalletEvent -> RouterState Recipient -> Prop :=
| wallet_run_nil st : wallet_run st [] st
| wallet_run_event st event md r st1 events st2 :
    process_wallet_event iter accepts event md st = (r, st1) ->
    wallet_run st1 events st2 -> wallet_run st (event :: events) st2
| wallet_run_hub st hub log events st2 :
    wallet_run (mkRouterState hub log (rt_dedupe st)) events st2 -> wallet_run st events st2.

Lemma process_wallet_event_dedupe event md st :
  rt_dedupe (process_wallet_event iter accepts event md st).2 =
    (is_duplicate (event_id event) (rt_dedupe st)).2.
Proof.
  unfold process_wallet_event, bind.
  destruct (is_duplicate (event_id event) (rt_dedupe st)) as [[] d]; [done|].
  destruct (wallet_event_value event); cbn; [|done].
  unfold send_account, run_broadcast. by destruct (broadcast_account _ _ _ _ _ _) as [[[? ?] ?]|].
Qed.

Lemma wallet_run_dedupe st events st' :
  wallet_run st events st' ->
  rt_dedupe st' = (run_dedupe (rt_dedupe st) (map event_id events)).2.
Proof.
  induction 1 as [st|st event md r st1 events st2 Hp _ IH|st hub log events st2 _ IH]; [done| |done].
  pose proof (process_wallet_event_dedupe event md st) as Hd. rewrite Hp in Hd. cbn in Hd.
  rewrite IH, Hd. cbn. destruct (is_duplicate _ _) as [a d]. cbn. by destruct (run_dedupe d _).
Qed.

(** A wallet event that the relay publishes again is pushed once:
    after the router has processed it, processing it again, with fewer than ten
    thousand other wallet events (and anything else) in between, leaves hub,
    sessions and pushes untouched. *)
Theorem wallet_event_delivered_once hub log before st event md r st1 between st2 md' id :
  wallet_run (EventRouter_new hub log) before st ->
  event_id event = Some id -> (is_duplicate (Some id) (rt_dedupe st)).1 = false ->
  process_wallet_event iter accepts event md st = (r, st1) ->
  wallet_run st1 between st2 -> Z.of_nat (length between) < WALLET_EVENT_DEDUPE_CAPACITY ->
  process_wallet_event iter accepts event md' st2 = (Ok tt, st2).
Proof.
  intros Hbefore Hid Hnew Hp Hbetween Hlen.
  pose proof (window_run [] _ (map event_id before)
    (window_of_new WALLET_EVENT_DEDUPE_CAPACITY ltac:(done))) as (_ & Hw & Hcap).
  change (EventDedupe_new WALLET_EVENT_DEDUPE_CAPACITY)
    with (rt_dedupe (EventRouter_new (Recipient := Recipient) hub log)) in Hw at 2, Hcap.
  rewrite <- (wallet_run_dedupe _ _ _ Hbefore) in Hw, Hcap.
  set (accepted := (run_reference _ [] _).2) in Hw.
  pose proof (process_wallet_event_dedupe event md st) as Hd1.
  rewrite Hp, Hid in Hd1. change ((r, st1).2) with st1 in Hd1.
  assert (id <> "") as Hne
    by (intros ->; unfold event_id in Hid; repeat case_match; simplify_eq; by case_bool_decide).
  destruct (window_step accepted (rt_dedupe st) (Some id) Hw) as (_ & _ & Hcap1).
  pose proof (window_accept _ _ _ Hw Hne Hnew) as Hw1. rewrite <- Hd1 in Hw1, Hcap1.
  destruct (window_run _ _ (map event_id between) Hw1) as (_ & Hw2 & Hcap2).
  destruct (run_reference_grows (ed_capacity (rt_dedupe st1)) (accepted ++ [id])
    (map event_id between)) as (more & Hmore & Hl).
  rewrite Hmore, <- (wallet_run_dedupe _ _ _ Hbetween) in Hw2.
  rewrite <- (wallet_run_dedupe _ _ _ Hbetween) in Hcap2.
  rewrite length_map in Hl. rewrite <- app_assoc in Hw2. unfold process_wallet_event. rewrite Hid.
  unfold bind at 1. rewrite (window_recent _ _ _ _ Hw2 Hne); [by destruct st2|].
  rewrite Hcap2, Hcap1, Hcap. unfold EventRouter_new, EventDedupe_new. cbn [rt_dedupe ed_capacity]. lia.
Qed.
End Router.

(** ** What a client asks for *)

(** Claim C25. The markets of a subscription reach the hub in one form only:
    a request with an id that is not positive is refused with its error, any other
    one gives the ids asked for, each once, in increasing order. *)
Theorem normalize_markets_canonical markets :
  match normalize_markets markets with
  | Ok normal =>
      StronglySorted Z.lt normal /\ Forall (fun m => 0 < m) normal /\
      (forall m, m ∈ normal <-> m ∈ markets)
  | Err e => e = "market ids must be greater than zero" /\ exists m, m ∈ markets /\ m <= 0
  end.
Proof.
  unfold normalize_markets. destruct (existsb _ markets) eqn:He.
  - split; [done|]. apply existsb_exists in He as (m & Hm%list_elem_of_In & Hle). split_bool. eauto.
  - unfold btree_collect. split; [auto with btree|].
    assert (forall m, m ∈ btree_extend [] markets <-> m ∈ markets) as Hin
      by (intros m; rewrite elem_of_btree_extend, elem_of_nil; tauto).
    split; [|done]. apply Forall_forall. intros m Hm%Hin. apply Z.lt_nge. intros Hle.
    rewrite <- not_true_iff_false, existsb_exists in He. apply He. exists m.
    split; [by apply list_elem_of_In|by apply Z.leb_le].
Qed.
