(* ===== verification/WsExamples.v ===== *)
(** * WsExamples: example runs of the websocket service

    One connection authenticates as user 42 and subscribes to market 9. *)

From S2P Require Import Prelude Protocol WalletOutbox WsHub WsHubTheorems WsRouter WsRouterTheorems WsSession WsSessionTheorems WsClaims.

#[local] Transparent gmap_empty.
#[local] Existing Instance tagged_serde.
#[local] Existing Instance tagged_serde_laws.

(** An encoder that keeps the name of a message. *)
Definition message_name (m : ServerMessage) : string :=
  match m with
  | ServerMessage_Welcome _ => "Welcome"
  | ServerMessage_AccountEvent _ => "AccountEvent"
  | ServerMessage_MarketEvent _ => "MarketEvent"
  | ServerMessage_Subscribed _ => "Subscribed"
  | ServerMessage_Unsubscribed _ => "Unsubscribed"
  | ServerMessage_Pong _ => "Pong"
  | ServerMessage_Error _ => "Error"
  end.

#[local] Instance name_serde : WsSerde := {|
  server_message_to_string m := Some (message_name m);
  client_message_from_str text :=
    if bool_decide (text = "subscribe 9")
    then Some (ClientMessage_Subscribe (mkMarketSubscription [9])) else None
|}.
#[local] Instance name_serde_laws : WsSerdeLaws.
Proof. split. intros m. by eexists. Defined.

Definition by_elements (X : gset Z) : list Z := elements X.
Lemma by_elements_perm X : by_elements X ≡ₚ elements X.
Proof. done. Qed.
Definition always {R} (_ : list (Attempt R)) (_ : R) (_ : string) : bool := true.

(** ** A run of the server *)

Definition actor_1 : WsSession := started (WsSession_new 42 "alice" 0).
Definition actor_2 : WsSession := set_futures [Future_Registering 1] actor_1.
Definition actor_3 : WsSession := registered 1 (set_futures [] actor_2).
Definition actor_4 : WsSession := handle_item 5 (Item_Text "subscribe 9") actor_3.
Definition actor_5 : WsSession := subscribed [9] (set_futures [] actor_4).

Definition hub_2 : Hub Z := mkHub HubState_default 2 ({[1]} ∪ ∅) [].
Definition hub_3 : Hub Z := mkHub (register_session 1 42 7 HubState_default) 2 (({[1]} ∪ ∅) ∖ {[1]}) [].
Definition hub_5 : Hub Z := set_inner (subscribe_markets 1 [9] (hub_inner hub_3)) hub_3.

Definition actors_1 : gmap Z WsSession := <[7 := actor_1]> ∅.
Definition actors_2 : gmap Z WsSession := <[7 := actor_2]> actors_1.
Definition actors_3 : gmap Z WsSession := <[7 := actor_3]> actors_2.
Definition actors_4 : gmap Z WsSession := <[7 := actor_4]> actors_3.
Definition actors_5 : gmap Z WsSession := <[7 := actor_5]> actors_4.

Definition server_5 : Server := mkServer hub_5 actors_5 [] ({[7]} ∪ ∅).

Lemma server_5_run : nsteps (server_step by_elements always) 5 Server_default server_5.
Proof.
  apply (nsteps_l _ _ _ (mkServer Hub_default actors_1 [] ({[7]} ∪ ∅))).
  { refine (server_connect _ _ _ _ _ _ 7 42 "alice" 0 _). set_solver. }
  apply (nsteps_l _ _ _ (mkServer hub_2 actors_2 [] ({[7]} ∪ ∅))).
  { refine (server_fetch_add _ _ Hub_default actors_1 [] _ 7 actor_1 [] [] _ _); reflexivity. }
  apply (nsteps_l _ _ _ (mkServer hub_3 actors_3 [] ({[7]} ∪ ∅))).
  { refine (server_register _ _ hub_2 actors_2 [] _ 7 actor_2 [] 1 [] _ _); reflexivity. }
  apply (nsteps_l _ _ _ (mkServer hub_3 actors_4 [] ({[7]} ∪ ∅))).
  { refine (server_item _ _ hub_3 actors_3 [] _ 7 actor_3 5 (Item_Text "subscribe 9") _). reflexivity. }
  apply (nsteps_l _ _ _ server_5); [|constructor].
  refine (server_subscribe _ _ hub_3 actors_4 [] _ 7 actor_4 [] 1 [9] [] _ _); reflexivity.
Qed.

Lemma hub_indexes_exact_witness :
  hs_users (hub_inner (sv_hub server_5)) !! 42 = Some {[1]} /\
  (1 ∈ under (hs_markets (hub_inner (sv_hub server_5))) 9 <-> 9 ∈ ({[9]} : gset Z)).
Proof.
  split; [reflexivity|].
  refine (proj1 (proj2 (proj2 (hub_indexes_exact by_elements by_elements_perm always 5 server_5 _ server_5_run)))
    9 1 (mkSessionHandle 42 7 {[9]}) _); [done|reflexivity].
Defined.

Lemma account_broadcast_isolated_witness :
  exists delivered state log atts,
    broadcast_account by_elements always 42 (error "account") (hub_inner hub_5) (hub_log hub_5) =
      Some (delivered, state, log) /\
    pushed always (fun h => sh_user_id h = 42) "Error" (hs_sessions (hub_inner hub_5)) (hub_log hub_5)
      delivered (hs_sessions state) log atts /\
    forall p self, p ∈ atts -> sv_actors server_5 !! at_recipient p = Some self ->
      ses_user_id self = 42 /\ ses_session_id self = Some (at_session_id p).
Proof.
  apply (account_broadcast_isolated by_elements by_elements_perm always 5 server_5 42
    (error "account") "Error"); [done|exact server_5_run|reflexivity].
Defined.

Example account_broadcast_delivers :
  (fun r => r.1.1) <$> broadcast_account by_elements always 42 (error "account")
    (hub_inner hub_5) (hub_log hub_5) = Some 1.
Proof. reflexivity. Qed.

Lemma market_broadcast_reaches_subscribers_witness :
  exists delivered state log atts,
    broadcast_market by_elements always 9 (error "market") (hub_inner hub_5) (hub_log hub_5) =
      Some (delivered, state, log) /\
    pushed always (fun h => 9 ∈ sh_markets h) "Error" (hs_sessions (hub_inner hub_5)) (hub_log hub_5)
      delivered (hs_sessions state) log atts.
Proof.
  apply (market_broadcast_reaches_subscribers by_elements by_elements_perm always 5 server_5 9
    (error "market") "Error"); [done|exact server_5_run|reflexivity].
Defined.

(** ** The window of wallet events *)

Lemma event_dedupe_window_witness :
  let '(answers, d) := run_dedupe (EventDedupe_new 2)
    [Some "e1"; Some "e2"; Some "e3"; Some "e1"; Some "e3"] in
  answers = [false; false; false; false; true] /\ ed_order d = ["e3"; "e1"] /\
  Z.of_nat (length (ed_order d)) <= 2.
Proof.
  pose proof (event_dedupe_window 2 [Some "e1"; Some "e2"; Some "e3"; Some "e1"; Some "e3"] ltac:(done))
    as H. cbn in H |- *. destruct H as (_ & Ho & _ & _ & Hl). split; [reflexivity|]. split; [reflexivity|done].
Defined.

(** ** Routing *)

Definition deposit_event : WalletEvent :=
  WalletEvent_DepositApplied (mkWalletDepositApplied (Some "wallet-1") "r" 42 Asset_USDC 500 "d" 500 0).

(** A trade of user 42 with itself on market 9, with a fee of user 43. *)
Definition trade_event : EngineEvent :=
  EngineEvent_TradeExecuted
    (mkTradeExecuted None 1 90000 None None 7 9 50 2 1 2 42 42 None None ExecutionReason_TRADE
      None None None None [mkFeeDelta 43 Asset_USDC 1 "TAKER"] []).

Definition router_5 : RouterState Z := EventRouter_new (hub_inner hub_5) [].

Lemma hub_5_indexed : exists known, indexed known (rt_hub router_5).
Proof.
  destruct (server_reachable by_elements by_elements_perm always 5 server_5 ltac:(done) server_5_run)
    as (_ & k & Hk & Hrun).
  exists (registered_id hub_5).
  apply (ok_indexed k). eapply hub_ok_reachable; [exact by_elements_perm|lia|exact Hrun].
Qed.

Lemma engine_event_routed_witness : exists known, indexed known (rt_hub router_5) /\
  exists st2, process_engine_event by_elements always trade_event (mkStreamMetadata "engine.events" 0 3) router_5
    = (Ok tt, st2) /\ indexed known (rt_hub st2).
Proof.
  destruct hub_5_indexed as [known H]. exists known. split; [exact H|].
  destruct (engine_event_routed by_elements by_elements_perm always known trade_event
    (mkStreamMetadata "engine.events" 0 3) router_5 H)
    as (v & m & at_ & mt & st1 & st2 & d1 & a1 & d2 & a2 & _ & _ & _ & _ & Hrun & _ & _ & Hi).
  by exists st2.
Defined.

Example trade_pushed_twice :
  map at_text (rt_log (process_engine_event by_elements always trade_event
    (mkStreamMetadata "engine.events" 0 3) router_5).2) = ["AccountEvent"; "MarketEvent"].
Proof. reflexivity. Qed.

Definition router_6 : RouterState Z :=
  (process_wallet_event by_elements always deposit_event (mkStreamMetadata "wallet.events" 0 0) router_5).2.

Lemma wallet_event_delivered_once_witness :
  map at_text (rt_log router_6) = ["AccountEvent"] /\
  process_wallet_event by_elements always deposit_event (mkStreamMetadata "wallet.events" 0 1) router_6
    = (Ok tt, router_6).
Proof.
  split; [reflexivity|].
  refine (wallet_event_delivered_once by_elements always (hub_inner hub_5) [] [] router_5 deposit_event
    (mkStreamMetadata "wallet.events" 0 0) (Ok tt) router_6 [] router_6 _ "wallet-1" _ _ _ _ _ _).
  - constructor.
  - reflexivity.
  - reflexivity.
  - reflexivity.
  - constructor.
  - done.
Defined.
