(* ===== verification/ServerReplies.v ===== *)
(** * ServerReplies: the requests of the HTTP server and their replies

    [apps/server/src/replies.rs]: a table of pending requests, each with the
    channel of the handler that waits for its final reply; the handlers register,
    the consumers of the reply topics resolve ([redpanda.rs]). *)

From S2P Require Import Prelude Protocol.

Inductive RequestKind :=
| RequestKind_Deposit
| RequestKind_Withdraw
| RequestKind_PlaceOrder
| RequestKind_CancelOrder.
#[export] Instance RequestKind_eq_dec : EqDecision RequestKind.
Proof. solve_decision. Defined.

Inductive ReplyResult :=
| ReplyResult_Pending
| ReplyResult_Wallet (reply : WalletReply)
| ReplyResult_Engine (reply : EngineReply).
#[export] Instance ReplyResult_eq_dec : EqDecision ReplyResult.
Proof. solve_decision. Defined.

Record ReplyRecord := mkReplyRecord {
  rpr_request_id : string;
  rpr_kind : option RequestKind;
  rpr_complete : bool;
  rpr_result : ReplyResult
}.
#[export] Instance ReplyRecord_eq_dec : EqDecision ReplyRecord.
Proof. solve_decision. Defined.

(** A waiter is the sending half of a channel, which has a number here. *)
Record PendingRequest := mkPendingRequest {
  pr_request_id : string;
  pr_user_id : option Z;
  pr_kind : option RequestKind;
  pr_result : ReplyResult;
  pr_waiter : option Z;
  pr_complete : bool
}.

Definition to_record (self : PendingRequest) : ReplyRecord :=
  mkReplyRecord (pr_request_id self) (pr_kind self) (pr_complete self) (pr_result self).

Definition is_final_result (kind : option RequestKind) (result : ReplyResult) : bool :=
  match kind, result with
  | Some RequestKind_Deposit, ReplyResult_Wallet reply =>
      match reply with
      | WalletReply_BalanceUpdated _ | WalletReply_CommandRejected _ => true
      | _ => false
      end
  | Some RequestKind_Withdraw, ReplyResult_Wallet reply =>
      match reply with
      | WalletReply_BalanceUpdated _ | WalletReply_InsufficientFunds _
      | WalletReply_CommandRejected _ => true
      | _ => false
      end
  | Some RequestKind_PlaceOrder, ReplyResult_Wallet reply =>
      match reply with
      | WalletReply_InsufficientFunds _ | WalletReply_CommandRejected _ => true
      | _ => false
      end
  | Some RequestKind_PlaceOrder, ReplyResult_Engine reply =>
      match reply with
      | EngineReply_OrderAccepted _ | EngineReply_OrderRejected _ => true
      | _ => false
      end
  | Some RequestKind_CancelOrder, ReplyResult_Wallet reply =>
      match reply with WalletReply_CommandRejected _ => true | _ => false end
  | Some RequestKind_CancelOrder, ReplyResult_Engine reply =>
      match reply with
      | EngineReply_CancelAccepted _ | EngineReply_CancelRejected _ => true
      | _ => false
      end
  | None, ReplyResult_Pending => false
  | None, _ => true
  | _, _ => false
  end.

Definition wallet_reply_request_id (reply : WalletReply) : string :=
  match reply with
  | WalletReply_FundsReserved reply => fr_request_id reply
  | WalletReply_InsufficientFunds reply => inf_request_id reply
  | WalletReply_BalanceUpdated reply => bu_request_id reply
  | WalletReply_CommandAccepted reply => ca_request_id reply
  | WalletReply_CommandRejected reply => cr_request_id reply
  end.

Definition engine_reply_request_id (reply : EngineReply) : string :=
  match reply with
  | EngineReply_OrderAccepted reply => oa_request_id reply
  | EngineReply_OrderRejected reply => orj_request_id reply
  | EngineReply_CancelAccepted reply => cac_request_id reply
  | EngineReply_CancelRejected reply => crj_request_id reply
  | EngineReply_LiquidationAccepted reply => la_request_id reply
  | EngineReply_LiquidationRejected reply => lrj_request_id reply
  end.

(** What the server logs of a command it publishes and of a reply of the engine:
    [redpanda.rs]. *)
Record WalletCommandTrace := mkWalletCommandTrace {
  wct_request_id : option string;
  wct_idempotency_key : option string
}.
Definition envelope_trace (envelope : CommandEnvelope) : WalletCommandTrace :=
  mkWalletCommandTrace (Some (env_request_id envelope)) (Some (env_idempotency_key envelope)).
Definition wallet_command_trace (command : WalletCommand) : WalletCommandTrace :=
  match command with
  | WalletCommand_PlaceOrderIntent command => envelope_trace (poi_envelope command)
  | WalletCommand_CancelOrderIntent command => envelope_trace (coi_envelope command)
  | WalletCommand_Deposit command => envelope_trace (dep_envelope command)
  | WalletCommand_Withdraw command => envelope_trace (wdr_envelope command)
  | WalletCommand_ReleaseReservation _ | WalletCommand_SettleTrade _ =>
      mkWalletCommandTrace None None
  end.

Record EngineReplyTrace := mkEngineReplyTrace {
  ert_request_id : string;
  ert_source_input_id : option string;
  ert_source_input_offset : option Z
}.
Definition engine_reply_trace (reply : EngineReply) : EngineReplyTrace :=
  match reply with
  | EngineReply_OrderAccepted reply =>
      mkEngineReplyTrace (oa_request_id reply) (oa_source_input_id reply)
        (oa_source_input_offset reply)
  | EngineReply_OrderRejected reply =>
      mkEngineReplyTrace (orj_request_id reply) (orj_source_input_id reply)
        (orj_source_input_offset reply)
  | EngineReply_CancelAccepted reply =>
      mkEngineReplyTrace (cac_request_id reply) (cac_source_input_id reply)
        (cac_source_input_offset reply)
  | EngineReply_CancelRejected reply =>
      mkEngineReplyTrace (crj_request_id reply) (crj_source_input_id reply)
        (crj_source_input_offset reply)
  | EngineReply_LiquidationAccepted reply =>
      mkEngineReplyTrace (la_request_id reply) (la_source_input_id reply)
        (la_source_input_offset reply)
  | EngineReply_LiquidationRejected reply =>
      mkEngineReplyTrace (lrj_request_id reply) (lrj_source_input_id reply)
        (lrj_source_input_offset reply)
  end.

(** The table, the number of the next channel, and what has been sent on the
    channels: a channel carries one record. *)
Record ReplyState := mkReplyState {
  rs_records : gmap string PendingRequest;
  rs_next_channel : Z;
  rs_sent : gmap Z ReplyRecord
}.

Definition ReplyState_default : ReplyState := mkReplyState ∅ 0 ∅.

Definition register_waiter (request_id : string) (user_id : Z) (kind : RequestKind)
    (self : ReplyState) : Z * ReplyState :=
  let channel := rs_next_channel self in
  (channel,
   mkReplyState
     (<[request_id := mkPendingRequest request_id (Some user_id) (Some kind) ReplyResult_Pending
          (Some channel) false]> (rs_records self))
     (channel + 1) (rs_sent self)).

Definition remove (request_id : string) (self : ReplyState) : ReplyState :=
  mkReplyState (delete request_id (rs_records self)) (rs_next_channel self) (rs_sent self).

Definition resolve (request_id : string) (result : ReplyResult) (self : ReplyState) : ReplyState :=
  match rs_records self !! request_id with
  | Some record =>
      let complete := is_final_result (pr_kind record) result in
      let record :=
        mkPendingRequest (pr_request_id record) (pr_user_id record) (pr_kind record) result
          (pr_waiter record) complete in
      if complete then
        let reply := to_record record in
        let taken :=
          mkPendingRequest (pr_request_id record) (pr_user_id record) (pr_kind record) result
            None complete in
        mkReplyState (<[request_id := taken]> (rs_records self)) (rs_next_channel self)
          (match pr_waiter record with
           | Some waiter => <[waiter := reply]> (rs_sent self)
           | None => rs_sent self
           end)
      else
        mkReplyState (<[request_id := record]> (rs_records self)) (rs_next_channel self)
          (rs_sent self)
  | None =>
      mkReplyState
        (<[request_id := mkPendingRequest request_id None None result None
             (negb (bool_decide (result = ReplyResult_Pending)))]> (rs_records self))
        (rs_next_channel self) (rs_sent self)
  end.

Definition resolve_wallet_reply (reply : WalletReply) (self : ReplyState) : ReplyState :=
  resolve (wallet_reply_request_id reply) (ReplyResult_Wallet reply) self.
Definition resolve_engine_reply (reply : EngineReply) (self : ReplyState) : ReplyState :=
  resolve (engine_reply_request_id reply) (ReplyResult_Engine reply) self.

Definition get_for_user (request_id : string) (user_id : Z) (self : ReplyState)
    : option ReplyRecord :=
  match rs_records self !! request_id with
  | Some record =>
      if bool_decide (pr_user_id record = Some user_id) then Some (to_record record) else None
  | None => None
  end.

(** ** The consumers of the reply topics: [redpanda.rs] *)

Section Consumers.
Context {Payload : Type}.
Variable wallet_reply_from_slice : Payload -> option WalletReply.
Variable engine_reply_from_slice : Payload -> option EngineReply.

(** A record without a payload, or with one that does not parse, is passed over. *)
Definition consume_wallet_reply (payload : option Payload) (self : ReplyState) : ReplyState :=
  match payload ≫= wallet_reply_from_slice with
  | Some reply => resolve_wallet_reply reply self
  | None => self
  end.
Definition consume_engine_reply (payload : option Payload) (self : ReplyState) : ReplyState :=
  match payload ≫= engine_reply_from_slice with
  | Some reply => resolve_engine_reply reply self
  | None => self
  end.

(** The records of one fetch: the offset of the next one, and the table. *)
Definition consume_wallet_replies (next_offset : Z) (records : list (Z * option Payload))
    (self : ReplyState) : Z * ReplyState :=
  foldl (fun acc record => (record.1 + 1, consume_wallet_reply record.2 acc.2))
    (next_offset, self) records.
Definition consume_engine_replies (next_offset : Z) (records : list (Z * option Payload))
    (self : ReplyState) : Z * ReplyState :=
  foldl (fun acc record => (record.1 + 1, consume_engine_reply record.2 acc.2))
    (next_offset, self) records.
End Consumers.

(** ** Operations in the order the lock serialises them *)

Inductive ReplyOp :=
| ReplyOp_Register (request_id : string) (user_id : Z) (kind : RequestKind)
| ReplyOp_Remove (request_id : string)
| ReplyOp_Wallet (reply : WalletReply)
| ReplyOp_Engine (reply : EngineReply).

Definition apply_op (self : ReplyState) (op : ReplyOp) : ReplyState :=
  match op with
  | ReplyOp_Register request_id user_id kind => (register_waiter request_id user_id kind self).2
  | ReplyOp_Remove request_id => remove request_id self
  | ReplyOp_Wallet reply => resolve_wallet_reply reply self
  | ReplyOp_Engine reply => resolve_engine_reply reply self
  end.
Definition apply_ops (ops : list ReplyOp) (self : ReplyState) : ReplyState :=
  foldl apply_op self ops.
