(* ===== verification/ServerRepliesTheorems.v ===== *)
(** * ServerRepliesTheorems: a waiter gets the first final reply to its request *)

From S2P Require Import Prelude Protocol ServerReplies.

#[local] Arguments is_final_result : simpl never.

(** ** What a sequence of operations says about a request *)

Definition op_reply (op : ReplyOp) : option (string * ReplyResult) :=
  match op with
  | ReplyOp_Wallet reply => Some (wallet_reply_request_id reply, ReplyResult_Wallet reply)
  | ReplyOp_Engine reply => Some (engine_reply_request_id reply, ReplyResult_Engine reply)
  | _ => None
  end.

(** It neither registers the request again nor removes it. *)
Definition leaves_request (id : string) (op : ReplyOp) : Prop :=
  match op with
  | ReplyOp_Register id' _ _ | ReplyOp_Remove id' => id' <> id
  | _ => True
  end.

(** The replies to a request, in order. *)
Definition replies_to (id : string) (ops : list ReplyOp) : list ReplyResult :=
  omap (fun op => match op_reply op with
                  | Some (id', result) => if bool_decide (id' = id) then Some result else None
                  | None => None
                  end) ops.

Definition first_final (kind : RequestKind) (replies : list ReplyResult) : option ReplyResult :=
  head (filter (fun result => is_final_result (Some kind) result = true) replies).

(** ** Invariants of the table *)

Record replies_ok (st : ReplyState) : Prop := {
  ro_waiter id r w : rs_records st !! id = Some r -> pr_waiter r = Some w -> w < rs_next_channel st;
  ro_sent w r : rs_sent st !! w = Some r -> w < rs_next_channel st
}.

Lemma replies_ok_resolve id result st : replies_ok st -> replies_ok (resolve id result st).
Proof.
  intros [Hw Hs]. unfold resolve. destruct (rs_records st !! id) as [r|] eqn:Hr.
  - destruct (is_final_result (pr_kind r) result); cbn.
    + split; cbn.
      * intros id' r' w [[<- <-]|[_ ?]]%lookup_insert_Some; [done|eauto].
      * intros w r'. destruct (pr_waiter r) as [w'|] eqn:Hw'; [|by eauto].
        intros [[<- _]|[_ ?]]%lookup_insert_Some; eauto.
    + split; cbn; [|done]. intros id' r' w [[<- <-]|[_ ?]]%lookup_insert_Some; eauto.
  - split; cbn; [|done]. intros id' r' w [[<- <-]|[_ ?]]%lookup_insert_Some; [done|eauto].
Qed.

Lemma replies_ok_op op st : replies_ok st -> replies_ok (apply_op st op).
Proof.
  intros Hok. destruct op; cbn; try by apply replies_ok_resolve.
  - destruct Hok as [Hw Hs]. split; cbn.
    + intros id r w [[<- <-]|[_ ?]]%lookup_insert_Some; cbn; [intros [= <-]; lia|].
      intros. enough (w < rs_next_channel st) by lia. eauto.
    + intros w r Hr. enough (w < rs_next_channel st) by lia. eauto.
  - destruct Hok as [Hw Hs]. split; cbn; [|done]. intros id r w [_ ?]%lookup_delete_Some. eauto.
Qed.

Lemma replies_ok_ops ops : forall st, replies_ok st -> replies_ok (apply_ops ops st).
Proof.
  induction ops as [|op ops IH]; intros st Hok; [done|]. apply IH, replies_ok_op, Hok.
Qed.

Lemma replies_ok_default : replies_ok ReplyState_default.
Proof. split; cbn; intros *; by rewrite lookup_empty. Qed.

(** A request since it was registered: the replies it had, and its channel. *)
Record tracked (id : string) (u : Z) (k : RequestKind) (c : Z) (replies : list ReplyResult)
    (st : ReplyState) : Prop := {
  tr_record : exists waiter,
    rs_records st !! id =
      Some (mkPendingRequest id (Some u) (Some k) (default ReplyResult_Pending (last replies)) waiter
              (is_final_result (Some k) (default ReplyResult_Pending (last replies)))) /\
    waiter = match first_final k replies with Some _ => None | None => Some c end;
  tr_sent : rs_sent st !! c =
    (fun result => mkReplyRecord id (Some k) true result) <$> first_final k replies;
  tr_channel : c < rs_next_channel st;
  tr_others id' r : id' <> id -> rs_records st !! id' = Some r -> pr_waiter r <> Some c
}.

Lemma first_final_snoc k replies result :
  first_final k (replies ++ [result]) =
    match first_final k replies with
    | Some r => Some r
    | None => if is_final_result (Some k) result then Some result else None
    end.
Proof.
  unfold first_final. rewrite filter_app, filter_cons, filter_nil.
  destruct (filter _ replies) as [|r l]; [|done].
  destruct (is_final_result (Some k) result) eqn:E;
    [by rewrite decide_True|by rewrite decide_False by congruence].
Qed.

Lemma tracked_resolve_other id u k c replies st id' result :
  id' <> id -> tracked id u k c replies st -> tracked id u k c replies (resolve id' result st).
Proof.
  intros Hne [Hrec Hsent Hc Hoth]. unfold resolve. destruct (rs_records st !! id') as [r|] eqn:Hr.
  - destruct (is_final_result (pr_kind r) result); split; cbn; try done;
      rewrite ?lookup_insert_ne by congruence; try done.
    + destruct (pr_waiter r) as [w|] eqn:Hw; [|done].
      rewrite lookup_insert_ne; [done|]. intros ->. by destruct (Hoth id' r).
    + intros id2 r2 ? [[<- <-]|[_ ?]]%lookup_insert_Some; eauto.
    + intros id2 r2 ? [[<- <-]|[_ ?]]%lookup_insert_Some; cbn; eauto.
  - split; cbn; try done; rewrite ?lookup_insert_ne by congruence; try done.
    intros id2 r2 ? [[<- <-]|[_ ?]]%lookup_insert_Some; cbn; eauto.
Qed.

Lemma tracked_resolve id u k c replies st result :
  tracked id u k c replies st -> tracked id u k c (replies ++ [result]) (resolve id result st).
Proof.
  intros [(waiter & Hrec & ->) Hsent Hc Hoth]. unfold resolve. rewrite Hrec. cbn.
  destruct (is_final_result (Some k) result) eqn:Hf; split; cbn;
    rewrite ?first_final_snoc, ?last_snoc, ?Hf; cbn; try done.
  - rewrite lookup_insert_eq, Hf. destruct (first_final k replies); eauto.
  - destruct (first_final k replies); [done|]. by rewrite lookup_insert_eq.
  - intros id2 r2 ? [[<- <-]|[_ ?]]%lookup_insert_Some; eauto.
  - rewrite lookup_insert_eq, Hf. destruct (first_final k replies); eauto.
  - rewrite Hsent. by destruct (first_final k replies).
  - intros id2 r2 ? [[<- <-]|[_ ?]]%lookup_insert_Some; eauto.
Qed.

Lemma replies_to_cons id op ops :
  replies_to id (op :: ops) = replies_to id [op] ++ replies_to id ops.
Proof. unfold replies_to. cbn. by destruct (op_reply op) as [[id' r]|]; [case_bool_decide|]. Qed.

Lemma tracked_op id u k c replies st op :
  leaves_request id op -> tracked id u k c replies st ->
  tracked id u k c (replies ++ replies_to id [op]) (apply_op st op).
Proof.
  intros Hl Htr. unfold replies_to. destruct op as [id' u' k'|id'|reply|reply]; cbn in *.
  - rewrite app_nil_r. destruct Htr as [Hrec Hsent Hc Hoth]. split; cbn; [|done|lia|].
    + by rewrite lookup_insert_ne.
    + intros id2 r2 ? [[<- <-]|[_ ?]]%lookup_insert_Some; [cbn; intros [= Heq]; lia|eauto].
  - rewrite app_nil_r. destruct Htr as [Hrec Hsent Hc Hoth]. split; cbn; [|done|done|].
    + by rewrite lookup_delete_ne.
    + intros id2 r2 ? [_ ?]%lookup_delete_Some; eauto.
  - unfold resolve_wallet_reply. case_bool_decide as Hid; cbn.
    + rewrite Hid. by apply tracked_resolve.
    + rewrite app_nil_r. by apply tracked_resolve_other.
  - unfold resolve_engine_reply. case_bool_decide as Hid; cbn.
    + rewrite Hid. by apply tracked_resolve.
    + rewrite app_nil_r. by apply tracked_resolve_other.
Qed.

Lemma tracked_ops id u k c ops : forall replies st,
  Forall (leaves_request id) ops -> tracked id u k c replies st ->
  tracked id u k c (replies ++ replies_to id ops) (apply_ops ops st).
Proof.
  induction ops as [|op ops IH]; intros replies st Hl Htr; [by rewrite app_nil_r|].
  apply Forall_cons in Hl as [Hop Hl]. rewrite replies_to_cons, app_assoc.
  apply IH; [done|]. by apply tracked_op.
Qed.

Lemma tracked_register id u k st :
  replies_ok st -> tracked id u k (register_waiter id u k st).1 [] (register_waiter id u k st).2.
Proof.
  intros [Hw Hs]. split; cbn; [|..|lia|].
  - rewrite lookup_insert_eq. eexists. split; [|done]. by destruct k.
  - destruct (rs_sent st !! rs_next_channel st) eqn:E; [|done]. apply Hs in E. lia.
  - intros id' r Hne. rewrite lookup_insert_ne by congruence. intros Hr Hx.
    pose proof (Hw id' r _ Hr Hx). lia.
Qed.

(** ** The promises to a handler *)

(** Claim C38. Whatever was registered, removed and resolved before and is
    for other requests after, the handler that registers a request gets on its
    channel the first reply to it that is final for its kind, as a complete record
    of that request, and nothing before; and only its user can look the request
    up, which then shows the latest reply. *)
Theorem waiter_gets_first_final_reply before ops id u k :
  Forall (leaves_request id) ops ->
  let '(channel, st1) := register_waiter id u k (apply_ops before ReplyState_default) in
  let st := apply_ops ops st1 in
  let latest := default ReplyResult_Pending (last (replies_to id ops)) in
  rs_sent st !! channel =
    (fun result => mkReplyRecord id (Some k) true result) <$> first_final k (replies_to id ops) /\
  get_for_user id u st =
    Some (mkReplyRecord id (Some k) (is_final_result (Some k) latest) latest) /\
  (forall u', u' <> u -> get_for_user id u' st = None).
Proof.
  intros Hl. set (st0 := apply_ops before ReplyState_default).
  assert (replies_ok st0) as Hok by apply replies_ok_ops, replies_ok_default.
  pose proof (tracked_ops _ _ _ _ ops _ _ Hl (tracked_register id u k st0 Hok)) as Htr.
  destruct (register_waiter id u k st0) as [c st1]. cbn in Htr.
  destruct Htr as [(w & Hrec & _) Hsent _ _]. split; [exact Hsent|].
  unfold get_for_user. rewrite Hrec. cbn. split.
  - by rewrite bool_decide_true.
  - intros u' Hu. by rewrite bool_decide_false by congruence.
Qed.

(** Final is not for good: the replies of the wallet and of the
    engine come by two consumers, and when the wallet's FundsReserved for an order
    is resolved after the engine's answer, the handler has had its final reply but
    the request is shown incomplete, as reserved, until it is removed. *)
Theorem late_wallet_reply_reopens_request id u st0 accepted reserved :
  engine_reply_request_id (EngineReply_OrderAccepted accepted) = id ->
  wallet_reply_request_id (WalletReply_FundsReserved reserved) = id ->
  replies_ok st0 ->
  let '(channel, st1) := register_waiter id u RequestKind_PlaceOrder st0 in
  let st2 := resolve_engine_reply (EngineReply_OrderAccepted accepted) st1 in
  let st3 := resolve_wallet_reply (WalletReply_FundsReserved reserved) st2 in
  rpr_complete <$> get_for_user id u st2 = Some true /\
  rpr_complete <$> get_for_user id u st3 = Some false /\
  rpr_complete <$> rs_sent st3 !! channel = Some true.
Proof.
  intros He Hw Hok. pose proof (tracked_register id u RequestKind_PlaceOrder st0 Hok) as Htr.
  destruct (register_waiter _ _ _ _) as [c st1]. cbn in Htr.
  unfold resolve_engine_reply, resolve_wallet_reply. rewrite He, Hw.
  apply (tracked_resolve _ _ _ _ _ _ (ReplyResult_Engine (EngineReply_OrderAccepted accepted))) in Htr.
  pose proof (tracked_resolve _ _ _ _ _ _ (ReplyResult_Wallet (WalletReply_FundsReserved reserved)) Htr)
    as Htr2.
  destruct Htr as [(w & Hrec & _) _ _ _], Htr2 as [(w2 & Hrec2 & _) Hsent2 _ _].
  unfold get_for_user. rewrite Hrec, Hrec2, Hsent2. cbn. by rewrite bool_decide_true.
Qed.

(** ** An example *)

#[local] Transparent gmap_empty.

Definition accepted_1 : OrderAccepted := mkOrderAccepted "req-1" None None 99 "res-1".
Definition reserved_1 : FundsReserved := mkFundsReserved "req-1" "res-1" Asset_USDC 100.

Lemma waiter_gets_first_final_reply_witness :
  let ops := [ReplyOp_Wallet (WalletReply_FundsReserved reserved_1);
              ReplyOp_Register "req-2" 7 RequestKind_Deposit;
              ReplyOp_Engine (EngineReply_OrderAccepted accepted_1)] in
  first_final RequestKind_PlaceOrder (replies_to "req-1" ops) =
    Some (ReplyResult_Engine (EngineReply_OrderAccepted accepted_1)) /\
  rs_sent (apply_ops ops (register_waiter "req-1" 42 RequestKind_PlaceOrder ReplyState_default).2) !! 0 =
    Some (mkReplyRecord "req-1" (Some RequestKind_PlaceOrder) true
            (ReplyResult_Engine (EngineReply_OrderAccepted accepted_1))).
Proof.
  split; [reflexivity|].
  refine (proj1 (waiter_gets_first_final_reply [] [ReplyOp_Wallet (WalletReply_FundsReserved reserved_1);
              ReplyOp_Register "req-2" 7 RequestKind_Deposit;
              ReplyOp_Engine (EngineReply_OrderAccepted accepted_1)] "req-1" 42 RequestKind_PlaceOrder _)).
  repeat constructor. discriminate.
Defined.

Lemma late_wallet_reply_reopens_request_witness :
  rpr_complete <$> get_for_user "req-1" 42
    (resolve_wallet_reply (WalletReply_FundsReserved reserved_1)
       (resolve_engine_reply (EngineReply_OrderAccepted accepted_1)
          (register_waiter "req-1" 42 RequestKind_PlaceOrder ReplyState_default).2)) = Some false.
Proof.
  refine (proj1 (proj2 (late_wallet_reply_reopens_request "req-1" 42 ReplyState_default accepted_1
    reserved_1 eq_refl eq_refl replies_ok_default))).
Defined.
