(* ===== verification/ServerHandlers.v ===== *)
(** * ServerHandlers: the commands of the HTTP server

    [apps/server]: the handlers that turn a request into a wallet command
    ([modules/orders], [modules/balances], [modules/positions]), the context they
    share ([hot_path.rs]), the producer ([redpanda.rs]) and the mapping of the
    database's enums ([protocol_map.rs]). *)

From S2P Require Import Prelude Text Protocol Broker Postgres WalletDb WalletRepository WalletOutbox ProjectorMath ProjectorPositions.
From S2P Require Import ServerReplies.

(** ** The database's enums: [protocol_map.rs] *)

Definition asset_to_protocol (asset : AssetType) : Asset :=
  match asset with
  | AssetType_USDC => Asset_USDC
  | AssetType_USDT => Asset_USDT
  | AssetType_SOL => Asset_SOL
  | AssetType_ETH => Asset_ETH
  | AssetType_BTC => Asset_BTC
  | AssetType_PERP => Asset_PERP
  | AssetType_HYP => Asset_HYP
  end.

Definition side_to_protocol (side : SideType) : Side :=
  match side with SideType_LONG => Side_LONG | SideType_SHORT => Side_SHORT end.

Definition order_type_to_protocol (order_type : DbOrderType) : OrderType :=
  match order_type with
  | DbOrderType_LIMIT => OrderType_LIMIT
  | DbOrderType_MARKET => OrderType_MARKET
  end.

(** ** Requests and responses *)

Record Claim := mkClaim { cl_userid : Z; cl_username : string; cl_exp : Z }.

Record QueuedCommandAck := mkQueuedCommandAck {
  ack_request_id : string;
  ack_idempotency_key : string;
  ack_status : string
}.

Inductive Body :=
| Body_None
| Body_Ack (ack : QueuedCommandAck)
| Body_Reply (record : ReplyRecord).

(** A status, and [ResponseBody]. *)
Record HttpResponse := mkHttpResponse {
  hr_status : Z;
  hr_success : bool;
  hr_info : string;
  hr_body : Body
}.

Definition bad_request (info : string) : HttpResponse := mkHttpResponse 400 false info Body_None.
Definition unauthorized (info : string) : HttpResponse := mkHttpResponse 401 false info Body_None.
Definition internal_server_error (info : string) : HttpResponse :=
  mkHttpResponse 500 false info Body_None.

Definition queued_response (ack : QueuedCommandAck) : HttpResponse :=
  mkHttpResponse 202 true "request queued" (Body_Ack ack).

(** How the wait for a reply ends. *)
Inductive WaitOutcome :=
| WaitOutcome_Received (record : ReplyRecord)
| WaitOutcome_SenderDropped
| WaitOutcome_Elapsed.

Definition final_or_queued_response (outcome : WaitOutcome) (ack : QueuedCommandAck)
    : HttpResponse :=
  match outcome with
  | WaitOutcome_Received record => mkHttpResponse 200 true "request completed" (Body_Reply record)
  | WaitOutcome_SenderDropped | WaitOutcome_Elapsed => queued_response ack
  end.

(** ** The producer of wallet commands: [redpanda.rs] *)

(** The errors of the client, the producer and of serde are texts. *)
Inductive PublishError :=
| PublishError_Client (error : string)
| PublishError_EmptyBrokerList
| PublishError_Producer (error : string)
| PublishError_Serialize (error : string)
| PublishError_TopicHasNoPartitions (topic : string)
| PublishError_TopicNotFound (topic : string).

(** [impl fmt::Display for PublishError] *)
Definition publish_error_text (e : PublishError) : string :=
  match e with
  | PublishError_Client error => "redpanda client failed: " +:+ error
  | PublishError_EmptyBrokerList => "redpanda broker list is empty"
  | PublishError_Producer error => "redpanda publish failed: " +:+ error
  | PublishError_Serialize error => "command serialization failed: " +:+ error
  | PublishError_TopicHasNoPartitions topic =>
      "redpanda topic '" +:+ topic +:+ "' has no partitions"
  | PublishError_TopicNotFound topic => "redpanda topic '" +:+ topic +:+ "' was not found"
  end.

Definition parse_brokers : string -> Result PublishError (list string) :=
  brokers_in PublishError_EmptyBrokerList.

Record RedpandaProducer := mkRedpandaProducer {
  rp_wallet_commands_topic : string;
  rp_wallet_commands : list Z
}.

Definition RedpandaProducer_new (connect : Connect) (brokers wallet_commands_topic : string)
    : Result PublishError RedpandaProducer :=
  let? brokers := parse_brokers brokers in
  let? client := map_err PublishError_Client (connect brokers) in
  let? topics := map_err PublishError_Client (list_topics client) in
  let? partitions :=
    partitions_in PublishError_TopicNotFound PublishError_TopicHasNoPartitions topics
      wallet_commands_topic in
  let? wallet_commands := clients_for PublishError_Client client wallet_commands_topic partitions in
  Ok (mkRedpandaProducer wallet_commands_topic wallet_commands).

Definition ensure_topic_partition (topics : Topics) (topic : string)
    (partition : Z) : Result PublishError unit :=
  match List.find (fun candidate => bool_decide (candidate.1 = topic)) topics with
  | None => Err (PublishError_TopicNotFound topic)
  | Some (_, partitions) =>
      if bool_decide (partitions = []) then Err (PublishError_TopicHasNoPartitions topic)
      else if negb (bool_decide (partition ∈ partitions))
      then Err (PublishError_TopicNotFound (topic +:+ " partition " +:+ to_string partition))
      else Ok tt
  end.

(** The topics and the partition of the two consumers of replies. *)
Record ReplyConsumers := mkReplyConsumers {
  rc_wallet_replies_topic : string;
  rc_engine_replies_topic : string;
  rc_partition : Z
}.

Definition ReplyConsumers_new (connect : Connect)
    (brokers wallet_replies_topic engine_replies_topic : string) (reply_partition : Z)
    : Result PublishError ReplyConsumers :=
  let? brokers := parse_brokers brokers in
  let? client := map_err PublishError_Client (connect brokers) in
  let? topics := map_err PublishError_Client (list_topics client) in
  let? _ := ensure_topic_partition topics wallet_replies_topic reply_partition in
  let? _ := ensure_topic_partition topics engine_replies_topic reply_partition in
  let? _ := map_err PublishError_Client (partition_client client wallet_replies_topic reply_partition) in
  let? _ := map_err PublishError_Client (partition_client client engine_replies_topic reply_partition) in
  Ok (mkReplyConsumers wallet_replies_topic engine_replies_topic reply_partition).

(** [None] is the panic of an index out of range. *)
Definition wallet_producer_for_key (self : RedpandaProducer) (key : string) : option Z :=
  rp_wallet_commands self !!
    Z.to_nat (stable_partition key (Z.of_nat (length (rp_wallet_commands self)))).

(** What becomes of a publication; an error of the broker may come after it has
    stored the record. *)
Inductive Publication :=
| Publication_Produced
| Publication_Failed
| Publication_FailedAfterStoring.

(** ** The context of a command: [hot_path.rs] *)

(** The parts of the configuration the handlers read. *)
Record CommandConfig := mkCommandConfig {
  cc_server_reply_partition : Z;
  cc_request_wait_timeout_ms : Z
}.

(** A request: the claim the middleware left, the Idempotency-Key header (its
    value may not be visible ASCII), and the data of the application. *)
Record HttpRequest := mkHttpRequest {
  rq_claim : option Claim;
  rq_idempotency_key : option (option string);
  rq_config : option CommandConfig;
  rq_producer : option RedpandaProducer;
  rq_reply_state : bool
}.

Record HotPathCommandContext := mkHotPathCommandContext {
  ctx_envelope : CommandEnvelope;
  ctx_ack : QueuedCommandAck;
  ctx_wait_timeout : Z
}.

Definition idempotency_key (req : HttpRequest) : Result HttpResponse string :=
  let? value := ok_or (bad_request "Idempotency-Key header is required") (rq_idempotency_key req) in
  let? key := ok_or (bad_request "Idempotency-Key header must be valid UTF-8") value in
  let key := trim key in
  if is_empty key then Err (bad_request "Idempotency-Key header cannot be empty") else Ok key.

(** [uuid] is the text of the fresh [Uuid::new_v4()]. *)
Definition command_context (req : HttpRequest) (claim : Claim) (uuid : string)
    : Result HttpResponse HotPathCommandContext :=
  let? config := ok_or (internal_server_error "server config is not initialized") (rq_config req) in
  let? idempotency_key := idempotency_key req in
  let request_id := "req_" +:+ uuid in
  Ok {|
    ctx_envelope := {|
      env_request_id := request_id;
      env_idempotency_key := idempotency_key;
      env_user_id := cl_userid claim;
      env_reply_partition := cc_server_reply_partition config |};
    ctx_ack := mkQueuedCommandAck request_id idempotency_key "queued";
    ctx_wait_timeout := cc_request_wait_timeout_ms config |}.

Definition redpanda_producer (req : HttpRequest) : Result HttpResponse RedpandaProducer :=
  ok_or (internal_server_error "redpanda producer is not initialized") (rq_producer req).

Definition reply_state (req : HttpRequest) : Result HttpResponse unit :=
  if rq_reply_state req then Ok tt else Err (internal_server_error "reply state is not initialized").

(** ** What the handlers share *)

(** The replies awaited, the sequence of order ids, and the wallet commands on
    the queue: key, partition and command. *)
Record ServerState := mkServerState {
  ss_replies : ReplyState;
  ss_order_id_seq : Z;
  ss_queue : list (string * Z * WalletCommand)
}.

(** A handler either answers at once or is left waiting on a channel. *)
Record Waiting := mkWaiting {
  wt_channel : Z;
  wt_timeout : Z;
  wt_ack : QueuedCommandAck
}.

Definition Handler (A : Type) : Type := M ServerState HttpResponse A.

(** What a request meets outside the handler: a fresh UUID, whether the database
    answers, and what becomes of its publication. *)
Record Draws := mkDraws {
  dw_uuid : string;
  dw_database : bool;
  dw_publication : Publication
}.

Definition allocate_order_id (d : Draws) : Handler Z := fun st =>
  if dw_database d then
    (Ok (ss_order_id_seq st),
     mkServerState (ss_replies st) (ss_order_id_seq st + 1) (ss_queue st))
  else (Err (internal_server_error "failed to allocate order id"), st).

Definition with_replies (f : ReplyState -> ReplyState) (st : ServerState) : ServerState :=
  mkServerState (f (ss_replies st)) (ss_order_id_seq st) (ss_queue st).

Definition await_registered (request_id : string) (user_id : Z) (kind : RequestKind)
    : Handler Z := fun st =>
  let '(channel, replies) := register_waiter request_id user_id kind (ss_replies st) in
  (Ok channel, with_replies (fun _ => replies) st).

(** [None]: the key has no partition, a panic. *)
Definition publish_wallet_command (d : Draws) (producer : RedpandaProducer) (key : string)
    (command : WalletCommand) (st : ServerState) : option bool * ServerState :=
  match wallet_producer_for_key producer key with
  | None => (None, st)
  | Some partition =>
      let stored := mkServerState (ss_replies st) (ss_order_id_seq st)
                      (ss_queue st ++ [(key, partition, command)]) in
      match dw_publication d with
      | Publication_Produced => (Some true, stored)
      | Publication_Failed => (Some false, st)
      | Publication_FailedAfterStoring => (Some false, stored)
      end
  end.

(** The end every handler of a command has: register, publish, wait. A panic is
    the connection dropped without a response, written as status 0. *)
Definition queue_command (d : Draws) (claim : Claim) (kind : RequestKind)
    (context : HotPathCommandContext) (producer : RedpandaProducer) (command : WalletCommand)
    : Handler Waiting :=
  let key := to_string (cl_userid claim) in
  let* channel := await_registered (ack_request_id (ctx_ack context)) (cl_userid claim) kind in
  fun st =>
    match publish_wallet_command d producer key command st with
    | (Some true, st') => (Ok (mkWaiting channel (ctx_wait_timeout context) (ctx_ack context)), st')
    | (Some false, st') =>
        (Err (internal_server_error "failed to queue wallet command"),
         with_replies (remove (ack_request_id (ctx_ack context))) st')
    | (None, st') => (Err (mkHttpResponse 0 false "" Body_None), st')
    end.

(** ** Orders: [modules/orders] *)

Definition MIN_LEVERAGE : Z := 1.
Definition MAX_LEVERAGE : Z := 100.
Definition DEFAULT_LEVERAGE : Z := 1.

Record PlaceOrder := mkPlaceOrder {
  po_market_id : Z;
  po_market_name : string;
  po_side : SideType;
  po_order_type : DbOrderType;
  po_quantity : Z;
  po_price : Z;
  po_margin : Z;
  po_margin_asset : AssetType;
  po_leverage : Z
}.

Record CancelOrderBody := mkCancelOrderBody { cob_market_id : Z; cob_order_id : Z }.

Record ValidatedPlaceOrder := mkValidatedPlaceOrder {
  vp_market_name : string;
  vp_required_margin : Z
}.

(** The products and sums are those of [i128]. *)
Definition compute_required_margin (quantity price leverage : Z) : Result string Z :=
  let notional := quantity * price in
  let required_margin := Z.quot (notional + leverage - 1) leverage in
  if in_i64b required_margin then Ok required_margin
  else Err "required margin exceeds supported range".

Definition leverage_message : string :=
  "leverage must be between " +:+ to_string MIN_LEVERAGE +:+ " and " +:+ to_string MAX_LEVERAGE.

Definition validate_place_order (order_data : PlaceOrder) : Result string ValidatedPlaceOrder :=
  if po_market_id order_data <=? 0 then Err "market_id must be greater than zero"
  else
    let market_name := trim (po_market_name order_data) in
    if is_empty market_name then Err "market_name cannot be empty"
    else if po_quantity order_data <=? 0 then Err "quantity must be greater than zero"
    else if po_price order_data <? 0 then Err "price cannot be negative"
    else if negb ((MIN_LEVERAGE <=? po_leverage order_data) && (po_leverage order_data <=? MAX_LEVERAGE))
    then Err leverage_message
    else if po_margin order_data <=? 0 then Err "margin must be greater than zero"
    else
      let? required_margin :=
        if po_price order_data =? 0 then Ok (po_margin order_data)
        else
          let? computed_margin :=
            compute_required_margin (po_quantity order_data) (po_price order_data)
              (po_leverage order_data) in
          if po_margin order_data <? computed_margin
          then Err ("margin must be at least required margin (" +:+ to_string computed_margin +:+ ")")
          else Ok computed_margin in
      Ok (mkValidatedPlaceOrder market_name required_margin).

Definition not_authorized : HttpResponse := unauthorized "user not authorized".
Definition not_authenticated : HttpResponse := unauthorized "user not authenticated.".

Definition place_order (d : Draws) (req : HttpRequest) (order_data : PlaceOrder) : Handler Waiting :=
  let* claim := lift (ok_or not_authorized (rq_claim req)) in
  let* validated_order := lift (map_err bad_request (validate_place_order order_data)) in
  let* context := lift (command_context req claim (dw_uuid d)) in
  let* producer := lift (redpanda_producer req) in
  do* lift (reply_state req) in
  let* order_id := allocate_order_id d in
  queue_command d claim RequestKind_PlaceOrder context producer
    (WalletCommand_PlaceOrderIntent {|
       poi_envelope := ctx_envelope context;
       poi_order_id := order_id;
       poi_market_id := po_market_id order_data;
       poi_market_name := vp_market_name validated_order;
       poi_side := side_to_protocol (po_side order_data);
       poi_order_type := order_type_to_protocol (po_order_type order_data);
       poi_quantity := po_quantity order_data;
       poi_price := po_price order_data;
       poi_margin_asset := asset_to_protocol (po_margin_asset order_data);
       poi_required_margin := vp_required_margin validated_order;
       poi_leverage := po_leverage order_data;
       poi_reduce_only := false |}).

Definition cancel_order (d : Draws) (req : HttpRequest) (order_data : CancelOrderBody)
    : Handler Waiting :=
  let* claim := lift (ok_or not_authorized (rq_claim req)) in
  if cob_market_id order_data <=? 0 then throw (bad_request "market_id must be greater than zero")
  else if cob_order_id order_data <=? 0 then throw (bad_request "order_id must be greater than zero")
  else
    let* context := lift (command_context req claim (dw_uuid d)) in
    let* producer := lift (redpanda_producer req) in
    do* lift (reply_state req) in
    queue_command d claim RequestKind_CancelOrder context producer
      (WalletCommand_CancelOrderIntent
         (mkCancelOrderIntent (ctx_envelope context) (cob_market_id order_data)
            (cob_order_id order_data))).

(** ** Balances: [modules/balances] *)

Record DepositBalance := mkDepositBalance {
  db_asset : AssetType;
  db_amount : Z;
  db_reference_id : option string
}.
Record WithdrawBalance := mkWithdrawBalance {
  wb_asset : AssetType;
  wb_amount : Z;
  wb_destination : string
}.

Definition add_balance (d : Draws) (req : HttpRequest) (deposit : DepositBalance) : Handler Waiting :=
  let* claim := lift (ok_or not_authenticated (rq_claim req)) in
  if db_amount deposit <=? 0 then throw (bad_request "amount must be greater than zero")
  else
    let* context := lift (command_context req claim (dw_uuid d)) in
    let* producer := lift (redpanda_producer req) in
    do* lift (reply_state req) in
    queue_command d claim RequestKind_Deposit context producer
      (WalletCommand_Deposit
         (mkDeposit (ctx_envelope context) (asset_to_protocol (db_asset deposit)) (db_amount deposit)
            (default (ack_idempotency_key (ctx_ack context)) (db_reference_id deposit)))).

Definition withdraw_balance (d : Draws) (req : HttpRequest) (withdraw : WithdrawBalance)
    : Handler Waiting :=
  let* claim := lift (ok_or not_authenticated (rq_claim req)) in
  if wb_amount withdraw <=? 0 then throw (bad_request "amount must be greater than zero")
  else if is_empty (trim (wb_destination withdraw))
  then throw (bad_request "destination cannot be empty")
  else
    let* context := lift (command_context req claim (dw_uuid d)) in
    let* producer := lift (redpanda_producer req) in
    do* lift (reply_state req) in
    queue_command d claim RequestKind_Withdraw context producer
      (WalletCommand_Withdraw
         (mkWithdraw (ctx_envelope context) (asset_to_protocol (wb_asset withdraw))
            (wb_amount withdraw) (wb_destination withdraw))).

(** ** Positions: [modules/positions] *)

Definition DEFAULT_CLOSE_LEVERAGE : Z := 1.
Definition DEFAULT_CLOSE_MARGIN : Z := 1.

Record ClosePositionRequest := mkClosePositionRequest {
  cp_market_id : Z;
  cp_quantity : option Z;
  cp_price : option Z;
  cp_margin : option Z;
  cp_margin_asset : AssetType;
  cp_leverage : Z
}.

(** The columns of the open position the handler reads. *)
Record OpenPosition := mkOpenPosition {
  op_market_id : Z;
  op_market_name : string;
  op_side : SideType;
  op_quantity : Z
}.

Definition close_required_margin (margin : option Z) : Result string Z :=
  let margin := default DEFAULT_CLOSE_MARGIN margin in
  if margin <=? 0 then Err "margin must be greater than zero" else Ok margin.

Definition validate_close_leverage (leverage : Z) : Result string unit :=
  if negb ((MIN_LEVERAGE <=? leverage) && (leverage <=? MAX_LEVERAGE)) then Err leverage_message
  else Ok tt.

Definition closing_side (side : SideType) : Side :=
  match side with SideType_LONG => Side_SHORT | SideType_SHORT => Side_LONG end.

(** [get_user_open_position] is the read of the user's position in a market. *)
Definition close_position (d : Draws)
    (get_user_open_position : Z -> Z -> Result unit (option OpenPosition))
    (req : HttpRequest) (request : ClosePositionRequest) : Handler Waiting :=
  let* claim := lift (ok_or not_authenticated (rq_claim req)) in
  if cp_market_id request <=? 0 then throw (bad_request "market_id must be greater than zero")
  else
    let* found := lift (map_err (fun _ => internal_server_error "failed to load open position")
                          (get_user_open_position (cl_userid claim) (cp_market_id request))) in
    let* position := lift (ok_or (bad_request "no open position for market") found) in
    let quantity := default (op_quantity position) (cp_quantity request) in
    if quantity <=? 0 then throw (bad_request "quantity must be greater than zero")
    else if op_quantity position <? quantity
    then throw (bad_request "close quantity cannot exceed open position quantity")
    else
      let price := default 0 (cp_price request) in
      if price <? 0 then throw (bad_request "price cannot be negative")
      else
        let* required_margin := lift (map_err bad_request (close_required_margin (cp_margin request))) in
        do* lift (map_err bad_request (validate_close_leverage (cp_leverage request))) in
        let order_type := if price =? 0 then OrderType_MARKET else OrderType_LIMIT in
        let* context := lift (command_context req claim (dw_uuid d)) in
        let* producer := lift (redpanda_producer req) in
        do* lift (reply_state req) in
        let* order_id := allocate_order_id d in
        queue_command d claim RequestKind_PlaceOrder context producer
          (WalletCommand_PlaceOrderIntent {|
             poi_envelope := ctx_envelope context;
             poi_order_id := order_id;
             poi_market_id := op_market_id position;
             poi_market_name := op_market_name position;
             poi_side := closing_side (op_side position);
             poi_order_type := order_type;
             poi_quantity := quantity;
             poi_price := price;
             poi_margin_asset := asset_to_protocol (cp_margin_asset request);
             poi_required_margin := required_margin;
             poi_leverage := cp_leverage request;
             poi_reduce_only := true |}).

(** ** The status of a request: [modules/requests] *)

Definition get_request_status (req : HttpRequest) (request_id : string) (st : ServerState)
    : HttpResponse :=
  match rq_claim req with
  | None => not_authenticated
  | Some claim =>
      if rq_reply_state req then
        match get_for_user request_id (cl_userid claim) (ss_replies st) with
        | Some record => mkHttpResponse 200 true "request status" (Body_Reply record)
        | None => mkHttpResponse 404 false "request not found" Body_None
        end
      else internal_server_error "reply state is not initialized"
  end.

(** The requests that become wallet commands. *)
Inductive CommandRequest :=
| CommandRequest_PlaceOrder (body : PlaceOrder)
| CommandRequest_CancelOrder (body : CancelOrderBody)
| CommandRequest_Deposit (body : DepositBalance)
| CommandRequest_Withdraw (body : WithdrawBalance)
| CommandRequest_ClosePosition (body : ClosePositionRequest).

Definition handle_command (d : Draws)
    (get_user_open_position : Z -> Z -> Result unit (option OpenPosition))
    (req : HttpRequest) (request : CommandRequest) : Handler Waiting :=
  match request with
  | CommandRequest_PlaceOrder body => place_order d req body
  | CommandRequest_CancelOrder body => cancel_order d req body
  | CommandRequest_Deposit body => add_balance d req body
  | CommandRequest_Withdraw body => withdraw_balance d req body
  | CommandRequest_ClosePosition body => close_position d get_user_open_position req body
  end.
