(* ===== verification/ServerHandlersTheorems.v ===== *)
(** * ServerHandlersTheorems: what the HTTP server puts on the wallet's queue *)

From S2P Require Import Prelude Text Protocol Broker Postgres WalletDb WalletRepository WalletOwners WalletOutbox WalletQueueTheorems ProjectorMath ProjectorPositions.
From S2P Require Import ServerReplies ServerRepliesTheorems ServerHandlers.

(** ** The margin of an order *)

Lemma ceiling_least n leverage :
  0 <= n -> 0 < leverage ->
  let m := Z.quot (n + leverage - 1) leverage in
  0 <= m /\ n <= m * leverage /\ (forall k, n <= k * leverage -> m <= k).
Proof.
  intros Hn Hl m. unfold m. rewrite Z.quot_div_nonneg by lia.
  pose proof (Z.div_mod (n + leverage - 1) leverage ltac:(lia)) as Hdiv.
  pose proof (Z.mod_pos_bound (n + leverage - 1) leverage ltac:(lia)).
  split; [apply Z.div_pos; lia|]. split; [lia|]. intros k Hk. nia.
Qed.

(** The margin an order needs is the least integer that covers its
    notional at its leverage; the 128-bit arithmetic never overflows, and the
    request is refused exactly when that integer is no [i64]. *)
Theorem required_margin_least quantity price leverage :
  0 < quantity <= i64_max -> 0 <= price <= i64_max ->
  MIN_LEVERAGE <= leverage <= MAX_LEVERAGE ->
  in_i128 (quantity * price + leverage - 1) /\
  match compute_required_margin quantity price leverage with
  | Ok m => quantity * price <= m * leverage /\ (forall k, quantity * price <= k * leverage -> m <= k)
            /\ 0 <= m <= i64_max
  | Err e => e = "required margin exceeds supported range" /\
             forall k, quantity * price <= k * leverage -> i64_max < k
  end.
Proof.
  unfold MIN_LEVERAGE, MAX_LEVERAGE. intros Hq Hp Hl.
  assert (0 <= quantity * price <= i64_max * i64_max) as Hn
    by (split; [lia|]; apply Z.mul_le_mono_nonneg; lia).
  split; [unfold in_i128, i128_min, i128_max, i64_max in *; lia|].
  unfold compute_required_margin.
  destruct (ceiling_least (quantity * price) leverage) as (H0 & Hge & Hleast); [lia..|].
  set (m := Z.quot _ _) in *.
  destruct (in_i64b m) eqn:Hm.
  - apply in_i64b_spec in Hm. unfold in_i64 in Hm. auto with lia.
  - apply in_i64b_false in Hm. split; [done|]. intros k Hk%Hleast. unfold in_i64, i64_min in Hm. lia.
Qed.

Lemma validate_place_order_ok o v :
  validate_place_order o = Ok v ->
  0 < po_market_id o /\ vp_market_name v = trim (po_market_name o) /\ vp_market_name v <> "" /\
  0 < po_quantity o /\ 0 <= po_price o /\ MIN_LEVERAGE <= po_leverage o <= MAX_LEVERAGE /\
  vp_required_margin v <= po_margin o /\
  (po_price o = 0 -> vp_required_margin v = po_margin o /\ 0 < po_margin o) /\
  (po_price o <> 0 ->
     compute_required_margin (po_quantity o) (po_price o) (po_leverage o) = Ok (vp_required_margin v)).
Proof.
  unfold validate_place_order. intros H. case_if_in H; [done|].
  destruct (is_empty (trim (po_market_name o))) eqn:Hname; [done|].
  apply bool_decide_eq_false in Hname.
  case_if_in H; [done|]. case_if_in H; [done|]. case_if_in H; [done|]. case_if_in H; [done|].
  destruct (po_price o =? 0) eqn:Hprice; cbn in H; split_bool.
  - injection H as <-. cbn. split_and!; try done; lia.
  - destruct (compute_required_margin _ _ _) as [m|] eqn:Hm; [|done]. cbn in H.
    case_if_in H; [done|]. injection H as <-. cbn. split_and!; try done; lia.
Qed.

(** ** The producer *)

Lemma producer_new_ok connect brokers topic producer :
  RedpandaProducer_new connect brokers topic = Ok producer ->
  rp_wallet_commands_topic producer = topic /\
  (exists l client topics, parse_brokers brokers = Ok l /\ connect l = Ok client /\
     list_topics client = Ok topics /\
     partitions_in PublishError_TopicNotFound PublishError_TopicHasNoPartitions topics topic
       = Ok (rp_wallet_commands producer)) /\
  rp_wallet_commands producer <> [].
Proof.
  unfold RedpandaProducer_new. destruct (parse_brokers brokers) as [l|] eqn:Hl; [|done]. cbn.
  destruct (connect l) as [client|] eqn:Hc; [|done]. cbn.
  destruct (list_topics client) as [topics|] eqn:Ht; [|done]. cbn.
  destruct (partitions_in _ _ _ _) as [ps|] eqn:Hps; [|done]. cbn.
  destruct (clients_for _ _ _ _) as [cs|] eqn:Hcs; [|done]. intros [= <-].
  apply clients_for_ok in Hcs as ->. cbn. split; [done|].
  split; [by exists l, client, topics|]. by apply partitions_in_ok in Hps as [? _].
Qed.

(** ** The end of every handler *)

(** What a command of the server promises the wallet. *)
Definition well_formed (command : WalletCommand) : Prop :=
  match command with
  | WalletCommand_PlaceOrderIntent c =>
      0 < poi_quantity c /\ 0 <= poi_price c /\
      MIN_LEVERAGE <= poi_leverage c <= MAX_LEVERAGE /\
      (poi_reduce_only c = false ->
         0 < poi_market_id c /\ poi_market_name c <> "" /\
         (0 < poi_price c ->
            poi_quantity c * poi_price c <= poi_required_margin c * poi_leverage c)) /\
      0 < poi_required_margin c
  | WalletCommand_CancelOrderIntent c => 0 < coi_market_id c /\ 0 < coi_order_id c
  | WalletCommand_Deposit c => 0 < dep_amount c
  | WalletCommand_Withdraw c => 0 < wdr_amount c /\ trim (wdr_destination c) <> ""
  | WalletCommand_ReleaseReservation _ | WalletCommand_SettleTrade _ => False
  end.

Section Handlers.
Context (d : Draws) (get_user_open_position : Z -> Z -> Result unit (option OpenPosition)).
Context (req : HttpRequest).

(** The state after one command went to the queue, or none: [stored] says which. *)
Definition queue_after (st st' : ServerState) (stored : option (string * Z * WalletCommand)) : Prop :=
  ss_queue st' = ss_queue st ++ option_list stored.

(** A handler that answered at once has left no waiter of its own. *)
Definition no_waiter_left (request_id : string) (st st' : ServerState) : Prop :=
  rs_sent (ss_replies st') = rs_sent (ss_replies st) /\
  (rs_records (ss_replies st') = rs_records (ss_replies st) \/
   rs_records (ss_replies st') = delete request_id (rs_records (ss_replies st))).

(** What a command handler does: answer with an error and store nothing; or store
    one command of the caller, and then wait on a channel registered for its
    request, or answer 500 because the broker's acknowledgement failed. *)
Definition command_outcome (st : ServerState) (r : Result HttpResponse Waiting) (st' : ServerState)
    : Prop :=
  (exists response, r = Err response /\ 400 <= hr_status response /\
     queue_after st st' None /\ no_waiter_left ("req_" +:+ dw_uuid d) st st') \/
  (exists claim key producer config command partition,
     rq_claim req = Some claim /\ rq_config req = Some config /\ rq_producer req = Some producer /\
     idempotency_key req = Ok key /\ key <> "" /\
     envelope_of command = Some (mkCommandEnvelope ("req_" +:+ dw_uuid d) key (cl_userid claim)
                                   (cc_server_reply_partition config)) /\
     well_formed command /\
     wallet_producer_for_key producer (to_string (cl_userid claim)) = Some partition /\
     queue_after st st' (Some (to_string (cl_userid claim), partition, command)) /\
     ((r = Err (internal_server_error "failed to queue wallet command") /\
       no_waiter_left ("req_" +:+ dw_uuid d) st st') \/
      exists kind,
        r = Ok (mkWaiting (rs_next_channel (ss_replies st)) (cc_request_wait_timeout_ms config)
                  (mkQueuedCommandAck ("req_" +:+ dw_uuid d) key "queued")) /\
        ss_replies st' =
          (register_waiter ("req_" +:+ dw_uuid d) (cl_userid claim) kind (ss_replies st)).2)).

Lemma outcome_error response st :
  400 <= hr_status response -> command_outcome st (Err response) st.
Proof.
  intros Hs. left. exists response. split; [done|]. split; [done|].
  split; [unfold queue_after; by rewrite app_nil_r|]. split; [done|by left].
Qed.

Lemma command_context_ok claim uuid context :
  command_context req claim uuid = Ok context ->
  exists key config, rq_config req = Some config /\ idempotency_key req = Ok key /\ key <> "" /\
    context = mkHotPathCommandContext
      (mkCommandEnvelope ("req_" +:+ uuid) key (cl_userid claim) (cc_server_reply_partition config))
      (mkQueuedCommandAck ("req_" +:+ uuid) key "queued") (cc_request_wait_timeout_ms config).
Proof.
  unfold command_context. destruct (rq_config req) as [config|]; [|done]. cbn.
  destruct (idempotency_key req) as [key|] eqn:Hkey; [|done]. cbn. intros [= <-].
  exists key, config. split; [done|]. split; [done|]. split; [|done]. revert Hkey.
  unfold idempotency_key. destruct (rq_idempotency_key req) as [[v|]|]; cbn; [|done..].
  destruct (is_empty (trim v)) eqn:He; [done|]. intros [= <-]. by apply bool_decide_eq_false in He.
Qed.

Lemma error_status_context claim uuid response :
  command_context req claim uuid = Err response -> 400 <= hr_status response.
Proof.
  unfold command_context. destruct (rq_config req) as [config|]; cbn; [|by intros [= <-]].
  unfold idempotency_key. destruct (rq_idempotency_key req) as [[v|]|]; cbn; [|by intros [= <-]..].
  destruct (is_empty (trim v)); cbn; [by intros [= <-]|done].
Qed.

Lemma producer_for_some producer key :
  rp_wallet_commands producer <> [] -> exists p, wallet_producer_for_key producer key = Some p.
Proof.
  intros Hps. unfold wallet_producer_for_key. apply lookup_lt_is_Some_2. unfold stable_partition.
  assert (0 < Z.of_nat (length (rp_wallet_commands producer))) as Hlen
    by (destruct (rp_wallet_commands producer); [done|cbn; lia]).
  pose proof (Z.mod_pos_bound (fnv1a key) _ Hlen). lia.
Qed.

(** A request that is left waiting: its command is queued on the caller's
    partition, and it waits on the channel that was registered for it. *)
Lemma queue_command_waits claim kind context producer command st waiting st' :
  queue_command d claim kind context producer command st = (Ok waiting, st') ->
  exists partition,
    wallet_producer_for_key producer (to_string (cl_userid claim)) = Some partition /\
    ss_queue st' = ss_queue st ++ [(to_string (cl_userid claim), partition, command)] /\
    let '(channel, replies) :=
      register_waiter (ack_request_id (ctx_ack context)) (cl_userid claim) kind (ss_replies st) in
    wt_channel waiting = channel /\ ss_replies st' = replies.
Proof.
  unfold queue_command, await_registered, bind. cbn. unfold publish_wallet_command.
  destruct (wallet_producer_for_key _ _) as [p|]; [|done].
  destruct (dw_publication d); [|done..]. intros [= <- <-]. by exists p.
Qed.

(** The order ids a handler drew do not matter. *)
Lemma queue_command_outcome claim kind key config producer command st r st' :
  rq_claim req = Some claim -> rq_config req = Some config -> rq_producer req = Some producer ->
  idempotency_key req = Ok key -> key <> "" -> rp_wallet_commands producer <> [] ->
  let context := mkHotPathCommandContext
      (mkCommandEnvelope ("req_" +:+ dw_uuid d) key (cl_userid claim) (cc_server_reply_partition config))
      (mkQueuedCommandAck ("req_" +:+ dw_uuid d) key "queued") (cc_request_wait_timeout_ms config) in
  envelope_of command = Some (ctx_envelope context) -> well_formed command ->
  queue_command d claim kind context producer command st = (r, st') ->
  command_outcome st r st'.
Proof.
  intros Hclaim Hconfig Hproducer Hkey Hne Hps context Henv Hwf.
  destruct (producer_for_some producer (to_string (cl_userid claim)) Hps) as [p Hp].
  assert (forall q, no_waiter_left ("req_" +:+ dw_uuid d) st
    (with_replies (remove ("req_" +:+ dw_uuid d))
       (mkServerState (register_waiter ("req_" +:+ dw_uuid d) (cl_userid claim) kind (ss_replies st)).2
          (ss_order_id_seq st) q))) as Hleft.
  { intros q. split; [done|]. right. cbn. by rewrite delete_insert_eq. }
  unfold queue_command, await_registered, bind. cbn.
  unfold publish_wallet_command. rewrite Hp.
  destruct (dw_publication d); intros [= <- <-].
  - right. exists claim, key, producer, config, command, p. do 9 (split; [done|]). right. by exists kind.
  - left. eexists. split; [done|]. split; [done|].
    split; [unfold queue_after; cbn; by rewrite app_nil_r|apply Hleft].
  - right. exists claim, key, producer, config, command, p. do 9 (split; [done|]). left.
    split; [done|apply Hleft].
Qed.

Lemma outcome_seq seq st r st' :
  command_outcome (mkServerState (ss_replies st) seq (ss_queue st)) r st' -> command_outcome st r st'.
Proof. done. Qed.

Hypothesis producer_built : forall producer, rq_producer req = Some producer ->
  exists connect brokers topic, RedpandaProducer_new connect brokers topic = Ok producer.

Lemma producer_partitions producer :
  rq_producer req = Some producer -> rp_wallet_commands producer <> [].
Proof.
  intros (connect & brokers & topic & [_ Hnew]%producer_new_ok)%producer_built.
  by destruct Hnew as (_ & Hnew).
Qed.

(** The steps before a command is queued: a failing one answers with an error. *)
Lemma outcome_lift {A} (m : Result HttpResponse A) (k : A -> Handler Waiting) st r st' :
  bind (lift m) k st = (r, st') ->
  (forall response, m = Err response -> 400 <= hr_status response) ->
  (forall a, m = Ok a -> k a st = (r, st') -> command_outcome st r st') ->
  command_outcome st r st'.
Proof.
  unfold bind, lift. destruct m as [a|response]; [by eauto|].
  intros [= <- <-] He _. apply outcome_error. by apply He.
Qed.

Lemma outcome_throw response st r st' :
  (throw response : Handler Waiting) st = (r, st') -> 400 <= hr_status response ->
  command_outcome st r st'.
Proof. intros [= <- <-]. apply outcome_error. Qed.

Lemma outcome_claim response (k : Claim -> Handler Waiting) st r st' :
  (let* claim := lift (ok_or response (rq_claim req)) in k claim) st = (r, st') ->
  400 <= hr_status response ->
  (forall claim, rq_claim req = Some claim -> k claim st = (r, st') -> command_outcome st r st') ->
  command_outcome st r st'.
Proof.
  intros H Hs Hk. eapply outcome_lift; [exact H|by destruct (rq_claim req); [|intros ? [= <-]]|].
  intros claim Hclaim. apply Hk. destruct (rq_claim req); [by injection Hclaim as ->|done].
Qed.

(** From the context on. *)
Lemma outcome_queue claim kind (command : HotPathCommandContext -> Z -> WalletCommand) st r st'
    (k : HotPathCommandContext -> RedpandaProducer -> Handler Waiting) :
  rq_claim req = Some claim ->
  (forall context id, envelope_of (command context id) = Some (ctx_envelope context)) ->
  (forall context id, well_formed (command context id)) ->
  (forall context producer st, exists id,
     k context producer st = queue_command d claim kind context producer (command context id) st \/
     k context producer st =
       (let* order_id := allocate_order_id d in
        queue_command d claim kind context producer (command context order_id)) st) ->
  (let* context := lift (command_context req claim (dw_uuid d)) in
   let* producer := lift (redpanda_producer req) in
   do* lift (reply_state req) in
   k context producer) st = (r, st') ->
  command_outcome st r st'.
Proof.
  intros Hclaim Henv Hwf Hk H.
  eapply outcome_lift; [exact H|intros; by eapply error_status_context|]. clear H.
  intros context (key & config & Hconfig & Hkey & Hne & ->)%command_context_ok H.
  eapply outcome_lift; [exact H| |].
  { unfold redpanda_producer. destruct (rq_producer req); cbn; [done|by intros ? [= <-]]. }
  clear H. intros producer Hproducer H.
  assert (rq_producer req = Some producer) as Hp
    by (unfold redpanda_producer in Hproducer; destruct (rq_producer req); [by injection Hproducer as ->|done]).
  eapply outcome_lift; [exact H| |].
  { unfold reply_state. destruct (rq_reply_state req); [done|by intros ? [= <-]]. }
  clear H. intros [] _ H.
  destruct (Hk (mkHotPathCommandContext
      (mkCommandEnvelope ("req_" +:+ dw_uuid d) key (cl_userid claim) (cc_server_reply_partition config))
      (mkQueuedCommandAck ("req_" +:+ dw_uuid d) key "queued") (cc_request_wait_timeout_ms config))
    producer st) as (id & [Heq|Heq]); rewrite Heq in H; clear Heq.
  - refine (queue_command_outcome _ _ _ _ _ _ _ _ _ Hclaim Hconfig Hp Hkey Hne
      (producer_partitions _ Hp) _ _ H); [by rewrite Henv|apply Hwf].
  - revert H. unfold bind at 1, allocate_order_id. destruct (dw_database d).
    + intros H. apply (outcome_seq (ss_order_id_seq st + 1)).
      refine (queue_command_outcome _ _ _ _ _ _ _ _ _ Hclaim Hconfig Hp Hkey Hne
        (producer_partitions _ Hp) _ _ H); [by rewrite Henv|apply Hwf].
    + intros [= <- <-]. by apply outcome_error.
Qed.

Lemma place_order_outcome o st r st' :
  place_order d req o st = (r, st') -> command_outcome st r st'.
Proof.
  intros H. eapply outcome_claim; [exact H|done|]. clear H. intros claim Hc H.
  eapply outcome_lift; [exact H| |].
  { destruct (validate_place_order o); [done|by intros ? [= <-]]. }
  clear H. intros v Hv H.
  destruct (validate_place_order o) as [v'|] eqn:Hval; [|done]. injection Hv as ->.
  apply validate_place_order_ok in Hval as (Hm & Hn & Hne & Hq & Hp & Hl & Hle & H0 & Hcomp).
  eapply (outcome_queue claim RequestKind_PlaceOrder (fun context id => WalletCommand_PlaceOrderIntent
    (mkPlaceOrderIntent (ctx_envelope context) id (po_market_id o) (vp_market_name v)
       (side_to_protocol (po_side o)) (order_type_to_protocol (po_order_type o)) (po_quantity o)
       (po_price o) (asset_to_protocol (po_margin_asset o)) (vp_required_margin v) (po_leverage o) false)));
    [exact Hc|done| |intros; exists 0; right; reflexivity|exact H].
  intros context id. cbn. unfold MIN_LEVERAGE, MAX_LEVERAGE in *.
  destruct (decide (po_price o = 0)) as [Hz|Hz].
  - destruct (H0 Hz) as [-> Hpos]. split_and!; try lia. intros _. split_and!; [lia|done|lia].
  - specialize (Hcomp Hz). unfold compute_required_margin in Hcomp.
    destruct (ceiling_least (po_quantity o * po_price o) (po_leverage o)) as (_ & Hge & _);
      [apply Z.mul_nonneg_nonneg; lia|lia|].
    destruct (in_i64b _); [|done]. injection Hcomp as Hcomp. rewrite Hcomp in Hge.
    assert (0 < po_quantity o * po_price o) by (apply Z.mul_pos_pos; lia).
    split_and!; try nia. intros _. split_and!; [lia|done|lia].
Qed.

Lemma cancel_order_outcome o st r st' :
  cancel_order d req o st = (r, st') -> command_outcome st r st'.
Proof.
  intros H. eapply outcome_claim; [exact H|done|]. clear H. intros claim Hc H.
  case_if_in H; [by eapply outcome_throw; [exact H|]|]. case_if_in H; [by eapply outcome_throw; [exact H|]|].
  eapply (outcome_queue claim RequestKind_CancelOrder (fun context _ => WalletCommand_CancelOrderIntent
    (mkCancelOrderIntent (ctx_envelope context) (cob_market_id o) (cob_order_id o))));
    [exact Hc|done|by cbn|intros; exists 0; left; reflexivity|exact H].
Qed.

Lemma add_balance_outcome o st r st' :
  add_balance d req o st = (r, st') -> command_outcome st r st'.
Proof.
  intros H. eapply outcome_claim; [exact H|done|]. clear H. intros claim Hc H.
  case_if_in H; [by eapply outcome_throw; [exact H|]|].
  eapply (outcome_queue claim RequestKind_Deposit (fun context _ => WalletCommand_Deposit
    (mkDeposit (ctx_envelope context) (asset_to_protocol (db_asset o)) (db_amount o)
       (default (ack_idempotency_key (ctx_ack context)) (db_reference_id o)))));
    [exact Hc|done|by cbn|intros; exists 0; left; reflexivity|exact H].
Qed.

Lemma withdraw_balance_outcome o st r st' :
  withdraw_balance d req o st = (r, st') -> command_outcome st r st'.
Proof.
  intros H. eapply outcome_claim; [exact H|done|]. clear H. intros claim Hc H.
  case_if_in H; [by eapply outcome_throw; [exact H|]|]. unfold is_empty in H.
  case_if_in H; [by eapply outcome_throw; [exact H|]|].
  eapply (outcome_queue claim RequestKind_Withdraw (fun context _ => WalletCommand_Withdraw
    (mkWithdraw (ctx_envelope context) (asset_to_protocol (wb_asset o)) (wb_amount o)
       (wb_destination o))));
    [exact Hc|done|by cbn|intros; exists 0; left; reflexivity|exact H].
Qed.

Lemma close_position_outcome o st r st' :
  close_position d get_user_open_position req o st = (r, st') -> command_outcome st r st'.
Proof.
  intros H. eapply outcome_claim; [exact H|done|]. clear H. intros claim Hc H.
  case_if_in H; [by eapply outcome_throw; [exact H|]|].
  eapply outcome_lift; [exact H|by destruct (get_user_open_position _ _); [|intros ? [= <-]]|].
  clear H. intros found _ H.
  eapply outcome_lift; [exact H|by destruct found; [|intros ? [= <-]]|]. clear H. intros position _ H.
  cbv beta zeta in H.
  destruct (default (op_quantity position) (cp_quantity o) <=? 0) eqn:?; [by eapply outcome_throw; [exact H|]|].
  destruct (op_quantity position <? default (op_quantity position) (cp_quantity o)) eqn:?;
    [by eapply outcome_throw; [exact H|]|].
  destruct (default 0 (cp_price o) <? 0) eqn:?; [by eapply outcome_throw; [exact H|]|]. split_bool.
  eapply outcome_lift; [exact H|by destruct (close_required_margin _); [|intros ? [= <-]]|].
  clear H. intros margin Hmargin H.
  eapply outcome_lift; [exact H|by destruct (validate_close_leverage _); [|intros ? [= <-]]|].
  clear H. intros u Hlev H.
  unfold close_required_margin in Hmargin. cbv zeta in Hmargin. unfold validate_close_leverage in Hlev.
  case_if_in Hmargin; [done|]. case_if_in Hlev; [done|].
  eapply (outcome_queue claim RequestKind_PlaceOrder (fun context id => WalletCommand_PlaceOrderIntent
    (mkPlaceOrderIntent (ctx_envelope context) id (op_market_id position) (op_market_name position)
       (closing_side (op_side position))
       (if default 0 (cp_price o) =? 0 then OrderType_MARKET else OrderType_LIMIT)
       (default (op_quantity position) (cp_quantity o)) (default 0 (cp_price o))
       (asset_to_protocol (cp_margin_asset o)) margin (cp_leverage o) true)));
    [exact Hc|done| |intros; exists 0; right; reflexivity|exact H].
  intros context id. cbn. injection Hmargin as <-. split_and!; try lia; done.
Qed.

(** ** A server that is ready *)

(** The caller is authenticated and sent a key, the application is set up, and
    database and broker answer. *)
Record ready (claim : Claim) : Prop := {
  rd_claim : rq_claim req = Some claim;
  rd_key : exists key, idempotency_key req = Ok key;
  rd_config : is_Some (rq_config req);
  rd_producer : exists producer, rq_producer req = Some producer /\ rp_wallet_commands producer <> [];
  rd_replies : rq_reply_state req = true;
  rd_database : dw_database d = true;
  rd_broker : dw_publication d = Publication_Produced
}.

(** The requests that deserve to be queued. *)
Definition acceptable (claim : Claim) (request : CommandRequest) : Prop :=
  match request with
  | CommandRequest_PlaceOrder o => exists validated, validate_place_order o = Ok validated
  | CommandRequest_CancelOrder o => 0 < cob_market_id o /\ 0 < cob_order_id o
  | CommandRequest_Deposit o => 0 < db_amount o
  | CommandRequest_Withdraw o => 0 < wb_amount o /\ trim (wb_destination o) <> ""
  | CommandRequest_ClosePosition o =>
      0 < cp_market_id o /\ 0 <= default 0 (cp_price o) /\ 0 < default 1 (cp_margin o) /\
      1 <= cp_leverage o <= 100 /\
      exists position,
        get_user_open_position (cl_userid claim) (cp_market_id o) = Ok (Some position) /\
        0 < default (op_quantity position) (cp_quantity o) <= op_quantity position
  end.

Lemma queue_command_ready claim kind context producer command st :
  ready claim -> rp_wallet_commands producer <> [] ->
  exists waiting st', queue_command d claim kind context producer command st = (Ok waiting, st').
Proof.
  intros Hr Hps. destruct (producer_for_some producer (to_string (cl_userid claim)) Hps) as [p Hp].
  unfold queue_command, await_registered, bind. cbn. unfold publish_wallet_command.
  rewrite Hp, (rd_broker _ Hr). eauto.
Qed.

Lemma tail_ready claim st (k : HotPathCommandContext -> RedpandaProducer -> Handler Waiting) :
  ready claim ->
  (forall context producer st, rp_wallet_commands producer <> [] ->
     exists waiting st', k context producer st = (Ok waiting, st')) ->
  exists waiting st',
    (let* context := lift (command_context req claim (dw_uuid d)) in
     let* producer := lift (redpanda_producer req) in
     do* lift (reply_state req) in
     k context producer) st = (Ok waiting, st').
Proof.
  intros [_ [key Hkey] [config Hconfig] (producer & Hproducer & Hps) Hreplies _ _] Hk.
  unfold command_context, redpanda_producer, reply_state, bind, lift.
  rewrite Hconfig, Hproducer, Hreplies. cbn. rewrite Hkey. cbn. by apply Hk.
Qed.

Lemma tail_ready_id claim kind context producer (command : Z -> WalletCommand) st :
  ready claim -> rp_wallet_commands producer <> [] ->
  exists waiting st',
    (let* order_id := allocate_order_id d in
     queue_command d claim kind context producer (command order_id)) st = (Ok waiting, st').
Proof.
  intros Hr Hps. unfold bind at 1, allocate_order_id. rewrite (rd_database _ Hr).
  by apply queue_command_ready.
Qed.

(** A guard that does not hold. *)
Ltac passes := rewrite ?(proj2 (Z.leb_gt _ _)), ?(proj2 (Z.ltb_ge _ _)) by lia.

Lemma handle_command_ready claim request st :
  ready claim -> acceptable claim request ->
  exists waiting st', handle_command d get_user_open_position req request st = (Ok waiting, st').
Proof.
  intros Hr Hok. destruct request as [o|o|o|o|o]; cbn [handle_command acceptable] in *.
  - destruct Hok as [v Hv]. unfold place_order, bind at 1 2, lift at 1 2.
    rewrite (rd_claim _ Hr), Hv. cbn [ok_or map_err].
    apply tail_ready; [done|]. intros. by apply tail_ready_id.
  - unfold cancel_order, bind at 1, lift at 1. rewrite (rd_claim _ Hr). cbn [ok_or]. passes.
    apply tail_ready; [done|]. intros. by apply queue_command_ready.
  - unfold add_balance, bind at 1, lift at 1. rewrite (rd_claim _ Hr). cbn [ok_or]. passes.
    apply tail_ready; [done|]. intros. by apply queue_command_ready.
  - destruct Hok as [Hamount Hdest]. unfold withdraw_balance, bind at 1, lift at 1.
    rewrite (rd_claim _ Hr). cbn [ok_or]. passes. unfold is_empty. rewrite bool_decide_false by done.
    apply tail_ready; [done|]. intros. by apply queue_command_ready.
  - destruct Hok as (Hm & Hprice & Hmargin & Hlev & position & Hread & Hq).
    unfold close_position, bind at 1 2 3, lift at 1 2 3. rewrite (rd_claim _ Hr). cbn [ok_or]. passes.
    rewrite Hread. cbn [map_err ok_or]. cbv zeta. passes.
    unfold close_required_margin, DEFAULT_CLOSE_MARGIN. cbv zeta. passes.
    unfold validate_close_leverage, MIN_LEVERAGE, MAX_LEVERAGE.
    rewrite (proj2 (Z.leb_le 1 _)), (proj2 (Z.leb_le _ 100)) by lia.
    unfold bind at 1 2, lift at 1 2. cbn [map_err negb andb].
    apply tail_ready; [done|]. intros. by apply tail_ready_id.
Qed.

Lemma handle_command_outcome request st r st' :
  handle_command d get_user_open_position req request st = (r, st') -> command_outcome st r st'.
Proof.
  destruct request; [apply place_order_outcome|apply cancel_order_outcome
    |apply add_balance_outcome|apply withdraw_balance_outcome|apply close_position_outcome].
Qed.

(** Claim C35. Whoever calls a command endpoint (place, close or cancel an
    order, deposit, withdraw), and whatever fails on the way: either nothing is
    queued, the answer is an error and no waiter is left; or exactly one command
    is queued, well formed, under the caller's own user id, idempotency key and
    key partition, and the handler waits on the channel registered for it (or
    answers 500 because the broker did not acknowledge what it had stored). An
    acceptable request of an authenticated caller always gets to wait when nothing
    fails. *)
Theorem commands_are_the_callers request st r st' :
  handle_command d get_user_open_position req request st = (r, st') ->
  command_outcome st r st' /\
  forall claim, ready claim -> acceptable claim request -> exists waiting, r = Ok waiting.
Proof.
  intros H. split; [by eapply handle_command_outcome|].
  intros claim Hr Hok. destruct (handle_command_ready claim request st Hr Hok) as (w & st2 & H2).
  rewrite H in H2. injection H2 as -> _. eauto.
Qed.
End Handlers.

(** ** Round trips of the enums *)

Lemma asset_mapping_roundtrip a : asset_to_db (asset_to_protocol a) = a.
Proof. by destruct a. Qed.
Lemma side_mapping_roundtrip s : side_to_db (side_to_protocol s) = s.
Proof. by destruct s. Qed.

(** ** An example *)

Definition order_1 : PlaceOrder :=
  mkPlaceOrder 1 " SOL-PERP " SideType_LONG DbOrderType_LIMIT 10 100 1000 AssetType_USDC 10.
Definition request_1 : HttpRequest :=
  mkHttpRequest (Some (mkClaim 42 "alice" 0)) (Some (Some " client-key-1 ")) (Some (mkCommandConfig 2 5000))
    (Some (mkRedpandaProducer "wallet.commands" [0; 1; 2])) true.
Definition draws_1 : Draws := mkDraws "uuid-1" true Publication_Produced.
Definition server_1 : ServerState := mkServerState ReplyState_default 9 [].

Example order_1_margin : validate_place_order order_1 = Ok (mkValidatedPlaceOrder "SOL-PERP" 100).
Proof. reflexivity. Qed.

Example order_1_queued :
  map (fun '(key, _, command) => (key, env_idempotency_key <$> envelope_of command))
    (ss_queue (place_order draws_1 request_1 order_1 server_1).2) = [("42", Some "client-key-1")].
Proof. vm_compute. reflexivity. Qed.

Lemma commands_are_the_callers_witness :
  exists waiting st',
    handle_command draws_1 (fun _ _ => Ok None) request_1 (CommandRequest_PlaceOrder order_1)
      server_1 = (Ok waiting, st') /\
    command_outcome draws_1 request_1 server_1 (Ok waiting) st'.
Proof.
  destruct (handle_command draws_1 (fun _ _ => Ok None) request_1 (CommandRequest_PlaceOrder order_1)
    server_1) as [r st'] eqn:E.
  destruct (commands_are_the_callers draws_1 (fun _ _ => Ok None) request_1
    ltac:(intros producer [= <-];
          by exists (fun _ => Ok (mkCluster (Ok [("wallet.commands", [0; 1; 2])]) (fun _ _ => Ok tt))),
            "localhost:9092", "wallet.commands")
    _ _ _ _ E) as [Hout Hready].
  destruct (Hready (mkClaim 42 "alice" 0)) as [waiting ->]; [|by eexists; reflexivity|by eauto].
  split; [reflexivity|eexists; reflexivity|by eexists|by eexists|reflexivity..].
Defined.

Lemma required_margin_least_witness :
  compute_required_margin 10 101 3 = Ok 337 /\ 10 * 101 <= 337 * 3 /\ forall k, 10 * 101 <= k * 3 -> 337 <= k.
Proof.
  destruct (required_margin_least 10 101 3) as [_ H]; [done..|].
  split; [reflexivity|]. destruct H as (H1 & H2 & _). split; [exact H1|exact H2].
Defined.
