(* ===== verification/ServerAuth.v ===== *)
(** * ServerAuth: accounts and tokens

    [apps/server]: signing up and in ([modules/auth]), the middleware that
    authenticates a request ([middlewares/auth.rs]); [apps/ws/src/auth.rs]: the
    same for a websocket. Password hashing and token signing are libraries:
    their operations are a class. *)

From S2P Require Import Prelude Text ServerHandlers.

(** [bcrypt] and [jsonwebtoken]; a time is in seconds. *)
Class AuthLibraries := {
  hash : string -> option string;
  verify : string -> string -> option bool;
  encode_token : Claim -> string -> option string;
  decode_token : string -> string -> Z -> option Claim
}.

(** A character of a token: base64url, and the dots between its parts. *)
Definition token_char (c : Ascii.ascii) : bool :=
  let n := Ascii.nat_of_ascii c in
  ((48 <=? n) && (n <=? 57) || (65 <=? n) && (n <=? 90) || (97 <=? n) && (n <=? 122)
   || (n =? 45) || (n =? 46) || (n =? 95))%nat.
Fixpoint all_chars (p : Ascii.ascii -> bool) (s : string) : bool :=
  match s with EmptyString => true | String c s' => p c && all_chars p s' end.

(** What the code relies on: a password verifies against its own hash, a token
    decodes to the claim it was made of until it expires, and is written in
    base64url. *)
Class AuthLaws `{AuthLibraries} := {
  verify_hash password hashed : hash password = Some hashed -> verify password hashed = Some true;
  decode_encode claim secret token now :
    encode_token claim secret = Some token -> now <= cl_exp claim ->
    decode_token token secret now = Some claim;
  token_text claim secret token :
    encode_token claim secret = Some token -> token <> "" /\ all_chars token_char token = true
}.

(** ** The table of users: [crates/db/src/users.rs] *)

Record UserRow := mkUserRow { us_username : string; us_hashed_password : string }.

Notation Users := (gmap Z UserRow).

Definition find_user_by_username (username : string) (users : Users) : option (Z * UserRow) :=
  List.find (fun '(_, row) => bool_decide (us_username row = username)) (map_to_list users).

Definition find_user_by_id (user_id : Z) (users : Users) : option (Z * UserRow) :=
  (fun row => (user_id, row)) <$> users !! user_id.

(** [username TEXT UNIQUE] *)
Definition username_taken (user_id : Z) (username : string) (users : Users) : bool :=
  existsb (fun '(id, row) => negb (id =? user_id) && bool_decide (us_username row = username))
    (map_to_list users).

(** [INSERT ... ON CONFLICT (user_id) DO UPDATE]; [None] is a violation of the
    unique username. *)
Definition upsert_user (user_id : Z) (username hashed_password : string) (users : Users)
    : option Users :=
  if username_taken user_id username users then None
  else Some (<[user_id := mkUserRow username hashed_password]> users).

(** ** Signing up and in: [modules/auth] *)

Record AuthUser := mkAuthUser { au_username : string; au_password : string }.
Record UserRecord := mkUserRecord {
  ur_username : string;
  ur_userid : Z;
  ur_jwt_token : string
}.
Record AuthResponse := mkAuthResponse {
  ar_status : Z;
  ar_success : bool;
  ar_info : string;
  ar_body : option UserRecord
}.

Definition auth_failure (status : Z) (info : string) : AuthResponse :=
  mkAuthResponse status false info None.

(** [random_range lo hi] is the number drawn from the closed interval; the cast
    of the [u64] wraps. *)
Definition generate_id (random_range : Z -> Z -> Z) : Z :=
  let min_val := 1000000000 in
  let max_val := i64_max in
  i64_wrap (random_range min_val max_val).

Definition jwt_expiration (now : Z) : Z := now + 24 * 3600.

Section Auth.
Context `{AuthLibraries}.

(** Whether each query of the handler reaches the database. *)
Definition signup_user (secret : string) (now : Z) (random_range : Z -> Z -> Z) (lookup_ok insert_ok : bool)
    (user_info : AuthUser) (users : Users) : AuthResponse * Users :=
  if negb lookup_ok then (auth_failure 500 "internal server error.", users)
  else if bool_decide (is_Some (find_user_by_username (au_username user_info) users))
  then (auth_failure 400 "user already exists.", users)
  else
    let user_id := generate_id random_range in
    match hash (au_password user_info) with
    | None => (auth_failure 500 "internal server error.", users)
    | Some hashed_password =>
        match if insert_ok then upsert_user user_id (au_username user_info) hashed_password users
              else None with
        | None => (auth_failure 500 "internal server error.", users)
        | Some users' =>
            let my_claims := mkClaim user_id (au_username user_info) (jwt_expiration now) in
            match encode_token my_claims secret with
            | None => (auth_failure 500 "internal server error.", users')
            | Some token =>
                (mkAuthResponse 201 true "user registered"
                   (Some (mkUserRecord (au_username user_info) user_id token)), users')
            end
        end
    end.

Definition signin_user (secret : string) (now : Z) (lookup_ok : bool) (user_info : AuthUser)
    (users : Users) : AuthResponse :=
  if negb lookup_ok then auth_failure 500 "internal server error"
  else
    match find_user_by_username (au_username user_info) users with
    | None => auth_failure 404 "user does not exist"
    | Some (user_id, user_details) =>
        match verify (au_password user_info) (us_hashed_password user_details) with
        | None => auth_failure 500 "internal server error"
        | Some false => auth_failure 401 "password incorrect"
        | Some true =>
            let my_claims := mkClaim user_id (us_username user_details) (jwt_expiration now) in
            match encode_token my_claims secret with
            | None => auth_failure 500 "internal server error"
            | Some token =>
                mkAuthResponse 200 true "user logged in"
                  (Some (mkUserRecord (us_username user_details) user_id token))
            end
        end
    end.

(** ** Authenticating a request *)

(** [auth_middleware]: the claim it inserts, or the response it returns. The
    header is missing, not visible ASCII, or a text. *)
Definition auth_middleware (secret : string) (now : Z) (authorization : option (option string))
    : Result HttpResponse Claim :=
  let? header := ok_or (unauthorized "authorization header is missing") authorization in
  let? auth_header := ok_or (unauthorized "invalid header encoding") header in
  match strip_prefix "Bearer " auth_header with
  | None => Err (unauthorized "authorization header must contain 'Bearer ' ")
  | Some auth_token =>
      ok_or (unauthorized "invalid token") (decode_token auth_token secret now)
  end.

(** [apps/ws/src/auth.rs] *)
Inductive AuthError :=
| AuthError_InvalidToken
| AuthError_MissingToken.

Definition token_from_authorization (authorization : option (option string)) : option string :=
  header ← authorization;
  value ← header;
  token ← strip_prefix "Bearer " value;
  let token := trim token in
  if is_empty token then None else Some token.

Definition token_pair (pair : string) : option string :=
  '(key, value) ← split_once (Ascii.ascii_of_nat 61) pair;
  if bool_decide (key = "token") && negb (is_empty (trim value)) then Some (trim value) else None.

(** [query.split('&').find_map(...)] *)
Definition token_from_query (query : string) : option string :=
  head (omap token_pair (split (Ascii.ascii_of_nat 38) query)).

Definition authenticate_request (secret : string) (now : Z) (authorization : option (option string))
    (query : string) : Result AuthError Claim :=
  let? token :=
    ok_or AuthError_MissingToken
      (match token_from_authorization authorization with
       | Some token => Some token
       | None => token_from_query query
       end) in
  ok_or AuthError_InvalidToken (decode_token token secret now).
End Auth.
