(* ===== verification/ServerAuthTheorems.v ===== *)
(** * ServerAuthTheorems: a token opens both services as its user *)

From S2P Require Import Prelude Text ServerHandlers ServerAuth.

#[local] Arguments trim : simpl never.
#[local] Arguments is_empty : simpl never.

(** ** Texts without blanks *)

Lemma token_char_facts c :
  token_char c = true ->
  is_whitespace c = false /\ Ascii.eqb (Ascii.ascii_of_nat 38) c = false.
Proof.
  intros H. destruct c as [[] [] [] [] [] [] [] []]; vm_compute in H |- *; try discriminate; done.
Qed.

Lemma trim_start_token s : all_chars token_char s = true -> trim_start s = s.
Proof. destruct s as [|c s]; cbn; [done|]. by intros [[-> _]%token_char_facts _]%andb_true_iff. Qed.

Lemma trim_end_token s : all_chars token_char s = true -> trim_end s = s.
Proof.
  induction s as [|c s IH]; cbn; [done|]. intros [[Hc _]%token_char_facts Hs]%andb_true_iff.
  rewrite (IH Hs), Hc. by destruct s.
Qed.

Lemma trim_token s : all_chars token_char s = true -> trim s = s.
Proof. intros Hs. unfold trim. by rewrite trim_start_token, trim_end_token. Qed.

Lemma all_chars_app p s t : all_chars p (s +:+ t) = all_chars p s && all_chars p t.
Proof.
  induction s as [|c s IH]; [done|]. change (String c s +:+ t) with (String c (s +:+ t)). cbn.
  by rewrite IH, andb_assoc.
Qed.

Lemma all_chars_impl (p q : Ascii.ascii -> bool) s :
  (forall c, p c = true -> q c = true) -> all_chars p s = true -> all_chars q s = true.
Proof.
  intros Hpq. induction s as [|c s IH]; cbn; [done|].
  intros [->%Hpq Hs]%andb_true_iff. by apply IH.
Qed.

Lemma split_free c s : all_chars (fun d => negb (Ascii.eqb c d)) s = true -> split c s = [s].
Proof.
  induction s as [|d s IH]; [done|]. cbn. intros [Hd%negb_true_iff Hs]%andb_true_iff.
  by rewrite Hd, (IH Hs).
Qed.

(** ** The table of users *)

Definition usernames_unique (users : Users) : Prop :=
  forall id1 id2 r1 r2, users !! id1 = Some r1 -> users !! id2 = Some r2 ->
    us_username r1 = us_username r2 -> id1 = id2.

Lemma find_user_unique users id row :
  usernames_unique users -> users !! id = Some row ->
  find_user_by_username (us_username row) users = Some (id, row).
Proof.
  intros Hu Hrow. unfold find_user_by_username.
  destruct (List.find _ (map_to_list users)) as [[id' row']|] eqn:Hf.
  - apply List.find_some in Hf as [Hin%list_elem_of_In%elem_of_map_to_list Hn%bool_decide_eq_true].
    assert (id' = id) as -> by (by eapply Hu). congruence.
  - eapply List.find_none in Hf; [|apply list_elem_of_In, elem_of_map_to_list, Hrow].
    by apply bool_decide_eq_false in Hf.
Qed.

Lemma find_user_none users username id row :
  find_user_by_username username users = None -> users !! id = Some row -> us_username row <> username.
Proof.
  intros Hf Hrow. unfold find_user_by_username in Hf.
  eapply List.find_none in Hf; [|apply list_elem_of_In, elem_of_map_to_list, Hrow].
  by apply bool_decide_eq_false in Hf.
Qed.

Lemma upsert_unique users user_id username hashed users' :
  usernames_unique users -> upsert_user user_id username hashed users = Some users' ->
  users' = <[user_id := mkUserRow username hashed]> users /\ usernames_unique users'.
Proof.
  unfold upsert_user. intros Hu. destruct (username_taken _ _ _) eqn:Ht; [done|].
  intros [= <-]. split; [done|].
  assert (forall id row, users !! id = Some row -> us_username row = username -> id = user_id) as Hfree.
  { intros id row Hrow Hn. destruct (decide (id = user_id)) as [|Hne]; [done|]. exfalso.
    rewrite <- not_true_iff_false in Ht. apply Ht. unfold username_taken. apply existsb_exists.
    exists (id, row). split; [by apply list_elem_of_In, elem_of_map_to_list|].
    rewrite bool_decide_true by done. by rewrite (proj2 (Z.eqb_neq id user_id)). }
  intros id1 id2 r1 r2 [[<- <-]|[_ H1]]%lookup_insert_Some [[<- <-]|[_ H2]]%lookup_insert_Some;
    cbn; [done|intros; symmetry; by eapply Hfree|intros; by eapply Hfree|by eapply Hu].
Qed.

Section Auth.
Context `{AL : AuthLibraries} {ALL : AuthLaws}.

(** ** Tokens *)

(** Both services take the token for the claim. *)
Definition opens_both (secret token : string) (now : Z) (claim : Claim) : Prop :=
  auth_middleware secret now (Some (Some ("Bearer " +:+ token))) = Ok claim /\
  authenticate_request secret now (Some (Some ("Bearer " +:+ token))) EmptyString = Ok claim /\
  authenticate_request secret now None ("token=" +:+ token) = Ok claim.

Lemma token_opens_both secret claim token now :
  encode_token claim secret = Some token -> now <= cl_exp claim ->
  opens_both secret token now claim.
Proof.
  intros He Hnow. pose proof (decode_encode _ _ _ _ He Hnow) as Hd.
  destruct (token_text _ _ _ He) as [Hne Ht].
  assert (is_empty token = false) as Hempty by (by apply bool_decide_eq_false).
  split_and!.
  - unfold auth_middleware. cbn [ok_or rbind]. by rewrite strip_prefix_app, Hd.
  - unfold authenticate_request, token_from_authorization. cbn [mbind option_bind].
    rewrite strip_prefix_app. cbn. by rewrite trim_token, Hempty by done; cbn; rewrite Hd.
  - unfold authenticate_request, token_from_query. cbn [token_from_authorization mbind option_bind].
    rewrite split_free.
    2: { rewrite all_chars_app. apply andb_true_iff. split; [done|].
         revert Ht. apply all_chars_impl. intros c [_ Hc]%token_char_facts. by rewrite Hc. }
    assert (token_pair ("token=" +:+ token) = Some token) as Hpair
      by (unfold token_pair; change (split_once _ _) with (Some ("token", token)); cbn;
          by rewrite trim_token, Hempty by done).
    change (omap token_pair ?l) with (option_list (token_pair ("token=" +:+ token))).
    rewrite Hpair. cbn. by rewrite Hd.
Qed.

(** Claim C39. A user who signed up can use the exchange as that user: the
    token of the answer opens the HTTP server and the websocket for a day; and in
    any later table that still has the row, signing in with the same password
    gives a token that does the same under the same id. *)
Theorem signed_up_user_gets_in secret now random_range user_info users response users' record :
  usernames_unique users ->
  signup_user secret now random_range true true user_info users = (response, users') ->
  ar_body response = Some record ->
  ar_status response = 201 /\ ur_username record = au_username user_info /\
  ur_userid record = generate_id random_range /\ usernames_unique users' /\
  (forall t, t <= now + 86400 ->
     opens_both secret (ur_jwt_token record) t
       (mkClaim (ur_userid record) (au_username user_info) (jwt_expiration now))) /\
  (forall later users2 claim token,
     usernames_unique users2 -> users2 !! ur_userid record = users' !! ur_userid record ->
     claim = mkClaim (ur_userid record) (au_username user_info) (jwt_expiration later) ->
     encode_token claim secret = Some token ->
     signin_user secret later true user_info users2 =
       mkAuthResponse 200 true "user logged in"
         (Some (mkUserRecord (au_username user_info) (ur_userid record) token)) /\
     forall t, t <= later + 86400 -> opens_both secret token t claim).
Proof.
  intros Hu. unfold signup_user. cbn [negb].
  destruct (bool_decide (is_Some _)) eqn:Hexists; [by intros [= <- <-]|].
  destruct (hash (au_password user_info)) as [hashed|] eqn:Hhash; [|by intros [= <- <-]].
  destruct (upsert_user _ _ _ users) as [users1|] eqn:Hups; [|by intros [= <- <-]].
  apply (upsert_unique _ _ _ _ _ Hu) in Hups as [-> Hu1].
  set (claim := mkClaim (generate_id random_range) (au_username user_info) (jwt_expiration now)).
  destruct (encode_token claim secret) as [token|] eqn:Hdone; [|by intros [= <- <-]].
  intros [= <- <-] [= <-]. cbn. do 3 (split; [done|]). split; [done|]. split.
  - intros t Ht. apply token_opens_both; [done|]. cbn. unfold jwt_expiration. lia.
  - intros later users2 claim2 token2 Hu2 Hrow -> Henc. rewrite lookup_insert_eq in Hrow. split.
    + unfold signin_user. cbn [negb].
      pose proof (find_user_unique users2 _ _ Hu2 Hrow) as Hfind. cbn in Hfind. rewrite Hfind. cbn.
      by rewrite (verify_hash _ _ Hhash), Henc.
    + intros t Ht. apply token_opens_both; [done|]. cbn. unfold jwt_expiration. lia.
Qed.

(** A wrong password opens nothing: the answer carries no token. *)
Lemma wrong_password_refused secret now user_info users id row :
  usernames_unique users -> users !! id = Some row -> us_username row = au_username user_info ->
  verify (au_password user_info) (us_hashed_password row) = Some false ->
  signin_user secret now true user_info users = auth_failure 401 "password incorrect".
Proof.
  intros Hu Hrow Hn Hv. unfold signin_user. cbn [negb].
  rewrite <- Hn, (find_user_unique users id row Hu Hrow). by rewrite Hv.
Qed.

(** The id of a new user is drawn at random and written with an upsert: an id
    already taken is not noticed, and its owner's row is replaced. *)
Lemma signup_can_replace_user secret now random_range user_info users row hashed :
  usernames_unique users -> users !! generate_id random_range = Some row ->
  find_user_by_username (au_username user_info) users = None ->
  hash (au_password user_info) = Some hashed ->
  (signup_user secret now random_range true true user_info users).2 =
    <[generate_id random_range := mkUserRow (au_username user_info) hashed]> users /\
  us_username row <> au_username user_info.
Proof.
  intros Hu Hrow Hnone Hhash. split; [|by eapply find_user_none].
  unfold signup_user. cbn [negb]. rewrite Hnone, bool_decide_false by (by intros []).
  rewrite Hhash. unfold upsert_user.
  assert (username_taken (generate_id random_range) (au_username user_info) users = false) as ->.
  { apply not_true_iff_false. unfold username_taken. rewrite existsb_exists.
    intros ([id r] & Hin%list_elem_of_In%elem_of_map_to_list & [_ Hn%bool_decide_eq_true]%andb_true_iff).
    by apply (find_user_none _ _ _ _ Hnone Hin). }
  by destruct (encode_token _ secret).
Qed.
End Auth.

(** ** An example

    Libraries that know one user and two days. *)

Module AuthExample.
Definition alice (exp : Z) : Claim := mkClaim 1000000000 "alice" exp.

Definition example_encode (claim : Claim) (_ : string) : option string :=
  if bool_decide (cl_userid claim = 1000000000) && bool_decide (cl_username claim = "alice") then
    if cl_exp claim =? 86500 then Some "day.1"
    else if cl_exp claim =? 86600 then Some "day.2" else None
  else None.
Definition example_decode (token _ : string) (now : Z) : option Claim :=
  if bool_decide (token = "day.1") && (now <=? 86500) then Some (alice 86500)
  else if bool_decide (token = "day.2") && (now <=? 86600) then Some (alice 86600) else None.

#[local] Instance example_libraries : AuthLibraries := {|
  hash password := Some ("h" +:+ password);
  verify password hashed := Some (bool_decide (hashed = "h" +:+ password));
  encode_token := example_encode;
  decode_token := example_decode
|}.

#[local] Instance example_laws : AuthLaws.
Proof.
  assert (forall claim secret token, example_encode claim secret = Some token ->
    claim = alice 86500 /\ token = "day.1" \/ claim = alice 86600 /\ token = "day.2") as Hcases.
  { intros [u n e] secret token. unfold example_encode. cbn.
    repeat case_bool_decide; cbn; try done.
    destruct (e =? 86500) eqn:E1; [apply Z.eqb_eq in E1|destruct (e =? 86600) eqn:E2;
      [apply Z.eqb_eq in E2|done]]; intros [= <-]; subst; auto. }
  split.
  - cbn. intros password hashed [= <-]. by rewrite bool_decide_true.
  - cbn. intros claim secret token now [[-> ->]|[-> ->]]%Hcases Hle; cbn in Hle; unfold example_decode;
      cbn; by rewrite (proj2 (Z.leb_le _ _) Hle).
  - cbn. intros claim secret token [[-> ->]|[-> ->]]%Hcases; by vm_compute.
Qed.

Definition alice_user : AuthUser := mkAuthUser "alice" "secret".

Lemma signed_up_user_gets_in_witness :
  exists users' record,
    signup_user "s" 100 (fun lo _ => lo) true true alice_user ∅ =
      (mkAuthResponse 201 true "user registered" (Some record), users') /\
    opens_both "s" (ur_jwt_token record) 1000 (alice 86500) /\
    ar_status (signin_user "s" 200 true alice_user users') = 200.
Proof.
  destruct (signed_up_user_gets_in "s" 100 (fun lo _ => lo) alice_user ∅
    (mkAuthResponse 201 true "user registered" (Some (mkUserRecord "alice" 1000000000 "day.1")))
    {[1000000000 := mkUserRow "alice" "hsecret"]} (mkUserRecord "alice" 1000000000 "day.1"))
    as (_ & _ & _ & Hu & Hopen & Hsignin); [|reflexivity|reflexivity|].
  { intros id1 id2 r1 r2 H1. by rewrite lookup_empty in H1. }
  exists {[1000000000 := mkUserRow "alice" "hsecret"]}, (mkUserRecord "alice" 1000000000 "day.1").
  split; [reflexivity|]. split; [apply (Hopen 1000); lia|].
  destruct (Hsignin 200 {[1000000000 := mkUserRow "alice" "hsecret"]} (alice 86600) "day.2" Hu eq_refl eq_refl eq_refl)
    as [-> _]. reflexivity.
Defined.
End AuthExample.
