(* ===== verification/Query.v ===== *)
(** * Query: [SELECT ... ORDER BY ... LIMIT]

    What the reads of the databases share: rows in an order, the first of them,
    and the errors of a query. *)

From S2P Require Import Prelude.

(** ** Orders *)

(** [ORDER BY f ASC] and [ORDER BY f DESC], by an integer column. *)
Definition asc {A} (f : A -> Z) : relation A := fun a b => f a <= f b.
Definition desc {A} (f : A -> Z) : relation A := fun a b => f b <= f a.
(** [ORDER BY f DESC, g DESC] *)
Definition desc_then {A} (f g : A -> Z) : relation A := fun a b =>
  f b < f a \/ f a = f b /\ g b <= g a.

#[export] Instance asc_dec {A} (f : A -> Z) a b : Decision (asc f a b).
Proof. unfold asc. apply _. Defined.
#[export] Instance desc_dec {A} (f : A -> Z) a b : Decision (desc f a b).
Proof. unfold desc. apply _. Defined.
#[export] Instance desc_then_dec {A} (f g : A -> Z) a b : Decision (desc_then f g a b).
Proof. unfold desc_then. apply _. Defined.

(** A total preorder is what sorting needs. *)
Class SortOrder {A} (R : relation A) : Prop := {
  sort_transitive :: Transitive R;
  sort_total :: Total R
}.

#[export] Instance asc_order {A} (f : A -> Z) : SortOrder (asc f).
Proof. split; unfold asc; [intros ???; lia|intros ??; lia]. Qed.
#[export] Instance desc_order {A} (f : A -> Z) : SortOrder (desc f).
Proof. split; unfold desc; [intros ???; lia|intros ??; lia]. Qed.
#[export] Instance desc_then_order {A} (f g : A -> Z) : SortOrder (desc_then f g).
Proof. split; unfold desc_then; [intros ???; lia|intros ??; lia]. Qed.

Definition order_by {A} (R : relation A) `{!forall a b, Decision (R a b)} (rows : list A) : list A :=
  merge_sort R rows.
Definition limit {A} (n : Z) (rows : list A) : list A := take (Z.to_nat n) rows.

(** ** What a query answers *)

Section Answers.
Context {A : Type} (R : relation A) `{!forall a b, Decision (R a b)} `{!SortOrder R}.

(** Exactly the rows of [P], each once, in order. *)
Definition sorted_rows (P : A -> Prop) (rows : list A) : Prop :=
  StronglySorted R rows /\ NoDup rows /\ forall x, x ∈ rows <-> P x.

(** The first [n] of them: a row left out means that [n] rows before it are in. *)
Definition first_rows (n : Z) (P : A -> Prop) (rows : list A) : Prop :=
  StronglySorted R rows /\ NoDup rows /\ Z.of_nat (length rows) <= n /\
  (forall x, x ∈ rows -> P x) /\
  (forall x, P x -> x ∉ rows ->
     Z.of_nat (length rows) = n /\ forall y, y ∈ rows -> R y x).

Lemma elem_of_order_by rows x : x ∈ order_by R rows <-> x ∈ rows.
Proof. unfold order_by. by rewrite merge_sort_Permutation. Qed.

Lemma order_by_rows P rows :
  NoDup rows -> (forall x, x ∈ rows <-> P x) -> sorted_rows P (order_by R rows).
Proof.
  intros Hn Hp. split_and!.
  - apply StronglySorted_merge_sort; apply _.
  - unfold order_by. by rewrite merge_sort_Permutation.
  - intros x. by rewrite elem_of_order_by.
Qed.

Lemma sorted_take n l : StronglySorted R l -> StronglySorted R (take n l).
Proof. intros Hl. rewrite <- (take_drop n l) in Hl. by eapply StronglySorted_app_1_l. Qed.

Lemma limit_first n P rows :
  0 <= n -> sorted_rows P rows -> first_rows n P (limit n rows).
Proof.
  intros Hn (Hs & Hnd & Hp). unfold limit, first_rows. rewrite length_take. split_and!.
  - by apply sorted_take.
  - rewrite <- (take_drop (Z.to_nat n) rows) in Hnd. by apply NoDup_app in Hnd as [? _].
  - lia.
  - intros x Hx%elem_of_take. apply Hp. destruct Hx as (i & Hi & _). by eapply list_elem_of_lookup_2.
  - intros x Hx%Hp Hout. rewrite <- (take_drop (Z.to_nat n) rows) in Hx, Hs.
    apply elem_of_app in Hx as [?|Hin]; [done|]. split.
    + apply list_elem_of_lookup_1 in Hin as [i Hi%lookup_lt_Some]. rewrite length_drop in Hi. lia.
    + intros y Hy. by eapply StronglySorted_app_1_elem_of.
Qed.
End Answers.

(** ** Rows of a table *)

Section Rows.
Context {K A : Type} `{Countable K}.

(** [WHERE]: the rows with their keys. *)
Definition rows_where (p : K * A -> bool) (m : gmap K A) : list (K * A) :=
  filter (fun row => p row = true) (map_to_list m).

Lemma elem_of_rows_where p m row :
  row ∈ rows_where p m <-> m !! row.1 = Some row.2 /\ p row = true.
Proof.
  unfold rows_where. rewrite list_elem_of_filter. destruct row as [k a].
  rewrite elem_of_map_to_list. cbn. tauto.
Qed.
Lemma rows_where_NoDup p m : NoDup (rows_where p m).
Proof. apply NoDup_filter, NoDup_map_to_list. Qed.

Lemma select_rows (R : relation (K * A)) `{!forall a b, Decision (R a b)} `{!SortOrder R} p m :
  sorted_rows R (fun row => m !! row.1 = Some row.2 /\ p row = true) (order_by R (rows_where p m)).
Proof.
  apply order_by_rows; [apply _|apply rows_where_NoDup|apply elem_of_rows_where].
Qed.
End Rows.

(** ** Errors *)

Inductive SqlxError :=
| SqlxError_RowNotFound
| SqlxError_Other.

(** [up]: whether the query reaches the database. *)
Definition fetch_all {A} (up : bool) (rows : list A) : Result SqlxError (list A) :=
  if up then Ok rows else Err SqlxError_Other.
Definition fetch_optional {A} (up : bool) (row : option A) : Result SqlxError (option A) :=
  if up then Ok row else Err SqlxError_Other.
Definition fetch_one {A} (up : bool) (row : option A) : Result SqlxError A :=
  if up then ok_or SqlxError_RowNotFound row else Err SqlxError_Other.

(** [Ok(x) => Ok(Some(x)), Err(RowNotFound) => Ok(None), Err(_) => Err(e)] *)
Definition found_or {A E} (e : E) (r : Result SqlxError A) : Result E (option A) :=
  match r with
  | Ok a => Ok (Some a)
  | Err SqlxError_RowNotFound => Ok None
  | Err SqlxError_Other => Err e
  end.
