(* ===== verification/ServerReads.v ===== *)
(** * ServerReads: what the HTTP server reads

    The queries of [crates/db] behind the GET handlers of [apps/server/src/modules]
    (orders, positions, balances, fills, markets, users), the services that
    translate their errors and the handlers. The tables are those the wallet, the
    projector and the timeseries service write. [created_at] and [closed_at] are
    not columns of those models: the orders they induce are parameters. *)

From S2P Require Import Prelude Text Query Protocol Postgres WalletDb WalletRepository ProjectorMath ProjectorPositions ProjectorBook ProjectorDb Timeseries ServerReplies ServerHandlers ServerAuth.

(** A status and [ResponseBody<A>]. *)
Record Response (A : Type) := mkResponse {
  rsp_status : Z;
  rsp_success : bool;
  rsp_info : string;
  rsp_body : option A
}.
Arguments mkResponse {A} _ _ _ _.
Arguments rsp_status {A} _.
Arguments rsp_success {A} _.
Arguments rsp_info {A} _.
Arguments rsp_body {A} _.

Definition ok_response {A} (info : string) (body : option A) : Response A :=
  mkResponse 200 true info body.
Definition failure {A} (status : Z) (info : string) : Response A := mkResponse status false info None.
Definition storage_failure {A} : Response A := failure 500 "internal server error".

(** [extensions.get::<Claim>()], or the response without it. *)
Definition with_claim {A} (info : string) (claim : option Claim) (k : Claim -> Response A)
    : Response A :=
  match claim with Some claim => k claim | None => failure 401 info end.
Definition unauthorized_info : string := "user not authorized".
Definition unauthenticated_info : string := "user not authenticated.".

(** ** Orders: [crates/db/src/orders.rs], [modules/orders] *)

(** Rows with their keys. *)
Abbreviation OrderRow := (Z * ProjectedOrder)%type (only parsing).
Abbreviation OpenRow := ((Z * Z) * PositionRow)%type (only parsing).
Abbreviation ClosedRow := (Z * ClosedPositionRow)%type (only parsing).
Abbreviation UserCollateralRow := ((Z * AssetType) * BalanceSnapshot)%type (only parsing).
Abbreviation FillRow := (Z * ProjectedFill)%type (only parsing).
Abbreviation CandleEntry := ((Z * string * Z) * CandleRow)%type (only parsing).

Section Reads.
Context {SD : Serde}.

Section Orders.

(** The creation time of an order. *)
Variable created_at : Z -> Z.
Definition newest_order : relation OrderRow := desc (fun row => created_at row.1).
#[local] Instance newest_order_dec a b : Decision (newest_order a b) := desc_dec _ a b.

Definition get_order_by_order_id (up : bool) (order_id : Z) (db : ProjectorDb)
    : Result SqlxError OrderRow :=
  fetch_one up (pair order_id <$> orders db !! order_id).

Definition get_market_orders (up : bool) (user_id market_id : Z) (db : ProjectorDb)
    : Result SqlxError (list OrderRow) :=
  fetch_all up (order_by newest_order (rows_where (fun row =>
    (or_user_id row.2 =? user_id) && (or_market_id row.2 =? market_id)) (orders db))).

Definition get_open_market_orders (up : bool) (market_id : Z) (db : ProjectorDb)
    : Result SqlxError (list OrderRow) :=
  fetch_all up (order_by newest_order (rows_where (fun row =>
    (or_market_id row.2 =? market_id) && bool_decide (or_status row.2 = OrderStatus_OPEN))
    (orders db))).

Record PublicOpenOrder := mkPublicOpenOrder {
  pub_market_id : Z;
  pub_market_name : string;
  pub_side : SideType;
  pub_order_type : DbOrderType;
  pub_quantity : Z;
  pub_price : Z
}.

Definition PublicOpenOrder_from (order : OrderRow) : PublicOpenOrder :=
  let order := order.2 in
  mkPublicOpenOrder (or_market_id order) (or_market_name order) (or_side order)
    (or_order_type order) (or_quantity order) (or_price order).

Definition get_users_market_all_orders (up : bool) (user_id market_id : Z) (db : ProjectorDb)
    : Result unit (option (list OrderRow)) :=
  found_or tt (get_market_orders up user_id market_id db).
Definition get_all_open_orders (up : bool) (market_id : Z) (db : ProjectorDb)
    : Result unit (option (list OrderRow)) :=
  found_or tt (get_open_market_orders up market_id db).

Definition get_all_orders (up : bool) (claim : option Claim) (market_id : Z) (db : ProjectorDb)
    : Response (list OrderRow) :=
  with_claim unauthorized_info claim (fun claim =>
    match get_users_market_all_orders up (cl_userid claim) market_id db with
    | Ok (Some rows) => ok_response "user orders" (Some rows)
    | Ok None => ok_response "empty orders for user" None
    | Err _ => storage_failure
    end).

Definition get_open_orders (up : bool) (market_id : Z) (db : ProjectorDb)
    : Response (list PublicOpenOrder) :=
  match get_all_open_orders up market_id db with
  | Ok (Some rows) => ok_response "all open orders" (Some (map PublicOpenOrder_from rows))
  | Ok None => ok_response "no open orders" (Some [])
  | Err _ => storage_failure
  end.
End Orders.

(** ** Positions: [positions.rs], [closed_positions.rs], [modules/positions] *)

Definition get_position_by_user_market (up : bool) (user_id market_id : Z) (t : PositionTables)
    : Result SqlxError (option OpenRow) :=
  fetch_optional up (pair (user_id, market_id) <$> positions t !! (user_id, market_id)).

Definition get_position_by_id (up : bool) (position_id : Z) (t : PositionTables)
    : Result SqlxError (option OpenRow) :=
  fetch_optional up (head (rows_where (fun row => ps_position_id row.2 =? position_id) (positions t))).

Definition get_closed_position_by_id (up : bool) (position_id : Z) (t : PositionTables)
    : Result SqlxError (option ClosedRow) :=
  fetch_optional up (pair position_id <$> closed_positions t !! position_id).

Section ClosedPositions.
(** The time a position was closed. *)
Variable closed_at : Z -> Z.
Definition last_closed : relation ClosedRow := desc (fun row => closed_at row.1).
#[local] Instance last_closed_dec a b : Decision (last_closed a b) := desc_dec _ a b.

Definition get_closed_positions_by_user_market (up : bool) (user_id market_id : Z)
    (t : PositionTables) : Result SqlxError (list ClosedRow) :=
  fetch_all up (order_by last_closed (rows_where (fun row =>
    (cp_user_id row.2 =? user_id) && (ProjectorPositions.cp_market_id row.2 =? market_id))
    (closed_positions t))).

Definition get_user_closed_positions (up : bool) (user_id market_id : Z) (t : PositionTables)
    : Result unit (list ClosedRow) :=
  map_err (fun _ => tt) (get_closed_positions_by_user_market up user_id market_id t).

Definition get_closed_positions (up : bool) (claim : option Claim) (market_id : Z)
    (t : PositionTables) : Response (list ClosedRow) :=
  with_claim unauthenticated_info claim (fun claim =>
    match get_user_closed_positions up (cl_userid claim) market_id t with
    | Ok positions => ok_response "closed positions fetched" (Some positions)
    | Err _ => storage_failure
    end).
End ClosedPositions.

Definition get_user_open_position (up : bool) (t : PositionTables) (user_id market_id : Z)
    : Result unit (option OpenRow) :=
  map_err (fun _ => tt) (get_position_by_user_market up user_id market_id t).

Definition get_open_positions (up : bool) (claim : option Claim) (market_id : Z)
    (t : PositionTables) : Response OpenRow :=
  with_claim unauthenticated_info claim (fun claim =>
    match get_user_open_position up t (cl_userid claim) market_id with
    | Ok (Some position) => ok_response "open position fetched" (Some position)
    | Ok None => ok_response "no open position" None
    | Err _ => storage_failure
    end).

(** The columns [close_position] reads of the row. *)
Definition open_position_columns (row : OpenRow) : OpenPosition :=
  mkOpenPosition row.1.2 (ps_market_name row.2) (ps_side row.2) (ps_quantity row.2).
Definition read_open_position (up : bool) (t : PositionTables) (user_id market_id : Z)
    : Result unit (option OpenPosition) :=
  match get_user_open_position up t user_id market_id with
  | Ok row => Ok (open_position_columns <$> row)
  | Err e => Err e
  end.

(** ** Balances: [collaterals.rs], [modules/balances] *)

(** The query has no ORDER BY: its rows come in some order. *)
Definition get_collaterals (up : bool) (user_id : Z) (db : WalletDb)
    : Result SqlxError (list UserCollateralRow) :=
  fetch_all up (rows_where (fun row => row.1.1 =? user_id) (user_collaterals db)).
Definition get_collateral_by_asset (up : bool) (user_id : Z) (asset : AssetType) (db : WalletDb)
    : Result SqlxError UserCollateralRow :=
  fetch_one up (pair (user_id, asset) <$> user_collaterals db !! (user_id, asset)).

Definition get_user_balances (up : bool) (user_id : Z) (db : WalletDb)
    : Result unit (option (list UserCollateralRow)) :=
  found_or tt (get_collaterals up user_id db).
Definition get_user_asset_balances (up : bool) (user_id : Z) (asset : AssetType) (db : WalletDb)
    : Result unit (option UserCollateralRow) :=
  found_or tt (get_collateral_by_asset up user_id asset db).

Definition get_balance (up : bool) (claim : option Claim) (db : WalletDb)
    : Response (list UserCollateralRow) :=
  with_claim unauthenticated_info claim (fun claim =>
    match get_user_balances up (cl_userid claim) db with
    | Ok (Some balances) => ok_response "user's balances" (Some balances)
    | Ok None => ok_response "user's wallet is empty" (Some [])
    | Err _ => storage_failure
    end).

Definition get_currency_balance (up : bool) (claim : option Claim) (currency_type : AssetType)
    (db : WalletDb) : Response UserCollateralRow :=
  with_claim unauthenticated_info claim (fun claim =>
    match get_user_asset_balances up (cl_userid claim) currency_type db with
    | Ok (Some balance) => ok_response "asset values" (Some balance)
    | Ok None => ok_response "user has null asset value" None
    | Err _ => storage_failure
    end).

(** ** Fills: [fills.rs], [modules/fills] *)

Definition newest_fill : relation FillRow :=
  desc_then (fun row => fl_executed_at row.2) (fun row => row.1).
#[local] Instance newest_fill_dec a b : Decision (newest_fill a b) := desc_then_dec _ _ a b.

Definition get_fills_by_order_id (up : bool) (order_id : Z) (db : ProjectorDb)
    : Result SqlxError (list FillRow) :=
  fetch_all up (order_by newest_fill (rows_where (fun row =>
    (fl_maker_order_id row.2 =? order_id) || (fl_taker_order_id row.2 =? order_id)) (fills db))).
Definition get_fills_by_user_id (up : bool) (user_id : Z) (db : ProjectorDb)
    : Result SqlxError (list FillRow) :=
  fetch_all up (order_by newest_fill (rows_where (fun row =>
    (fl_maker_id row.2 =? user_id) || (fl_taker_id row.2 =? user_id)) (fills db))).
(** [INNER JOIN position_fills], whose pairs are unique. *)
Definition get_fills_by_position_id (up : bool) (position_id : Z) (db : ProjectorDb)
    : Result SqlxError (list FillRow) :=
  fetch_all up (order_by newest_fill (rows_where (fun row =>
    bool_decide ((position_id, row.1) ∈ position_fills (pj_positions db))) (fills db))).
Definition get_fills_by_closed_position_id (up : bool) (position_id : Z) (db : ProjectorDb)
    : Result SqlxError (list FillRow) :=
  fetch_all up (order_by newest_fill (rows_where (fun row =>
    bool_decide ((position_id, row.1) ∈ closed_position_fills (pj_positions db))) (fills db))).

Inductive FillServiceError :=
| FillServiceError_Forbidden
| FillServiceError_Storage.

(** [owner_up] and [up]: whether the query for the owner, and the one for the
    fills, reach the database, which stands at [db] and then at [db']. *)
Definition get_user_fills (up : bool) (user_id : Z) (db : ProjectorDb)
    : Result FillServiceError (option (list FillRow)) :=
  found_or FillServiceError_Storage (get_fills_by_user_id up user_id db).

Definition get_order_id_fills (owner_up up : bool) (user_id order_id : Z) (db db' : ProjectorDb)
    : Result FillServiceError (option (list FillRow)) :=
  match get_order_by_order_id owner_up order_id db with
  | Err SqlxError_RowNotFound => Ok None
  | Err SqlxError_Other => Err FillServiceError_Storage
  | Ok (_, order) =>
      if negb (or_user_id order =? user_id) then Err FillServiceError_Forbidden
      else found_or FillServiceError_Storage (get_fills_by_order_id up order_id db')
  end.

Definition get_position_id_fills (owner_up up : bool) (user_id position_id : Z) (db db' : ProjectorDb)
    : Result FillServiceError (option (list FillRow)) :=
  match get_position_by_id owner_up position_id (pj_positions db) with
  | Err _ => Err FillServiceError_Storage
  | Ok None => Ok None
  | Ok (Some ((owner, _), _)) =>
      if negb (owner =? user_id) then Err FillServiceError_Forbidden
      else found_or FillServiceError_Storage (get_fills_by_position_id up position_id db')
  end.

Definition get_position_closed_id_fills (owner_up up : bool) (user_id closed_position_id : Z)
    (db db' : ProjectorDb) : Result FillServiceError (option (list FillRow)) :=
  match get_closed_position_by_id owner_up closed_position_id (pj_positions db) with
  | Err _ => Err FillServiceError_Storage
  | Ok None => Ok None
  | Ok (Some (_, position)) =>
      if negb (cp_user_id position =? user_id) then Err FillServiceError_Forbidden
      else found_or FillServiceError_Storage
             (get_fills_by_closed_position_id up closed_position_id db')
  end.

(** The match every handler of fills ends in. *)
Definition fills_response (r : Result FillServiceError (option (list FillRow)))
    : Response (list FillRow) :=
  match r with
  | Ok (Some fills) => ok_response "fills fetched" (Some fills)
  | Ok None => ok_response "no fills" None
  | Err FillServiceError_Forbidden => failure 403 "user does not own this resource"
  | Err FillServiceError_Storage => storage_failure
  end.

Definition get_fills (up : bool) (claim : option Claim) (db : ProjectorDb)
    : Response (list FillRow) :=
  with_claim unauthenticated_info claim (fun claim =>
    fills_response (get_user_fills up (cl_userid claim) db)).
Definition get_orders_fills (owner_up up : bool) (claim : option Claim) (order_id : Z)
    (db db' : ProjectorDb) : Response (list FillRow) :=
  with_claim unauthenticated_info claim (fun claim =>
    fills_response (get_order_id_fills owner_up up (cl_userid claim) order_id db db')).
Definition get_positions_fills (owner_up up : bool) (claim : option Claim) (position_id : Z)
    (db db' : ProjectorDb) : Response (list FillRow) :=
  with_claim unauthenticated_info claim (fun claim =>
    fills_response (get_position_id_fills owner_up up (cl_userid claim) position_id db db')).
Definition get_closed_positions_fills (owner_up up : bool) (claim : option Claim)
    (closed_position_id : Z) (db db' : ProjectorDb) : Response (list FillRow) :=
  with_claim unauthenticated_info claim (fun claim =>
    fills_response
      (get_position_closed_id_fills owner_up up (cl_userid claim) closed_position_id db db')).

(** ** Markets: [candles.rs], [orderbook.rs], [modules/markets] *)

Definition SUPPORTED_INTERVALS : list string := ["1m"; "5m"; "15m"; "1h"; "1d"].
Definition DEFAULT_CANDLE_LIMIT : Z := 500.
Definition MAX_CANDLE_LIMIT : Z := 1000.
Definition DEFAULT_ORDERBOOK_DEPTH : Z := 50.
Definition MAX_ORDERBOOK_DEPTH : Z := 200.

Definition is_supported_interval (interval : string) : bool :=
  bool_decide (interval ∈ SUPPORTED_INTERVALS).

Definition bucket_of (row : CandleEntry) : Z := row.1.2.

Definition in_window (start until : option Z) (bucket_start : Z) : bool :=
  match start with Some start => start <=? bucket_start | None => true end
  && match until with Some until => bucket_start <? until | None => true end.

(** The most recent [limit] candles, oldest first. *)
Definition recent_candles (up : bool) (market_id : Z) (interval : string)
    (start until : option Z) (n : Z) (db : TimeseriesDb) : Result SqlxError (list CandleEntry) :=
  fetch_all up (order_by (asc bucket_of) (limit n (order_by (desc bucket_of) (rows_where (fun row =>
    (row.1.1.1 =? market_id) && bool_decide (row.1.1.2 = interval)
    && in_window start until (bucket_of row)) (candles db))))).

Record OrderBookLevelRow := mkOrderBookLevelRow { ol_price : Z; ol_quantity : Z }.
#[export] Instance OrderBookLevelRow_eq_dec : EqDecision OrderBookLevelRow.
Proof. solve_decision. Defined.
Record OrderBookSnapshot := mkOrderBookSnapshot {
  sn_market_id : Z;
  sn_engine_sequence : Z;
  sn_engine_timestamp_ms : Z;
  sn_bids : list OrderBookLevelRow;
  sn_asks : list OrderBookLevelRow
}.

Definition level_columns (row : (Z * string * Z) * (Z * Z)) : OrderBookLevelRow :=
  mkOrderBookLevelRow row.1.2 row.2.1.
Definition level_rows (market_id : Z) (side : string) (t : BookTables) : list OrderBookLevelRow :=
  map level_columns (rows_where (fun row =>
    (row.1.1.1 =? market_id) && bool_decide (row.1.1.2 = side)) (orderbook_levels t)).

Definition get_levels (up : bool) (market_id : Z) (side : string) (depth : Z) (t : BookTables)
    : Result SqlxError (list OrderBookLevelRow) :=
  if bool_decide (side = "BID")
  then fetch_all up (limit depth (order_by (desc ol_price) (level_rows market_id "BID" t)))
  else fetch_all up (limit depth (order_by (asc ol_price) (level_rows market_id "ASK" t))).

(** Three queries outside a transaction: each may fail, and each sees the tables
    as they stand when it runs. *)
Definition read_orderbook_snapshot (state_up bids_up asks_up : bool) (market_id depth : Z)
    (t t_bids t_asks : BookTables) : Result SqlxError OrderBookSnapshot :=
  let? state := fetch_optional state_up (orderbook_state t !! market_id) in
  let? bids := get_levels bids_up market_id "BID" depth t_bids in
  let? asks := get_levels asks_up market_id "ASK" depth t_asks in
  Ok (mkOrderBookSnapshot market_id (default 0 (fst <$> state)) (default 0 (snd <$> state))
        bids asks).

Inductive MarketServiceError :=
| MarketServiceError_InvalidInterval
| MarketServiceError_InvalidLimit
| MarketServiceError_InvalidTimestamp
| MarketServiceError_InvalidTimeRange
| MarketServiceError_InvalidDepth
| MarketServiceError_Storage.

Section Markets.
(** The milliseconds [DateTime::from_timestamp_millis] takes. *)
Variable valid_millis : Z -> bool.

Definition timestamp_millis (value : option Z) : Result MarketServiceError (option Z) :=
  match value with
  | None => Ok None
  | Some timestamp =>
      if valid_millis timestamp then Ok (Some timestamp)
      else Err MarketServiceError_InvalidTimestamp
  end.

Definition get_candles (up : bool) (market_id : Z) (interval : string)
    (start_ms end_ms limit : option Z) (db : TimeseriesDb)
    : Result MarketServiceError (list CandleEntry) :=
  if negb (is_supported_interval interval) then Err MarketServiceError_InvalidInterval
  else
    let limit := default DEFAULT_CANDLE_LIMIT limit in
    if negb ((1 <=? limit) && (limit <=? MAX_CANDLE_LIMIT)) then Err MarketServiceError_InvalidLimit
    else
      let? start := timestamp_millis start_ms in
      let? until := timestamp_millis end_ms in
      if match start, until with Some start, Some until => until <=? start | _, _ => false end
      then Err MarketServiceError_InvalidTimeRange
      else map_err (fun _ => MarketServiceError_Storage)
             (recent_candles up market_id interval start until limit db).

Definition get_orderbook (state_up bids_up asks_up : bool) (market_id : Z) (depth : option Z)
    (t t_bids t_asks : BookTables) : Result MarketServiceError OrderBookSnapshot :=
  let depth := default DEFAULT_ORDERBOOK_DEPTH depth in
  if negb ((1 <=? depth) && (depth <=? MAX_ORDERBOOK_DEPTH)) then Err MarketServiceError_InvalidDepth
  else map_err (fun _ => MarketServiceError_Storage)
         (read_orderbook_snapshot state_up bids_up asks_up market_id depth t t_bids t_asks).

Definition get_market_candles (up : bool) (market_id : Z) (interval : string)
    (start_ms end_ms limit : option Z) (db : TimeseriesDb) : Response (list CandleEntry) :=
  if market_id <=? 0 then failure 400 "market_id must be greater than zero"
  else
    match get_candles up market_id interval start_ms end_ms limit db with
    | Ok candles => ok_response "candles fetched" (Some candles)
    | Err MarketServiceError_InvalidInterval => failure 400 "unsupported candle interval"
    | Err MarketServiceError_InvalidLimit => failure 400 "limit must be between 1 and 1000"
    | Err MarketServiceError_InvalidDepth => failure 400 "depth must be between 1 and 200"
    | Err MarketServiceError_InvalidTimestamp =>
        failure 400 "start_ms and end_ms must be valid unix milliseconds"
    | Err MarketServiceError_InvalidTimeRange => failure 400 "start_ms must be less than end_ms"
    | Err MarketServiceError_Storage => storage_failure
    end.
End Markets.

Definition get_orderbook_snapshot (state_up bids_up asks_up : bool) (market_id : Z)
    (depth : option Z) (t t_bids t_asks : BookTables) : Response OrderBookSnapshot :=
  if market_id <=? 0 then failure 400 "market_id must be greater than zero"
  else
    match get_orderbook state_up bids_up asks_up market_id depth t t_bids t_asks with
    | Ok snapshot => ok_response "orderbook fetched" (Some snapshot)
    | Err MarketServiceError_InvalidDepth => failure 400 "depth must be between 1 and 200"
    | Err MarketServiceError_Storage => storage_failure
    | Err _ => failure 400 "invalid orderbook request"
    end.

(** ** Users: [users.rs], [modules/users] *)

(** [UserProfile], without its times. *)
Record UserProfile := mkUserProfile { up_user_id : Z; up_username : string }.
Definition UserProfile_from (user : Z * UserRow) : UserProfile :=
  mkUserProfile user.1 (us_username user.2).

Section UserHandlers.
(** The creation time of a user. *)
Variable joined_at : Z -> Z.

Definition find_all_users (up : bool) (users : gmap Z UserRow) : Result SqlxError (list (Z * UserRow)) :=
  fetch_all up (order_by (desc (fun user => joined_at user.1)) (map_to_list users)).
Definition list_users (up : bool) (users : gmap Z UserRow) : Result unit (list (Z * UserRow)) :=
  map_err (fun _ => tt) (find_all_users up users).

Definition get_all_users (up : bool) (claim : option Claim) (users : gmap Z UserRow)
    : Response (list UserProfile) :=
  with_claim unauthenticated_info claim (fun _ =>
    match list_users up users with
    | Ok users => ok_response "users fetched" (Some (map UserProfile_from users))
    | Err _ => storage_failure
    end).
End UserHandlers.

Definition get_user_by_userid (up : bool) (user_id : Z) (users : gmap Z UserRow)
    : Result unit (option (Z * UserRow)) :=
  map_err (fun _ => tt) (fetch_optional up (find_user_by_id user_id users)).

Definition get_user_details (up : bool) (claim : option Claim) (users : gmap Z UserRow)
    : Response UserProfile :=
  with_claim unauthenticated_info claim (fun claim =>
    match get_user_by_userid up (cl_userid claim) users with
    | Ok (Some user) => ok_response "user details" (Some (UserProfile_from user))
    | Ok None => failure 404 "user does not exist"
    | Err _ => storage_failure
    end).
End Reads.
