(* ===== verification/ServerReadsTheorems.v ===== *)
(** * ServerReadsTheorems: what the reads of the HTTP server answer

    Callers read their own rows and nothing else, an order book is read to its
    best levels and candles to the most recent ones. *)

From S2P Require Import Prelude Text Query Protocol Postgres WalletDb WalletRepository ProjectorMath ProjectorPositions ProjectorPositionsTheorems ProjectorBook ProjectorDb Timeseries ServerReplies ServerHandlers ServerAuth.
From S2P Require Import ServerHandlersTheorems ServerReads.
From S2P Require Import Projector ProjectorTrades ProjectorExamples.

(** Sorted rows that a strict order tells apart are strictly sorted. *)
Lemma sorted_strict {A} (R S : relation A) rows :
  StronglySorted R rows -> NoDup rows ->
  (forall x y, x ∈ rows -> y ∈ rows -> R x y -> x <> y -> S x y) -> StronglySorted S rows.
Proof.
  induction 1 as [|x rows Hs IH Hx]; intros Hnd Himp; [constructor|].
  apply NoDup_cons in Hnd as [Hnot Hnd]. constructor.
  - apply IH; [done|]. intros y z Hy Hz. apply Himp; by right.
  - apply Forall_forall. intros y Hy. rewrite Forall_forall in Hx.
    apply Himp; [by left|by right|by apply Hx|by intros ->].
Qed.

Section Reads.
Context {SD : Serde}.

(** ** Rows of the caller *)

(** A handler that lists rows: it wants a claim and the database, and answers
    exactly the rows of [P], each once, in order. *)
Definition list_answer {A} (claim : option Claim) (up : bool) (R : relation A)
    (P : Claim -> A -> Prop) (r : Response (list A)) : Prop :=
  match claim with
  | None => rsp_status r = 401 /\ rsp_body r = None
  | Some claim =>
      if up then rsp_status r = 200 /\ exists rows, rsp_body r = Some rows /\ sorted_rows R (P claim) rows
      else rsp_status r = 500 /\ rsp_body r = None
  end.

(** A handler that answers one row, if there is one. *)
Definition row_answer {A} (claim : option Claim) (up : bool) (row : Claim -> option A)
    (r : Response A) : Prop :=
  match claim with
  | None => rsp_status r = 401 /\ rsp_body r = None
  | Some claim =>
      if up then rsp_status r = 200 /\ rsp_body r = row claim
      else rsp_status r = 500 /\ rsp_body r = None
  end.

Lemma select_sorted {K A} `{Countable K} (R : relation (K * A)) `{!forall a b, Decision (R a b)}
    `{!SortOrder R} (p : K * A -> bool) (P : K * A -> Prop) (m : gmap K A) :
  (forall row, m !! row.1 = Some row.2 /\ p row = true <-> P row) ->
  sorted_rows R P (order_by R (rows_where p m)).
Proof.
  intros Hp. destruct (select_rows R p m) as (Hs & Hnd & Hin). split_and!; [done..|].
  intros x. by rewrite Hin.
Qed.

Lemma select_unordered {K A} `{Countable K} (p : K * A -> bool) (P : K * A -> Prop) (m : gmap K A) :
  (forall row, m !! row.1 = Some row.2 /\ p row = true <-> P row) ->
  sorted_rows (fun _ _ => True) P (rows_where p m).
Proof.
  intros Hp. split_and!.
  - induction (rows_where p m); constructor; [done|]. by apply Forall_true.
  - apply rows_where_NoDup.
  - intros x. by rewrite elem_of_rows_where.
Qed.

(** Rows with a condition on two columns. *)
Ltac by_columns :=
  intros row; rewrite ?andb_true_iff, ?orb_true_iff, ?Z.eqb_eq, ?bool_decide_eq_true; tauto.

(** Claim C36. Every caller reads their own rows and no one else's. Their orders
    and closed positions in a market and their fills are answered completely, each
    row once, newest first; their balances completely, each once, in no order that is
    stated (the query has no ORDER BY); and so are their open position in a market
    and the balance of one asset. Without a claim the answer is 401, without the
    database 500, and both are empty. *)
Theorem reads_are_the_callers created_at closed_at up claim market_id asset (db : ProjectorDb)
    (wdb : WalletDb) :
  list_answer claim up (newest_order created_at)
    (fun c row => orders db !! row.1 = Some row.2 /\ or_user_id row.2 = cl_userid c /\
                  or_market_id row.2 = market_id)
    (get_all_orders created_at up claim market_id db) /\
  list_answer claim up (last_closed closed_at)
    (fun c row => closed_positions (pj_positions db) !! row.1 = Some row.2 /\
                  cp_user_id row.2 = cl_userid c /\
                  ProjectorPositions.cp_market_id row.2 = market_id)
    (get_closed_positions closed_at up claim market_id (pj_positions db)) /\
  list_answer claim up newest_fill
    (fun c row => fills db !! row.1 = Some row.2 /\
                  (fl_maker_id row.2 = cl_userid c \/ fl_taker_id row.2 = cl_userid c))
    (get_fills up claim db) /\
  list_answer claim up (fun _ _ => True)
    (fun c row => user_collaterals wdb !! row.1 = Some row.2 /\ row.1.1 = cl_userid c)
    (get_balance up claim wdb) /\
  row_answer claim up
    (fun c => pair (cl_userid c, market_id) <$> positions (pj_positions db) !! (cl_userid c, market_id))
    (get_open_positions up claim market_id (pj_positions db)) /\
  row_answer claim up
    (fun c => pair (cl_userid c, asset) <$> user_collaterals wdb !! (cl_userid c, asset))
    (get_currency_balance up claim asset wdb).
Proof.
  destruct claim as [c|]; [|by cbn]. destruct up; [|by cbn]. unfold list_answer, row_answer.
  repeat apply conj; try reflexivity; try (eexists; split; [reflexivity|]).
  - apply select_sorted; [apply _|by_columns].
  - apply select_sorted; [apply _|by_columns].
  - apply select_sorted; [apply _|by_columns].
  - apply select_unordered. by_columns.
  - unfold get_open_positions. cbn. by destruct (positions _ !! _).
  - unfold get_open_positions. cbn. by destruct (positions _ !! _).
  - unfold get_currency_balance, get_user_asset_balances, get_collateral_by_asset. cbn.
    by destruct (user_collaterals wdb !! (cl_userid c, asset)).
  - unfold get_currency_balance, get_user_asset_balances, get_collateral_by_asset. cbn.
    by destruct (user_collaterals wdb !! (cl_userid c, asset)).
Qed.

(** ** Fills of what the caller owns *)

(** The fills of a thing with an owner, for who owns it. *)
Definition owner_answer (claim : option Claim) (owner_up up : bool) (owner : option Z)
    (P : FillRow -> Prop) (r : Response (list FillRow)) : Prop :=
  match claim with
  | None => rsp_status r = 401 /\ rsp_body r = None
  | Some claim =>
      if owner_up then
        match owner with
        | None => rsp_status r = 200 /\ rsp_body r = None
        | Some owner =>
            if owner =? cl_userid claim then
              if up then rsp_status r = 200 /\ exists rows, rsp_body r = Some rows /\ sorted_rows newest_fill P rows
              else rsp_status r = 500 /\ rsp_body r = None
            else rsp_status r = 403 /\ rsp_body r = None
        end
      else rsp_status r = 500 /\ rsp_body r = None
  end.

(** Whose position it is, if it is anyone's. *)
Definition position_owner (position_id : Z) (t : PositionTables) (owner : option Z) : Prop :=
  match owner with
  | Some user_id => exists market_id row,
      positions t !! (user_id, market_id) = Some row /\ ps_position_id row = position_id
  | None => forall k row, positions t !! k = Some row -> ps_position_id row <> position_id
  end.

Lemma get_position_by_id_owner position_id t owner :
  positions_wf t -> position_owner position_id t owner ->
  exists row, get_position_by_id true position_id t = Ok row /\ (fun r : OpenRow => r.1.1) <$> row = owner.
Proof.
  intros Hwf Hown. unfold get_position_by_id, fetch_optional. eexists. split; [done|].
  destruct (head (rows_where _ _)) as [[[u m] row]|] eqn:E.
  - apply head_Some_elem_of, elem_of_rows_where in E as [Hrow Hid%Z.eqb_eq]. cbn in Hrow, Hid |- *.
    destruct owner as [u'|]; [|by destruct (Hown _ _ Hrow)].
    destruct Hown as (m' & row' & Hrow' & Hid').
    assert ((u, m) = (u', m')) as [= -> _] by (eapply pw_ids; [done..|by rewrite Hid, Hid']). done.
  - apply head_None in E. destruct owner as [u|]; [|done].
    destruct Hown as (m & row & Hrow & Hid).
    assert (((u, m), row) ∈ rows_where (fun row : OpenRow => ps_position_id row.2 =? position_id) (positions t))
      as Hin by (apply elem_of_rows_where; cbn; by rewrite Hid, Z.eqb_refl).
    rewrite E in Hin. by apply elem_of_nil in Hin.
Qed.

(** What the owner check and the second query come to. *)
Lemma owner_answer_of claim (owner_up up : bool) (owner : option Z) P
    (found : Result FillServiceError (option (list FillRow)))
    (rows : list FillRow) :
  sorted_rows newest_fill P rows ->
  found = (if owner_up then
             match owner with
             | None => Ok None
             | Some owner =>
                 if negb (owner =? cl_userid claim) then Err FillServiceError_Forbidden
                 else found_or FillServiceError_Storage (fetch_all up rows)
             end
           else Err FillServiceError_Storage) ->
  owner_answer (Some claim) owner_up up owner P (fills_response found).
Proof.
  intros Hrows ->. unfold owner_answer. destruct owner_up; [|done]. destruct owner as [o|]; [|done].
  destruct (o =? cl_userid claim); [|done]. destruct up; [|done]. cbn. eauto.
Qed.

(** Claim C37. The fills of an order, of an open position and of a closed
    position are shown to their owner only: whoever else asks gets 403 and nothing
    of them, and something that is not there is answered with no body. The owner
    gets exactly the fills of the table that name the order, or are linked to the
    position, newest first. The owner is read at [db] and the fills at [db'], which
    other transactions may have changed. *)
Theorem fills_of_owner claim owner_up up id owner (db db' : ProjectorDb) :
  positions_wf (pj_positions db) ->
  position_owner id (pj_positions db) owner ->
  owner_answer claim owner_up up (or_user_id <$> orders db !! id)
    (fun row => fills db' !! row.1 = Some row.2 /\
                (fl_maker_order_id row.2 = id \/ fl_taker_order_id row.2 = id))
    (get_orders_fills owner_up up claim id db db') /\
  owner_answer claim owner_up up owner
    (fun row => fills db' !! row.1 = Some row.2 /\
                (id, row.1) ∈ position_fills (pj_positions db'))
    (get_positions_fills owner_up up claim id db db') /\
  owner_answer claim owner_up up (cp_user_id <$> closed_positions (pj_positions db) !! id)
    (fun row => fills db' !! row.1 = Some row.2 /\
                (id, row.1) ∈ closed_position_fills (pj_positions db'))
    (get_closed_positions_fills owner_up up claim id db db').
Proof.
  intros Hwf Hown. destruct claim as [claim|]; [|done].
  repeat apply conj.
  - eapply owner_answer_of; cycle 1.
    + unfold get_order_id_fills, get_order_by_order_id. destruct owner_up; [|done]. cbn.
      by destruct (orders db !! id).
    + apply select_sorted; [apply _|by_columns].
  - eapply owner_answer_of; cycle 1.
    + unfold get_position_id_fills. destruct owner_up; [|done].
      destruct (get_position_by_id_owner _ _ _ Hwf Hown) as (row & -> & <-).
      by destruct row as [[[u m] row]|].
    + apply select_sorted; [apply _|by_columns].
  - eapply owner_answer_of; cycle 1.
    + unfold get_position_closed_id_fills, get_closed_position_by_id. destruct owner_up; [|done]. cbn.
      by destruct (closed_positions _ !! id).
    + apply select_sorted; [apply _|by_columns].
Qed.

(** ** The order book *)

(** The [depth] best levels of a side of a market, best first: no level is
    missing that is better than one that is shown, and one is missing only when
    [depth] are shown. *)
Definition best_levels (better : relation Z) (depth market_id : Z) (side : string) (t : BookTables)
    (rows : list OrderBookLevelRow) : Prop :=
  StronglySorted (fun a b => better (ol_price a) (ol_price b)) rows /\
  Z.of_nat (length rows) <= depth /\
  (forall row, row ∈ rows -> exists sequence,
     orderbook_levels t !! (market_id, side, ol_price row) = Some (ol_quantity row, sequence)) /\
  (forall price quantity sequence,
     orderbook_levels t !! (market_id, side, price) = Some (quantity, sequence) ->
     mkOrderBookLevelRow price quantity ∈ rows \/
     Z.of_nat (length rows) = depth /\ forall row, row ∈ rows -> better (ol_price row) price).

Lemma elem_of_level_rows market_id side t row :
  row ∈ level_rows market_id side t <->
  exists sequence, orderbook_levels t !! (market_id, side, ol_price row) = Some (ol_quantity row, sequence).
Proof.
  unfold level_rows. rewrite list_elem_of_fmap. setoid_rewrite elem_of_rows_where.
  setoid_rewrite andb_true_iff. setoid_rewrite Z.eqb_eq. setoid_rewrite bool_decide_eq_true. split.
  - intros ([[[m s] p] [q n]] & -> & Hrow & Hm & Hs). cbn in *. subst. eauto.
  - intros [n Hrow]. exists ((market_id, side, ol_price row), (ol_quantity row, n)). by destruct row.
Qed.

Lemma level_rows_NoDup market_id side t : NoDup (level_rows market_id side t).
Proof.
  apply NoDup_fmap_2_strong; [|apply rows_where_NoDup].
  intros [[[m s] p] [q n]] [[[m' s'] p'] [q' n']] Hx Hy [= <- <-].
  apply elem_of_rows_where in Hx as [Hx [Hm%Z.eqb_eq Hs%bool_decide_eq_true]%andb_true_iff].
  apply elem_of_rows_where in Hy as [Hy [Hm'%Z.eqb_eq Hs'%bool_decide_eq_true]%andb_true_iff].
  cbn in *. subst. congruence.
Qed.

Lemma levels_best (better : relation Z) (R : relation OrderBookLevelRow)
    `{!forall a b, Decision (R a b)} `{!SortOrder R} depth market_id side t :
  0 <= depth ->
  (forall a b, R a b -> ol_price a <> ol_price b -> better (ol_price a) (ol_price b)) ->
  best_levels better depth market_id side t (limit depth (order_by R (level_rows market_id side t))).
Proof.
  intros Hd Hb.
  destruct (limit_first R depth (fun row => row ∈ level_rows market_id side t)
              (order_by R (level_rows market_id side t)) Hd) as (Hs & Hnd & Hlen & Hin & Hout).
  { apply order_by_rows; [apply _|apply level_rows_NoDup|done]. }
  set (rows := limit _ _) in *.
  assert (forall a b, a ∈ level_rows market_id side t -> b ∈ level_rows market_id side t -> a <> b ->
            ol_price a <> ol_price b) as Hprice.
  { intros [p q] [p' q'] [n Ha]%elem_of_level_rows [n' Hb']%elem_of_level_rows Hne Hp. cbn in *. congruence. }
  split_and!; [|done| |].
  - apply (sorted_strict R); [done..|]. intros x y Hx Hy HR Hne. apply Hb; [done|].
    apply Hprice; auto.
  - intros row Hrow. by apply elem_of_level_rows, Hin.
  - intros price quantity sequence Hrow.
    assert (mkOrderBookLevelRow price quantity ∈ level_rows market_id side t) as Hl
      by (apply elem_of_level_rows; eauto).
    destruct (decide (mkOrderBookLevelRow price quantity ∈ rows)) as [|Hno]; [by left|right].
    destruct (Hout _ Hl Hno) as [Hn Hall]. split; [done|]. intros row Hin_row.
    apply (Hb row (mkOrderBookLevelRow price quantity)); [by apply Hall|].
    apply Hprice; [by apply Hin|done|by intros ->].
Qed.

(** The snapshot of an order book is answered for a market and a depth
    of 1 to 200, 50 when none is given, and refused with 400 otherwise; it shows the
    highest bids and the lowest asks of the market, at most [depth] of each, best
    first, and the sequence and time of the last delta, zeros before the first. The
    three reads are not one transaction: each is true of the tables it ran on. *)
Theorem snapshot_best_levels state_up bids_up asks_up market_id depth (t t_bids t_asks : BookTables) :
  let n := default 50 depth in
  let response := get_orderbook_snapshot state_up bids_up asks_up market_id depth t t_bids t_asks in
  if (0 <? market_id) && (1 <=? n) && (n <=? 200) then
    if state_up && bids_up && asks_up then
      rsp_status response = 200 /\
      exists bids asks,
        rsp_body response = Some (mkOrderBookSnapshot market_id
          (default 0 (fst <$> orderbook_state t !! market_id))
          (default 0 (snd <$> orderbook_state t !! market_id)) bids asks) /\
        best_levels Z.gt n market_id "BID" t_bids bids /\
        best_levels Z.lt n market_id "ASK" t_asks asks
    else rsp_status response = 500 /\ rsp_body response = None
  else rsp_status response = 400 /\ rsp_body response = None.
Proof.
  cbn zeta. unfold get_orderbook_snapshot. rewrite Z.ltb_antisym.
  destruct (market_id <=? 0); [done|]. cbn [negb andb]. unfold get_orderbook, DEFAULT_ORDERBOOK_DEPTH,
    MAX_ORDERBOOK_DEPTH. set (n := default 50 depth).
  destruct ((1 <=? n) && (n <=? 200)) eqn:Hn; [|done]. cbn [negb].
  apply andb_true_iff in Hn as [H1%Z.leb_le H2%Z.leb_le].
  unfold read_orderbook_snapshot, get_levels. rewrite bool_decide_true by done.
  rewrite bool_decide_false by done.
  destruct state_up; [|done]. destruct bids_up; [|done]. destruct asks_up; [|done]. cbn.
  split; [done|]. do 2 eexists. split; [done|]. split; apply levels_best; try apply _; try lia.
  - unfold desc. intros a b. lia.
  - unfold asc. intros a b. lia.
Qed.

(** ** Candles *)

(** The [n] most recent of the candles of [P], oldest first. *)
Definition recent_window (n : Z) (P : CandleEntry -> Prop) (rows : list CandleEntry) : Prop :=
  StronglySorted (fun a b => bucket_of a < bucket_of b) rows /\
  Z.of_nat (length rows) <= n /\
  (forall row, row ∈ rows -> P row) /\
  (forall row, P row -> row ∈ rows \/
     Z.of_nat (length rows) = n /\ forall row', row' ∈ rows -> bucket_of row < bucket_of row').

Definition candle_of (market_id : Z) (interval : string) (start until : option Z)
    (db : TimeseriesDb) (row : CandleEntry) : Prop :=
  candles db !! row.1 = Some row.2 /\ row.1.1 = (market_id, interval) /\
  match start with Some start => start <= bucket_of row | None => True end /\
  match until with Some until => bucket_of row < until | None => True end.

Lemma in_window_spec start until bucket_start :
  in_window start until bucket_start = true <->
  match start with Some start => start <= bucket_start | None => True end /\
  match until with Some until => bucket_start < until | None => True end.
Proof.
  unfold in_window. rewrite andb_true_iff.
  destruct start, until; rewrite ?Z.leb_le, ?Z.ltb_lt; tauto.
Qed.

Lemma recent_candles_window market_id interval start until n db :
  0 <= n -> exists rows,
    recent_candles true market_id interval start until n db = Ok rows /\
    recent_window n (candle_of market_id interval start until db) rows.
Proof.
  intros Hn. eexists. split; [reflexivity|].
  set (all := rows_where _ _). set (P := candle_of market_id interval start until db).
  assert (forall row, row ∈ all <-> P row) as Hall.
  { intros [[[m i] b] row]. unfold all. rewrite elem_of_rows_where. unfold P, candle_of, bucket_of.
    cbn. rewrite !andb_true_iff, Z.eqb_eq, bool_decide_eq_true, in_window_spec. naive_solver. }
  assert (forall x y, P x -> P y -> bucket_of x = bucket_of y -> x = y) as Hinj.
  { intros [[[m i] b] x] [[[m' i'] b'] y] (Hx & [= -> ->] & _) (Hy & [= -> ->] & _) Hb.
    unfold bucket_of in Hb. cbn in *. subst b'. congruence. }
  destruct (limit_first (desc bucket_of) n P (order_by (desc bucket_of) all) Hn)
    as (Hs & Hnd & Hlen & Hin & Hout).
  { apply order_by_rows; [apply _|apply rows_where_NoDup|done]. }
  set (recent := limit _ _) in *.
  destruct (order_by_rows (asc bucket_of) (fun row => row ∈ recent) recent Hnd ltac:(done))
    as (Hs' & Hnd' & Hin').
  set (rows := order_by (asc bucket_of) recent) in *.
  assert (length rows = length recent) as Hlength by (by apply Permutation_length, merge_sort_Permutation).
  split_and!.
  - apply (sorted_strict (asc bucket_of)); [done..|]. intros x y Hx%Hin' Hy%Hin' HR Hne.
    unfold asc in HR. destruct (Z.eq_dec (bucket_of x) (bucket_of y)); [|lia].
    destruct Hne. by apply Hinj; [apply Hin|apply Hin|].
  - by rewrite Hlength.
  - intros row Hrow%Hin'. by apply Hin.
  - intros row Hrow. destruct (decide (bucket_of row ∈ map bucket_of recent)) as [Hb|Hno].
    + apply list_elem_of_fmap in Hb as (row' & Hb & Hrow'). left. apply Hin'.
      by rewrite (Hinj row row') by auto.
    + assert (row ∉ recent) as Hno' by (intros Hr; apply Hno; by apply list_elem_of_fmap_2).
      right. destruct (Hout row Hrow Hno') as [Hfull Hbefore]. rewrite Hlength. split; [done|].
      intros row' Hrow'%Hin'. specialize (Hbefore _ Hrow'). unfold desc in Hbefore.
      destruct (Z.eq_dec (bucket_of row) (bucket_of row')) as [He|]; [|lia].
      destruct Hno. rewrite He. by apply list_elem_of_fmap_2.
Qed.

(** The query the server accepts. *)
Definition candle_query_ok (valid_millis : Z -> bool) (interval : string) (start until : option Z)
    (n : Z) : bool :=
  is_supported_interval interval && (1 <=? n) && (n <=? 1000)
  && match start with Some start => valid_millis start | None => true end
  && match until with Some until => valid_millis until | None => true end
  && match start, until with Some start, Some until => start <? until | _, _ => true end.

(** What is left of a query once interval and limit are fine. *)
Lemma candles_read up market_id interval start until n db :
  0 <= n ->
  let result := map_err (fun _ => MarketServiceError_Storage)
                  (recent_candles up market_id interval start until n db) in
  if up then exists rows, result = Ok rows /\
               recent_window n (candle_of market_id interval start until db) rows
  else result = Err MarketServiceError_Storage.
Proof.
  intros Hn. destruct up; [|done].
  destruct (recent_candles_window market_id interval start until n db Hn) as (rows & -> & Hrows).
  by exists rows.
Qed.

(** Candles are answered for a market, an interval the timeseries
    service writes, a limit of 1 to 1000, 500 when none is given, and a window whose
    start comes before its end; any other query is refused with 400. The answer is
    the most recent candles of the window, at most [limit] of them, each bucket once
    and oldest first: none is missing that is newer than one that is shown. *)
Theorem candles_most_recent valid_millis up market_id interval start until limit db :
  let n := default 500 limit in
  let response := get_market_candles valid_millis up market_id interval start until limit db in
  (is_supported_interval interval = true <-> interval ∈ map ci_label CANDLE_INTERVALS) /\
  if (0 <? market_id) && candle_query_ok valid_millis interval start until n then
    if up then
      rsp_status response = 200 /\
      exists rows, rsp_body response = Some rows /\
        recent_window n (candle_of market_id interval start until db) rows
    else rsp_status response = 500 /\ rsp_body response = None
  else rsp_status response = 400 /\ rsp_body response = None.
Proof.
  cbn zeta. split; [by unfold is_supported_interval; rewrite bool_decide_eq_true|].
  unfold get_market_candles. rewrite Z.ltb_antisym.
  destruct (market_id <=? 0); [done|]. cbn [negb andb]. unfold candle_query_ok, get_candles,
    DEFAULT_CANDLE_LIMIT, MAX_CANDLE_LIMIT. set (n := default 500 limit).
  destruct (is_supported_interval interval); [|done]. cbn [negb andb].
  destruct ((1 <=? n) && (n <=? 1000)) eqn:Hn; [|done]. cbn [negb andb].
  apply andb_true_iff in Hn as [H1%Z.leb_le _].
  pose proof (candles_read up market_id interval start until n db ltac:(lia)) as Hread.
  cbn zeta in Hread.
  assert (timestamp_millis valid_millis start =
          if match start with Some s => valid_millis s | None => true end then Ok start
          else Err MarketServiceError_InvalidTimestamp) as -> by (by destruct start as [s|]).
  destruct (match start with Some s => valid_millis s | None => true end); [|done]. cbn [rbind andb].
  assert (timestamp_millis valid_millis until =
          if match until with Some u => valid_millis u | None => true end then Ok until
          else Err MarketServiceError_InvalidTimestamp) as -> by (by destruct until as [u|]).
  destruct (match until with Some u => valid_millis u | None => true end); [|done]. cbn [rbind andb].
  assert (match start, until with Some s, Some u => u <=? s | _, _ => false end =
          negb match start, until with Some s, Some u => s <? u | _, _ => true end) as ->
    by (destruct start, until; [apply Z.leb_antisym|done..]).
  destruct (match start, until with Some s, Some u => s <? u | _, _ => true end); [|done].
  cbn [negb]. destruct up; [|by rewrite Hread]. destruct Hread as (rows & -> & Hrows). eauto.
Qed.

(** ** Public reads *)

(** The open orders of a market are all shown to anyone, without owner, order id
    or margin; an order that has been filled in part is not among them. *)
Lemma open_orders_public created_at market_id (db : ProjectorDb) :
  exists rows,
    rsp_body (get_open_orders created_at true market_id db) = Some (map PublicOpenOrder_from rows) /\
    sorted_rows (newest_order created_at)
      (fun row => orders db !! row.1 = Some row.2 /\ or_market_id row.2 = market_id /\
                  or_status row.2 = OrderStatus_OPEN) rows.
Proof. eexists. split; [reflexivity|]. apply select_sorted; [apply _|by_columns]. Qed.

(** A user's details are those of their own row, and every user is listed. *)
Lemma user_details_own joined_at claim (users : gmap Z UserRow) :
  match users !! cl_userid claim with
  | Some row => rsp_body (get_user_details true (Some claim) users) =
                  Some (mkUserProfile (cl_userid claim) (us_username row))
  | None => rsp_status (get_user_details true (Some claim) users) = 404
  end /\
  exists rows, rsp_body (get_all_users joined_at true (Some claim) users) = Some rows /\
    forall id row, users !! id = Some row -> mkUserProfile id (us_username row) ∈ rows.
Proof.
  split.
  - unfold get_user_details, get_user_by_userid, find_user_by_id. cbn. by destruct (users !! _).
  - eexists. split; [reflexivity|]. intros id row Hrow. apply list_elem_of_fmap.
    exists (id, row). split; [done|]. by rewrite elem_of_order_by, elem_of_map_to_list.
Qed.

(** ** Closing a position *)

(** An order that only reduces the position [row]. *)
Definition reduces (row : OpenRow) (order : PlaceOrderIntent) : Prop :=
  poi_reduce_only order = true /\ poi_market_id order = row.1.2 /\
  poi_market_name order = ps_market_name row.2 /\
  poi_side order = closing_side (ps_side row.2) /\
  0 < poi_quantity order <= ps_quantity row.2.

(** A request to close that is left waiting has queued one reduce-only order
    against the caller's own position in the market it names, for at most what is
    open. *)
Lemma close_position_reduces_own d up t req request st waiting st' :
  close_position d (read_open_position up t) req request st = (Ok waiting, st') ->
  exists claim row key partition order,
    rq_claim req = Some claim /\
    positions t !! (cl_userid claim, ServerHandlers.cp_market_id request) = Some row /\
    ss_queue st' = ss_queue st ++ [(key, partition, WalletCommand_PlaceOrderIntent order)] /\
    reduces ((cl_userid claim, ServerHandlers.cp_market_id request), row) order.
Proof.
  intros (claim & Hclaim & H)%bind_lift_ok. cbv beta in H. destruct (_ <=? 0) in H; [done|].
  apply bind_lift_ok in H as (found & Hfound & H). apply bind_lift_ok in H as (position & Hposition & H).
  cbv beta zeta in H.
  destruct (_ <=? 0) eqn:Hq in H; [done|]. destruct (_ <? _) eqn:Hle in H; [done|].
  destruct (_ <? 0) in H; [done|].
  apply bind_lift_ok in H as (margin & _ & H). apply bind_lift_ok in H as ([] & _ & H).
  apply bind_lift_ok in H as (context & _ & H). apply bind_lift_ok in H as (producer & _ & H).
  apply bind_lift_ok in H as ([] & _ & H). revert H. unfold bind at 1, allocate_order_id.
  destruct (dw_database d); [|done]. intros (partition & _ & Hqueue & _)%queue_command_waits.
  destruct (rq_claim req) as [c|]; [|done]. injection Hclaim as ->.
  destruct found as [p|]; [|done]. injection Hposition as ->.
  revert Hfound. unfold read_open_position, get_user_open_position, get_position_by_user_market.
  destruct up; [|done]. cbn. destruct (positions t !! _) as [row|] eqn:Hrow; [|done].
  intros [= <-].
  exists claim, row, (to_string (cl_userid claim)), partition. eexists.
  do 2 (split; [done|]). split; [exact Hqueue|]. unfold reduces. cbn in *.
  apply Z.leb_gt in Hq. apply Z.ltb_ge in Hle. split_and!; done || lia.
Qed.
End Reads.

(** ** Examples *)

#[local] Existing Instance tagged_serde.
#[local] Transparent gmap_empty.

Module ReadsExample.
Import ProjectorExample.

Definition maker : Claim := mkClaim 1 "maker" 0.
Definition stranger : Claim := mkClaim 3 "stranger" 0.

(** The maker's order 11 shows the fill of the trade; a stranger is refused. *)
Example maker_reads_fill :
  map fst <$> rsp_body (get_orders_fills true true (Some maker) 11 after after) = Some [5].
Proof. vm_compute. reflexivity. Qed.
Example stranger_refused :
  rsp_status (get_orders_fills true true (Some stranger) 11 after after) = 403.
Proof. vm_compute. reflexivity. Qed.

Definition book : BookTables :=
  mkBookTables ∅ {[7 := (4, 90)]}
    {[(7, "BID", 10) := (1, 3); (7, "BID", 12) := (2, 4); (7, "BID", 11) := (5, 4);
      (7, "ASK", 15) := (3, 4); (8, "BID", 99) := (1, 1)]}.

Example best_bids :
  rsp_body (get_orderbook_snapshot true true true 7 (Some 2) book book book) =
    Some (mkOrderBookSnapshot 7 4 90 [mkOrderBookLevelRow 12 2; mkOrderBookLevelRow 11 5]
            [mkOrderBookLevelRow 15 3]).
Proof. vm_compute. reflexivity. Qed.

Definition after_rows : list ((Z * Z) * PositionRow) :=
  Eval vm_compute in map_to_list (positions (pj_positions after)).

Lemma after_lookup k row :
  positions (pj_positions after) !! k = Some row -> (k, row) ∈ after_rows.
Proof.
  intros H%elem_of_map_to_list.
  assert (map_to_list (positions (pj_positions after)) = after_rows) as E by (vm_compute; reflexivity).
  by rewrite <- E.
Qed.

Lemma after_wf : positions_wf (pj_positions after).
Proof.
  split.
  - intros k row H%after_lookup. unfold after_rows in H.
    repeat (apply elem_of_cons in H as [[= -> ->]|H]; [cbn; unfold i64_max; lia|]). by apply elem_of_nil in H.
  - intros k1 k2 r1 r2 H1%after_lookup H2%after_lookup. unfold after_rows in *.
    repeat (apply elem_of_cons in H1 as [[= -> ->]|H1]; [|]); [..|by apply elem_of_nil in H1];
      repeat (apply elem_of_cons in H2 as [[= -> ->]|H2]; [by cbn|]); by apply elem_of_nil in H2.
  - intros k row H%after_lookup. unfold after_rows in H.
    repeat (apply elem_of_cons in H as [[= -> ->]|H]; [vm_compute; done|]). by apply elem_of_nil in H.
  - intros id row H.
    assert (map_to_list (closed_positions (pj_positions after)) = []) as E by (vm_compute; reflexivity).
    apply elem_of_map_to_list in H. rewrite E in H. by apply elem_of_nil in H.
Qed.

(** Position 1 is the maker's, and so is the fill it is linked to. *)
Lemma fills_of_owner_witness :
  exists rows, rsp_body (get_positions_fills true true (Some maker) 1 after after) = Some rows /\
    sorted_rows newest_fill (fun row => fills after !! row.1 = Some row.2 /\
      (1, row.1) ∈ position_fills (pj_positions after)) rows.
Proof.
  destruct (fills_of_owner (Some maker) true true 1 (Some 1) after after after_wf) as (_ & H & _).
  - exists 7. eexists. split; reflexivity.
  - exact (proj2 H).
Defined.
End ReadsExample.
