(* ===== verification/ServerRoutes.v ===== *)
(** * ServerRoutes: from a request to a handler, and back

    [apps/server/src/main.rs] and the [routes.rs] of its modules: the tree of
    services the application registers, which of them sit behind the middleware
    that authenticates, and what a request goes through. Matching a path,
    extracting the arguments of a handler and answering CORS preflights is the
    actix-web package: a class of functions nothing is assumed of. *)

From S2P Require Import Prelude Text Protocol Settings Postgres WalletDb WalletRepository ProjectorMath ProjectorPositions ProjectorBook ProjectorDb Timeseries.
From S2P Require Import ServerReplies ServerHandlers ServerAuth ServerReads.

(** ** Handlers *)

Inductive Method := GET | POST | DELETE.
#[export] Instance Method_eq_dec : EqDecision Method.
Proof. solve_decision. Defined.

(** The handlers of [modules], by their names. *)
Inductive Endpoint :=
| EP_signup_user
| EP_signin_user
| EP_add_balance
| EP_withdraw_balance
| EP_get_balance
| EP_get_currency_balance
| EP_get_fills
| EP_get_orders_fills
| EP_get_positions_fills
| EP_get_closed_positions_fills
| EP_get_market_candles
| EP_get_orderbook_snapshot
| EP_get_open_orders
| EP_place_order
| EP_cancel_order
| EP_get_all_orders
| EP_get_open_positions
| EP_get_closed_positions
| EP_close_position
| EP_get_request_status
| EP_get_all_users
| EP_get_user_details.
#[export] Instance Endpoint_eq_dec : EqDecision Endpoint.
Proof. solve_decision. Defined.

Record CandleQuery := mkCandleQuery {
  cq_interval : string;
  cq_start_ms : option Z;
  cq_end_ms : option Z;
  cq_limit : option Z
}.
Record OrderBookQuery := mkOrderBookQuery { oq_depth : option Z }.

(** What a handler extracts from its request: [web::Json], [web::Path] and
    [web::Query]. *)
Definition Args (e : Endpoint) : Type :=
  match e with
  | EP_signup_user | EP_signin_user => AuthUser
  | EP_add_balance => DepositBalance
  | EP_withdraw_balance => WithdrawBalance
  | EP_get_currency_balance => AssetType
  | EP_get_orders_fills | EP_get_positions_fills | EP_get_closed_positions_fills
  | EP_get_open_orders | EP_get_all_orders | EP_get_open_positions | EP_get_closed_positions => Z
  | EP_get_market_candles => Z * CandleQuery
  | EP_get_orderbook_snapshot => Z * OrderBookQuery
  | EP_place_order => PlaceOrder
  | EP_cancel_order => CancelOrderBody
  | EP_close_position => ClosePositionRequest
  | EP_get_request_status => string
  | EP_get_balance | EP_get_fills | EP_get_all_users | EP_get_user_details => unit
  end.

(** ** Services *)

(** A scope has a prefix, may be wrapped in [auth_middleware] and holds services;
    a handler with a [#[get(..)]] is a resource guarded by its method, one given
    to [route] is a resource that answers other methods itself. *)
Inductive Service :=
| Service_Scope (prefix : string) (wrapped : bool) (services : list Service)
| Service_Handler (method : Method) (path : string) (endpoint : Endpoint)
| Service_Route (path : string) (method : Method) (endpoint : Endpoint).

Definition config_auth_routes : list Service :=
  [Service_Scope "/auth" false
     [Service_Handler POST "/signup" EP_signup_user; Service_Handler POST "/signin" EP_signin_user]].

Definition config_balance_routes : list Service :=
  [Service_Scope "/balance" true
     [Service_Handler POST "/" EP_add_balance;
      Service_Handler POST "/withdraw" EP_withdraw_balance;
      Service_Handler GET "/" EP_get_balance;
      Service_Handler GET "/{currency}" EP_get_currency_balance]].

Definition config_fills_routes : list Service :=
  [Service_Scope "/fills" true
     [Service_Handler GET "/" EP_get_fills;
      Service_Handler GET "/orders/{order_id}" EP_get_orders_fills;
      Service_Route "/positions/{position_id}" GET EP_get_positions_fills;
      Service_Route "/postions/{position_id}" GET EP_get_positions_fills;
      Service_Handler GET "/closed-positions/{position_id}" EP_get_closed_positions_fills]].

Definition config_market_routes : list Service :=
  [Service_Scope "/markets" false
     [Service_Handler GET "/{market_id}/candles" EP_get_market_candles;
      Service_Handler GET "/{market_id}/orderbook" EP_get_orderbook_snapshot]].

Definition config_orders_routes : list Service :=
  [Service_Scope "/orders" false
     [Service_Handler GET "/open/{market_id}" EP_get_open_orders;
      Service_Scope "" true
        [Service_Handler POST "/" EP_place_order;
         Service_Handler DELETE "/" EP_cancel_order;
         Service_Handler GET "/{market_id}" EP_get_all_orders]]].

Definition config_position_routes : list Service :=
  [Service_Scope "/positions" true
     [Service_Handler GET "/open/{market_id}" EP_get_open_positions;
      Service_Route "/closed/{market_id}" GET EP_get_closed_positions;
      Service_Handler POST "/close" EP_close_position]].

Definition config_request_routes : list Service :=
  [Service_Scope "/requests" true [Service_Handler GET "/{request_id}" EP_get_request_status]].

Definition config_user_routes : list Service :=
  [Service_Scope "/users" true
     [Service_Handler GET "/" EP_get_all_users; Service_Handler GET "/me" EP_get_user_details]].

Definition app_services : list Service :=
  [Service_Scope "/api" false
     (config_auth_routes ++ config_balance_routes ++ config_fills_routes ++ config_market_routes
      ++ config_orders_routes ++ config_position_routes ++ config_request_routes
      ++ config_user_routes)].

(** ** Routing *)

(** [pick] is the service of a list that takes a request below a trail of
    prefixes, by its position; an extraction that fails answers with a status. *)
Class ActixWeb := {
  Request : Type;
  request_method : Request -> Method;
  authorization : Request -> option (option string);
  idempotency_header : Request -> option (option string);
  is_preflight : Request -> bool;
  pick : list string -> list Service -> Request -> option nat;
  extract (e : Endpoint) : Request -> Result Z (Args e)
}.

(** Where a request ends: at a handler with the claim left for it, or answered on
    the way. *)
Inductive Routed :=
| Routed_Endpoint (endpoint : Endpoint) (claim : option Claim)
| Routed_Rejected (response : HttpResponse)
| Routed_Status (status : Z) (text : string).

(** The default service, also that of the scopes. *)
Definition not_found : Routed := Routed_Status 404 "You sent a request to no where".

Section Routes.
Context {ACTIX : ActixWeb} {AUTH : AuthLibraries} {SD : Serde}.

Section Route.
Variables (secret : string) (now : Z) (req : Request).

Definition route_within (trail : list string) (services : list Service) (routed : list Routed)
    : Routed :=
  match pick trail services req with
  | Some i => default not_found (nth_error routed i)
  | None => not_found
  end.

Fixpoint route (s : Service) (trail : list string) (claim : option Claim) : Routed :=
  match s with
  | Service_Scope prefix wrapped services =>
      let trail := trail ++ [prefix] in
      let inside claim :=
        route_within trail services (map (fun s => route s trail claim) services) in
      if wrapped then
        match auth_middleware secret now (authorization req) with
        | Err response => Routed_Rejected response
        | Ok claim => inside (Some claim)
        end
      else inside claim
  | Service_Handler _ _ e => Routed_Endpoint e claim
  | Service_Route _ method e =>
      if decide (request_method req = method) then Routed_Endpoint e claim
      else Routed_Status 405 ""
  end.

Definition route_app (services : list Service) : Routed :=
  if is_preflight req then Routed_Status 200 ""
  else route_within [] services (map (fun s => route s [] None) services).
End Route.

(** ** Running a handler *)

(** What the server reads and writes. *)
Record ServerWorld := mkServerWorld {
  sw_server : ServerState;
  sw_users : Users;
  sw_wallet : WalletDb;
  sw_projector : ProjectorDb;
  sw_timeseries : TimeseriesDb
}.

(** The data of the application: [app_data] in [main]. *)
Record AppData := mkAppData { ap_config : Config; ap_producer : RedpandaProducer }.

(** What a request meets: the time, what the libraries draw, which of its queries
    reach the database, and the tables as its later queries see them. *)
Record Circumstances := mkCircumstances {
  ci_now : Z;
  ci_random_range : Z -> Z -> Z;
  ci_draws : Draws;
  ci_up : bool;
  ci_second_up : bool;
  ci_third_up : bool;
  ci_projector : ProjectorDb;
  ci_bids : BookTables;
  ci_asks : BookTables
}.

(** The columns of times the models leave out, and what [chrono] takes. *)
Record Clocks := mkClocks {
  ck_created_at : Z -> Z;
  ck_closed_at : Z -> Z;
  ck_joined_at : Z -> Z;
  ck_valid_millis : Z -> bool
}.

(** What goes back to the client; a handler of a command may be left waiting. *)
Inductive Answer :=
| Answer_Status (status : Z) (text : string)
| Answer_Waiting (waiting : Waiting)
| Answer_Http (response : HttpResponse)
| Answer_Auth (response : AuthResponse)
| Answer_Orders (response : Response (list OrderRow))
| Answer_OpenOrders (response : Response (list PublicOpenOrder))
| Answer_Balances (response : Response (list UserCollateralRow))
| Answer_Balance (response : Response UserCollateralRow)
| Answer_Fills (response : Response (list FillRow))
| Answer_Candles (response : Response (list CandleEntry))
| Answer_OrderBook (response : Response OrderBookSnapshot)
| Answer_OpenPosition (response : Response OpenRow)
| Answer_ClosedPositions (response : Response (list ClosedRow))
| Answer_Users (response : Response (list UserProfile))
| Answer_User (response : Response UserProfile).

Section Run.
Variables (app : AppData) (clocks : Clocks) (ci : Circumstances).

Definition set_server (s : ServerState) (w : ServerWorld) : ServerWorld :=
  mkServerWorld s (sw_users w) (sw_wallet w) (sw_projector w) (sw_timeseries w).
Definition set_users (us : Users) (w : ServerWorld) : ServerWorld :=
  mkServerWorld (sw_server w) us (sw_wallet w) (sw_projector w) (sw_timeseries w).

(** The request as the handlers of commands see it. *)
Definition command_config : CommandConfig :=
  mkCommandConfig (cfg_server_reply_partition (ap_config app))
    (cfg_request_wait_timeout_ms (ap_config app)).
Definition http_request (claim : option Claim) (req : Request) : HttpRequest :=
  mkHttpRequest claim (idempotency_header req) (Some command_config) (Some (ap_producer app)) true.

Definition run_command (claim : option Claim) (req : Request) (request : CommandRequest)
    (w : ServerWorld) : Answer * ServerWorld :=
  let '(r, s) :=
    handle_command (ci_draws ci) (read_open_position (ci_up ci) (pj_positions (sw_projector w)))
      (http_request claim req) request (sw_server w) in
  (match r with Ok waiting => Answer_Waiting waiting | Err response => Answer_Http response end,
   set_server s w).

Definition run_endpoint (e : Endpoint) (claim : option Claim) (req : Request) (w : ServerWorld)
    : Args e -> Answer * ServerWorld :=
  let secret := cfg_jwt_secret (ap_config app) in
  let db := sw_projector w in
  match e return Args e -> Answer * ServerWorld with
  | EP_signup_user => fun user =>
      let '(response, us) :=
        signup_user secret (ci_now ci) (ci_random_range ci) (ci_up ci) (ci_second_up ci) user
          (sw_users w) in
      (Answer_Auth response, set_users us w)
  | EP_signin_user => fun user =>
      (Answer_Auth (signin_user secret (ci_now ci) (ci_up ci) user (sw_users w)), w)
  | EP_add_balance => fun body => run_command claim req (CommandRequest_Deposit body) w
  | EP_withdraw_balance => fun body => run_command claim req (CommandRequest_Withdraw body) w
  | EP_place_order => fun body => run_command claim req (CommandRequest_PlaceOrder body) w
  | EP_cancel_order => fun body => run_command claim req (CommandRequest_CancelOrder body) w
  | EP_close_position => fun body => run_command claim req (CommandRequest_ClosePosition body) w
  | EP_get_balance => fun _ => (Answer_Balances (get_balance (ci_up ci) claim (sw_wallet w)), w)
  | EP_get_currency_balance => fun asset =>
      (Answer_Balance (get_currency_balance (ci_up ci) claim asset (sw_wallet w)), w)
  | EP_get_fills => fun _ => (Answer_Fills (get_fills (ci_up ci) claim db), w)
  | EP_get_orders_fills => fun id =>
      (Answer_Fills (get_orders_fills (ci_up ci) (ci_second_up ci) claim id db (ci_projector ci)), w)
  | EP_get_positions_fills => fun id =>
      (Answer_Fills (get_positions_fills (ci_up ci) (ci_second_up ci) claim id db (ci_projector ci)), w)
  | EP_get_closed_positions_fills => fun id =>
      (Answer_Fills (get_closed_positions_fills (ci_up ci) (ci_second_up ci) claim id db
                       (ci_projector ci)), w)
  | EP_get_market_candles => fun '(market_id, q) =>
      (Answer_Candles (get_market_candles (ck_valid_millis clocks) (ci_up ci) market_id
         (cq_interval q) (cq_start_ms q) (cq_end_ms q) (cq_limit q) (sw_timeseries w)), w)
  | EP_get_orderbook_snapshot => fun '(market_id, q) =>
      (Answer_OrderBook (get_orderbook_snapshot (ci_up ci) (ci_second_up ci) (ci_third_up ci)
         market_id (oq_depth q) (pj_book db) (ci_bids ci) (ci_asks ci)), w)
  | EP_get_open_orders => fun market_id =>
      (Answer_OpenOrders (get_open_orders (ck_created_at clocks) (ci_up ci) market_id db), w)
  | EP_get_all_orders => fun market_id =>
      (Answer_Orders (get_all_orders (ck_created_at clocks) (ci_up ci) claim market_id db), w)
  | EP_get_open_positions => fun market_id =>
      (Answer_OpenPosition (get_open_positions (ci_up ci) claim market_id (pj_positions db)), w)
  | EP_get_closed_positions => fun market_id =>
      (Answer_ClosedPositions
         (get_closed_positions (ck_closed_at clocks) (ci_up ci) claim market_id (pj_positions db)), w)
  | EP_get_request_status => fun request_id =>
      (Answer_Http (get_request_status (http_request claim req) request_id (sw_server w)), w)
  | EP_get_all_users => fun _ =>
      (Answer_Users (get_all_users (ck_joined_at clocks) (ci_up ci) claim (sw_users w)), w)
  | EP_get_user_details => fun _ =>
      (Answer_User (get_user_details (ci_up ci) claim (sw_users w)), w)
  end.

(** One request to the application of [main]. *)
Definition serve (req : Request) (w : ServerWorld) : Answer * ServerWorld :=
  match route_app (cfg_jwt_secret (ap_config app)) (ci_now ci) req app_services with
  | Routed_Endpoint e claim =>
      match extract e req with
      | Ok args => run_endpoint e claim req w args
      | Err status => (Answer_Status status "", w)
      end
  | Routed_Rejected response => (Answer_Http response, w)
  | Routed_Status status text => (Answer_Status status text, w)
  end.
End Run.
End Routes.
