(* ===== verification/ServerRoutesTheorems.v ===== *)
(** * ServerRoutesTheorems: who may do what through the HTTP server

    Every handler that is not public runs behind the middleware, for the claim of
    the token it accepted; and whatever a series of requests does, the wallet
    leaves alone whoever's token was not among them. *)

From S2P Require Import Prelude Text Protocol Settings Broker Postgres WalletDb WalletRepository WalletProcessor WalletSpec WalletStatements WalletRefinement WalletHandlers WalletRuns WalletErrors WalletTotal WalletTheorems WalletOwners.
From S2P Require Import ProjectorMath ProjectorPositions ProjectorBook ProjectorDb Timeseries WsHub WsRouter.
From S2P Require Import ServerReplies ServerHandlers ServerHandlersTheorems ServerAuth ServerReads ServerRoutes.
From S2P Require Import WalletExamples ServerAuthTheorems.

(** ** The registered handlers *)

Section ServiceInduction.
Variable P : Service -> Prop.
Hypothesis P_scope : forall prefix wrapped services,
  Forall P services -> P (Service_Scope prefix wrapped services).
Hypothesis P_handler : forall method path e, P (Service_Handler method path e).
Hypothesis P_route : forall path method e, P (Service_Route path method e).

Fixpoint service_induction (s : Service) : P s :=
  match s with
  | Service_Scope prefix wrapped services =>
      P_scope prefix wrapped services
        ((fix all (l : list Service) : Forall P l :=
            match l with
            | [] => Forall_nil_2 P
            | s :: l => Forall_cons_2 P s l (service_induction s) (all l)
            end) services)
  | Service_Handler method path e => P_handler method path e
  | Service_Route path method e => P_route path method e
  end.
End ServiceInduction.

(** Each handler of a tree, and whether it is behind the middleware. *)
Fixpoint handlers_of (guarded : bool) (s : Service) : list (Endpoint * bool) :=
  match s with
  | Service_Scope _ wrapped services => concat (map (handlers_of (guarded || wrapped)) services)
  | Service_Handler _ _ e => [(e, guarded)]
  | Service_Route _ _ e => [(e, guarded)]
  end.
Definition registered_handlers (services : list Service) : list (Endpoint * bool) :=
  concat (map (handlers_of false) services).

Definition public_endpoints : list Endpoint :=
  [EP_signup_user; EP_signin_user; EP_get_open_orders; EP_get_market_candles;
   EP_get_orderbook_snapshot].
Definition is_public (e : Endpoint) : bool := bool_decide (e ∈ public_endpoints).

(** Every handler is registered, the five public ones and no other in the open. *)
Lemma registered_endpoints e guarded :
  (e, guarded) ∈ registered_handlers app_services <-> guarded = negb (is_public e).
Proof.
  split.
  - intros H. repeat (apply elem_of_cons in H as [[= -> ->]|H]; [reflexivity|]).
    by apply elem_of_nil in H.
  - intros ->. by destruct e; apply (bool_decide_unpack ((_, _) ∈ registered_handlers app_services)).
Qed.

Section Routes.
Context {ACTIX : ActixWeb} {AUTH : AuthLibraries} {SD : Serde}.

(** ** Routing *)

Section Route.
Variables (secret : string) (now : Z) (req : Request).

(** What the middleware has let through: a handler behind it has the claim of the
    token. *)
Definition authenticated (guarded : bool) (claim : option Claim) : Prop :=
  if guarded then exists c, claim = Some c /\ auth_middleware secret now (authorization req) = Ok c
  else claim = None.

Definition routed_well (services : list (Endpoint * bool)) (r : Routed) : Prop :=
  match r with
  | Routed_Endpoint e claim =>
      exists guarded, (e, guarded) ∈ services /\ authenticated guarded claim
  | Routed_Rejected response => auth_middleware secret now (authorization req) = Err response
  | Routed_Status _ _ => True
  end.

Lemma route_within_well trail services routed l :
  Forall (routed_well l) routed -> routed_well l (route_within req trail services routed).
Proof.
  intros H. unfold route_within. destruct (pick _ _ _) as [i|]; [|done].
  destruct (nth_error routed i) eqn:E; [|done].
  rewrite Forall_forall in H. by apply H, list_elem_of_In, (nth_error_In routed i).
Qed.

Lemma routed_well_weaken l l' r : (forall x, x ∈ l -> x ∈ l') -> routed_well l r -> routed_well l' r.
Proof. intros Hin. destruct r; cbn; [|done..]. intros (g & Hg & Ha). eauto. Qed.

Lemma routes_well guarded claim trail services :
  Forall (fun s => forall guarded trail claim, authenticated guarded claim ->
            routed_well (handlers_of guarded s) (route secret now req s trail claim)) services ->
  authenticated guarded claim ->
  Forall (routed_well (concat (map (handlers_of guarded) services)))
    (map (fun s => route secret now req s trail claim) services).
Proof.
  intros H Ha. apply Forall_map, Forall_forall. intros s Hs. rewrite Forall_forall in H.
  eapply routed_well_weaken; [|by apply H]. intros x Hx. apply list_elem_of_In, in_concat.
  exists (handlers_of guarded s). split; [by apply in_map, list_elem_of_In|by apply list_elem_of_In].
Qed.

Lemma route_well s : forall guarded trail claim,
  authenticated guarded claim ->
  routed_well (handlers_of guarded s) (route secret now req s trail claim).
Proof.
  induction s as [prefix wrapped services IH|method path e|path method e] using service_induction;
    intros guarded trail claim Ha; cbn [route handlers_of].
  - destruct wrapped; [|rewrite orb_false_r; by apply route_within_well, routes_well].
    rewrite orb_true_r. destruct (auth_middleware _ _ _) as [c|response] eqn:Hauth; [|done].
    apply route_within_well, routes_well; [done|]. by exists c.
  - exists guarded. split; [by apply list_elem_of_singleton|done].
  - case_decide; [|done]. exists guarded. split; [by apply list_elem_of_singleton|done].
Qed.

Lemma route_app_well services : routed_well (registered_handlers services) (route_app secret now req services).
Proof.
  unfold route_app. destruct (is_preflight req); [done|]. apply route_within_well.
  apply (routes_well false None); [|done]. apply Forall_forall. intros s _ guarded trail claim Ha.
  by apply route_well.
Qed.
End Route.

(** ** What a request can do *)

Section Serve.
Variables (app : AppData) (clocks : Clocks) (ci : Circumstances) (req : Request).
Abbreviation middleware :=
  (auth_middleware (cfg_jwt_secret (ap_config app)) (ci_now ci) (authorization req)).

(** A request is answered on the way, or by a public handler without a claim, or by
    another handler with the claim of its token. *)
Inductive served (w : ServerWorld) : Answer * ServerWorld -> Prop :=
| served_status status text : served w (Answer_Status status text, w)
| served_rejected response : middleware = Err response -> served w (Answer_Http response, w)
| served_public e args :
    is_public e = true -> served w (run_endpoint app clocks ci e None req w args)
| served_guarded e args claim :
    is_public e = false -> middleware = Ok claim ->
    served w (run_endpoint app clocks ci e (Some claim) req w args).

Lemma serve_served w : served w (serve app clocks ci req w).
Proof.
  unfold serve. pose proof (route_app_well (cfg_jwt_secret (ap_config app)) (ci_now ci) req app_services) as H.
  destruct (route_app _ _ _ _) as [e claim|response|status text]; [|by constructor|constructor].
  destruct H as (guarded & Hg%registered_endpoints & Ha).
  destruct (extract e req) as [args|status]; [|constructor]. subst guarded.
  destruct (is_public e) eqn:He; cbn in Ha.
  - subst claim. by constructor.
  - destruct Ha as (c & -> & Hc). by constructor.
Qed.

Lemma middleware_rejection response : middleware = Err response -> hr_status response = 401.
Proof.
  unfold auth_middleware. destruct (authorization req) as [[h|]|]; cbn -[strip_prefix]; [|by intros [= <-]..].
  destruct (strip_prefix "Bearer " h) as [token|]; [unfold ok_or|by intros [= <-]].
  by destruct (decode_token token _ _); [|intros [= <-]].
Qed.

(** The answers that show nothing of a user's own. *)
Definition public_answer (answer : Answer) : Prop :=
  match answer with
  | Answer_Status _ _ | Answer_Auth _ | Answer_OpenOrders _ | Answer_Candles _
  | Answer_OrderBook _ => True
  | Answer_Http response => middleware = Err response
  | _ => False
  end.

(** Nothing but the table of users has changed, and that only by signing up. *)
Definition only_signed_up (answer : Answer) (w w' : ServerWorld) : Prop :=
  exists us, w' = set_users us w /\
    (us <> sw_users w -> exists response, answer = Answer_Auth response).

Lemma unchanged answer w : only_signed_up answer w w.
Proof. exists (sw_users w). split; [by destruct w|done]. Qed.

Lemma public_endpoint e args w :
  is_public e = true ->
  let '(answer, w') := run_endpoint app clocks ci e None req w args in
  public_answer answer /\ only_signed_up answer w w'.
Proof.
  intros He. destruct e; try discriminate He; cbn;
    try (destruct args); try (by split; [|apply unchanged]).
  destruct (signup_user _ _ _ _ _ _ _) as [response us].
  split; [done|]. exists us. by eauto.
Qed.

(** No handler is left out: each of the 22 is registered, and the five
    public ones are exactly those outside the middleware. So a request whose token
    is missing, malformed, forged or expired is never shown anything of a user's
    own and changes nothing: it gets a 401, the status of the framework, or the
    answer of a public handler, the table of users changing at most by signing up.
    With a token the handler that is not public runs for the claim of that token. *)
Theorem token_required w :
  (forall e guarded, (e, guarded) ∈ registered_handlers app_services <-> guarded = negb (is_public e)) /\
  let '(answer, w') := serve app clocks ci req w in
  match middleware with
  | Err response =>
      hr_status response = 401 /\ public_answer answer /\ only_signed_up answer w w'
  | Ok claim =>
      (public_answer answer /\ only_signed_up answer w w') \/
      exists e args, is_public e = false /\
        (answer, w') = run_endpoint app clocks ci e (Some claim) req w args
  end.
Proof.
  split; [apply registered_endpoints|].
  destruct (serve_served w) as [status text|response Hr|e args He|e args claim He Hc].
  - pose proof (unchanged (Answer_Status status text) w).
    destruct middleware eqn:Hm; [by left|]. by split; [apply middleware_rejection|].
  - rewrite Hr. split_and!; [by apply middleware_rejection|done|apply unchanged].
  - pose proof (public_endpoint e args w He) as Hp.
    destruct (run_endpoint _ _ _ _ _ _ _ _) as [answer w'].
    destruct middleware eqn:Hm; [by left|]. by split; [apply middleware_rejection|].
  - destruct (run_endpoint _ _ _ _ _ _ _ _) as [answer w'] eqn:E. rewrite Hc.
    right. eauto.
Qed.
End Serve.

(** ** Whose funds a request moves *)

(** The wallet commands that a request put on the queue. *)
Definition commands_from (w w' : ServerWorld) (l : list (string * Z * WalletCommand)) : Prop :=
  ss_queue (sw_server w') = ss_queue (sw_server w) ++ l.

Section Funds.
Variables (app : AppData) (clocks : Clocks).
Hypothesis producer_built : exists connect brokers topic,
  RedpandaProducer_new connect brokers topic = Ok (ap_producer app).

(** The key of a queued command is its user's. *)
Definition keyed_by (u : Z) (entry : string * Z * WalletCommand) : Prop :=
  entry.1.1 = to_string u /\ exists env, envelope_of entry.2 = Some env /\ env_user_id env = u.

Lemma run_command_queue ci claim req request w :
  let '(_, w') := run_command app ci (Some claim) req request w in
  exists l, commands_from w w' l /\ Forall (keyed_by (cl_userid claim)) l.
Proof.
  unfold run_command. destruct (handle_command _ _ _ _ _) as [r s] eqn:E.
  apply handle_command_outcome in E.
  - destruct E as [(response & _ & _ & Hq & _)|(c & key & producer & config & command & partition & Hc & _ & _ & _ & _ & Henv & _ & _ & Hq & _)].
    + exists []. split; [exact Hq|constructor].
    + injection Hc as ->. eexists. split; [exact Hq|]. apply Forall_singleton. split; [done|]. by eexists.
  - intros producer [= <-]. exact producer_built.
Qed.

Lemma run_endpoint_queue ci e claim req w args :
  let '(_, w') := run_endpoint app clocks ci e (Some claim) req w args in
  exists l, commands_from w w' l /\ Forall (keyed_by (cl_userid claim)) l.
Proof.
  assert (exists l, commands_from w w l /\ Forall (keyed_by (cl_userid claim)) l) as Hsame
    by (exists []; unfold commands_from; by rewrite app_nil_r).
  destruct e; cbn -[run_command]; try (destruct args); try exact Hsame; try apply run_command_queue.
  destruct (signup_user _ _ _ _ _ _ _). exact Hsame.
Qed.

(** Who a request is from. *)
Definition caller (ci : Circumstances) (req : Request) : option Z :=
  match auth_middleware (cfg_jwt_secret (ap_config app)) (ci_now ci) (authorization req) with
  | Ok claim => Some (cl_userid claim)
  | Err _ => None
  end.

Lemma serve_queue ci req w :
  let '(_, w') := serve app clocks ci req w in
  exists l, commands_from w w' l /\
    Forall (fun entry => exists u, caller ci req = Some u /\ keyed_by u entry) l.
Proof.
  assert (forall w' l u, commands_from w w' l /\ Forall (keyed_by u) l -> caller ci req = Some u ->
    exists l, commands_from w w' l /\
      Forall (fun entry => exists u, caller ci req = Some u /\ keyed_by u entry) l) as Hcaller.
  { intros w' l u [Hl Hall] Hu. exists l. split; [done|]. eapply Forall_impl; [exact Hall|]. by exists u. }
  destruct (serve_served app clocks ci req w) as [status text|response Hr|e args He|e args claim He Hc].
  1-2: exists []; unfold commands_from; by rewrite app_nil_r.
  - pose proof (public_endpoint app clocks ci req e args w He) as Hp.
    destruct (run_endpoint _ _ _ _ _ _ _ _) as [answer w']. destruct Hp as (_ & us & -> & _).
    exists []. unfold commands_from. by rewrite app_nil_r.
  - pose proof (run_endpoint_queue ci e claim req w args) as Hq.
    destruct (run_endpoint _ _ _ _ _ _ _ _) as [answer w']. destruct Hq as (l & Hl).
    eapply Hcaller; [exact Hl|]. unfold caller. by rewrite Hc.
Qed.

(** Requests one after the other. *)
Fixpoint serves (requests : list (Circumstances * Request)) (w : ServerWorld) : ServerWorld :=
  match requests with
  | [] => w
  | (ci, req) :: requests => serves requests (serve app clocks ci req w).2
  end.

Lemma serves_queue requests : forall w,
  exists l, commands_from w (serves requests w) l /\
    Forall (fun entry => exists ci req u, (ci, req) ∈ requests /\ caller ci req = Some u /\
              keyed_by u entry) l.
Proof.
  induction requests as [|[ci req] requests IH]; intros w.
  - exists []. unfold commands_from. by rewrite app_nil_r.
  - cbn [serves]. pose proof (serve_queue ci req w) as Hs.
    destruct (serve app clocks ci req w) as [answer w1]. destruct Hs as (l1 & Hl1 & Hall1). cbn.
    destruct (IH w1) as (l2 & Hl2 & Hall2). exists (l1 ++ l2). unfold commands_from in *.
    split; [by rewrite Hl2, Hl1, app_assoc|]. apply Forall_app. split; (eapply Forall_impl; [eassumption|]).
    + intros entry (u & Hu & Hk). exists ci, req, u. split; [by left|done].
    + intros entry (ci' & req' & u & Hin & Hrest). exists ci', req', u. split; [by right|done].
Qed.

(** Claim C30. Whatever requests reach the server, in whatever order and state, and
    whatever the framework makes of their paths and bodies: if none of them carries
    a token the middleware accepts as user [u]'s, then what the wallet makes of the
    commands they put on its queue, with any database whose books are in order, leaves
    the balances, the reservations and the ledger entries of [u] what they were, and
    each such command lies under the key of the user its token names. This is about
    the wallet's handling of those commands only: what the engine makes of the inputs
    they lead to is not covered, and the wallet does not check that a cancelled order
    is the caller's, so a cancellation of [u]'s order by another user is forwarded, and
    an engine that accepts it has [u]'s margin released. *)
Theorem token_holder_moves_own_funds requests w u :
  (forall ci req, (ci, req) ∈ requests -> caller ci req <> Some u) ->
  exists l, commands_from w (serves requests w) l /\
    (forall entry, entry ∈ l -> exists ci req user, (ci, req) ∈ requests /\
       caller ci req = Some user /\ keyed_by user entry) /\
    forall self draws (db : WalletDb), books_ok (books db) -> length draws = length l ->
      untouched u (books db) (books (wallet_runs self (zip draws (map snd l)) db)).
Proof.
  intros Hu. destruct (serves_queue requests w) as (l & Hl & Hall). exists l. split; [done|].
  split; [by apply Forall_forall|]. intros self draws db Hok Hlen. apply wallet_runs_untouched; [done|].
  apply Forall_forall. intros [d command] Hin. apply elem_of_zip_r in Hin.
  apply list_elem_of_fmap in Hin as (entry & -> & Hin). rewrite Forall_forall in Hall.
  destruct (Hall entry Hin) as (ci & req & user & Hreq & Hc & _ & env & Henv & Huser).
  exists env. split; [done|]. intros <-. apply (Hu ci req Hreq). by rewrite Hc, Huser.
Qed.
End Funds.
End Routes.

(** ** Examples *)

#[local] Existing Instance tagged_serde.
#[local] Existing Instance AuthExample.example_libraries.
#[local] Transparent gmap_empty.

Module RoutesExample.

Inductive Content :=
| Content_None
| Content_Id (id : Z)
| Content_Deposit (body : DepositBalance).

Record SimpleRequest := mkSimpleRequest {
  sr_method : Method;
  sr_path : string;
  sr_token : option string;
  sr_content : Content
}.

(** A scope takes the paths that continue its prefix, a resource its own path. *)
Definition takes (trail : list string) (r : SimpleRequest) (s : Service) : bool :=
  let here := fold_right String.append "" trail in
  match s with
  | Service_Scope prefix _ _ => starts_with (here +:+ prefix) (sr_path r)
  | Service_Handler method path _ =>
      bool_decide (method = sr_method r) && bool_decide (sr_path r = here +:+ path)
  | Service_Route path _ _ => bool_decide (sr_path r = here +:+ path)
  end.
Fixpoint position {A} (p : A -> bool) (l : list A) : option nat :=
  match l with [] => None | x :: l => if p x then Some O else S <$> position p l end.

Definition simple_extract (e : Endpoint) (r : SimpleRequest) : Result Z (Args e) :=
  match e return Result Z (Args e) with
  | EP_add_balance => match sr_content r with Content_Deposit body => Ok body | _ => Err 400 end
  | EP_get_balance | EP_get_fills | EP_get_all_users | EP_get_user_details => Ok tt
  | EP_get_open_orders => match sr_content r with Content_Id id => Ok id | _ => Err 404 end
  | _ => Err 400
  end.

#[local] Instance simple_actix : ActixWeb := {|
  Request := SimpleRequest;
  request_method := sr_method;
  authorization r := (fun token => Some ("Bearer " +:+ token)) <$> sr_token r;
  idempotency_header _ := Some (Some "key-1");
  is_preflight _ := false;
  pick trail services r := position (takes trail r) services;
  extract := simple_extract
|}.

Definition app : AppData :=
  mkAppData (mkConfig "" None "" 8080 "" "s" "" "wallet.commands" "" "" 0 5000)
    (mkRedpandaProducer "wallet.commands" [0; 1; 2]).
Definition clocks : Clocks := mkClocks id id id (fun _ => true).
Definition empty_projector : ProjectorDb := mkProjectorDb ∅ ∅ ∅ ∅ ∅ ∅ (mkPositionTables ∅ ∅ ∅ ∅ 1) (mkBookTables ∅ ∅ ∅) ∅ ∅.
Definition circumstances : Circumstances :=
  mkCircumstances 1000 (fun lo _ => lo) draws_1 true true true empty_projector
    (mkBookTables ∅ ∅ ∅) (mkBookTables ∅ ∅ ∅).
Definition world : ServerWorld :=
  mkServerWorld server_1 {[1000000000 := mkUserRow "alice" "hsecret"]} WalletExample.active empty_projector
    (mkTimeseriesDb ∅ ∅ ∅).

Definition deposit (token : option string) : SimpleRequest :=
  mkSimpleRequest POST "/api/balance/" token
    (Content_Deposit (mkDepositBalance AssetType_USDC 50 None)).

Example deposit_queued :
  map (fun '(key, _, command) => (key, env_user_id <$> envelope_of command))
    (ss_queue (sw_server (serve app clocks circumstances (deposit (Some "day.1")) world).2))
  = [("1000000000", Some 1000000000)].
Proof. vm_compute. reflexivity. Qed.

Example deposit_without_token :
  serve app clocks circumstances (deposit None) world
  = (Answer_Http (unauthorized "authorization header is missing"), world).
Proof. vm_compute. reflexivity. Qed.

Example deposit_with_forged_token :
  serve app clocks circumstances (deposit (Some "day.3")) world
  = (Answer_Http (unauthorized "invalid token"), world).
Proof. vm_compute. reflexivity. Qed.

(** The public handler of orders stands before the scope that wants a token; any
    other path below [/orders] meets the middleware first. *)
Example open_orders_unguarded :
  (serve app clocks circumstances
     (mkSimpleRequest GET "/api/orders/open/{market_id}" None (Content_Id 7)) world).1
  = Answer_OpenOrders (ok_response "all open orders" (Some [])).
Proof. vm_compute. reflexivity. Qed.
Example other_orders_guarded :
  (serve app clocks circumstances (mkSimpleRequest GET "/api/orders/nowhere" None Content_None) world).1
  = Answer_Http (unauthorized "authorization header is missing").
Proof. vm_compute. reflexivity. Qed.
Example nowhere_not_found :
  (serve app clocks circumstances (mkSimpleRequest GET "/nowhere" None Content_None) world).1
  = Answer_Status 404 "You sent a request to no where".
Proof. vm_compute. reflexivity. Qed.

(** A deposit of alice's and one nobody signed leave user 1 alone. *)
Definition requests : list (Circumstances * Request) :=
  [(circumstances, deposit (Some "day.1")); (circumstances, deposit None)].

Lemma no_request_of_1 ci req : (ci, req) ∈ requests -> caller app ci req <> Some 1.
Proof.
  intros H. repeat (apply elem_of_cons in H as [[= -> ->]|H]; [by vm_compute|]).
  by apply elem_of_nil in H.
Qed.

Lemma producer_built : exists connect brokers topic,
  RedpandaProducer_new connect brokers topic = Ok (ap_producer app).
Proof.
  by exists (fun _ => Ok (mkCluster (Ok [("wallet.commands", [0; 1; 2])]) (fun _ _ => Ok tt))),
    "localhost:9092", "wallet.commands".
Qed.

Lemma token_holder_moves_own_funds_witness :
  exists l, commands_from world (serves app clocks requests world) l /\
    forall draws, length draws = length l ->
      untouched 1 (books WalletExample.active) (books (wallet_runs WalletExample.self (zip draws (map snd l)) WalletExample.active)).
Proof.
  destruct (token_holder_moves_own_funds app clocks producer_built requests world 1 no_request_of_1)
    as (l & Hl & _ & Hun).
  exists l. split; [exact Hl|]. intros draws Hlen. by apply Hun; [apply WalletExample.active_ok|].
Defined.
End RoutesExample.
