(* ===== verification/OrderFlow.v ===== *)
(** * OrderFlow: an order through the services

    [apps/server] queues an order on the wallet's topic, [apps/wallet] reserves
    its margin and puts it in the outbox for the engine, and the replies of both
    come back to the request that waits in the server. The components are those of
    ServerHandlers, WalletProcessor and ServerReplies; here they are composed. *)

From S2P Require Import Prelude Text Protocol Postgres WalletDb WalletRepository WalletProcessor WalletSpec WalletStatements WalletRefinement WalletHandlers WalletRuns WalletTotal.
From S2P Require Import WalletOutbox WalletQueue ProjectorPositions ServerReplies ServerRepliesTheorems ServerHandlers ServerHandlersTheorems.

Section WithSerde.
Context {SD : Serde} {LAWS : SerdeLaws}.
Implicit Types (db : WalletDb).

(** ** The wallet's answer to a new order *)

(** The user exists, and neither key, reservation id nor outbox messages of the
    order have been used. *)
Record order_is_new (d : Draw) (intent : PlaceOrderIntent) db : Prop := {
  on_user : env_user_id (poi_envelope intent) ∈ users db;
  on_reply : stored_reply db (env_user_id (poi_envelope intent)) "PlaceOrderIntent"
               (env_idempotency_key (poi_envelope intent)) = None;
  on_reservation : reservation_clash (draw_uuid d) (env_user_id (poi_envelope intent))
                     (env_idempotency_key (poi_envelope intent)) db = false;
  on_event : wallet_outbox db !! funds_reserved_dedupe_key ("res_" +:+ draw_uuid d) = None;
  on_input : wallet_outbox db !! place_order_dedupe_key (poi_envelope intent) = None
}.

Definition order_account (intent : PlaceOrderIntent) : Z * AssetType :=
  (env_user_id (poi_envelope intent), asset_to_db (poi_margin_asset intent)).

Definition available_for (intent : PlaceOrderIntent) db : Z :=
  total_at (books db) (order_account intent) - locked_at (books db) (order_account intent).

(** What the wallet grants: a reservation, and the order for the engine. *)
Definition granted_reply (d : Draw) (intent : PlaceOrderIntent) : FundsReserved :=
  mkFundsReserved (env_request_id (poi_envelope intent)) ("res_" +:+ draw_uuid d)
    (poi_margin_asset intent) (poi_required_margin intent).
Definition granted_input (d : Draw) (intent : PlaceOrderIntent) : EngineCommand :=
  EngineCommand_PlaceOrder (into_reserved_order intent ("res_" +:+ draw_uuid d)).
Definition granted (d : Draw) (intent : PlaceOrderIntent) : WalletProcessResult :=
  mkWalletProcessResult [WalletReply_FundsReserved (granted_reply d intent)]
    [funds_reserved_event (funds_reserved_dedupe_key ("res_" +:+ draw_uuid d)) intent
       (granted_reply d intent)]
    [granted_input d intent].

Definition refused (intent : PlaceOrderIntent) db : WalletReply :=
  WalletReply_InsufficientFunds
    (insufficient_funds_reply (env_request_id (poi_envelope intent)) (poi_margin_asset intent)
       (poi_required_margin intent) (available_for intent db)).

(** The message for the engine waits in the outbox. *)
Definition input_in_outbox (self : WalletProcessor) (intent : PlaceOrderIntent)
    (input : EngineCommand) db : Prop :=
  exists row value,
    wallet_outbox db !! place_order_dedupe_key (poi_envelope intent) = Some row /\
    engine_command_to_value input = Some value /\ ob_payload row = value /\
    ob_topic row = engine_input_topic self /\ ob_message_key row = to_string (poi_market_id intent) /\
    ob_status row = "PENDING".

Lemma row_of_covered intent db :
  0 < poi_required_margin intent <= available_for intent db ->
  exists b, user_collaterals db !! order_account intent = Some b /\
    0 < poi_required_margin intent <= bs_total b - bs_locked b.
Proof.
  unfold available_for, total_at, locked_at, balance_at. cbn.
  destruct (user_collaterals db !! order_account intent) as [b|]; cbn; [eauto|lia].
Qed.

(** What a grant leaves of the rest of the database: only the keys of the order are
    taken. *)
Record grant_frame (d : Draw) (intent : PlaceOrderIntent) db db' : Prop := {
  gf_reply user ctype key :
    (user, ctype, key) <> (env_user_id (poi_envelope intent), "PlaceOrderIntent",
                           env_idempotency_key (poi_envelope intent)) ->
    stored_reply db' user ctype key = stored_reply db user ctype key;
  gf_outbox key :
    key <> funds_reserved_dedupe_key ("res_" +:+ draw_uuid d) ->
    key <> place_order_dedupe_key (poi_envelope intent) ->
    wallet_outbox db' !! key = wallet_outbox db !! key
}.

Lemma reserve_and_forward_granted self d intent db :
  books_wf (books db) -> order_is_new d intent db ->
  0 < poi_required_margin intent <= available_for intent db ->
  exists db', reserve_and_forward self d intent db = (Ok (granted d intent), db') /\
    available_for intent db' = available_for intent db - poi_required_margin intent /\
    input_in_outbox self intent (granted_input d intent) db' /\
    grant_frame d intent db db' /\
    exists b, user_collaterals db !! order_account intent = Some b /\
      books db' = books (reserved_db (draw_uuid d) (env_user_id (poi_envelope intent))
        (env_request_id (poi_envelope intent)) (env_idempotency_key (poi_envelope intent))
        (poi_margin_asset intent) (poi_required_margin intent) b db).
Proof.
  intros Hwf [Hu Hr Hclash Hevent Hinput] Hcov.
  destruct (row_of_covered _ _ Hcov) as (b & Hb & Hfree).
  pose proof (reserve_covered (draw_uuid d) (env_user_id (poi_envelope intent))
    (env_request_id (poi_envelope intent)) (env_idempotency_key (poi_envelope intent))
    (poi_margin_asset intent) (poi_required_margin intent) db Hwf Hb Hfree) as Hrun.
  rewrite Hclash in Hrun. fold (granted_reply d intent) in Hrun.
  set (db1 := reserved_db _ _ _ _ _ _ b db) in Hrun.
  set (id := funds_reserved_dedupe_key ("res_" +:+ draw_uuid d)) in *.
  destruct (wallet_event_total (funds_reserved_event id intent (granted_reply d intent))) as [ve Hve].
  destruct (engine_command_total (granted_input d intent)) as [vi Hvi].
  destruct (reply_roundtrip (WalletReply_FundsReserved (granted_reply d intent))) as (vr & Hvr & _).
  set (m1 := mkNewWalletOutboxMessage id (wallet_events_topic self) None
               (to_string (env_user_id (poi_envelope intent))) "WalletEvent" ve).
  set (m2 := mkNewWalletOutboxMessage (place_order_dedupe_key (poi_envelope intent))
               (engine_input_topic self) None (to_string (poi_market_id intent)) "EngineCommand" vi).
  assert (reserve_builder self intent (granted_reply d intent) = Ok (vr, [m1; m2])) as Hbuild.
  { unfold reserve_builder, wallet_event_outbox_message, engine_command_outbox_message, json,
      reply_value. cbn [fr_reservation_id granted_reply]. fold id.
    rewrite Hve. cbn [ok_or rbind]. unfold EngineInputPublication_new, eip_input, eip_key.
    fold (granted_input d intent). rewrite Hvi. cbn [ok_or rbind]. by rewrite Hvr. }
  set (db2 := set_idempotency (fun m =>
    <[(env_user_id (poi_envelope intent), "PlaceOrderIntent", env_idempotency_key (poi_envelope intent)) :=
       (env_request_id (poi_envelope intent), vr)]> m) db1).
  set (db3 := enqueue_db (draw_now d) m2 (enqueue_db (draw_now d) m1 db2)).
  assert (finish_with_reply (draw_now d) (env_user_id (poi_envelope intent)) "PlaceOrderIntent"
    (env_idempotency_key (poi_envelope intent)) (env_request_id (poi_envelope intent))
    (reserve_builder self intent) (granted_reply d intent) db1 = (Ok (granted_reply d intent), db3)) as Hfin.
  { unfold finish_with_reply. rewrite Hbuild. rewrite (bind_run (lift _) _ _ _ _ eq_refl).
    rewrite (bind_run _ _ _ _ _ (record_fresh_run _ _ _ _ vr db1 Hu Hr)). fold db2.
    rewrite (bind_run _ _ _ tt db3); [done|].
    rewrite enqueue_fresh by done. rewrite enqueue_fresh; [apply enqueue_nil|done|].
    cbn -[place_order_dedupe_key]. by rewrite lookup_insert_ne. }
  exists db3. split; [|split; [|split; [|split]]]; [..|by exists b].
  - rewrite reserve_and_forward_unfold. cbn zeta. rewrite with_stored_reply_miss by done.
    unfold refuse_or_grant.
    rewrite (bind_run _ _ _ (inl (granted_reply d intent)) db3); [done|].
    unfold catch_insufficient.
    by rewrite (transaction_bind_run _ _ _ _ _ _ _ _
                  (reserve_funds_with_outbox_eq _ _ _ _ _ _ _ _ _) Hrun Hfin).
  - unfold available_for, total_at, locked_at, balance_at. cbn.
    unfold order_account in *. rewrite lookup_insert_eq, Hb. cbn. lia.
  - exists (new_outbox_row (outbox_seq (enqueue_db (draw_now d) m1 db2)) (draw_now d) m2), vi.
    split; [apply lookup_insert_eq|]. by split_and!.
  - split.
    + intros user ctype key Hne. unfold stored_reply. cbn. by rewrite lookup_insert_ne.
    + intros key H1 H2. cbn -[place_order_dedupe_key funds_reserved_dedupe_key].
      by rewrite !lookup_insert_ne by done.
Qed.

(** [db] with the refusal stored under the order's key. *)
Definition refusal_stored (intent : PlaceOrderIntent) (reply : Value) db : WalletDb :=
  set_idempotency (fun m =>
    <[(env_user_id (poi_envelope intent), "PlaceOrderIntent", env_idempotency_key (poi_envelope intent)) :=
       (env_request_id (poi_envelope intent), reply)]> m) db.

Lemma reserve_and_forward_refused self d intent db :
  books_wf (books db) -> order_is_new d intent db ->
  available_for intent db < poi_required_margin intent ->
  exists v, reply_to_value (refused intent db) = Some v /\
    reserve_and_forward self d intent db
    = (Ok (reply_result (refused intent db)), refusal_stored intent v db).
Proof.
  intros Hwf [Hu Hr _ _ _] Hshort.
  pose proof (reserve_short (draw_uuid d) (env_user_id (poi_envelope intent))
    (env_request_id (poi_envelope intent)) (env_idempotency_key (poi_envelope intent))
    (poi_margin_asset intent) (poi_required_margin intent) db Hwf) as Hrun.
  fold (order_account intent) in Hrun. fold (available_for intent db) in Hrun.
  destruct (reply_roundtrip (refused intent db)) as (vr & Hvr & _).
  set (db' := refusal_stored intent vr db).
  exists vr. split; [done|]. rewrite reserve_and_forward_unfold. cbn zeta.
  rewrite with_stored_reply_miss by done. unfold refuse_or_grant.
  rewrite (bind_run _ _ _ (inr (available_for intent db)) db).
  - fold (refused intent db). unfold record_reply, reply_value. rewrite Hvr. cbn [ok_or].
    rewrite (bind_run _ _ _ tt db'); [done|]. rewrite (bind_run (lift _) _ _ _ _ eq_refl).
    unfold record_idempotent_reply. apply transaction_run.
    by rewrite (record_fresh_run _ _ _ _ vr db Hu Hr).
  - unfold catch_insufficient. rewrite (reserve_funds_with_outbox_eq _ _ _ _ _ _ _ _ _ db).
    erewrite transaction_run_err; [|erewrite bind_run_err; [reflexivity|apply Hrun]]; [by destruct db|].
    intros b Hb. unfold available_for, total_at, locked_at, balance_at in Hshort. cbn in Hshort.
    by rewrite Hb in Hshort.
Qed.

(** ** The server's part *)

(** What the server asks the wallet on behalf of the caller. *)
Record asked (d : Draws) (req : HttpRequest) (o : PlaceOrder) (st : ServerState)
    (claim : Claim) (config : CommandConfig) (intent : PlaceOrderIntent) : Prop := {
  as_claim : rq_claim req = Some claim;
  as_config : rq_config req = Some config;
  as_key : idempotency_key req = Ok (env_idempotency_key (poi_envelope intent));
  as_request : env_request_id (poi_envelope intent) = "req_" +:+ dw_uuid d;
  as_user : env_user_id (poi_envelope intent) = cl_userid claim;
  as_partition : env_reply_partition (poi_envelope intent) = cc_server_reply_partition config;
  as_order : poi_order_id intent = ss_order_id_seq st;
  as_margin : 0 < poi_required_margin intent <= po_margin o;
  as_asset : asset_to_db (poi_margin_asset intent) = po_margin_asset o
}.

Lemma validated_margin_positive o v :
  validate_place_order o = Ok v -> 0 < vp_required_margin v <= po_margin o.
Proof.
  intros (_ & _ & _ & Hq & Hp & [Hl _] & Hle & H0 & Hcomp)%validate_place_order_ok.
  split; [|done]. destruct (decide (po_price o = 0)) as [Hz|Hz].
  - destruct (H0 Hz). lia.
  - specialize (Hcomp Hz). unfold compute_required_margin in Hcomp. unfold MIN_LEVERAGE in Hl.
    destruct (ceiling_least (po_quantity o * po_price o) (po_leverage o)) as (_ & Hge & _);
      [apply Z.mul_nonneg_nonneg; lia|lia|].
    destruct (in_i64b _); [|done]. injection Hcomp as Hcomp. rewrite Hcomp in Hge.
    assert (0 < po_quantity o * po_price o) by (apply Z.mul_pos_pos; lia). nia.
Qed.

Lemma place_order_queued d req o st waiting st' :
  place_order d req o st = (Ok waiting, st') ->
  exists claim config intent partition,
    asked d req o st claim config intent /\
    ss_queue st' = ss_queue st ++
      [(to_string (cl_userid claim), partition, WalletCommand_PlaceOrderIntent intent)] /\
    let '(channel, replies) :=
      register_waiter (env_request_id (poi_envelope intent)) (cl_userid claim)
        RequestKind_PlaceOrder (ss_replies st) in
    wt_channel waiting = channel /\ ss_replies st' = replies.
Proof.
  intros (claim & Hclaim & H)%bind_lift_ok. cbv beta in H.
  apply bind_lift_ok in H as (v & Hv & H).
  apply bind_lift_ok in H as (context & Hcontext & H). apply bind_lift_ok in H as (producer & _ & H).
  apply bind_lift_ok in H as ([] & _ & H). revert H. unfold bind at 1, allocate_order_id.
  destruct (dw_database d); [|done]. intros (partition & _ & Hqueue & Hwait)%queue_command_waits.
  apply command_context_ok in Hcontext as (key & config & Hconfig & Hkey & _ & ->).
  destruct (validate_place_order o) as [v'|] eqn:Hval; [|done]. injection Hv as ->.
  exists claim, config. eexists. exists partition.
  split; [|split; [exact Hqueue|exact Hwait]].
  split; try done.
  - by destruct (rq_claim req); [injection Hclaim as ->|].
  - by apply validated_margin_positive.
  - apply asset_mapping_roundtrip.
Qed.

(** ** The reply's way back *)

(** What the channel of a registered order carries once its replies are
    [replies], whatever happened to other requests. *)
Lemma order_channel id u st ops replies :
  replies_ok st -> Forall (leaves_request id) ops -> replies_to id ops = replies ->
  let '(channel, st1) := register_waiter id u RequestKind_PlaceOrder st in
  rs_sent (apply_ops ops st1) !! channel =
    (fun result => mkReplyRecord id (Some RequestKind_PlaceOrder) true result)
      <$> first_final RequestKind_PlaceOrder replies.
Proof.
  intros Hok Hl <-.
  pose proof (tracked_register id u RequestKind_PlaceOrder st Hok) as Htr.
  destruct (register_waiter _ _ _ _) as [channel st1]. cbn in Htr.
  apply (tr_sent _ _ _ _ _ _ (tracked_ops _ _ _ _ ops _ _ Hl Htr)).
Qed.

(** What the handler of the order has received, when the replies to its request
    are [replies] among those of other requests. *)
Definition handler_receives (id : string) (waiting : Waiting) (st : ServerState)
    (replies : list ReplyResult) (received : option ReplyRecord) : Prop :=
  forall ops, Forall (leaves_request id) ops -> replies_to id ops = replies ->
  rs_sent (apply_ops ops (ss_replies st)) !! wt_channel waiting = received.

Definition order_record (id : string) (result : ReplyResult) : ReplyRecord :=
  mkReplyRecord id (Some RequestKind_PlaceOrder) true result.

(** ** The flow *)

(** Claim C26. An order the server accepted and left waiting has put one command on
    the wallet's queue, whose replies go to this server's partition. A wallet that
    knows the user and has not seen the command's key, its reservation id or its
    outbox keys ([order_is_new]) either grants it, when the account's free balance
    covers the margin: the free balance falls by exactly the margin, the reserved
    order waits in the outbox for the engine under its market's key, and the
    waiting handler stays without an answer until the first acceptance or rejection
    by the engine of that very order, which it then gets; or, when the balance is
    short, refuses it: the refusal is stored under the command's key, nothing else in
    the wallet's database changes, and the handler gets the refusal with the balance
    that was available. (What a reused key gets is a theorem of WalletTheorems.) *)
Theorem order_flow d req o st waiting st' :
  replies_ok (ss_replies st) ->
  place_order d req o st = (Ok waiting, st') ->
  exists claim config intent partition,
    asked d req o st claim config intent /\
    let command := WalletCommand_PlaceOrderIntent intent in
    let id := env_request_id (poi_envelope intent) in
    ss_queue st' = ss_queue st ++ [(to_string (cl_userid claim), partition, command)] /\
    reply_partition (from_command command) = Some (cc_server_reply_partition config) /\
    (forall self draw db, books_wf (books db) -> order_is_new draw intent db ->
     if decide (poi_required_margin intent <= available_for intent db)
     then exists db',
       process_command self draw command db = (Ok (granted draw intent), db') /\
       available_for intent db' = available_for intent db - poi_required_margin intent /\
       input_in_outbox self intent (granted_input draw intent) db' /\
       let reserved := ReplyResult_Wallet (WalletReply_FundsReserved (granted_reply draw intent)) in
       handler_receives id waiting st' [reserved] None /\
       forall answer, is_final_result (Some RequestKind_PlaceOrder) (ReplyResult_Engine answer) = true ->
         handler_receives id waiting st' [reserved; ReplyResult_Engine answer]
           (Some (order_record id (ReplyResult_Engine answer)))
     else exists reply,
       reply_to_value (refused intent db) = Some reply /\
       process_command self draw command db
       = (Ok (reply_result (refused intent db)), refusal_stored intent reply db) /\
       handler_receives id waiting st' [ReplyResult_Wallet (refused intent db)]
         (Some (order_record id (ReplyResult_Wallet (refused intent db))))).
Proof.
  intros Hok (claim & config & intent & partition & Hasked & Hqueue & Hwait)%place_order_queued.
  exists claim, config, intent, partition. split; [done|]. cbn zeta. split; [done|].
  split; [cbn; by rewrite (as_partition _ _ _ _ _ _ _ Hasked)|]. intros self draw db Hwf Hnew.
  assert (forall replies received,
    (fun result => order_record (env_request_id (poi_envelope intent)) result)
      <$> first_final RequestKind_PlaceOrder replies = received ->
    handler_receives (env_request_id (poi_envelope intent)) waiting st' replies received) as Hrecv.
  { intros replies received <- ops Hl Hreplies.
    pose proof (order_channel _ (cl_userid claim) (ss_replies st) ops replies Hok Hl Hreplies) as Hsent.
    destruct (register_waiter _ _ _ _) as [channel st1]. by destruct Hwait as [-> ->]. }
  case_decide as Hcov.
  - destruct (reserve_and_forward_granted self draw intent db Hwf Hnew) as (db' & Hrun & Hav & Hin & _);
      [split; [apply (as_margin _ _ _ _ _ _ _ Hasked)|done]|].
    exists db'. split; [exact Hrun|]. do 2 (split; [done|]). split; [by apply Hrecv|].
    intros answer Hfinal. apply Hrecv. unfold first_final. by destruct answer.
  - destruct (reserve_and_forward_refused self draw intent db Hwf Hnew) as (v & Hv & Hrun); [lia|].
    exists v. split; [exact Hv|]. split; [exact Hrun|]. by apply Hrecv.
Qed.
End WithSerde.

(** ** An example *)

#[local] Transparent gmap_empty.
#[local] Existing Instance tagged_serde.
#[local] Existing Instance tagged_serde_laws.

Definition funded_db : WalletDb :=
  mkWalletDb {[42]} {[(42, AssetType_USDC) := mkBalanceSnapshot 500 0]} ∅ ∅ ∅ ∅ 1 ∅.
Definition intent_1 : PlaceOrderIntent :=
  mkPlaceOrderIntent (mkCommandEnvelope "req_uuid-1" "client-key-1" 42 2) 9 1 "SOL-PERP"
    Side_LONG OrderType_LIMIT 10 100 Asset_USDC 100 10 false.

Lemma funded_wf : books_wf (books funded_db).
Proof.
  split.
  - intros k b H. change (bk_coll (books funded_db)) with
      ({[(42, AssetType_USDC) := mkBalanceSnapshot 500 0]} : gmap (Z * AssetType) BalanceSnapshot) in H.
    apply lookup_singleton_Some in H as [<- <-]. unfold balance_wf, i64_max. cbn.
    split; [lia|apply elem_of_singleton_2; done].
  - intros rid r H. cbn in H. done.
Qed.

Lemma order_flow_witness : exists db',
  process_command WalletProcessor_new (mkDraw "u1" 1000) (WalletCommand_PlaceOrderIntent intent_1)
    funded_db = (Ok (granted (mkDraw "u1" 1000) intent_1), db') /\
  available_for intent_1 db' = 400.
Proof.
  destruct (place_order draws_1 request_1 order_1 server_1) as [r st'] eqn:E.
  assert (exists p, ss_queue st' = [("42", p, WalletCommand_PlaceOrderIntent intent_1)]) as [p Hq]
    by (apply (f_equal snd) in E; cbn [snd] in E; rewrite <- E; eexists; vm_compute; reflexivity).
  pose proof (f_equal fst E) as Hr. vm_compute in Hr. destruct r as [waiting|response]; [|done].
  destruct (order_flow draws_1 request_1 order_1 server_1 waiting st')
    as (claim & config & intent & partition & _ & Hqueue & _ & H); [apply replies_ok_default|exact E|].
  cbn zeta in H. rewrite Hq in Hqueue. injection Hqueue as _ _ <-.
  destruct (H WalletProcessor_new (mkDraw "u1" 1000) funded_db) as (db' & Hrun & Hav & _).
  - apply funded_wf.
  - split; [cbn; set_solver|reflexivity..].
  - exists db'. split; [exact Hrun|exact Hav].
Defined.
