(* ===== verification/OrderBatch.v ===== *)
(** * OrderBatch: orders that fit in a balance

    A batch of first-time orders on one account whose margins together do not
    exceed what is available: the wallet grants every one of them. *)

From S2P Require Import Prelude Text Protocol Postgres WalletDb WalletRepository WalletProcessor WalletSpec WalletStatements WalletRefinement WalletHandlers WalletRuns WalletErrors WalletTotal WalletTheorems WalletOwners.
From S2P Require Import WalletOutbox WalletQueue ProjectorPositions ServerReplies ServerHandlers OrderFlow.

Section WithSerde.
Context {SD : Serde} {LAWS : SerdeLaws}.
Implicit Types (db : WalletDb).

(** What an account has free. *)
Definition available_at (k : Z * AssetType) db : Z :=
  total_at (books db) k - locked_at (books db) k.

(** An order of a batch, with what its handling draws. *)
Definition Order : Type := Draw * PlaceOrderIntent.
Definition order_key (o : Order) : Z * string :=
  (env_user_id (poi_envelope o.2), env_idempotency_key (poi_envelope o.2)).
Definition order_uuid (o : Order) : string := draw_uuid o.1.
Definition margins (orders : list Order) : Z :=
  foldr (fun o acc => poi_required_margin o.2 + acc) 0 orders.

(** Orders no one has seen, each under a key and an id of its own. *)
Record new_orders (orders : list Order) db : Prop := {
  no_seen : Forall (fun o => order_is_new o.1 o.2 db) orders;
  no_uuids : NoDup (map order_uuid orders);
  no_keys : NoDup (map order_key orders)
}.

(** The wallet answers commands one after the other. *)
Fixpoint wallet_answers (self : WalletProcessor) (commands : list (Draw * WalletCommand)) db
    : list (Result WalletRepositoryError WalletProcessResult) * WalletDb :=
  match commands with
  | [] => ([], db)
  | (d, command) :: commands =>
      let '(answer, db) := process_command self d command db in
      let '(answers, db) := wallet_answers self commands db in
      (answer :: answers, db)
  end.
Definition order_command (o : Order) : Draw * WalletCommand := (o.1, WalletCommand_PlaceOrderIntent o.2).

(** ** The keys of different orders *)

Lemma place_order_dedupe_key_inj e1 e2 :
  place_order_dedupe_key e1 = place_order_dedupe_key e2 ->
  env_user_id e1 = env_user_id e2 /\ env_idempotency_key e1 = env_idempotency_key e2.
Proof.
  unfold place_order_dedupe_key. intros H%string_app_inj_l.
  apply separator_inj in H as [?%to_string_inj ?]; auto using to_string_free_of_colon.
Qed.

Lemma funds_reserved_dedupe_key_inj u1 u2 :
  funds_reserved_dedupe_key ("res_" +:+ u1) = funds_reserved_dedupe_key ("res_" +:+ u2) -> u1 = u2.
Proof. by intros H%string_app_inj_l%string_app_inj_l. Qed.

Lemma reservation_key_used_insert user key rid row m :
  reservation_key_used user key m = false -> m !! rid = None ->
  (row_user_id row, row_idempotency_key row) <> (user, key) ->
  reservation_key_used user key (<[rid := row]> m) = false.
Proof.
  unfold reservation_key_used. intros Hm Hrid Hne. apply not_true_iff_false. intros H.
  apply existsb_exists in H as ([rid' r] & Hin & Hr). apply list_elem_of_In, elem_of_map_to_list in Hin.
  apply not_true_iff_false in Hm. apply Hm. apply existsb_exists. exists (rid', r). split; [|exact Hr].
  apply list_elem_of_In, elem_of_map_to_list.
  destruct (decide (rid = rid')) as [<-|Hd]; [|by rewrite lookup_insert_ne in Hin].
  rewrite lookup_insert_eq in Hin. injection Hin as <-. apply andb_true_iff in Hr as [Hu Hk].
  apply Z.eqb_eq in Hu. apply bool_decide_eq_true in Hk. by destruct Hne; rewrite Hu, Hk.
Qed.

(** A granted order leaves every other one new. *)
Lemma order_is_new_after d0 i0 d i db b db' :
  order_is_new d0 i0 db -> order_is_new d i db -> grant_frame d0 i0 db db' ->
  books db' = books (reserved_db (draw_uuid d0) (env_user_id (poi_envelope i0))
    (env_request_id (poi_envelope i0)) (env_idempotency_key (poi_envelope i0))
    (poi_margin_asset i0) (poi_required_margin i0) b db) ->
  draw_uuid d0 <> draw_uuid d -> order_key (d0, i0) <> order_key (d, i) ->
  order_is_new d i db'.
Proof.
  intros [_ _ Hclash0 _ _] [Hu Hr Hclash He Hi] [Hfr Hfo] Hbk Huuid Hkey.
  pose proof (f_equal bk_users Hbk) as Hus. pose proof (f_equal bk_res Hbk) as Hres. cbn in Hus, Hres.
  unfold order_key in Hkey. cbn in Hkey.
  unfold reservation_clash in *. apply orb_false_iff in Hclash0 as [Hnone0 _], Hclash as [Hnone Hkeys].
  apply bool_decide_eq_false in Hnone0, Hnone. apply eq_None_not_Some in Hnone0, Hnone.
  split.
  - by rewrite Hus.
  - rewrite Hfr; [done|]. intros [= E1 E2]. destruct Hkey. by rewrite E1, E2.
  - unfold reservation_clash. rewrite Hres. apply orb_false_iff. split.
    + apply bool_decide_eq_false. rewrite lookup_insert_ne; [by rewrite Hnone; intros [? ?]|].
      intros E%string_app_inj_l. by destruct Huuid.
    + apply reservation_key_used_insert; done.
  - rewrite Hfo; [done| |]; [|discriminate]. intros E%funds_reserved_dedupe_key_inj. by destruct Huuid.
  - rewrite Hfo; [done|discriminate|]. intros [E1 E2]%place_order_dedupe_key_inj.
    destruct Hkey. by rewrite E1, E2.
Qed.

(** ** The batch *)

Lemma margins_nonneg orders :
  Forall (fun o => 0 < poi_required_margin o.2) orders -> 0 <= margins orders.
Proof. unfold margins. induction 1; cbn; lia. Qed.

Lemma new_orders_after self o orders db :
  books_ok (books db) -> new_orders (o :: orders) db ->
  0 < poi_required_margin o.2 <= available_at (order_account o.2) db ->
  exists db', process_command self o.1 (WalletCommand_PlaceOrderIntent o.2) db
    = (Ok (granted o.1 o.2), db') /\
    available_at (order_account o.2) db' = available_at (order_account o.2) db - poi_required_margin o.2 /\
    new_orders orders db' /\ books_ok (books db').
Proof.
  intros Hok [Hnew Huuids Hkeys] Hcov. destruct o as [d i].
  apply Forall_cons in Hnew as [Ho Hnew]. apply NoDup_cons in Huuids as [Hu Huuids].
  apply NoDup_cons in Hkeys as [Hk Hkeys].
  destruct (reserve_and_forward_granted self d i db (ok_wf _ Hok) Ho Hcov)
    as (db' & Hrun & Hav & _ & Hframe & b & _ & Hbk).
  exists db'. split; [exact Hrun|]. split; [exact Hav|]. split.
  - split; [|done|done]. rewrite Forall_forall in Hnew |- *. intros [d' i'] Hin.
    eapply (order_is_new_after d i); [exact Ho|by apply Hnew|exact Hframe|exact Hbk|..].
    + intros E. apply Hu. change (order_uuid (d, i)) with (draw_uuid d). rewrite E.
      apply list_elem_of_fmap. by exists (d', i').
    + intros E. apply Hk. rewrite E. apply list_elem_of_fmap. by exists (d', i').
  - eapply wallet_step_ok; [|exact Hok].
    exists d, (InCommand (WalletCommand_PlaceOrderIntent i)), (Ok (granted d i)).
    exact Hrun.
Qed.

(** Every order of the batch is granted, and the account pays exactly their
    margins. *)
Lemma orders_granted self k orders : forall db,
  books_ok (books db) -> new_orders orders db ->
  Forall (fun o => order_account o.2 = k /\ 0 < poi_required_margin o.2) orders ->
  margins orders <= available_at k db ->
  exists db', wallet_answers self (map order_command orders) db
    = (map (fun o => Ok (granted o.1 o.2)) orders, db') /\
    available_at k db' = available_at k db - margins orders /\ books_ok (books db').
Proof.
  induction orders as [|o orders IH]; intros db Hok Hnew Hall Hsum.
  - exists db. split; [done|]. split; [cbn; lia|done].
  - apply Forall_cons in Hall as [[Hk Hpos] Hall].
    assert (0 <= margins orders) as Hnn by (apply margins_nonneg; eapply Forall_impl; [exact Hall|]; by intros ? []).
    cbn [margins foldr] in Hsum. fold (margins orders) in Hsum.
    destruct (new_orders_after self o orders db Hok Hnew) as (db1 & Hrun & Hav & Hnew1 & Hok1);
      [rewrite Hk; lia|].
    rewrite Hk in Hav. destruct (IH db1 Hok1 Hnew1 Hall) as (db' & Hrest & Hav' & Hok'); [lia|].
    exists db'. cbn [map]. change (order_command o) with (o.1, WalletCommand_PlaceOrderIntent o.2).
    cbn [wallet_answers]. rewrite Hrun, Hrest.
    split; [done|]. split; [|done]. cbn [margins foldr]. fold (margins orders). lia.
Qed.

(** ** The deposit before it *)

Lemma available_nonneg k db : books_ok (books db) -> 0 <= available_at k db.
Proof.
  intros [Hwf _ _]. unfold available_at, total_at, locked_at, balance_at. cbn.
  destruct (user_collaterals db !! k) as [b|] eqn:Hb; cbn; [|lia].
  destruct (wf_balance _ Hwf k b Hb) as [(? & ? & ?) _]. lia.
Qed.

(** A deposit that is answered for the first time adds its amount. *)
Lemma deposit_credits self d deposit db res db' :
  books_ok (books db) ->
  stored_reply db (env_user_id (dep_envelope deposit)) "Deposit" (env_idempotency_key (dep_envelope deposit)) = None ->
  process_command self d (WalletCommand_Deposit deposit) db = (Ok res, db') ->
  books_ok (books db') /\
  let k := (env_user_id (dep_envelope deposit), asset_to_db (dep_asset deposit)) in
  available_at k db' = available_at k db + dep_amount deposit.
Proof.
  intros Hok Hfresh H. split.
  { eapply wallet_step_ok; [|exact Hok]. exists d, (InCommand (WalletCommand_Deposit deposit)), (Ok res).
    exact H. }
  cbn [process_command route_command] in H. rewrite process_deposit_unfold in H. cbn zeta in H.
  apply with_stored_reply_ok in H as [(v & r & Hv & _)|[_ H]]; [by rewrite Hfresh in Hv|].
  apply bind_ok in H as (a & db1 & H & E). injection E as _ <-.
  eapply (apply_deposit_with_outbox_ok _ _ _ _ _ _ _ _ (ok_wf _ Hok)) in H as (_ & _ & Hstep & _).
  cbn zeta. inversion Hstep; subst.
  match goal with H : <[_ := _]> (user_collaterals db) = _ |- _ => rename H into Hcoll end.
  assert (balance_at (books db1) k = mkBalanceSnapshot (bu_total a) (bu_locked a)) as Hb.
  { unfold balance_at. change (bk_coll (books db1)) with (user_collaterals db1).
    by rewrite <- Hcoll, lookup_insert_eq. }
  unfold available_at, total_at, locked_at in *. fold k. rewrite Hb. cbn. lia.
  Unshelve. exact None.
Qed.
End WithSerde.
