(* ===== verification/BenchDriver.v ===== *)
(** * BenchDriver: the benchmark of the command path

    [tools/exchange-bench-driver]: one user signs up, deposits enough for every
    order, and places orders over HTTP, waiting for each to complete; the latencies
    are summed up in percentiles. [usize] has 64 bits and arithmetic wraps, as in a
    release build. A rank is the product of a length and a fraction in [f64], which
    is modelled exactly; the other floating-point fields of the report, which are
    only printed, are left out. The HTTP client is a parameter: what it answers. *)

From S2P Require Import Prelude Text Protocol Settings Postgres WalletDb ProjectorMath ProjectorPositions ServerReplies ServerHandlers EngineIngress.

(** ** Settings *)

Record BenchSettings := mkBenchSettings {
  bse_server_url : string;
  bse_commands : Z;
  bse_warmup : Z;
  bse_concurrency : Z;
  bse_request_timeout_ms : Z;
  bse_run_id : string
}.

Record MarketSpec := mkMarketSpec {
  ms_id : Z;
  ms_name : string;
  ms_price : Z;
  ms_quantity : Z;
  ms_margin : Z
}.
Definition BENCH_MARKET : MarketSpec := mkMarketSpec 1 "SOL-PERP" 100 1 100.

(** [env_usize] and [env_u64] *)
Definition env_u64 (env : Env) (name : string) (default_value : Z) : Result string Z :=
  match env name with
  | Some value => map_err (fun _ => name +:+ " must be a positive integer") (parse_int u64 value)
  | None => Ok default_value
  end.
Definition env_usize : Env -> string -> Z -> Result string Z := env_u64.

Definition default_run_id (secs nanos : Z) : string :=
  "bench-" +:+ to_string secs +:+ "-" +:+ to_string nanos.

(** [value.trim_end_matches('/')] *)
Fixpoint trim_end_slashes (s : string) : string :=
  match s with
  | EmptyString => s
  | String c s' =>
      match trim_end_slashes s' with
      | EmptyString => if Ascii.eqb c (Ascii.ascii_of_nat 47) then EmptyString else String c EmptyString
      | s'' => String c s''
      end
  end.

Inductive BenchArgs :=
| BenchArgs_Settings (settings : BenchSettings)
| BenchArgs_Help
| BenchArgs_Error (error : string).

(** An argument that takes a value, with the error of a number that does not parse. *)
Definition set_bench_argument (arg value : string) (s : BenchSettings) : Result string BenchSettings :=
  let number := map_err int_error_text (parse_int u64 value) in
  if bool_decide (arg = "--server-url") then
    Ok (mkBenchSettings value (bse_commands s) (bse_warmup s) (bse_concurrency s)
          (bse_request_timeout_ms s) (bse_run_id s))
  else if bool_decide (arg = "--commands") then
    let? n := number in
    Ok (mkBenchSettings (bse_server_url s) n (bse_warmup s) (bse_concurrency s)
          (bse_request_timeout_ms s) (bse_run_id s))
  else if bool_decide (arg = "--warmup") then
    let? n := number in
    Ok (mkBenchSettings (bse_server_url s) (bse_commands s) n (bse_concurrency s)
          (bse_request_timeout_ms s) (bse_run_id s))
  else if bool_decide (arg = "--concurrency") then
    let? n := number in
    Ok (mkBenchSettings (bse_server_url s) (bse_commands s) (bse_warmup s) n
          (bse_request_timeout_ms s) (bse_run_id s))
  else if bool_decide (arg = "--request-timeout-ms") then
    let? n := number in
    Ok (mkBenchSettings (bse_server_url s) (bse_commands s) (bse_warmup s) (bse_concurrency s) n
          (bse_run_id s))
  else
    Ok (mkBenchSettings (bse_server_url s) (bse_commands s) (bse_warmup s) (bse_concurrency s)
          (bse_request_timeout_ms s) value).
Definition bench_takes_value (arg : string) : bool :=
  bool_decide (arg ∈ ["--server-url"; "--commands"; "--warmup"; "--concurrency";
                      "--request-timeout-ms"; "--run-id"]).

Fixpoint read_bench_args (args : list string) (s : BenchSettings) : BenchArgs :=
  match args with
  | [] => BenchArgs_Settings s
  | arg :: args =>
      if bench_takes_value arg then
        match args with
        | [] => BenchArgs_Error (arg +:+ " requires a value")
        | value :: args =>
            match set_bench_argument arg value s with
            | Ok s => read_bench_args args s
            | Err e => BenchArgs_Error e
            end
        end
      else if bool_decide (arg = "-h") || bool_decide (arg = "--help") then BenchArgs_Help
      else BenchArgs_Error ("unknown argument: " +:+ arg)
  end.

Definition bench_defaults (env : Env) (secs nanos : Z) : Result string BenchSettings :=
  let? commands := env_usize env "EXCHANGE_BENCH_COMMANDS" 10000 in
  let? warmup := env_usize env "EXCHANGE_BENCH_WARMUP" 1000 in
  let? concurrency := env_usize env "EXCHANGE_BENCH_CONCURRENCY" 1 in
  let? request_timeout := env_u64 env "EXCHANGE_BENCH_REQUEST_TIMEOUT_MS" 30000 in
  Ok (mkBenchSettings (default "http://127.0.0.1:18080/api" (env "EXCHANGE_BENCH_SERVER_URL"))
        commands warmup concurrency request_timeout
        (default (default_run_id secs nanos) (env "EXCHANGE_BENCH_RUN_ID"))).

Definition checked_settings (s : BenchSettings) : BenchArgs :=
  if bse_commands s =? 0 then BenchArgs_Error "--commands must be greater than zero"
  else if bse_concurrency s =? 0 then BenchArgs_Error "--concurrency must be greater than zero"
  else BenchArgs_Settings
    (mkBenchSettings (trim_end_slashes (bse_server_url s)) (bse_commands s) (bse_warmup s)
       (bse_concurrency s) (bse_request_timeout_ms s) (bse_run_id s)).

Definition bench_settings_from_args (env : Env) (secs nanos : Z) (args : list string) : BenchArgs :=
  match bench_defaults env secs nanos with
  | Err e => BenchArgs_Error e
  | Ok s =>
      match read_bench_args args s with
      | BenchArgs_Settings s => checked_settings s
      | other => other
      end
  end.

(** ** What it asks of the exchange *)

Definition required_balance (s : BenchSettings) : Z :=
  i64_wrap (i64_wrap (bse_commands s + bse_warmup s + bse_concurrency s + 10) * ms_margin BENCH_MARKET).

Definition deposit_key (s : BenchSettings) : string := bse_run_id s +:+ "-deposit".
Definition deposit_body (s : BenchSettings) : DepositBalance :=
  mkDepositBalance AssetType_USDC (required_balance s) (Some (deposit_key s)).

Definition order_idempotency_key (s : BenchSettings) (index : Z) : string :=
  bse_run_id s +:+ "-order-" +:+ to_string index.
Definition bench_order : PlaceOrder :=
  mkPlaceOrder (ms_id BENCH_MARKET) (ms_name BENCH_MARKET) SideType_LONG DbOrderType_LIMIT
    (ms_quantity BENCH_MARKET) (ms_price BENCH_MARKET) (ms_margin BENCH_MARKET) AssetType_USDC 1.

(** [run_orders]: [count] orders from [start_index] on; [main] runs the warm-up and
    then the commands. *)
Definition order_keys (s : BenchSettings) (start_index count : Z) : list string :=
  map (fun offset => order_idempotency_key s (start_index + Z.of_nat offset)) (seq 0 (Z.to_nat count)).
Definition bench_keys (s : BenchSettings) : list string :=
  order_keys s 0 (bse_warmup s) ++ order_keys s (bse_warmup s) (bse_commands s).

(** The latencies of the tasks, in the order they end, or the first error. *)
Fixpoint collect_latencies (results : list (Result string Z)) : Result string (list Z) :=
  match results with
  | [] => Ok []
  | result :: results =>
      let? latency := result in
      let? latencies := collect_latencies results in
      Ok (latency :: latencies)
  end.

(** ** Over HTTP *)

Record ApiResponse (A : Type) := mkApiResponse { api_success : bool; api_info : string; api_body : option A }.
Arguments mkApiResponse {A} _ _ _.
Arguments api_success {A} _.
Arguments api_info {A} _.
Arguments api_body {A} _.

(** The answer to a request: an error of the client, or a status and the JSON. *)
Definition HttpAnswer (A : Type) : Type := Result string (Z * Result string (ApiResponse A)).
Definition is_success (status : Z) : bool := (200 <=? status) && (status <? 300).

Record UserRecord := mkUserRecord { ur_username : string; ur_userid : Z; ur_jwt_token : string }.

Definition bench_username (s : BenchSettings) : string := "bench-user-" +:+ bse_run_id s.
Section Json.
(** A status as it is shown. *)
Variable status_text : Z -> string.
(** A [serde_json::Value], what the driver looks up in it, and its text. *)
Variable Value : Type.
Variable complete : Value -> option bool.
Variable request_id_of : Value -> option string.
Variable value_text : Value -> string.

(** [signup] on the answer to its POST. *)
Definition signup_result (username : string) (answer : HttpAnswer UserRecord) : Result string UserRecord :=
  let? reply := map_err (fun _ => "signup request failed") answer in
  let '(status, json) := reply in
  let? payload := map_err (fun _ => "signup response was not valid JSON") json in
  if negb (status =? 201) || negb (api_success payload) then
    Err ("signup failed for " +:+ username +:+ ": " +:+ status_text status +:+ " " +:+ api_info payload)
  else ok_or "signup response missing body" (api_body payload).

Definition is_complete (body : Value) : bool := default false (complete body).

(** The answers to the polls, each with whether the deadline has passed by then;
    [None] is a poll still under way. *)
Fixpoint poll_request (request_id : string) (last_body : option Value)
    (polls : list (HttpAnswer Value * bool)) : option (Result string Value) :=
  match polls with
  | [] => None
  | (Err _, _) :: _ => Some (Err ("request status failed for " +:+ request_id))
  | (Ok (status, json), deadline) :: polls =>
      let go_on last_body :=
        if deadline then
          Some (Err ("request " +:+ request_id +:+ " did not complete; last_body="
                       +:+ match last_body with Some body => value_text body | None => "<none>" end))
        else poll_request request_id last_body polls in
      if is_success status then
        match json with
        | Err _ => Some (Err ("request status was not valid JSON for " +:+ request_id))
        | Ok payload =>
            match api_body payload with
            | Some body => if is_complete body then Some (Ok body) else go_on (Some body)
            | None => go_on last_body
            end
        end
      else go_on last_body
  end.

(** [command] on the answer to its POST, and on those to its polls. *)
Definition bench_command (path : string) (answer : HttpAnswer Value) (polls : list (HttpAnswer Value * bool))
    : option (Result string Value) :=
  let first :=
    let? reply := map_err (fun _ => "command request failed for " +:+ path) answer in
    let '(status, json) := reply in
    let? payload := map_err (fun _ => "command response was not valid JSON for " +:+ path) json in
    if negb (is_success status) || negb (api_success payload) then
      Err ("command failed for " +:+ path +:+ ": " +:+ status_text status +:+ " " +:+ api_info payload)
    else
      let? body := ok_or ("command response missing body for " +:+ path) (api_body payload) in
      if status =? 202 then
        let? request_id :=
          ok_or ("queued command missing request_id for " +:+ path) (request_id_of body) in
        Ok (body, Some request_id)
      else Ok (body, None) in
  let finish final_body :=
    if is_complete final_body then Ok final_body
    else Err ("command " +:+ path +:+ " did not complete: " +:+ value_text final_body) in
  match first with
  | Err e => Some (Err e)
  | Ok (body, None) => Some (finish body)
  | Ok (_, Some request_id) =>
      match poll_request request_id None polls with
      | None => None
      | Some (Err e) => Some (Err e)
      | Some (Ok final_body) => Some (finish final_body)
      end
  end.
End Json.

(** ** The report *)

(** A positive integer as an [f64]: its 53 leading bits, to the nearest, ties to
    the even one. *)
Definition f64_round (n : Z) : Z :=
  let shift := Z.log2 n - 52 in
  if shift <=? 0 then n
  else
    let quotient := n / 2 ^ shift in
    let remainder := n mod 2 ^ shift in
    let half := 2 ^ (shift - 1) in
    let up := (half <? remainder) || ((remainder =? half) && Z.odd quotient) in
    (quotient + Z.b2z up) * 2 ^ shift.

(** A fraction between a half and one, as a multiple of [2^-53]. *)
Definition Fraction : Type := Z.
Definition p_50 : Fraction := 4503599627370496.
Definition p_90 : Fraction := 8106479329266893.
Definition p_95 : Fraction := 8556839292003942.
Definition p_99 : Fraction := 8917127262193582.
Definition p_999 : Fraction := 8998192055486251.

(** [(len as f64 * fraction).ceil() as usize] *)
Definition rank (len : Z) (fraction : Fraction) : Z :=
  (f64_round (f64_round len * fraction) + (2 ^ 53 - 1)) / 2 ^ 53.

Definition percentile (sorted : list Z) (fraction : Fraction) : Z :=
  match sorted with
  | [] => 0
  | _ =>
      let len := Z.of_nat (length sorted) in
      let index := Z.min (Z.max 0 (rank len fraction - 1)) (len - 1) in
      default 0 (sorted !! Z.to_nat index)
  end.

Record LatencySummary := mkLatencySummary {
  lt_p50 : Z; lt_p90 : Z; lt_p95 : Z; lt_p99 : Z; lt_p999 : Z; lt_max : Z
}.

Definition latency_summary (values : list Z) : LatencySummary :=
  let sorted := merge_sort Z.le values in
  mkLatencySummary (percentile sorted p_50) (percentile sorted p_90) (percentile sorted p_95)
    (percentile sorted p_99) (percentile sorted p_999) (default 0 (last sorted)).

(** [elapsed_nanos] *)
Definition elapsed_nanos (nanos : Z) : Z := Z.min nanos (2 ^ 64 - 1).
