(* ===== verification/BenchDriverTheorems.v ===== *)
(** * BenchDriverTheorems: the benchmark's orders and percentiles

    The percentiles are measured values in order, and the deposit the driver makes
    covers every order it places: the wallet grants all of them. *)

From S2P Require Import Prelude Text Protocol Settings Postgres WalletDb WalletRepository WalletProcessor WalletSpec WalletStatements WalletHandlers WalletTotal WalletTheorems.
From S2P Require Import ProjectorMath ProjectorPositions ServerReplies ServerHandlers ServerHandlersTheorems OrderFlow OrderBatch EngineIngress BenchDriver.

(** ** Rounding to an [f64] *)

(** On the grid of [2^shift]. *)
Definition round_on (shift n : Z) : Z :=
  let quotient := n / 2 ^ shift in
  let remainder := n mod 2 ^ shift in
  let half := 2 ^ (shift - 1) in
  (quotient + Z.b2z ((half <? remainder) || ((remainder =? half) && Z.odd quotient))) * 2 ^ shift.

Lemma f64_round_on n : 52 < Z.log2 n -> f64_round n = round_on (Z.log2 n - 52) n.
Proof. intros H. unfold f64_round. by destruct (Z.leb_spec (Z.log2 n - 52) 0); [lia|]. Qed.

Lemma round_on_mono shift n1 n2 : 0 <= shift -> n1 <= n2 -> round_on shift n1 <= round_on shift n2.
Proof.
  intros Hs Hn. unfold round_on. assert (0 < 2 ^ shift) as Hp by (apply Z.pow_pos_nonneg; lia).
  pose proof (Z.div_le_mono n1 n2 (2 ^ shift) Hp Hn) as Hq.
  pose proof (Z.div_mod n1 (2 ^ shift)) as H1. pose proof (Z.div_mod n2 (2 ^ shift)) as H2.
  set (q1 := n1 / 2 ^ shift) in *. set (q2 := n2 / 2 ^ shift) in *.
  set (r1 := n1 mod 2 ^ shift) in *. set (r2 := n2 mod 2 ^ shift) in *.
  set (half := 2 ^ (shift - 1)). apply Z.mul_le_mono_nonneg_r; [lia|].
  destruct (Z.eq_dec q1 q2) as [E|Hne].
  - rewrite <- E in *. assert (r1 <= r2) by lia. apply Z.add_le_mono_l.
    destruct (Z.ltb_spec half r1), (Z.ltb_spec half r2), (Z.eqb_spec r1 half), (Z.eqb_spec r2 half),
      (Z.odd q1); cbn; lia.
  - destruct (_ || _), ((half <? r2) || _); cbn; lia.
Qed.

Lemma round_on_exact shift q : 0 < shift -> round_on shift (q * 2 ^ shift) = q * 2 ^ shift.
Proof.
  intros Hs. unfold round_on. assert (0 < 2 ^ shift) as Hp by (apply Z.pow_pos_nonneg; lia).
  rewrite Z.div_mul, Z.mod_mul by lia. f_equal.
  assert (0 < 2 ^ (shift - 1)) by (apply Z.pow_pos_nonneg; lia).
  destruct (Z.ltb_spec (2 ^ (shift - 1)) 0); [lia|].
  destruct (Z.eqb_spec 0 (2 ^ (shift - 1))); [lia|]. cbn. lia.
Qed.

(** A power of two on the grid is a bound that rounding keeps to. *)
Lemma f64_round_bounds n : 0 < n -> 2 ^ Z.log2 n <= f64_round n <= 2 ^ (Z.log2 n + 1).
Proof.
  intros Hn. pose proof (Z.log2_spec n Hn) as [Hlo Hhi].
  destruct (Z.le_gt_cases (Z.log2 n) 52) as [Hs|Hs].
  - unfold f64_round. destruct (Z.leb_spec (Z.log2 n - 52) 0); [|lia]. unfold Z.succ in Hhi. lia.
  - rewrite f64_round_on by done. set (shift := Z.log2 n - 52).
    assert (forall k, 0 <= k -> 2 ^ (k + shift) = 2 ^ k * 2 ^ shift) as Hpow
      by (intros k Hk; apply Z.pow_add_r; lia).
    replace (Z.log2 n) with (52 + shift) in Hlo |- * by lia.
    replace (Z.succ (Z.log2 n)) with (53 + shift) in Hhi by lia.
    replace (52 + shift + 1) with (53 + shift) by lia.
    rewrite !Hpow in * by lia.
    split; [rewrite <- (round_on_exact shift (2 ^ 52)) by lia|rewrite <- (round_on_exact shift (2 ^ 53)) by lia];
      apply round_on_mono; lia.
Qed.

Lemma f64_round_mono n1 n2 : 0 < n1 <= n2 -> f64_round n1 <= f64_round n2.
Proof.
  intros Hn. pose proof (Z.log2_le_mono n1 n2) as Hl.
  destruct (Z.eq_dec (Z.log2 n1) (Z.log2 n2)) as [E|Hne].
  - destruct (Z.le_gt_cases (Z.log2 n1) 52) as [Hs|Hs].
    + unfold f64_round. rewrite <- E. destruct (Z.leb_spec (Z.log2 n1 - 52) 0); lia.
    + rewrite !f64_round_on by lia. rewrite E. apply round_on_mono; lia.
  - pose proof (f64_round_bounds n1) as [_ H1]; [lia|]. pose proof (f64_round_bounds n2) as [H2 _]; [lia|].
    assert (2 ^ (Z.log2 n1 + 1) <= 2 ^ Z.log2 n2) by (apply Z.pow_le_mono_r; lia). lia.
Qed.

(** ** Percentiles *)

Lemma rank_mono len f1 f2 : 0 < len -> 0 < f1 <= f2 -> rank len f1 <= rank len f2.
Proof.
  intros Hl Hf. unfold rank. apply Z.div_le_mono; [lia|]. apply Z.add_le_mono_r.
  pose proof (f64_round_bounds len Hl) as [Hlo _].
  assert (0 < 2 ^ Z.log2 len) by (apply Z.pow_pos_nonneg; [lia|apply Z.log2_nonneg]).
  apply f64_round_mono. nia.
Qed.

Lemma sorted_lookup (l : list Z) i j x y :
  Sorted Z.le l -> (i <= j)%nat -> l !! i = Some x -> l !! j = Some y -> x <= y.
Proof.
  intros Hs%Sorted_StronglySorted; [|intros a b c; lia]. revert i j.
  induction Hs as [|a l _ IH Ha]; intros i j Hij Hx Hy; [done|].
  destruct i as [|i], j as [|j]; cbn in *; simplify_eq; try lia.
  - rewrite Forall_forall in Ha. by apply Ha, (list_elem_of_lookup_2 _ j).
  - apply (IH i j); [lia|done|done].
Qed.

(** What a percentile is: the value at an index within the list. *)
Lemma percentile_lookup sorted fraction :
  sorted <> [] -> exists i, sorted !! i = Some (percentile sorted fraction) /\
    Z.of_nat i = Z.min (Z.max 0 (rank (Z.of_nat (length sorted)) fraction - 1)) (Z.of_nat (length sorted) - 1).
Proof.
  intros Hne. set (len := Z.of_nat (length sorted)).
  assert (0 < len) by (unfold len; destruct sorted; [done|cbn [length]; lia]).
  assert (percentile sorted fraction
    = default 0 (sorted !! Z.to_nat (Z.min (Z.max 0 (rank len fraction - 1)) (len - 1)))) as ->
    by (unfold percentile; by destruct sorted).
  set (index := Z.min _ _). exists (Z.to_nat index).
  destruct (lookup_lt_is_Some_2 sorted (Z.to_nat index)) as [x Hx]; [unfold index, len in *; lia|].
  rewrite Hx. split; [done|]. unfold index. lia.
Qed.

Lemma percentile_mono sorted f1 f2 :
  Sorted Z.le sorted -> 0 < f1 <= f2 -> percentile sorted f1 <= percentile sorted f2.
Proof.
  intros Hs Hf. destruct (decide (sorted = [])) as [->|Hne]; [done|].
  destruct (percentile_lookup sorted f1 Hne) as (i & Hi & Ei).
  destruct (percentile_lookup sorted f2 Hne) as (j & Hj & Ej).
  apply (sorted_lookup sorted i j); [done| |done|done].
  assert (0 < Z.of_nat (length sorted)) as Hl by (destruct sorted; [done|cbn [length]; lia]).
  pose proof (rank_mono _ f1 f2 Hl Hf). lia.
Qed.

Lemma percentile_max sorted f y :
  Sorted Z.le sorted -> last sorted = Some y -> percentile sorted f <= y.
Proof.
  intros Hs Hl. rewrite last_lookup in Hl.
  destruct (percentile_lookup sorted f) as (i & Hi & _); [by destruct sorted|].
  apply (sorted_lookup sorted i (pred (length sorted))); [done| |done|done].
  apply lookup_lt_Some in Hi. lia.
Qed.

(** The summary of at least one latency: each percentile is a latency that was
    measured, and they come in order, up to the greatest. *)
Theorem latency_summary_ordered values :
  values <> [] ->
  let s := latency_summary values in
  (forall f, percentile (merge_sort Z.le values) f ∈ values) /\
  lt_p50 s <= lt_p90 s <= lt_p95 s /\ lt_p95 s <= lt_p99 s <= lt_p999 s /\ lt_p999 s <= lt_max s /\
  lt_max s ∈ values /\ forall v, v ∈ values -> v <= lt_max s.
Proof.
  intros Hne. pose proof (merge_sort_Permutation Z.le values) as Hperm.
  assert (Sorted Z.le (merge_sort Z.le values)) as Hs by (apply (Sorted_merge_sort _); intros x y; lia).
  assert (merge_sort Z.le values <> []) as Hne' by (intros E; rewrite E in Hperm; by apply Permutation_nil in Hperm).
  unfold latency_summary. cbn [lt_p50 lt_p90 lt_p95 lt_p99 lt_p999 lt_max]. cbn zeta.
  set (sorted := merge_sort Z.le values) in *.
  destruct (last sorted) as [top|] eqn:Hl; [|by apply last_None in Hl]. cbn [default].
  split; [|split_and!].
  - intros f. rewrite <- Hperm. destruct (percentile_lookup sorted f Hne') as (i & Hi & _).
    by eapply list_elem_of_lookup_2.
  - apply percentile_mono; [done|unfold p_50, p_90; lia].
  - apply percentile_mono; [done|unfold p_90, p_95; lia].
  - apply percentile_mono; [done|unfold p_95, p_99; lia].
  - apply percentile_mono; [done|unfold p_99, p_999; lia].
  - by apply percentile_max.
  - rewrite <- Hperm. rewrite last_lookup in Hl. by eapply list_elem_of_lookup_2.
  - intros v. rewrite <- Hperm. intros [i Hi]%list_elem_of_lookup.
    rewrite last_lookup in Hl. apply (sorted_lookup sorted i (pred (length sorted))); [done| |done|done].
    apply lookup_lt_Some in Hi. lia.
Qed.

(** ** What the settings are *)

Lemma env_u64_range env name dflt z : 0 <= dflt < 2 ^ 64 -> env_u64 env name dflt = Ok z -> 0 <= z < 2 ^ 64.
Proof.
  unfold env_u64. intros Hd. destruct (env name) as [v|]; [|by intros [= <-]].
  destruct (parse_int u64 v) as [n|e] eqn:Hp; [|done]. cbn. intros [= <-].
  apply parse_int_range in Hp; [|by split]. unfold in_type, u64 in Hp. cbn in Hp. lia.
Qed.

(** Numbers of 64 bits. *)
Definition bench_settings_ok (s : BenchSettings) : Prop :=
  0 <= bse_commands s < 2 ^ 64 /\ 0 <= bse_warmup s < 2 ^ 64 /\ 0 <= bse_concurrency s < 2 ^ 64.

Lemma set_bench_argument_ok arg value s s' :
  bench_settings_ok s -> set_bench_argument arg value s = Ok s' -> bench_settings_ok s'.
Proof.
  unfold set_bench_argument. intros Hs.
  assert (forall n, map_err int_error_text (parse_int u64 value) = Ok n -> 0 <= n < 2 ^ 64) as Hn.
  { intros n. destruct (parse_int u64 value) as [m|e] eqn:Hp; [|done]. cbn. intros [= <-].
    apply parse_int_range in Hp; [|by split]. unfold in_type, u64 in Hp. cbn in Hp. lia. }
  destruct (map_err _ _) as [n|e]; [specialize (Hn n eq_refl)|]; cbn;
    repeat case_bool_decide; intros [= <-]; unfold bench_settings_ok in *; cbn; tauto.
Qed.

Lemma read_bench_args_ok : forall args s s',
  bench_settings_ok s -> read_bench_args args s = BenchArgs_Settings s' -> bench_settings_ok s'.
Proof.
  intros args. remember (length args) as n eqn:Hn. revert args Hn.
  induction n as [n IH] using lt_wf_ind. intros [|arg args] -> s s' Hs; cbn [read_bench_args].
  - by intros [= <-].
  - destruct (bench_takes_value arg).
    + destruct args as [|value args]; [done|].
      destruct (set_bench_argument arg value s) as [s1|] eqn:E; [|done].
      apply (IH (length args)); [cbn [length]; lia|done|by eapply set_bench_argument_ok].
    + by destruct (bool_decide _ || bool_decide _).
Qed.

Lemma bench_settings_range env secs nanos args s :
  bench_settings_from_args env secs nanos args = BenchArgs_Settings s ->
  bench_settings_ok s /\ 0 < bse_commands s /\ 0 < bse_concurrency s.
Proof.
  unfold bench_settings_from_args. destruct (bench_defaults env secs nanos) as [s0|] eqn:E0; [|done].
  assert (bench_settings_ok s0) as H0.
  { unfold bench_defaults in E0. apply rbind_ok in E0 as (c & Hc & E0). apply rbind_ok in E0 as (w & Hw & E0).
    apply rbind_ok in E0 as (k & Hk & E0). apply rbind_ok in E0 as (t & _ & [= <-]).
    unfold bench_settings_ok, env_usize in *. cbn. split_and!; eapply env_u64_range; try eassumption; lia. }
  destruct (read_bench_args args s0) as [s1| |] eqn:E1; [|done|done].
  pose proof (read_bench_args_ok _ _ _ H0 E1) as H1. unfold checked_settings.
  destruct (Z.eqb_spec (bse_commands s1) 0); [done|]. destruct (Z.eqb_spec (bse_concurrency s1) 0); [done|].
  intros [= <-]. unfold bench_settings_ok in *. cbn. split; [done|]. lia.
Qed.

(** ** The orders *)

Lemma order_idempotency_key_inj s i j :
  order_idempotency_key s i = order_idempotency_key s j -> i = j.
Proof. unfold order_idempotency_key. by intros ?%string_app_inj_l%string_app_inj_l%to_string_inj. Qed.

(** The keys are those of the first warm-up and command orders, each once. *)
Lemma bench_keys_seq s :
  0 <= bse_warmup s -> 0 <= bse_commands s ->
  bench_keys s = map (fun i => order_idempotency_key s (Z.of_nat i))
                   (seq 0 (Z.to_nat (bse_warmup s) + Z.to_nat (bse_commands s))).
Proof.
  intros Hw Hc. unfold bench_keys, order_keys. rewrite seq_app, map_app. cbn [Nat.add]. f_equal.
  rewrite <- (Nat.add_0_r (Z.to_nat (bse_warmup s))), <- fmap_add_seq.
  change (map ?f (?g <$> ?l)) with (f <$> (g <$> l)). rewrite <- list_fmap_compose.
  apply list_fmap_ext. intros _ i _. cbn. f_equal. lia.
Qed.

Lemma bench_keys_NoDup s : 0 <= bse_warmup s -> 0 <= bse_commands s -> NoDup (bench_keys s).
Proof.
  intros Hw Hc. rewrite bench_keys_seq by done. apply NoDup_fmap_2_strong; [|apply NoDup_seq].
  intros i j _ _ H%order_idempotency_key_inj. lia.
Qed.

(** What the server makes of the driver's request under [key]: it puts an order of
    the driver's user on the wallet's queue. *)
Definition order_of_request (u : Z) (key : string) (o : Order) : Prop :=
  exists d req claim st waiting st' partition,
    rq_claim req = Some claim /\ cl_userid claim = u /\ idempotency_key req = Ok key /\
    place_order d req bench_order st = (Ok waiting, st') /\
    ss_queue st' = ss_queue st ++ [(to_string u, partition, WalletCommand_PlaceOrderIntent o.2)].

Lemma order_of_request_intent u key o :
  order_of_request u key o ->
  order_key o = (u, key) /\ order_account o.2 = (u, AssetType_USDC) /\
  0 < poi_required_margin o.2 <= ms_margin BENCH_MARKET.
Proof.
  intros (d & req & claim & st & waiting & st' & partition & Hclaim & <- & Hkey & Hplace & Hqueue).
  destruct (place_order_queued _ _ _ _ _ _ Hplace) as (claim' & config & intent & p & Ha & Hq & _).
  rewrite Hqueue in Hq. apply app_inj_tail in Hq as [_ Hq].
  apply (f_equal snd) in Hq. cbn in Hq. injection Hq as Hq.
  destruct Ha as [Hc _ Hk _ Hu _ _ Hm Hasset]. rewrite Hclaim in Hc. injection Hc as ->.
  rewrite Hkey in Hk. injection Hk as ->. unfold order_key, order_account.
  rewrite Hq, Hu, Hasset. split; [done|]. split; [done|exact Hm].
Qed.

Lemma requests_orders u keys orders :
  Forall2 (order_of_request u) keys orders ->
  map order_key orders = map (pair u) keys /\
  Forall (fun o => order_account o.2 = (u, AssetType_USDC) /\ 0 < poi_required_margin o.2) orders /\
  margins orders <= Z.of_nat (length keys) * ms_margin BENCH_MARKET.
Proof.
  induction 1 as [|key o keys orders H _ (IH1 & IH2 & IH3)]; [by split_and!|].
  apply order_of_request_intent in H as (Hk & Ha & Hm). split_and!.
  - cbn. by rewrite Hk, IH1.
  - constructor; [|exact IH2]. split; [exact Ha|lia].
  - unfold margins in *. cbn [foldr length]. lia.
Qed.

(** Claim C28. The benchmark never runs short. Whatever settings it starts with, as
    long as their sum times the margin of an order fits in an [i64]: once its first
    deposit has been answered, the wallet grants every order the server queues for
    its warm-up and its commands, in whatever order they arrive, because the keys
    of the orders are all different and the deposit covers them all; in the end at
    least the spare part of the deposit is available. *)
Theorem bench_orders_granted {SD : Serde} {LAWS : SerdeLaws} env secs nanos args s self d deposit u
    keys orders db0 res db :
  bench_settings_from_args env secs nanos args = BenchArgs_Settings s ->
  (bse_commands s + bse_warmup s + bse_concurrency s + 10) * ms_margin BENCH_MARKET <= i64_max ->
  books_ok (books db0) ->
  env_user_id (dep_envelope deposit) = u /\ asset_to_db (dep_asset deposit) = AssetType_USDC /\
    dep_amount deposit = required_balance s ->
  stored_reply db0 u "Deposit" (env_idempotency_key (dep_envelope deposit)) = None ->
  process_command self d (WalletCommand_Deposit deposit) db0 = (Ok res, db) ->
  keys ≡ₚ bench_keys s -> Forall2 (order_of_request u) keys orders ->
  NoDup (map order_uuid orders) -> Forall (fun o => order_is_new o.1 o.2 db) orders ->
  exists db',
    wallet_answers self (map order_command orders) db
    = (map (fun o => Ok (granted o.1 o.2)) orders, db') /\
    Z.of_nat (length orders) = bse_warmup s + bse_commands s /\
    (bse_concurrency s + 10) * ms_margin BENCH_MARKET <= available_at (u, AssetType_USDC) db'.
Proof.
  intros Hs Hmax Hok0 (<- & Hasset & Hamount) Hfresh Hdep Hkeys Hreq Huuids Hnew.
  apply bench_settings_range in Hs as ((Hc & Hw & Hk) & _).
  destruct (deposit_credits self d deposit db0 res db Hok0 Hfresh Hdep) as [Hok Hav].
  cbn zeta in Hav. rewrite Hasset, Hamount in Hav.
  pose proof (available_nonneg (env_user_id (dep_envelope deposit), AssetType_USDC) db0 Hok0) as Hnn.
  assert (required_balance s
    = (bse_commands s + bse_warmup s + bse_concurrency s + 10) * ms_margin BENCH_MARKET) as Hreqd.
  { unfold required_balance. cbn [ms_margin BENCH_MARKET] in *.
    assert (i64_wrap (bse_commands s + bse_warmup s + bse_concurrency s + 10)
      = bse_commands s + bse_warmup s + bse_concurrency s + 10) as -> by
      (apply i64_wrap_id; unfold in_i64, i64_min, i64_max in *; lia).
    apply i64_wrap_id; unfold in_i64, i64_min, i64_max in *; lia. }
  destruct (requests_orders _ _ _ Hreq) as (Hok_keys & Hall & Hsum).
  assert (Z.of_nat (length keys) = bse_warmup s + bse_commands s) as Hlen.
  { rewrite Hkeys, bench_keys_seq, length_map, length_seq by lia. lia. }
  rewrite Hlen in Hsum. cbn [ms_margin BENCH_MARKET] in *.
  destruct (orders_granted self (env_user_id (dep_envelope deposit), AssetType_USDC) orders db)
    as (db' & Hrun & Hav' & _); [done| |done|lia|].
  - split; [done|done|]. rewrite Hok_keys. apply NoDup_fmap_2; [by intros ?? [= ->]|].
    rewrite Hkeys. apply bench_keys_NoDup; lia.
  - exists db'. split; [exact Hrun|]. apply Forall2_length in Hreq. split; [lia|]. lia.
Qed.

(** ** An example *)

#[local] Transparent gmap_empty.
#[local] Existing Instance tagged_serde.
#[local] Existing Instance tagged_serde_laws.

Module BenchExample.
Definition env : Env := fun _ => None.
Definition args : list string := ["--commands"; "2"; "--warmup"; "1"; "--run-id"; "r"; "--server-url"; "http://x/api//"].
Definition settings : BenchSettings := mkBenchSettings "http://x/api" 2 1 1 30000 "r".

Example bench_settings_read : bench_settings_from_args env 5 6 args = BenchArgs_Settings settings.
Proof. vm_compute. reflexivity. Qed.
Example no_commands : bench_settings_from_args env 5 6 ["--commands"; "0"]
  = BenchArgs_Error "--commands must be greater than zero".
Proof. vm_compute. reflexivity. Qed.

(** Of a hundred latencies the 95th: the fraction 0.95 is less than its [f64], so
    that the product is rounded to 95. *)
Example hundred_latencies :
  latency_summary (map Z.of_nat (rev (seq 1 100))) = mkLatencySummary 50 90 95 99 100 100.
Proof. vm_compute. reflexivity. Qed.

(** A command that is queued, polled twice and complete. *)
Example polled :
  bench_command to_string (option bool) id (fun _ => Some "req-1") (fun _ => "{}") "/orders/"
    (Ok (202, Ok (mkApiResponse true "queued" (Some None))))
    [(Ok (200, Ok (mkApiResponse true "" (Some (Some false)))), false); (Ok (503, Err "html"), false);
     (Ok (200, Ok (mkApiResponse true "" (Some (Some true)))), true)]
  = Some (Ok (Some true)).
Proof. vm_compute. reflexivity. Qed.
Example polled_too_long :
  bench_command to_string (option bool) id (fun _ => Some "req-1") (fun _ => "{}") "/orders/"
    (Ok (202, Ok (mkApiResponse true "queued" (Some None))))
    [(Ok (200, Ok (mkApiResponse true "" (Some (Some false)))), true)]
  = Some (Err "request req-1 did not complete; last_body={}").
Proof. vm_compute. reflexivity. Qed.

Definition self : WalletProcessor := WalletProcessor_new.
Definition deposit : Deposit :=
  mkDeposit (mkCommandEnvelope "req_d" "r-deposit" 42 2) Asset_USDC 1400 "r-deposit".
Definition deposited : Result WalletRepositoryError WalletProcessResult * WalletDb :=
  process_command self (mkDraw "d" 0) (WalletCommand_Deposit deposit) (empty_wallet {[42]}).

Definition request (key : string) : HttpRequest :=
  mkHttpRequest (Some (mkClaim 42 "bench-user-r" 0)) (Some (Some key)) (Some (mkCommandConfig 2 5000))
    (Some (mkRedpandaProducer "wallet.commands" [0; 1; 2])) true.
Definition intent (uuid key : string) : PlaceOrderIntent :=
  mkPlaceOrderIntent (mkCommandEnvelope ("req_" +:+ uuid) key 42 2) 9 1 "SOL-PERP"
    Side_LONG OrderType_LIMIT 1 100 Asset_USDC 100 1 false.
(** The orders arrive last first. *)
Definition keys : list string := ["r-order-2"; "r-order-0"; "r-order-1"].
Definition orders : list Order :=
  [(mkDraw "c" 0, intent "c" "r-order-2"); (mkDraw "a" 0, intent "a" "r-order-0");
   (mkDraw "b" 0, intent "b" "r-order-1")].

(** Runs the server on the request under [key]. *)
Ltac run_request uuid key :=
  exists (mkDraws uuid true Publication_Produced), (request key), (mkClaim 42 "bench-user-r" 0), server_1;
  do 3 eexists; split_and!;
    [reflexivity|reflexivity|vm_compute; reflexivity|vm_compute; reflexivity|vm_compute; reflexivity].

Lemma requested : Forall2 (order_of_request 42) keys orders.
Proof. repeat constructor; [run_request "c" "r-order-2"|run_request "a" "r-order-0"|run_request "b" "r-order-1"]. Qed.

Lemma orders_new : Forall (fun o => order_is_new o.1 o.2 deposited.2) orders.
Proof.
  assert (forall o, o ∈ orders -> order_is_new o.1 o.2 deposited.2) as H; [|by apply Forall_forall].
  intros o Ho. repeat (apply elem_of_cons in Ho as [->|Ho]; [split; vm_compute; reflexivity|]).
  by apply elem_of_nil in Ho.
Qed.

Lemma bench_orders_granted_witness : exists res db',
  deposited.1 = Ok res /\
  (wallet_answers self (map order_command orders) deposited.2).1
  = map (fun o => Ok (granted o.1 o.2)) orders /\
  1100 <= available_at (42, AssetType_USDC) db'.
Proof.
  destruct deposited as [r db] eqn:E. pose proof (f_equal fst E) as Hr.
  destruct r as [res|e]; [|vm_compute in Hr; discriminate].
  destruct (bench_orders_granted env 5 6 args settings self (mkDraw "d" 0) deposit 42 keys orders
    (empty_wallet {[42]}) res db) as (db' & Hrun & _ & Hav).
  - exact bench_settings_read.
  - vm_compute. by intros [=].
  - apply books_ok_empty.
  - by split_and!.
  - reflexivity.
  - exact E.
  - exact (Permutation_cons_append ["r-order-0"; "r-order-1"] "r-order-2").
  - exact requested.
  - vm_compute. repeat (apply NoDup_cons; split; [set_solver|]). apply NoDup_nil. done.
  - pose proof orders_new as Hnew. by rewrite E in Hnew.
  - exists res, db'. split; [done|]. cbn [snd]. rewrite Hrun. split; [done|exact Hav].
Defined.
End BenchExample.
