(* ===== verification/SmokeTheorems.v ===== *)
(** * SmokeTheorems: what the smoke test's verdicts mean

    The scan of a topic ends and finds the records that belong to the smoke's
    requests, at whatever depth of their JSON, with the offset a consumer must have
    reached; the check of the offset tables passes exactly when every consumer is
    past them; the check of the journal passes in every state its consumer can be
    in; and the commands of a run have keys of their own, orders the server takes, and
    deposits that cover them. *)

From S2P Require Import Prelude Text Protocol Settings Queue Broker Postgres WalletDb Ledger LedgerTheorems Timeseries.
From S2P Require Import ProjectorMath ProjectorPositions ProjectorBook ProjectorDb ServerReplies ServerHandlers BenchDriver Smoke.

(** ** The scan of a partition *)

Section Scan.
Context {JV : JsonValue}.

Definition visit_all {A} (visit : Z -> Json -> A -> A) (read : list (Z * option string)) (seen : A) : A :=
  fold_left (fun seen record =>
    match record_json record.2 with Some value => visit record.1 value seen | None => seen end) read seen.

Lemma scan_records_visits {A} (visit : Z -> Json -> A -> A) : forall records next seen,
  (forall r, r ∈ records -> in_i64 (r.1 + 1)) ->
  scan_records visit next records seen = (offset_after next records, visit_all visit records seen).
Proof.
  induction records as [|[o v] records IH]; intros next seen Hb; [done|]. cbn.
  rewrite i64_wrap_id by exact (Hb (o, v) (list_elem_of_here _ _)).
  apply IH. intros r Hr. by apply Hb, list_elem_of_further.
Qed.

(** A broker that answers each fetch with more of a log. *)
Record reader_serves (reader : PartitionReader) (log : list (Z * option string)) (earliest latest : Z) : Prop := {
  sv_earliest : pr_earliest reader = Ok earliest;
  sv_latest : pr_latest reader = Ok latest;
  sv_log : offsets_from earliest log;
  sv_bound r : r ∈ log -> in_i64 (r.1 + 1);
  sv_end : latest <= offset_after earliest log;
  sv_fetches : exists chunks, pr_fetches reader = map Ok chunks /\ log = concat chunks.*1 /\
                 Forall (fun chunk => chunk.1 <> []) chunks
}.

Lemma offset_after_concat n (l1 l2 : list (Z * option string)) :
  offset_after n (l1 ++ l2) = offset_after (offset_after n l1) l2.
Proof. revert n. induction l1 as [|[o p] l1 IH]; cbn; auto. Qed.

Lemma offsets_from_split n (l1 l2 : list (Z * option string)) :
  offsets_from n (l1 ++ l2) -> offsets_from n l1 /\ offsets_from (offset_after n l1) l2.
Proof.
  revert n. induction l1 as [|[o p] l1 IH]; cbn; intros n; [done|].
  intros (? & ? & [??]%IH). done.
Qed.

Lemma offsets_from_ge n (l : list (Z * option string)) r : offsets_from n l -> r ∈ l -> n <= r.1.
Proof.
  revert n. induction l as [|[o p] l IH]; cbn; intros n Hl Hr; [by apply elem_of_nil in Hr|].
  destruct Hl as (? & _ & Hl). apply elem_of_cons in Hr as [->|Hr]; cbn; [lia|].
  specialize (IH _ Hl Hr). lia.
Qed.

(** The scan ends, and what it leaves unread is past the end it saw. *)
Lemma scan_fetches_ends {A} (visit : Z -> Json -> A -> A) at_topic latest : forall chunks next seen,
  Forall (fun chunk : list (Z * option string) * Z => chunk.1 <> []) chunks ->
  offsets_from next (concat chunks.*1) ->
  (forall r, r ∈ concat chunks.*1 -> in_i64 (r.1 + 1)) ->
  latest <= offset_after next (concat chunks.*1) ->
  exists read rest, concat chunks.*1 = read ++ rest /\ (forall r, r ∈ rest -> latest <= r.1) /\
    scan_fetches visit at_topic latest next (map Ok chunks) seen = Some (Ok (visit_all visit read seen)).
Proof.
  induction chunks as [|[chunk high] chunks IH]; intros next seen Hne Hl Hb He; cbn in *.
  - exists [], []. split_and!; [done|intros r Hr; by apply elem_of_nil in Hr|]. by case_if; [|lia].
  - case_if.
    + exists [], (chunk ++ concat chunks.*1). split_and!; [done| |done].
      intros r Hr. pose proof (offsets_from_ge _ _ _ Hl Hr). lia.
    + apply Forall_cons in Hne as [Hne Hnes]. cbn in Hne.
      pose proof Hl as [Hl1 Hl2]%offsets_from_split. rewrite offset_after_concat in He.
      destruct (IH (offset_after next chunk) (visit_all visit chunk seen)) as (read & rest & Hc & Hrest & Hs);
        [done..|intros r Hr; apply Hb, elem_of_app; by right|done|].
      exists (chunk ++ read), rest. split_and!; [by rewrite Hc, app_assoc|done|].
      destruct chunk as [|r chunk]; [done|].
      rewrite scan_records_visits by (intros r' Hr; apply Hb, elem_of_app; by left).
      rewrite Hs. unfold visit_all. by rewrite fold_left_app.
Qed.

Lemma scan_partition_ends {A} (visit : Z -> Json -> A -> A) topic p reader log earliest latest seen :
  reader_serves reader log earliest latest ->
  exists read rest, log = read ++ rest /\ (forall r, r ∈ rest -> latest <= r.1) /\
    scan_partition visit topic p reader seen = Some (Ok (visit_all visit read seen)).
Proof.
  intros [He Hla Hlog Hb Hend (chunks & Hf & -> & Hne)]. unfold scan_partition. rewrite He, Hla, Hf.
  by apply scan_fetches_ends.
Qed.
End Scan.

(** ** What the collecting scans have found *)

Section Found.
Context {JV : JsonValue} {T : Type} `{Countable T}.
(** What a record's value is looked through for. *)
Variable find : Json -> gset T.

Definition finds (r : Z * option string) (t : T) : Prop :=
  exists v, record_json r.2 = Some v /\ t ∈ find v.

(** The offsets and the finds of the records read so far, each with its partition. *)
Record found_in (read : list (Z * (Z * option string))) (seen : gmap Z Z * gset T) : Prop := {
  fi_found t : t ∈ seen.2 <-> exists p r, (p, r) ∈ read /\ finds r t;
  fi_reached p r t : (p, r) ∈ read -> finds r t -> exists n, seen.1 !! p = Some n /\ r.1 < n;
  fi_exact p n : seen.1 !! p = Some n -> exists r t, (p, r) ∈ read /\ finds r t /\ n = r.1 + 1
}.

Lemma found_none : found_in [] (∅, ∅).
Proof.
  split; cbn.
  - intros t. split; [set_solver|intros (p & r & Hr & _); by apply elem_of_nil in Hr].
  - intros p r t Hr. by apply elem_of_nil in Hr.
  - intros p n. by rewrite lookup_empty.
Qed.

(** A record nothing is found in. *)
Lemma found_skip read p r seen :
  (forall t, ~ finds r t) -> found_in read seen -> found_in (read ++ [(p, r)]) seen.
Proof.
  intros Hr [H1 H2 H3]. split.
  - intros t. rewrite H1. split.
    + intros (q & r' & ? & ?). exists q, r'. split; [apply elem_of_app; by left|done].
    + intros (q & r' & [?|[= -> ->]%list_elem_of_singleton]%elem_of_app & Hf); [eauto|by apply Hr in Hf].
  - intros q r' t [?|[= -> ->]%list_elem_of_singleton]%elem_of_app Hf; [by eapply H2|by apply Hr in Hf].
  - intros q n (r' & t & ? & ?)%H3. exists r', t. split; [apply elem_of_app; by left|done].
Qed.

Lemma found_next read p r v seen :
  in_i64 (r.1 + 1) -> record_json r.2 = Some v -> found_in read seen ->
  found_in (read ++ [(p, r)]) (note_found find p r.1 v seen).
Proof.
  intros Hb Hv Hs. assert (forall t, finds r t <-> t ∈ find v) as Hf.
  { intros t. unfold finds. rewrite Hv. naive_solver. }
  unfold note_found. case_bool_decide as He.
  - apply found_skip; [|done]. intros t Ht%Hf. rewrite He in Ht. by apply elem_of_empty in Ht.
  - apply set_choose_L in He as [t0 Ht0]. destruct Hs as [H1 H2 H3].
    rewrite i64_wrap_id by done. unfold note_offset. split; cbn.
    + intros t. rewrite elem_of_union, H1, <- Hf. split.
      * intros [(q & r' & ? & ?)|?]; [exists q, r'|exists p, r]; rewrite elem_of_app, list_elem_of_singleton; auto.
      * intros (q & r' & [?|[= -> ->]%list_elem_of_singleton]%elem_of_app & ?); [left; eauto|by right].
    + intros q r' t Hin Hr. destruct (decide (q = p)) as [->|Hne].
      * rewrite lookup_insert_eq. eexists. split; [done|].
        apply elem_of_app in Hin as [Hin|[= ->]%list_elem_of_singleton].
        -- destruct (H2 p r' t Hin Hr) as (n & -> & ?). lia.
        -- destruct (seen.1 !! p); lia.
      * rewrite lookup_insert_ne by done.
        apply elem_of_app in Hin as [Hin|[= -> _]%list_elem_of_singleton]; [by eapply H2|done].
    + intros q n. destruct (decide (q = p)) as [->|Hne].
      * rewrite lookup_insert_eq. intros [= <-]. setoid_rewrite elem_of_app.
        destruct (seen.1 !! p) as [m|] eqn:Em; [destruct (Z.max_spec m (r.1 + 1)) as [[_ ->]|[_ ->]]|].
        2: { destruct (H3 p m Em) as (r' & t & ? & ? & ?). exists r', t. auto. }
        all: exists r, t0; rewrite list_elem_of_singleton, Hf; auto.
      * rewrite lookup_insert_ne by done. intros (r' & t & ? & ?)%H3. exists r', t.
        rewrite elem_of_app. auto.
Qed.

Lemma found_visited p : forall read before seen,
  (forall r, r ∈ read -> in_i64 (r.1 + 1)) -> found_in before seen ->
  found_in (before ++ map (pair p) read) (visit_all (note_found find p) read seen).
Proof.
  induction read as [|r read IH]; intros before seen Hb Hs; cbn; [by rewrite app_nil_r|].
  replace (before ++ (p, r) :: map (pair p) read) with ((before ++ [(p, r)]) ++ map (pair p) read)
    by (by rewrite <- app_assoc).
  apply IH; [intros r' Hr; by apply Hb, list_elem_of_further|].
  destruct (record_json r.2) as [v|] eqn:Ev.
  - apply found_next; [by apply Hb, list_elem_of_here|done..].
  - apply found_skip; [|done]. intros t (v & Hv & _). congruence.
Qed.

(** *** Over the partitions of a topic *)

Variable topic : string.
Variable reader : Z -> PartitionReader.
Variable log : Z -> list (Z * option string).
Variable earliest latest : Z -> Z.

Definition covers (ps : list Z) (read : list (Z * (Z * option string))) : Prop :=
  (forall p r, (p, r) ∈ read -> p ∈ ps /\ r ∈ log p) /\
  (forall p r, p ∈ ps -> r ∈ log p -> r.1 < latest p -> (p, r) ∈ read).

Lemma collect_partitions_found create client ps0 ps before seen :
  (forall p, p ∈ ps -> client p = Ok tt) ->
  (forall p, p ∈ ps -> reader_serves (reader p) (log p) (earliest p) (latest p)) ->
  found_in before seen -> covers ps0 before ->
  exists read seen', covers (ps0 ++ ps) read /\ found_in read seen' /\
    collect_partitions create client
      (fun p => scan_partition (note_found find p) topic p (reader p)) ps seen = Some (Ok seen').
Proof.
  revert ps0 before seen. induction ps as [|p ps IH]; intros ps0 before seen Hc Hs Hf Hcov.
  - exists before, seen. by rewrite app_nil_r.
  - cbn. rewrite (Hc p) by apply list_elem_of_here.
    pose proof (Hs p (list_elem_of_here _ _)) as Hp.
    destruct (scan_partition_ends (note_found find p) topic p _ _ _ _ seen Hp)
      as (read & rest & Hlog & Hrest & ->).
    replace (ps0 ++ p :: ps) with ((ps0 ++ [p]) ++ ps) by (by rewrite <- app_assoc).
    apply (IH (ps0 ++ [p]) (before ++ map (pair p) read)).
    + intros q Hq. by apply Hc, list_elem_of_further.
    + intros q Hq. by apply Hs, list_elem_of_further.
    + apply found_visited; [|done]. intros r Hr. apply (sv_bound _ _ _ _ Hp). rewrite Hlog.
      apply elem_of_app. by left.
    + destruct Hcov as [H1 H2]. split.
      * intros q r [Hin|(r' & [= -> ->] & Hr)%list_elem_of_fmap]%elem_of_app; rewrite elem_of_app.
        -- apply H1 in Hin. naive_solver.
        -- rewrite list_elem_of_singleton, Hlog, elem_of_app. auto.
      * intros q r Hq Hr Hlt. rewrite elem_of_app. apply elem_of_app in Hq as [Hq|Hq].
        -- left. by apply H2.
        -- apply list_elem_of_singleton in Hq. subst q. right. apply list_elem_of_fmap.
           exists r. split; [done|]. rewrite Hlog in Hr. apply elem_of_app in Hr as [?|Hr]; [done|].
           apply Hrest in Hr. lia.
Qed.

(** What is expected is in the topic before the end the scan sees. *)
Definition present (ps : list Z) (expected : gset T) : Prop :=
  forall t, t ∈ expected -> exists p r, p ∈ ps /\ r ∈ log p /\ r.1 < latest p /\ finds r t.

(** An offset list that says where the finds are. *)
Definition locates (ps : list Z) (offsets : list ExpectedOffset) : Prop :=
  (forall p n, (p, n) ∈ offsets -> p ∈ ps /\ exists r t, r ∈ log p /\ finds r t /\ n = r.1 + 1) /\
  (forall p r t, p ∈ ps -> r ∈ log p -> r.1 < latest p -> finds r t ->
     exists n, (p, n) ∈ offsets /\ r.1 < n).

Lemma elem_of_into_offsets offsets p n : (p, n) ∈ into_offsets offsets <-> offsets !! p = Some n.
Proof.
  unfold into_offsets. rewrite <- elem_of_map_to_list.
  split; intros Hin; eapply elem_of_Permutation_proper; try exact Hin;
    [symmetry|]; apply merge_sort_Permutation.
Qed.

Lemma found_offsets_located ps read seen missing expected :
  covers ps read -> found_in read seen -> present ps expected ->
  exists offsets, found_offsets missing expected seen = Ok offsets /\ locates ps offsets.
Proof.
  intros [Hc1 Hc2] [H1 H2 H3] Hp. unfold found_offsets. rewrite bool_decide_eq_true_2.
  2: { apply subseteq_empty_difference_L. intros t (p & r & Hps & Hr & Hlt & Hf)%Hp.
       apply H1. exists p, r. split; [by apply Hc2|done]. }
  eexists. split; [done|]. split.
  - intros p n (r & t & Hin & Hf & ->)%elem_of_into_offsets%H3. apply Hc1 in Hin as [??]. eauto 6.
  - intros p r t Hps Hr Hlt Hf. destruct (H2 p r t (Hc2 p r Hps Hr Hlt) Hf) as (n & Hn & ?).
    exists n. split; [by apply elem_of_into_offsets|done].
Qed.
End Found.

(** ** Request ids at any depth *)

Section Mentions.
Context {JV : JsonValue}.

Definition own_request_id (members : list (string * Json)) : option string :=
  (snd <$> List.find (fun member => bool_decide (member.1 = "request_id")) members) ≫= as_str.

(** A value that has a request id somewhere in it. *)
Inductive mentions : Json -> string -> Prop :=
| mentions_here v members request_id :
    json_shape v = Shape_Object members -> own_request_id members = Some request_id ->
    mentions v request_id
| mentions_nested v w request_id :
    w ∈ shape_values (json_shape v) -> mentions w request_id -> mentions v request_id.

Lemma fold_collect {A} (f : A -> gset string -> gset string) (P : A -> Prop) id : forall values m,
  (forall w m, w ∈ values -> id ∈ f w m <-> id ∈ m \/ P w) ->
  id ∈ fold_left (fun m w => f w m) values m <-> id ∈ m \/ exists w, w ∈ values /\ P w.
Proof.
  induction values as [|w values IH]; intros m Hf; cbn.
  - split; [by left|intros [?|(w & Hw & _)]; [done|by apply elem_of_nil in Hw]].
  - rewrite IH by (intros w' m' Hw; by apply Hf, list_elem_of_further).
    rewrite (Hf w m) by apply list_elem_of_here. setoid_rewrite elem_of_cons. naive_solver.
Qed.

Definition nested_ids (depth : nat) (values : list Json) (ids m : gset string) : gset string :=
  match depth with
  | O => m
  | S depth => fold_left (fun m w => matching_request_ids depth w ids m) values m
  end.

Lemma matching_request_ids_unfold depth v ids m :
  matching_request_ids depth v ids m =
  nested_ids depth (shape_values (json_shape v)) ids
    match json_shape v with
    | Shape_Object members =>
        match own_request_id members with
        | Some own => if bool_decide (own ∈ ids) then {[own]} ∪ m else m
        | None => m
        end
    | _ => m
    end.
Proof. destruct depth; cbn; destruct (json_shape v); reflexivity. Qed.

Lemma mentions_unfold v id :
  mentions v id <->
  match json_shape v with Shape_Object members => own_request_id members = Some id | _ => False end
  \/ exists w, w ∈ shape_values (json_shape v) /\ mentions w id.
Proof.
  split.
  - inversion 1 as [? members ? Hs Ho|? w ? Hw Hw']; subst; [left; by rewrite Hs|right; eauto].
  - intros [Ho|(w & Hw & Hw')]; [|by eapply mentions_nested].
    destruct (json_shape v) as [members| |] eqn:Es; [by eapply mentions_here|done..].
Qed.

Lemma matching_request_ids_spec `{!JsonLaws} ids id : forall depth v m, (json_depth v <= depth)%nat ->
  id ∈ matching_request_ids depth v ids m <-> id ∈ m \/ (id ∈ ids /\ mentions v id).
Proof.
  induction depth as [depth IH] using lt_wf_ind. intros v m Hd.
  assert (forall m, id ∈ nested_ids depth (shape_values (json_shape v)) ids m <->
    id ∈ m \/ exists w, w ∈ shape_values (json_shape v) /\ id ∈ ids /\ mentions w id) as Hn.
  { intros m'. destruct depth as [|depth].
    - split; [by left|]. intros [?|(w & Hw%json_nested & _)]; [done|lia].
    - apply (fold_collect (fun w m => matching_request_ids depth w ids m) (fun w => id ∈ ids /\ mentions w id)).
      intros w m1 Hw%json_nested. apply IH; lia. }
  rewrite matching_request_ids_unfold, Hn, mentions_unfold. clear Hn IH.
  destruct (json_shape v) as [members|values|]; cbn; [|naive_solver..].
  destruct (own_request_id members) as [own|]; [case_bool_decide|naive_solver].
  - rewrite elem_of_union, elem_of_singleton. naive_solver.
  - naive_solver.
Qed.

Lemma collect_matching_spec `{!JsonLaws} v ids id :
  id ∈ collect_matching_request_ids v ids <-> id ∈ ids /\ mentions v id.
Proof. unfold collect_matching_request_ids. rewrite matching_request_ids_spec by done. set_solver. Qed.
End Mentions.

(** ** The collected offsets *)

Section Collected.
Context {JV : JsonValue}.
Variable connect : Connect.
Variable reader : string -> Z -> PartitionReader.
Variable brokers topic : string.
Variable debug_ids : gset string -> string.
Variable debug_traces : gset EngineEventTrace -> string.

(** A topic the broker has, whose partitions it reader_serves. *)
Variable addresses : list string.
Variable client : Cluster.
Variable topics : Topics.
Variable partitions : list Z.
Hypothesis addresses_given : brokers_in tt brokers = Ok addresses.
Hypothesis connected : connect addresses = Ok client.
Hypothesis topics_listed : list_topics client = Ok topics.
Hypothesis topic_found : partitions_in (fun _ => tt) (fun _ => tt) topics topic = Ok partitions.
Hypothesis clients_given : forall p, p ∈ partitions -> partition_client client topic p = Ok tt.
Variable log : Z -> list (Z * option string).
Variable earliest latest : Z -> Z.
Hypothesis served : forall p, p ∈ partitions -> reader_serves (reader topic p) (log p) (earliest p) (latest p).

Lemma partitions_of_topic build_error list_error :
  found_partitions build_error list_error connect brokers topic = Ok (client, partitions).
Proof.
  unfold found_partitions. rewrite (brokers_in_any _ _ _ _ addresses_given). cbn.
  rewrite connected. cbn. rewrite topics_listed. cbn.
  by rewrite (partitions_in_any _ _ _ _ _ _ _ topic_found).
Qed.

Lemma collected_offsets {T} `{Countable T} (find : Json -> gset T) create missing expected :
  present find log latest partitions expected ->
  exists offsets,
    (fun seen => let? seen := seen in found_offsets missing expected seen) <$>
      collect_partitions create (partition_client client topic)
        (fun p => scan_partition (note_found find p) topic p (reader topic p)) partitions (∅, ∅)
      = Some (Ok offsets) /\
    locates find log latest partitions offsets.
Proof.
  intros Hp.
  destruct (collect_partitions_found find topic (reader topic) log earliest latest create
    (partition_client client topic) [] partitions [] (∅, ∅)) as (read & seen & Hc & Hs & ->);
    [done..|apply found_none|split; intros ? ? Hin; by apply elem_of_nil in Hin|].
  destruct (found_offsets_located find log latest partitions read seen missing expected Hc Hs Hp)
    as (offsets & Ho & Hl). exists offsets. cbn. by rewrite Ho.
Qed.

(** A record of a request: it has the id somewhere in its JSON. *)
Definition record_mentions (r : Z * option string) (id : string) : Prop :=
  exists v, record_json r.2 = Some v /\ mentions v id.

(** When every request of the smoke has left a record in the topic, the scan ends,
    and its offsets are just past records of these requests, and past all of them
    that were there when it began. *)
Theorem smoke_offsets_collected `{!JsonLaws} (request_ids : gset string) :
  request_ids <> ∅ ->
  (forall id, id ∈ request_ids -> exists p r,
     p ∈ partitions /\ r ∈ log p /\ r.1 < latest p /\ record_mentions r id) ->
  exists offsets,
    collect_request_offsets connect reader debug_ids brokers topic request_ids = Some (Ok offsets) /\
    (forall p n, (p, n) ∈ offsets -> p ∈ partitions /\
       exists r id, r ∈ log p /\ id ∈ request_ids /\ record_mentions r id /\ n = r.1 + 1) /\
    (forall p r id, p ∈ partitions -> r ∈ log p -> r.1 < latest p -> id ∈ request_ids ->
       record_mentions r id -> exists n, (p, n) ∈ offsets /\ r.1 < n).
Proof.
  intros Hne Hall. set (find := fun v => collect_matching_request_ids v request_ids).
  assert (forall r id, finds find r id <-> id ∈ request_ids /\ record_mentions r id) as Hf.
  { intros r id. unfold finds, record_mentions, find. split.
    - intros (v & Hv & [??]%collect_matching_spec). eauto.
    - intros (Hid & v & Hv & Hm). exists v. by rewrite collect_matching_spec. }
  unfold collect_request_offsets. rewrite bool_decide_eq_false_2, partitions_of_topic by done.
  destruct (collected_offsets find
    (fun partition => "failed to create offset scanner for " +:+ at_partition topic partition)
    (fun ids => "missing records on topic " +:+ topic +:+ " for smoke request ids " +:+ debug_ids ids)
    request_ids) as (offsets & Hrun & Hl1 & Hl2).
  { intros id Hid. destruct (Hall id Hid) as (p & r & ? & ? & ? & ?). exists p, r. by rewrite Hf. }
  exists offsets. split_and!; [exact Hrun| |].
  - intros p n (? & r & id & ? & [? ?]%Hf & ?)%Hl1. eauto 10.
  - intros p r id Hp Hr Hlt Hid Hm. apply (Hl2 p r id); [done..|by apply Hf].
Qed.

Definition record_traces (r : Z * option string) (trace : EngineEventTrace) : Prop :=
  exists v, record_json r.2 = Some v /\ engine_event_trace_from_value v = Some trace.

(** The same for the events of the engine, by the trace each carries. *)
Theorem smoke_events_collected traces expected :
  expected_engine_traces traces = Ok expected -> expected <> [] ->
  (forall t, t ∈ expected -> exists p r,
     p ∈ partitions /\ r ∈ log p /\ r.1 < latest p /\ record_traces r t) ->
  exists offsets,
    collect_engine_event_offsets connect reader debug_traces brokers topic traces = Some (Ok offsets) /\
    (forall p n, (p, n) ∈ offsets -> p ∈ partitions /\
       exists r t, r ∈ log p /\ t ∈ expected /\ record_traces r t /\ n = r.1 + 1) /\
    (forall p r t, p ∈ partitions -> r ∈ log p -> r.1 < latest p -> t ∈ expected ->
       record_traces r t -> exists n, (p, n) ∈ offsets /\ r.1 < n).
Proof.
  intros He Hne Hall. set (find := expected_trace_of (list_to_set expected)).
  assert (forall r t, finds find r t <-> t ∈ expected /\ record_traces r t) as Hf.
  { intros r t. unfold finds, record_traces, find, expected_trace_of. split.
    - intros (v & Hv & Ht). destruct (engine_event_trace_from_value v) as [t'|] eqn:Et;
        [case_bool_decide as Hin|]; [|by apply elem_of_empty in Ht..].
      apply elem_of_singleton in Ht as ->. split; [by apply elem_of_list_to_set in Hin|eauto].
    - intros (Hin & v & Hv & Et). exists v. split; [done|]. rewrite Et.
      rewrite bool_decide_eq_true_2 by (by apply elem_of_list_to_set). by apply elem_of_singleton. }
  unfold collect_engine_event_offsets. rewrite He.
  rewrite bool_decide_eq_false_2 by (destruct expected; [done|set_solver]).
  rewrite partitions_of_topic.
  destruct (collected_offsets find
    (fun partition => "failed to create engine event offset scanner for " +:+ at_partition topic partition)
    (fun traces => "missing engine event records on topic " +:+ topic +:+ " for smoke traces "
                     +:+ debug_traces traces)
    (list_to_set expected)) as (offsets & Hrun & Hl1 & Hl2).
  { intros t Ht%elem_of_list_to_set. destruct (Hall t Ht) as (p & r & ? & ? & ? & ?). exists p, r.
    by rewrite Hf. }
  exists offsets. split_and!; [exact Hrun| |].
  - intros p n (? & r & t & ? & [? ?]%Hf & ?)%Hl1. eauto 10.
  - intros p r t Hp Hr Hlt Ht Hm. apply (Hl2 p r t); [done..|by apply Hf].
Qed.
End Collected.

(** ** The search for one event *)

Section Search.
Context {JV : JsonValue}.
Variable matches : Json -> bool.

Definition is_match (r : Z * option string) : bool :=
  match record_json r.2 with Some event => matches event | None => false end.

Lemma search_records_ok : forall records next,
  (forall r, r ∈ records -> in_i64 (r.1 + 1)) ->
  search_records matches next records =
    if existsb is_match records then None else Some (offset_after next records).
Proof.
  induction records as [|[o v] records IH]; intros next Hb; [done|]. cbn.
  change (match record_json v with Some event => matches event | None => false end) with (is_match (o, v)).
  destruct (is_match (o, v)); [done|].
  rewrite i64_wrap_id by exact (Hb (o, v) (list_elem_of_here _ _)).
  apply IH. intros r Hr. by apply Hb, list_elem_of_further.
Qed.

Lemma search_fetches_ends at_topic latest : forall chunks next,
  Forall (fun chunk : list (Z * option string) * Z => chunk.1 <> []) chunks ->
  offsets_from next (concat chunks.*1) ->
  (forall r, r ∈ concat chunks.*1 -> in_i64 (r.1 + 1)) ->
  latest <= offset_after next (concat chunks.*1) ->
  exists read rest, concat chunks.*1 = read ++ rest /\ (forall r, r ∈ rest -> latest <= r.1) /\
    search_fetches matches at_topic latest next (map Ok chunks) = Some (Ok (existsb is_match read))
  \/ exists r, r ∈ concat chunks.*1 /\ is_match r = true /\
    search_fetches matches at_topic latest next (map Ok chunks) = Some (Ok true).
Proof.
  induction chunks as [|[chunk high] chunks IH]; intros next Hne Hl Hb He; cbn in *.
  - exists [], []. left. split_and!; [done|intros r Hr; by apply elem_of_nil in Hr|]. by case_if; [|lia].
  - case_if.
    + exists [], (chunk ++ concat chunks.*1). left. split_and!; [done| |done].
      intros r Hr. pose proof (offsets_from_ge _ _ _ Hl Hr). lia.
    + apply Forall_cons in Hne as [Hne Hnes]. cbn in Hne.
      pose proof Hl as [Hl1 Hl2]%offsets_from_split. rewrite offset_after_concat in He.
      destruct chunk as [|r0 chunk]; [done|]. set (records := r0 :: chunk) in *.
      rewrite search_records_ok by (intros r' Hr; apply Hb, elem_of_app; by left).
      destruct (existsb is_match records) eqn:Em.
      * apply existsb_exists in Em as (r & Hr%list_elem_of_In & Hm).
        exists [], []. right. exists r. split_and!; [apply elem_of_app; by left|done..].
      * destruct (IH (offset_after next records)) as (read & rest & [(Hc & Hrest & Hs)|(r & Hr & Hm & Hs)]);
          try done; [intros r Hr; apply Hb, elem_of_app; by right| |].
        -- exists (records ++ read), rest. left. split_and!; [by rewrite Hc, app_assoc|done|].
           by rewrite existsb_app, Em.
        -- exists [], []. right. exists r. split_and!; [apply elem_of_app; by right|done..].
Qed.

Variable reader : string -> Z -> PartitionReader.
Variable topic : string.
Variable log : Z -> list (Z * option string).
Variable earliest latest : Z -> Z.

(** The scan for a trace answers, says yes only for an event that is in the log, and
    says yes for every event that was there when it began. *)
Theorem smoke_trace_found partitions :
  (forall p, p ∈ partitions -> reader_serves (reader topic p) (log p) (earliest p) (latest p)) ->
  exists found, has_trace reader topic partitions matches = Some (Ok found) /\
    (found = true -> exists p r, p ∈ partitions /\ r ∈ log p /\ is_match r = true) /\
    ((exists p r, p ∈ partitions /\ r ∈ log p /\ r.1 < latest p /\ is_match r = true) -> found = true).
Proof.
  induction partitions as [|p ps IH]; intros Hs.
  - exists false. split_and!; [done..|]. intros (p & r & Hp & _). by apply elem_of_nil in Hp.
  - destruct (Hs p (list_elem_of_here _ _)) as [He Hla Hlog Hb Hend (chunks & Hf & Hlp & Hne)].
    cbn. unfold partition_has_trace. rewrite He, Hla, Hf.
    destruct IH as (found & Hrun & H1 & H2); [intros q Hq; by apply Hs, list_elem_of_further|].
    rewrite Hlp in Hlog, Hb, Hend.
    destruct (search_fetches_ends (at_partition topic p) (latest p) chunks (earliest p) Hne Hlog Hb Hend)
      as (read & rest & [(Hc & Hrest & ->)|(r & Hr & Hm & ->)]).
    + destruct (existsb is_match read) eqn:Em.
      * exists true. split_and!; [done| |done]. intros _.
        apply existsb_exists in Em as (r & Hr%list_elem_of_In & Hm). exists p, r.
        rewrite Hlp, Hc, elem_of_app, elem_of_cons. auto.
      * rewrite Hrun. exists found. split_and!; [done| |].
        -- intros (q & r & ? & ? & ?)%H1. exists q, r. rewrite elem_of_cons. auto.
        -- intros (q & r & [->|Hq]%elem_of_cons & Hr & Hlt & Hm); [|apply H2; by exists q, r].
           rewrite Hlp, Hc in Hr. apply elem_of_app in Hr as [Hr|Hr]; [|apply Hrest in Hr; lia].
           exfalso. apply not_true_iff_false in Em. apply Em, existsb_exists. exists r.
           by rewrite <- list_elem_of_In.
    + exists true. split_and!; [done| |done]. intros _. exists p, r. rewrite Hlp, elem_of_cons. auto.
Qed.
End Search.

(** ** The offset checks *)

Lemma expected_offsets_met_iff table topic expected :
  expected_offsets_met table topic expected = true <->
  expected <> [] /\ forall p n, (p, n) ∈ expected -> exists m, table !! (topic, p) = Some m /\ n <= m.
Proof.
  unfold expected_offsets_met. rewrite andb_true_iff, negb_true_iff, bool_decide_eq_false, forallb_forall.
  apply and_iff_compat_l. split.
  - intros Hall p n Hin. apply list_elem_of_In, Hall in Hin. cbn in Hin. destruct (table !! (topic, p)); [|done].
    split_bool. eauto.
  - intros Hall [p n] Hin%list_elem_of_In. destruct (Hall p n Hin) as (m & Hm & Hle). cbn. rewrite Hm.
    by apply Z.leb_le.
Qed.

(** The stored offsets being those of consumers, each past the records it has done:
    the check passes only once they have done every record the scan found, and it
    does pass once they have done the whole of their logs. *)
Theorem smoke_offsets_mean_consumed {JV : JsonValue} {T} `{Countable T} (find : Json -> gset T)
    topic table log earliest latest partitions offsets (done : Z -> list (Z * option string)) :
  locates find log latest partitions offsets ->
  (forall p, p ∈ partitions -> offsets_from (earliest p) (log p)) ->
  (forall p, p ∈ partitions -> exists rest, log p = done p ++ rest) ->
  (forall p, p ∈ partitions ->
     default (earliest p) (table !! (topic, p)) = offset_after (earliest p) (done p)) ->
  (expected_offsets_met table topic offsets = true ->
   forall p r t, p ∈ partitions -> r ∈ log p -> r.1 < latest p -> finds find r t -> r ∈ done p) /\
  ((forall p, p ∈ partitions -> done p = log p) ->
   (exists p r t, p ∈ partitions /\ r ∈ log p /\ r.1 < latest p /\ finds find r t) ->
   expected_offsets_met table topic offsets = true).
Proof.
  intros [Hl1 Hl2] Hlog Hdone Hst. split.
  - intros [_ Hmet]%expected_offsets_met_iff p r t Hp Hr Hlt Hf.
    destruct (Hl2 p r t Hp Hr Hlt Hf) as (n & (m & Hm & Hle)%Hmet & Hn).
    specialize (Hst p Hp). rewrite Hm in Hst. cbn in Hst.
    destruct (Hdone p Hp) as [rest Hrest]. specialize (Hlog p Hp). rewrite Hrest in Hr, Hlog.
    apply offsets_from_split in Hlog as [_ Hlog].
    apply elem_of_app in Hr as [Hr|Hr]; [done|]. pose proof (offsets_from_ge _ _ _ Hlog Hr). lia.
  - intros Hall (p0 & r0 & t0 & Hp0 & Hr0 & Hlt0 & Hf0). apply expected_offsets_met_iff. split.
    + intros ->. destruct (Hl2 p0 r0 t0 Hp0 Hr0 Hlt0 Hf0) as (n & Hn & _). by apply elem_of_nil in Hn.
    + intros p n (Hp & r & t & Hr & _ & ->)%Hl1. specialize (Hst p Hp). specialize (Hlog p Hp).
      rewrite (Hall p Hp) in Hst.
      assert (r.1 + 1 <= offset_after (earliest p) (log p) /\ earliest p < offset_after (earliest p) (log p))
        as [? ?].
      { apply list_elem_of_split in Hr as (l1 & l2 & E). rewrite E in Hlog |- *.
        pose proof Hlog as [_ Hlog']%offsets_from_split. rewrite offset_after_concat.
        destruct r as [o v]. destruct Hlog' as (Ho & _ & Hlog'%offset_after_ge).
        apply offsets_from_split in Hlog as [Hlog%offset_after_ge _]. cbn in *. lia. }
      destruct (table !! (topic, p)) as [m|]; cbn in Hst; [|lia]. exists m. split; [done|lia].
Qed.

(** ** The check of the journal *)

Lemma note_offset_spec p n offsets q :
  note_offset p n offsets !! q =
  if decide (q = p) then Some match offsets !! p with Some m => Z.max m n | None => n end
  else offsets !! q.
Proof.
  unfold note_offset. destruct (decide (q = p)) as [->|]; [by rewrite lookup_insert_eq|].
  by rewrite lookup_insert_ne.
Qed.

Lemma offsets_by_partition_spec places :
  (forall q n, offsets_by_partition places !! q = Some n -> exists o, (q, o) ∈ places /\ n = o + 1) /\
  (forall q o, (q, o) ∈ places -> exists n, offsets_by_partition places !! q = Some n /\ o < n).
Proof.
  unfold offsets_by_partition. induction places as [|[p o] places IH] using rev_ind; cbn.
  - split; [intros q n; by rewrite lookup_empty|intros q o Hin; by apply elem_of_nil in Hin].
  - rewrite fold_left_app. cbn [fold_left fst snd]. destruct IH as [IH1 IH2]. split.
    + intros q n. rewrite note_offset_spec. setoid_rewrite elem_of_app.
      setoid_rewrite list_elem_of_singleton. case_decide as Hq; [subst q|].
      * intros [= <-]. destruct (_ !! p) as [m|] eqn:Em; [|eauto].
        destruct (Z.max_spec m (o + 1)) as [[_ ->]|[_ ->]]; [eauto|].
        destruct (IH1 p m Em) as (o' & ? & ?). eauto.
      * intros (o' & ? & ?)%IH1. eauto.
    + intros q o' Hin. rewrite note_offset_spec. apply elem_of_app in Hin as [Hin|[= -> ->]%list_elem_of_singleton].
      * destruct (IH2 q o' Hin) as (n & Hn & ?). case_decide as Hq; [subst q; rewrite Hn|eauto].
        eexists. split; [done|lia].
      * rewrite decide_True by done. eexists. split; [done|]. destruct (_ !! p); lia.
Qed.

Lemma filter_length_all {A} (f : A -> bool) (l : list A) :
  (forall x, x ∈ l -> f x = true) -> List.filter f l = l.
Proof.
  induction l as [|x l IH]; intros Hf; [done|]. cbn. rewrite (Hf x) by apply list_elem_of_here.
  f_equal. apply IH. intros y Hy. by apply Hf, list_elem_of_further.
Qed.

Lemma offsets_cover_run table topic expected :
  expected <> ∅ ->
  (forall q n, expected !! q = Some n -> exists m, table !! (topic, q) = Some m /\ n <= m) ->
  offsets_cover table topic expected = true.
Proof.
  intros Hne Hall. unfold offsets_cover. rewrite andb_true_iff. split.
  - apply Z.ltb_lt. apply map_size_non_empty_iff in Hne. lia.
  - apply bool_decide_eq_true. rewrite filter_length_all; [exact (length_map_to_list expected)|].
    intros [q n] (m & Hm & Hle)%elem_of_map_to_list%Hall. cbn. rewrite Hm. by apply Z.leb_le.
Qed.

(** Every event in the journal is behind the offset stored for its partition. *)
Section Journal.
Context {SD : Serde} {LAWS : SerdeLaws}.
Variable parse : string -> option WalletEvent.
Variable topic : string.
Variable partition : Z.

Definition events_behind (db : LedgerDb) : Prop :=
  forall row, row ∈ ledger_events db ->
    le_topic row = topic /\ le_partition row = partition /\
    exists n, ledger_offsets db !! (topic, partition) = Some n /\ le_offset_value row < n.

Lemma events_behind_handled n db done db' :
  handled_all ledger_same_tables (ledger_handle parse topic partition) db done db' ->
  offsets_from n done -> events_behind db -> events_behind db'.
Proof.
  intros Hd. revert n. induction Hd as [db|db o v l db1 db2 Hok _ IH|db db1 l db2 Hsame _ IH];
    intros n Hoff Hb; [done| |].
  - destruct Hoff as (_ & Ho & Hoff). apply (IH (o + 1) Hoff). clear IH.
    apply (ledger_handle_ok parse topic partition wallet_event_total) in Hok
      as [Hst Hev]. apply upsert_offset_spec in Hst as (Hpos & Hst & _).
    assert (o < i64_wrap (o + 1)) as Hlt.
    { destruct (decide (o = i64_max)) as [->|]; [by cbn in Hpos|].
      rewrite i64_wrap_id by (unfold in_i64, i64_min, i64_max in *; lia). lia. }
    assert (forall row, row ∈ ledger_events db -> le_topic row = topic /\ le_partition row = partition /\
      exists n, ledger_offsets db1 !! (topic, partition) = Some n /\ le_offset_value row < n) as Hold.
    { intros row (Ht & Hp & m & Hm & ?)%Hb. rewrite Hst, Hm. split_and!; [done..|].
      eexists. split; [done|lia]. }
    destruct (parsed parse v) as [e|]; [case_if_in Hev|].
    2: { destruct Hev as (id & row' & Hev & Ht & Hp & Ho' & _). intros row. rewrite Hev.
         intros [?|Hr%list_elem_of_singleton]%elem_of_app; [by apply Hold|subst row].
         rewrite Ht, Hp, Ho', Hst. split_and!; [done..|]. eexists. split; [done|].
         destruct (ledger_offsets db !! _); lia. }
    all: destruct Hev as [Hev _]; intros row; rewrite Hev; apply Hold.
  - apply (IH n Hoff). destruct Hsame as (_ & Hev & _ & Hst). intros row. rewrite Hev, Hst. apply Hb.
Qed.

(** Through every run of the ledger's consumer, as soon as the journal has an event
    the offset check the smoke makes of it passes. *)
Theorem smoke_journal_check_passes us (log : list (Z * option string)) earliest s :
  offsets_from earliest log ->
  rtc (consumer_step ledger_same_tables (ledger_stored topic partition) (ledger_handle parse topic partition)
         log earliest) (empty_ledger us, Stopped) s ->
  ledger_events s.1 <> [] -> ledger_offsets_from_events topic s.1 = true.
Proof.
  intros Hlog Hs Hne.
  destruct (ledger_exactly_once parse topic partition us log earliest s Hlog Hs)
    as (done & rest & [Hl Hh _ _] & _).
  rewrite Hl in Hlog. apply offsets_from_split in Hlog as [Hdone _].
  apply (events_behind_handled earliest) in Hh as Hb; [|done|by intros row Hrow%elem_of_nil].
  unfold ledger_offsets_from_events.
  rewrite filter_length_all by (intros row (Ht & _)%Hb; by apply bool_decide_eq_true).
  set (places := map (fun row => (le_partition row, le_offset_value row)) (ledger_events s.1)).
  destruct (offsets_by_partition_spec places) as [H1 H2]. apply offsets_cover_run.
  - destruct (ledger_events s.1) as [|row rows]; [done|]. intros He.
    destruct (H2 (le_partition row) (le_offset_value row)) as (n & Hn & _); [apply list_elem_of_here|].
    by rewrite He, lookup_empty in Hn.
  - intros q n (o & (row & [= -> ->] & (_ & -> & m & Hm & Hlt)%Hb)%list_elem_of_fmap & ->)%H1.
    exists m. split; [done|lia].
Qed.
End Journal.

(** ** The commands of a run *)

(** They are what the run sends. *)
Lemma smoke_script_commands {JV : JsonValue} settings run_id :
  omap (fun step => match step with Step_Command c => Some c | _ => None end) (smoke_script settings run_id)
  = smoke_commands run_id.
Proof. unfold smoke_script, smoke_close. by destruct (ses_mark_input_id settings). Qed.

(** No command of a run repeats the key of another. *)
Lemma smoke_keys_distinct run_id : NoDup (map (fun c : SmokeCommand => c.1.2) (smoke_commands run_id)).
Proof.
  unfold smoke_commands, smoke_deposit_of, smoke_username. cbn. cbv [String.append].
  repeat (apply NoDup_cons_2;
    [rewrite ?elem_of_cons, elem_of_nil; intros Hin; decompose [or] Hin; first [discriminate|contradiction]|]).
  apply NoDup_nil_2.
Qed.

Definition sum_of (amount : SmokeRequest -> Z) (user : SmokeUser) (commands : list SmokeCommand) : Z :=
  foldr (fun c total => if bool_decide (c.1.1 = user) then amount c.2 + total else total) 0 commands.
Definition deposited (r : SmokeRequest) : Z :=
  match r with SmokeRequest_Deposit body => db_amount body | _ => 0 end.
Definition ordered_margin (r : SmokeRequest) : Z :=
  match r with SmokeRequest_Order body => po_margin body | _ => 0 end.

(** At every point of a run the deposits of a user so far cover the margins of the
    orders so far, and the server takes each order at its full margin. *)
Lemma smoke_orders_covered run_id user k :
  sum_of ordered_margin user (take k (smoke_commands run_id))
    <= sum_of deposited user (take k (smoke_commands run_id)).
Proof.
  do 12 (destruct k as [|k]; [destruct user; vm_compute; discriminate|]). rewrite take_ge by (cbn; lia).
  destruct user; vm_compute; discriminate.
Qed.

Lemma smoke_orders_valid run_id user key body :
  (user, key, SmokeRequest_Order body) ∈ smoke_commands run_id ->
  validate_place_order body = Ok (mkValidatedPlaceOrder (po_market_name body) (po_margin body)).
Proof.
  intros Hin. cbn in Hin. rewrite !elem_of_cons, elem_of_nil in Hin.
  unfold smoke_deposit_of, smoke_order_of in Hin. decompose [or] Hin; clear Hin;
    first [contradiction | discriminate | match goal with H : _ = _ |- _ => injection H as _ _ -> end; reflexivity].
Qed.

(** ** The settings *)

(** Without variables of its own the smoke reads the topics of the services. *)
Lemma smoke_topics_are_the_services env :
  (forall key, starts_with "E2E_" key = true -> env key = None) ->
  let s := SmokeSettings_from_env env in
  let w := WalletSettings_from_env env in
  ses_engine_input_topic s = wse_engine_input_topic w /\
  ses_engine_events_topic s = wse_engine_events_topic w /\
  ses_wallet_commands_topic s = wse_wallet_commands_topic w /\
  ses_wallet_events_topic s = wse_wallet_events_topic w /\
  ses_wallet_events_topic s = lse_wallet_events_topic (LedgerSettings_from_env env) /\
  ses_engine_replies_topic s = pse_engine_replies_topic (ProjectorSettings_from_env env).
Proof.
  intros Hno. cbn. unfold topic_env, env_or_default.
  rewrite (Hno "E2E_ENGINE_INPUT_TOPIC"), (Hno "E2E_ENGINE_EVENTS_TOPIC"), (Hno "E2E_WALLET_COMMANDS_TOPIC"),
    (Hno "E2E_WALLET_EVENTS_TOPIC"), (Hno "E2E_ENGINE_REPLIES_TOPIC") by reflexivity. done.
Qed.

(** ** The verdict on market events *)

Lemma market_events_only_iff {JV : JsonValue} label allowed messages :
  assert_market_events_only label allowed messages = Ok tt <->
  forall message market_id, message ∈ messages -> market_event_market_id message = Some market_id ->
    market_id ∈ allowed.
Proof.
  unfold assert_market_events_only. induction messages as [|m ms IH]; cbn.
  - split; [intros _ ? ? Hin; by apply elem_of_nil in Hin|done].
  - destruct (market_event_market_id m) as [id|] eqn:Em; [case_bool_decide as Hin|].
    + rewrite IH. setoid_rewrite elem_of_cons. naive_solver.
    + split; [done|]. intros Hall. exfalso. apply Hin. by apply (Hall m id); [apply list_elem_of_here|].
    + rewrite IH. setoid_rewrite elem_of_cons. naive_solver.
Qed.

(** ** A topic of two partitions *)

Module SmokeExample.

Inductive Tree :=
| Tree_Str (text : string)
| Tree_Int (z : Z)
| Tree_Array (values : list Tree)
| Tree_Object (members : list (string * Tree)).

Fixpoint tree_depth (t : Tree) : nat :=
  match t with
  | Tree_Array values => S (list_max (map tree_depth values))
  | Tree_Object members => S (list_max (map (fun member => tree_depth member.2) members))
  | _ => O
  end.

Definition tree_get (t : Tree) (key : string) : option Tree :=
  match t with
  | Tree_Object members => snd <$> List.find (fun member => bool_decide (member.1 = key)) members
  | _ => None
  end.

(** The records of the example: a command, and a reply in an array. *)
Definition tree_of (payload : string) : option Tree :=
  if bool_decide (payload = "command a") then
    Some (Tree_Object [("request_id", Tree_Str "a"); ("amount", Tree_Int 5)])
  else if bool_decide (payload = "replies b") then
    Some (Tree_Array [Tree_Int 1; Tree_Object [("reply", Tree_Object [("request_id", Tree_Str "b")])]])
  else None.

#[local] Instance tree_json : JsonValue := {|
  Json := Tree;
  json_shape t := match t with
                  | Tree_Object members => Shape_Object members
                  | Tree_Array values => Shape_Array values
                  | _ => Shape_Scalar
                  end;
  json_get := tree_get;
  json_pointer t path := fold_left (fun t key => t ≫= fun t => tree_get t key)
                           (tail (split (Ascii.ascii_of_nat 47) path)) (Some t);
  as_str t := match t with Tree_Str text => Some text | _ => None end;
  as_i64 t := match t with Tree_Int z => Some z | _ => None end;
  as_bool _ := None;
  json_text _ := "";
  json_from_slice := tree_of;
  json_depth := tree_depth
|}.

Lemma list_max_ge n l : n ∈ l -> (n <= list_max l)%nat.
Proof.
  intros Hn. pose proof (proj1 (list_max_le l (list_max l)) (Nat.le_refl _)) as Hall.
  rewrite Forall_forall in Hall. by apply Hall.
Qed.

#[local] Instance tree_laws : JsonLaws.
Proof.
  split. intros [text|z|values|members] w; cbn; intros Hw; try (by apply elem_of_nil in Hw).
  - apply Nat.lt_succ_r, list_max_ge. by apply list_elem_of_fmap_2.
  - apply Nat.lt_succ_r, list_max_ge. apply list_elem_of_fmap in Hw as (m & -> & Hm).
    apply list_elem_of_fmap. by exists m.
Qed.

Definition example_log (p : Z) : list (Z * option string) :=
  if p =? 0 then [(3, Some "other"); (4, Some "command a"); (7, None)] else [(0, Some "replies b"); (2, Some "command a")].

Definition example_reader (topic : string) (p : Z) : PartitionReader :=
  if p =? 0 then mkPartitionReader (Ok 3) (Ok 8) [Ok ([(3, Some "other")], 8); Ok ([(4, Some "command a"); (7, None)], 8)]
  else mkPartitionReader (Ok 0) (Ok 3) [Ok ([(0, Some "replies b")], 3); Ok ([(2, Some "command a")], 3)].

Definition example_connect : Connect :=
  fun _ => Ok (mkCluster (Ok [("wallet.commands", [0; 1])]) (fun _ _ => Ok tt)).

Example example_offsets :
  collect_request_offsets example_connect example_reader (fun _ => "") "127.0.0.1:19092" "wallet.commands"
    {["a"; "b"]} = Some (Ok [(0, 5); (1, 3)]).
Proof. vm_compute. reflexivity. Qed.

(** A request no record mentions is an error. *)
Example example_missing :
  collect_request_offsets example_connect example_reader (fun _ => "c") "127.0.0.1:19092" "wallet.commands"
    {["a"; "c"]} = Some (Err "missing records on topic wallet.commands for smoke request ids c").
Proof. vm_compute. reflexivity. Qed.

Lemma example_serves p : p ∈ [0; 1] ->
  reader_serves (example_reader "wallet.commands" p) (example_log p) (if p =? 0 then 3 else 0) (if p =? 0 then 8 else 3).
Proof.
  intros Hp. apply elem_of_cons in Hp as [Hp|Hp%list_elem_of_singleton]; subst p; split; try done.
  all: try (cbn; unfold i64_max; lia).
  all: try (intros r Hr; repeat (apply elem_of_cons in Hr as [->|Hr]; [cbn; unfold in_i64, i64_min, i64_max; lia|]);
            by apply elem_of_nil in Hr).
  all: eexists [(_, _); (_, _)]; cbn; split_and!; [reflexivity|done|by repeat constructor].
Qed.

Lemma replies_mention : record_mentions (0, Some "replies b") "b".
Proof.
  eexists. split; [reflexivity|].
  eapply (mentions_nested _ (Tree_Object [("reply", Tree_Object [("request_id", Tree_Str "b")])] : @Json tree_json));
    [apply list_elem_of_further, list_elem_of_here|].
  eapply (mentions_nested _ (Tree_Object [("request_id", Tree_Str "b")] : @Json tree_json));
    [apply list_elem_of_here|].
  by eapply mentions_here.
Qed.

Example example_collected : exists offsets,
  collect_request_offsets example_connect example_reader (fun _ => "") "127.0.0.1:19092" "wallet.commands"
    {["a"; "b"]} = Some (Ok offsets) /\ exists n, (1, n) ∈ offsets /\ 0 < n.
Proof.
  destruct (smoke_offsets_collected example_connect example_reader "127.0.0.1:19092" "wallet.commands"
    (fun _ => "") ["127.0.0.1:19092"] (mkCluster (Ok [("wallet.commands", [0; 1])]) (fun _ _ => Ok tt))
    [("wallet.commands", [0; 1])] [0; 1] eq_refl eq_refl eq_refl eq_refl (fun _ _ => eq_refl)
    example_log (fun p => if p =? 0 then 3 else 0) (fun p => if p =? 0 then 8 else 3) example_serves
    {["a"; "b"]}) as (offsets & Hrun & _ & Hreach).
  - done.
  - intros id [Hid%elem_of_singleton|Hid%elem_of_singleton]%elem_of_union; subst id.
    + exists 0, (4, Some "command a"). split_and!; [set_solver..|done|].
      eexists. split; [reflexivity|]. by eapply mentions_here.
    + exists 1, (0, Some "replies b"). split_and!; [set_solver..|done|].
      exact replies_mention.
  - exists offsets. split; [exact Hrun|].
    apply (Hreach 1 (0, Some "replies b") "b"); [set_solver..|done|set_solver|].
    exact replies_mention.
Qed.
End SmokeExample.
