(* ===== verification/EnginePeer.v ===== *)
(** * EnginePeer: the stand-in for the matching engine

    [tools/exchange-bench-engine-peer]: a program that answers the engine's input
    topic in place of the engine. It accepts every order and every cancellation,
    remembers what an order has reserved and gives all of it back when the order
    is cancelled. Its settings, the messages of one input and the loop over a
    partition. [DefaultHasher] is an unspecified hash of the standard library, so
    it is a parameter; errors are texts, as [anyhow] has them. *)

From S2P Require Import Prelude Text Protocol Settings Queue Broker Postgres WalletDb ServerReplies ServerHandlers.

(** ** Settings *)

Record PeerSettings := mkPeerSettings {
  pse_brokers : string;
  pse_engine_input_topic : string;
  pse_engine_replies_topic : string;
  pse_engine_events_topic : string;
  pse_start_at_latest : bool
}.

Definition env_bool (env : Env) (name : string) (default_value : bool) : bool :=
  match env name with
  | Some value => bool_decide (value ∈ ["1"; "true"; "TRUE"; "yes"; "YES"])
  | None => default_value
  end.

Definition default_settings (env : Env) : PeerSettings := {|
  pse_brokers :=
    match env "EXCHANGE_BENCH_REDPANDA_BROKERS" with
    | Some brokers => brokers
    | None => default "127.0.0.1:19092" (env "REDPANDA_BROKERS")
    end;
  pse_engine_input_topic := default "engine.input" (env "ENGINE_INPUT_TOPIC");
  pse_engine_replies_topic := default "engine.replies" (env "ENGINE_REPLIES_TOPIC");
  pse_engine_events_topic := default "engine.events" (env "ENGINE_EVENTS_TOPIC");
  pse_start_at_latest := env_bool env "EXCHANGE_BENCH_ENGINE_PEER_START_AT_LATEST" true |}.

(** What becomes of the arguments: [--help] ends the program. *)
Inductive PeerArgs :=
| PeerArgs_Settings (settings : PeerSettings)
| PeerArgs_Help
| PeerArgs_Error (error : string).

(** An argument that takes a value; [None] for the others. *)
Definition set_argument (arg value : string) (s : PeerSettings) : option PeerSettings :=
  if bool_decide (arg = "--brokers") then
    Some (mkPeerSettings value (pse_engine_input_topic s) (pse_engine_replies_topic s)
            (pse_engine_events_topic s) (pse_start_at_latest s))
  else if bool_decide (arg = "--engine-input-topic") then
    Some (mkPeerSettings (pse_brokers s) value (pse_engine_replies_topic s)
            (pse_engine_events_topic s) (pse_start_at_latest s))
  else if bool_decide (arg = "--engine-replies-topic") then
    Some (mkPeerSettings (pse_brokers s) (pse_engine_input_topic s) value
            (pse_engine_events_topic s) (pse_start_at_latest s))
  else if bool_decide (arg = "--engine-events-topic") then
    Some (mkPeerSettings (pse_brokers s) (pse_engine_input_topic s) (pse_engine_replies_topic s)
            value (pse_start_at_latest s))
  else None.
Definition takes_value (arg : string) : bool :=
  bool_decide (arg ∈ ["--brokers"; "--engine-input-topic"; "--engine-replies-topic";
                      "--engine-events-topic"]).

Fixpoint read_args (args : list string) (s : PeerSettings) : PeerArgs :=
  match args with
  | [] => PeerArgs_Settings s
  | arg :: args =>
      if takes_value arg then
        match args with
        | [] => PeerArgs_Error (arg +:+ " requires a value")
        | value :: args => read_args args (default s (set_argument arg value s))
        end
      else if bool_decide (arg = "--from-earliest") then
        read_args args (mkPeerSettings (pse_brokers s) (pse_engine_input_topic s)
          (pse_engine_replies_topic s) (pse_engine_events_topic s) false)
      else if bool_decide (arg = "-h") || bool_decide (arg = "--help") then PeerArgs_Help
      else PeerArgs_Error ("unknown argument: " +:+ arg)
  end.

Definition settings_from_args (env : Env) (args : list string) : PeerArgs :=
  read_args args (default_settings env).

(** ** Producers *)

Record PeerProducer := mkPeerProducer { pp_topic : string; pp_producers : list Z }.
Record Publishers := mkPublishers { pb_replies : PeerProducer; pb_events : PeerProducer }.

Definition peer_parse_brokers := brokers_in "Redpanda broker list is empty".
Definition peer_topic_partitions :=
  partitions_in (fun topic => "Redpanda topic '" +:+ topic +:+ "' was not found")
    (fun topic => "Redpanda topic '" +:+ topic +:+ "' has no partitions").
Definition peer_partition_clients (client : Cluster) (topics : Topics) (topic : string)
    : Result string (list Z) :=
  let? partitions := peer_topic_partitions topics topic in
  clients_for id client topic partitions.

Definition PeerProducer_new (client : Cluster) (topics : Topics) (topic : string)
    : Result string PeerProducer :=
  let? partitions := peer_topic_partitions topics topic in
  let? producers := clients_for id client topic partitions in
  Ok (mkPeerProducer topic producers).

Definition producer_for_partition (self : PeerProducer) (partition : Z) : Result string Z :=
  match List.find (Z.eqb partition) (pp_producers self) with
  | Some candidate => Ok candidate
  | None => Err ("topic '" +:+ pp_topic self +:+ "' has no partition " +:+ to_string partition)
  end.

(** What [main] connects before it reads: its input partitions and its producers. *)
Definition peer_connect (connect : Connect) (settings : PeerSettings)
    : Result string (list Z * Publishers) :=
  let? brokers := peer_parse_brokers (pse_brokers settings) in
  let? client := map_err (fun _ => "failed to connect to Redpanda") (connect brokers) in
  let? topics := list_topics client in
  let? input_partitions := peer_partition_clients client topics (pse_engine_input_topic settings) in
  let? replies := PeerProducer_new client topics (pse_engine_replies_topic settings) in
  let? events := PeerProducer_new client topics (pse_engine_events_topic settings) in
  Ok (input_partitions, mkPublishers replies events).

Section Peer.
(** The hash of a key, of 64 bits. *)
Variable hash_key : string -> Z.

Definition peer_stable_partition (key : string) (partition_count : Z) : Z :=
  hash_key key `mod` partition_count.

Definition producer_for_key (self : PeerProducer) (key : string) : Result string Z :=
  match pp_producers self with
  | [] => Err ("topic '" +:+ pp_topic self +:+ "' has no producers")
  | p :: producers =>
      let index := peer_stable_partition key (Z.of_nat (length (p :: producers))) in
      Ok (default p ((p :: producers) !! Z.to_nat index))
  end.

(** ** State *)

Record OrderState := mkOrderState {
  os_reservation_id : string;
  os_user_id : Z;
  os_market_id : Z;
  os_released_amount : Z
}.

Record EnginePeerState := mkEnginePeerState {
  ep_sequence : Z;
  ep_orders : gmap Z OrderState
}.
Definition EnginePeerState_default : EnginePeerState := mkEnginePeerState 0 ∅.

(** A record on a topic, and the peer with the two topics it writes. *)
Record Published (A : Type) := mkPublished { pub_partition : Z; pub_key : string; pub_value : A }.
Arguments mkPublished {A} _ _ _.
Arguments pub_partition {A} _.
Arguments pub_key {A} _.
Arguments pub_value {A} _.

Record Peer := mkPeer {
  pe_state : EnginePeerState;
  pe_events : list (Published EngineEvent);
  pe_replies : list (Published EngineReply)
}.

Definition PM (A : Type) : Type := M Peer string A.

(** [sequence.fetch_add(1) + 1] *)
Definition next_sequence : PM Z := fun w =>
  let sequence := i64_wrap (ep_sequence (pe_state w) + 1) in
  (Ok sequence,
   mkPeer (mkEnginePeerState sequence (ep_orders (pe_state w))) (pe_events w) (pe_replies w)).

Definition update_orders (f : gmap Z OrderState -> gmap Z OrderState) : PM unit :=
  modify (fun w => mkPeer (mkEnginePeerState (ep_sequence (pe_state w)) (f (ep_orders (pe_state w))))
                     (pe_events w) (pe_replies w)).

(** ** Publishing *)

Variable publishers : Publishers.

(** What comes back of a record for [partition]: it is stored, it is not, or only
    its acknowledgement is lost. *)
Definition stored (outcome : Publication) : bool :=
  match outcome with Publication_Failed => false | _ => true end.
Definition acknowledged (topic : string) (partition : Z) (outcome : Publication) : Result string unit :=
  match outcome with
  | Publication_Produced => Ok tt
  | _ => Err ("failed to publish to " +:+ topic +:+ "[" +:+ to_string partition +:+ "]")
  end.

(** [publishers.events.publish_json] *)
Definition publish_event (outcome : Publication) (key : string) (event : EngineEvent) : PM unit := fun w =>
  match producer_for_key (pb_events publishers) key with
  | Err e => (Err e, w)
  | Ok partition =>
      (acknowledged (pp_topic (pb_events publishers)) partition outcome,
       if stored outcome
       then mkPeer (pe_state w) (pe_events w ++ [mkPublished partition key event]) (pe_replies w)
       else w)
  end.

(** [publishers.replies.publish_json_to_partition] *)
Definition publish_reply (outcome : Publication) (partition : Z) (key : string) (reply : EngineReply)
    : PM unit := fun w =>
  match producer_for_partition (pb_replies publishers) partition with
  | Err e => (Err e, w)
  | Ok _ =>
      (acknowledged (pp_topic (pb_replies publishers)) partition outcome,
       if stored outcome
       then mkPeer (pe_state w) (pe_events w) (pe_replies w ++ [mkPublished partition key reply])
       else w)
  end.

(** ** One input *)

(** What an input meets: the clock, in milliseconds since 1970, and what becomes of
    its event and of its reply. *)
Record PeerDraws := mkPeerDraws {
  pd_millis : Z;
  pd_event : Publication;
  pd_reply : Publication
}.

Definition unix_millis (d : PeerDraws) : Z := Z.min (pd_millis d) i64_max.

Definition order_state_of (order : ReservedPlaceOrder) : OrderState :=
  mkOrderState (rpo_reservation_id order) (env_user_id (rpo_envelope order)) (rpo_market_id order)
    (rpo_reserved_margin_amount order).
Definition missing_order_state (cancel : CancelOrder) : OrderState :=
  mkOrderState ("bench-missing-reservation:" +:+ to_string (co_order_id cancel))
    (env_user_id (co_envelope cancel)) (co_market_id cancel) 0.

Definition accepted_reply (order : ReservedPlaceOrder) (source_input_offset : Z) : EngineReply :=
  EngineReply_OrderAccepted
    (mkOrderAccepted (env_request_id (rpo_envelope order)) (rpo_input_id order)
       (Some source_input_offset) (rpo_order_id order) (rpo_reservation_id order)).
Definition opened_event (d : PeerDraws) (order : ReservedPlaceOrder) (source_input_offset sequence : Z)
    : EngineEvent :=
  EngineEvent_OrderOpened
    (mkOrderOpened
       (Some ("bench-engine-event:order-opened:" +:+ to_string (rpo_market_id order) +:+ ":"
                +:+ to_string sequence))
       sequence (unix_millis d) (rpo_input_id order) (Some source_input_offset) (rpo_order_id order)
       (rpo_reservation_id order) (env_user_id (rpo_envelope order)) (rpo_market_id order)).
Definition cancel_reply (cancel : CancelOrder) (source_input_offset : Z) : EngineReply :=
  EngineReply_CancelAccepted
    (mkCancelAccepted (env_request_id (co_envelope cancel)) (co_input_id cancel)
       (Some source_input_offset) (co_order_id cancel)).
Definition cancelled_event (d : PeerDraws) (cancel : CancelOrder) (order_state : OrderState)
    (source_input_offset sequence : Z) : EngineEvent :=
  EngineEvent_OrderCancelled
    (mkOrderCancelled
       (Some ("bench-engine-event:order-cancelled:" +:+ to_string (os_market_id order_state) +:+ ":"
                +:+ to_string sequence))
       sequence (unix_millis d) (co_input_id cancel) (Some source_input_offset) (co_order_id cancel)
       (os_reservation_id order_state) (os_user_id order_state) (os_market_id order_state)
       (os_released_amount order_state)).

Definition handle_input (d : PeerDraws) (input : EngineCommand) (source_input_offset : Z) : PM unit :=
  match input with
  | EngineCommand_PlaceOrder order =>
      let* sequence := next_sequence in
      do* update_orders (fun orders => <[rpo_order_id order := order_state_of order]> orders) in
      do* publish_event (pd_event d) (to_string (rpo_market_id order))
            (opened_event d order source_input_offset sequence) in
      publish_reply (pd_reply d) (env_reply_partition (rpo_envelope order))
        (env_request_id (rpo_envelope order)) (accepted_reply order source_input_offset)
  | EngineCommand_CancelOrder cancel =>
      let* sequence := next_sequence in
      let* found := gets (fun w => ep_orders (pe_state w) !! co_order_id cancel) in
      do* update_orders (fun orders => delete (co_order_id cancel) orders) in
      let order_state := default (missing_order_state cancel) found in
      do* publish_event (pd_event d) (to_string (os_market_id order_state))
            (cancelled_event d cancel order_state source_input_offset sequence) in
      publish_reply (pd_reply d) (env_reply_partition (co_envelope cancel))
        (env_request_id (co_envelope cancel)) (cancel_reply cancel source_input_offset)
  | EngineCommand_LiquidatePosition _ | EngineCommand_MarkPriceUpdated _
  | EngineCommand_FundingRateUpdated _ | EngineCommand_FundingSettlementTick _ => ret tt
  end.

(** ** The loop over a partition *)

Section Loop.
Variable parse : string -> option EngineCommand.

(** A record comes with what its handling draws; one without a value or with
    another text is passed over. *)
Definition handle_record (offset : Z) (record : PeerDraws * option string) : PM unit :=
  match record.2 with
  | None => ret tt
  | Some payload =>
      match parse payload with
      | None => ret tt
      | Some input => handle_input record.1 input offset
      end
  end.

(** Nothing is stored of where it stands: [latest] and [earliest] are what the
    broker answers. *)
Definition consume_partition (settings : PeerSettings) (latest earliest : Result string Z) :=
  run_partition handle_record (fun _ => false) (fun _ => None)
    (if pse_start_at_latest settings then latest else earliest).

(** A task per input partition, until the first that fails: none ends otherwise. *)
Definition peer_run (input_partitions : list Z) (finished : list (Finished string))
    : option (Result string unit) :=
  join_tasks id (length input_partitions) finished.
End Loop.
End Peer.
Arguments mkPublished {A} _ _ _.
Arguments pub_partition {A} _.
Arguments pub_key {A} _.
Arguments pub_value {A} _.
