(* ===== verification/EnginePeerTheorems.v ===== *)
(** * EnginePeerTheorems: what the stand-in for the engine does

    What one input publishes and remembers, and the round trip of an order's margin:
    reserved by the wallet, carried to the peer, and given back when the order is
    cancelled. *)

From S2P Require Import Prelude Text Protocol Settings Queue Broker Postgres WalletDb WalletRepository WalletProcessor.
From S2P Require Import WalletSpec WalletStatements WalletRefinement WalletHandlers WalletRuns WalletErrors WalletTotal WalletTheorems WalletOwners.
From S2P Require Import WalletExamples WalletOutbox WalletQueue ServerReplies ServerHandlers OrderFlow EnginePeer.

(** ** Producers *)

(** A producer has a partition for every key. *)
Lemma producer_for_key_ok hash_key self key :
  pp_producers self <> [] -> exists p, producer_for_key hash_key self key = Ok p /\ p ∈ pp_producers self.
Proof.
  unfold producer_for_key, peer_stable_partition. destruct (pp_producers self) as [|p ps] eqn:E; [done|].
  intros _. destruct (lookup_lt_is_Some_2 (p :: ps)
    (Z.to_nat (hash_key key `mod` Z.of_nat (length (p :: ps))))) as [q Hq].
  - pose proof (Z.mod_pos_bound (hash_key key) (Z.of_nat (length (p :: ps)))). cbn [length] in *. lia.
  - exists q. rewrite Hq. split; [done|]. by eapply list_elem_of_lookup_2.
Qed.

Lemma producer_for_partition_ok self p :
  p ∈ pp_producers self -> producer_for_partition self p = Ok p.
Proof.
  intros Hp. unfold producer_for_partition. destruct (List.find _ _) as [q|] eqn:Hf.
  - by apply find_some in Hf as [_ ->%Z.eqb_eq].
  - apply list_elem_of_In in Hp. apply (find_none _ _ Hf) in Hp. by rewrite Z.eqb_refl in Hp.
Qed.

Lemma peer_producers_exist client topics topic self :
  PeerProducer_new client topics topic = Ok self ->
  pp_topic self = topic /\ pp_producers self <> [] /\ (topic, pp_producers self) ∈ topics.
Proof.
  unfold PeerProducer_new, peer_topic_partitions. destruct (partitions_in _ _ topics topic) as [ps|] eqn:Hps; [|done].
  cbn. destruct (clients_for id client topic ps) as [l|] eqn:Hl; [|done]. cbn. intros [= <-]. cbn.
  apply clients_for_ok in Hl as ->. by apply partitions_in_ok in Hps.
Qed.

(** A peer that has connected can publish. *)
Lemma connected_producers connect settings partitions publishers :
  peer_connect connect settings = Ok (partitions, publishers) ->
  pp_producers (pb_events publishers) <> [] /\ pp_producers (pb_replies publishers) <> [].
Proof.
  unfold peer_connect. intros (brokers & _ & H)%rbind_ok. apply rbind_ok in H as (client & _ & H).
  apply rbind_ok in H as (topics & _ & H). apply rbind_ok in H as (inputs & _ & H).
  apply rbind_ok in H as (replies & Hr & H). apply rbind_ok in H as (events & He & [= <- <-]).
  cbn. split; [by apply peer_producers_exist in He as (_ & ? & _)|by apply peer_producers_exist in Hr as (_ & ? & _)].
Qed.

Section Peer.
Variable hash_key : string -> Z.
Variable publishers : Publishers.

Notation handle_one := (handle_input hash_key publishers).

(** Nothing fails while an input is answered on [partition]. *)
Record peer_publishes (d : PeerDraws) (partition : Z) : Prop := {
  pp_partition_known : partition ∈ pp_producers (pb_replies publishers);
  pp_event_stored : pd_event d = Publication_Produced;
  pp_reply_stored : pd_reply d = Publication_Produced
}.

Lemma publish_both d market partition key event reply w :
  pp_producers (pb_events publishers) <> [] -> peer_publishes d partition ->
  exists p, p ∈ pp_producers (pb_events publishers) /\
    (do* publish_event hash_key publishers (pd_event d) market event in
     publish_reply publishers (pd_reply d) partition key reply) w
    = (Ok tt, mkPeer (pe_state w) (pe_events w ++ [mkPublished p market event])
                (pe_replies w ++ [mkPublished partition key reply])).
Proof.
  intros He [Hp Hde Hdr]. destruct (producer_for_key_ok hash_key _ market He) as (p & Hk & Hin).
  exists p. split; [done|]. unfold publish_event, publish_reply, bind.
  by rewrite Hk, Hde, (producer_for_partition_ok _ _ Hp), Hdr.
Qed.

(** ** One input *)

Definition sequence_after (w : Peer) : Z := i64_wrap (ep_sequence (pe_state w) + 1).

Lemma place_input_answered d order off w :
  pp_producers (pb_events publishers) <> [] ->
  peer_publishes d (env_reply_partition (rpo_envelope order)) ->
  exists p, p ∈ pp_producers (pb_events publishers) /\
    handle_one d (EngineCommand_PlaceOrder order) off w
    = (Ok tt, mkPeer (mkEnginePeerState (sequence_after w)
                        (<[rpo_order_id order := order_state_of order]> (ep_orders (pe_state w))))
         (pe_events w ++ [mkPublished p (to_string (rpo_market_id order))
                            (opened_event d order off (sequence_after w))])
         (pe_replies w ++ [mkPublished (env_reply_partition (rpo_envelope order))
                             (env_request_id (rpo_envelope order)) (accepted_reply order off)])).
Proof.
  intros He Hpub. cbn [handle_input].
  rewrite (bind_run next_sequence _ w _ _ eq_refl). cbv beta. rewrite (bind_run (update_orders _) _ _ _ _ eq_refl). cbn [pe_state pe_events pe_replies ep_sequence ep_orders].
  match goal with |- context [(do* _ in _) ?w1] => exact (publish_both _ _ _ _ _ _ w1 He Hpub) end.
Qed.

Lemma cancel_input_answered d cancel off w :
  pp_producers (pb_events publishers) <> [] ->
  peer_publishes d (env_reply_partition (co_envelope cancel)) ->
  let found := default (missing_order_state cancel) (ep_orders (pe_state w) !! co_order_id cancel) in
  exists p, p ∈ pp_producers (pb_events publishers) /\
    handle_one d (EngineCommand_CancelOrder cancel) off w
    = (Ok tt, mkPeer (mkEnginePeerState (sequence_after w)
                        (delete (co_order_id cancel) (ep_orders (pe_state w))))
         (pe_events w ++ [mkPublished p (to_string (os_market_id found))
                            (cancelled_event d cancel found off (sequence_after w))])
         (pe_replies w ++ [mkPublished (env_reply_partition (co_envelope cancel))
                             (env_request_id (co_envelope cancel)) (cancel_reply cancel off)])).
Proof.
  intros He Hpub found. cbn [handle_input].
  rewrite (bind_run next_sequence _ w _ _ eq_refl). cbv beta. rewrite (bind_run (gets _) _ _ _ _ eq_refl). cbv beta.
  rewrite (bind_run (update_orders _) _ _ _ _ eq_refl). cbn [pe_state pe_events pe_replies ep_sequence ep_orders].
  match goal with |- context [(do* _ in _) ?w1] => exact (publish_both _ _ _ _ _ _ w1 He Hpub) end.
Qed.

(** ** Inputs of other orders *)

Definition input_order (input : EngineCommand) : option Z :=
  match input with
  | EngineCommand_PlaceOrder order => Some (rpo_order_id order)
  | EngineCommand_CancelOrder cancel => Some (co_order_id cancel)
  | _ => None
  end.

(** An input that is not about order [oid], however its handling ends. *)
Definition input_sparing (oid : Z) (w w' : Peer) : Prop :=
  exists d input off r, input_order input <> Some oid /\ handle_one d input off w = (r, w').

Lemma publish_event_state outcome key event w :
  pe_state (publish_event hash_key publishers outcome key event w).2 = pe_state w.
Proof. unfold publish_event. by destruct (producer_for_key _ _ _), (stored outcome). Qed.
Lemma publish_reply_state outcome partition key reply w :
  pe_state (publish_reply publishers outcome partition key reply w).2 = pe_state w.
Proof. unfold publish_reply. by destruct (producer_for_partition _ _), (stored outcome). Qed.
Lemma publish_both_state outcome outcome' key event partition key' reply w :
  pe_state ((do* publish_event hash_key publishers outcome key event in
             publish_reply publishers outcome' partition key' reply) w).2 = pe_state w.
Proof.
  unfold bind. pose proof (publish_event_state outcome key event w) as He.
  destruct (publish_event _ _ _ _ _ w) as [[]w1]; cbn in *; [|done]. by rewrite publish_reply_state.
Qed.

Lemma input_sparing_kept oid w w' :
  rtc (input_sparing oid) w w' -> ep_orders (pe_state w') !! oid = ep_orders (pe_state w) !! oid.
Proof.
  induction 1 as [|w w1 w' (d & input & off & r & Ho & H) _ IH]; [done|]. rewrite IH. clear IH.
  apply (f_equal snd) in H. cbn in H. subst w1.
  destruct input; cbn [handle_input input_order] in *; try done.
  - rewrite (bind_run next_sequence _ w _ _ eq_refl). cbv beta. rewrite (bind_run (update_orders _) _ _ _ _ eq_refl).
    rewrite publish_both_state. cbn. apply lookup_insert_ne. congruence.
  - rewrite (bind_run next_sequence _ w _ _ eq_refl). cbv beta. rewrite (bind_run (gets _) _ _ _ _ eq_refl). cbv beta.
    rewrite (bind_run (update_orders _) _ _ _ _ eq_refl).
    rewrite publish_both_state. cbn. apply lookup_delete_ne. congruence.
Qed.
End Peer.

(** ** An order's margin, there and back *)

Section Margin.
Context {SD : Serde} {LAWS : SerdeLaws}.
Implicit Types (db : WalletDb).

(** What the wallet does on the cancellation of [intent] that the peer announces. *)
Definition margin_release (dw : Draw) (intent : PlaceOrderIntent) : ReleaseReservation :=
  mkReleaseReservation ("res_" +:+ draw_uuid dw) (poi_required_margin intent)
    ("order_cancelled:" +:+ to_string (poi_order_id intent)).

(** The order's reservation as it was granted. *)
Definition granted_row (intent : PlaceOrderIntent) : ReservationRow :=
  mkReservationRow (env_user_id (poi_envelope intent)) (asset_to_db (poi_margin_asset intent))
    (poi_required_margin intent) (poi_required_margin intent) "ACTIVE"
    (env_idempotency_key (poi_envelope intent)) (env_request_id (poi_envelope intent)).

Lemma granted_row_releasable intent :
  0 < poi_required_margin intent -> releasable (granted_row intent) (poi_required_margin intent) = true.
Proof.
  intros H. unfold releasable, granted_row. cbn. rewrite bool_decide_eq_true_2 by done. cbn.
  apply andb_true_intro. split; [by apply Z.ltb_lt|apply Z.leb_refl].
Qed.

(** A wallet that still has the reservation as it was granted gives the margin back. *)
Lemma margin_released self dw d intent db2 :
  wallet_reservations db2 !! ("res_" +:+ draw_uuid dw) = Some (granted_row intent) ->
  books_ok (books db2) -> 0 < poi_required_margin intent ->
  wallet_outbox db2 !! funds_released_dedupe_key (margin_release dw intent) = None ->
  exists b res db3,
    process_engine_command self d (EngineWalletCommand_ReleaseReservation (margin_release dw intent)) db2
    = (Ok res, db3) /\
    user_collaterals db2 !! order_account intent = Some b /\
    user_collaterals db3 = <[order_account intent :=
      mkBalanceSnapshot (bs_total b) (bs_locked b - poi_required_margin intent)]> (user_collaterals db2) /\
    wallet_reservations db3 !! ("res_" +:+ draw_uuid dw)
    = Some (reservation_less (granted_row intent) (poi_required_margin intent) "RELEASED").
Proof.
  intros Hrow Hok Hpos Hfresh.
  destruct (process_release_total self d (margin_release dw intent) (granted_row intent) db2)
    as (b2 & res & db3 & Hrun & Hb2 & Hbk3 & _); [done|done|by apply granted_row_releasable|by rewrite Hfresh|].
  exists b2, res, db3. split; [exact Hrun|].
  change (user_collaterals db3) with (bk_coll (books db3)).
  change (wallet_reservations db3) with (bk_res (books db3)). rewrite Hbk3.
  split; [exact Hb2|]. split; [done|]. apply lookup_insert_eq.
Qed.

(** What granting the order did to its account: the margin is locked. *)
Lemma granted_account intent uuid b db0 db1 :
  user_collaterals db0 !! order_account intent = Some b ->
  books db1 = books (reserved_db uuid (env_user_id (poi_envelope intent))
    (env_request_id (poi_envelope intent)) (env_idempotency_key (poi_envelope intent))
    (poi_margin_asset intent) (poi_required_margin intent) b db0) ->
  wallet_reservations db1 !! ("res_" +:+ uuid) = Some (granted_row intent) /\
  user_collaterals db1 !! order_account intent
  = Some (mkBalanceSnapshot (bs_total b) (bs_locked b + poi_required_margin intent)).
Proof.
  intros Hb Hbk. change (wallet_reservations db1) with (bk_res (books db1)).
  change (user_collaterals db1) with (bk_coll (books db1)). rewrite Hbk. cbn.
  by rewrite !lookup_insert_eq.
Qed.

(** The account after the grant, what happened in between, and the release. *)
Lemma margin_back intent b b2 db0 db1 db2 db3 :
  user_collaterals db0 !! order_account intent = Some b ->
  user_collaterals db1 !! order_account intent
  = Some (mkBalanceSnapshot (bs_total b) (bs_locked b + poi_required_margin intent)) ->
  user_collaterals db2 !! order_account intent = Some b2 ->
  user_collaterals db3 = <[order_account intent :=
    mkBalanceSnapshot (bs_total b2) (bs_locked b2 - poi_required_margin intent)]> (user_collaterals db2) ->
  let k := order_account intent in
  total_at (books db3) k - total_at (books db0) k = total_at (books db2) k - total_at (books db1) k /\
  locked_at (books db3) k - locked_at (books db0) k = locked_at (books db2) k - locked_at (books db1) k /\
  available_for intent db3 = available_for intent db2 + poi_required_margin intent /\
  (untouched (env_user_id (poi_envelope intent)) (books db1) (books db2) ->
   user_collaterals db3 !! k = user_collaterals db0 !! k).
Proof.
  intros Hb0 Hb1 Hb2 Hb3 k. unfold available_for. fold k in Hb0, Hb1, Hb2, Hb3 |- *.
  assert (user_collaterals db3 !! k
    = Some (mkBalanceSnapshot (bs_total b2) (bs_locked b2 - poi_required_margin intent))) as Hb3'
    by (rewrite Hb3; apply lookup_insert_eq).
  unfold total_at, locked_at.
  rewrite (balance_at_lookup (books db0) k b Hb0), (balance_at_lookup (books db1) k _ Hb1),
    (balance_at_lookup (books db2) k _ Hb2), (balance_at_lookup (books db3) k _ Hb3').
  cbn [bs_total bs_locked]. do 3 (split; [lia|]). intros [Hun _ _].
  specialize (Hun (asset_to_db (poi_margin_asset intent))).
  change (user_collaterals db2 !! k = user_collaterals db1 !! k) in Hun.
  rewrite Hb1, Hb2 in Hun. injection Hun as ->. rewrite Hb3', Hb0. cbn.
  f_equal. destruct b. cbn. f_equal. lia.
Qed.

(** Claim C27. An order that is cancelled before it trades costs nothing. The wallet
    grants it, under an unused key and fresh ids, and the peer accepts it; then the
    wallet handles anything, the user's own other orders, deposits and withdrawals
    included, that announces no release or settlement of this reservation, and the
    peer any inputs of other orders, failed ones included; then the peer reads the
    cancellation, by whomever. While the broker takes what the peer publishes, the
    peer answers it and announces the order as cancelled, and what the wallet makes of that event is one command, which succeeds provided the
    outbox does not yet hold its message's key: total and locked balance have then
    changed since before the order by exactly what was done in between, so the margin
    is free again, and the row is what it was before the order when nothing of the
    user's was touched in between; and the reservation is closed with nothing left. *)
Theorem cancel_restores_funds hash_key connect settings partitions publishers self dw d1 intent off w0 db0 :
  peer_connect connect settings = Ok (partitions, publishers) ->
  books_ok (books db0) -> order_is_new dw intent db0 ->
  0 < poi_required_margin intent <= available_for intent db0 ->
  peer_publishes publishers d1 (env_reply_partition (poi_envelope intent)) ->
  exists db1 w1,
    process_command self dw (WalletCommand_PlaceOrderIntent intent) db0 = (Ok (granted dw intent), db1) /\
    available_for intent db1 = available_for intent db0 - poi_required_margin intent /\
    input_in_outbox self intent (granted_input dw intent) db1 /\
    handle_input hash_key publishers d1 (granted_input dw intent) off w0 = (Ok tt, w1) /\
    forall db2 w2 d2 off2 d3 cancel,
      rtc (step_keeping self ("res_" +:+ draw_uuid dw)) db1 db2 ->
      rtc (input_sparing hash_key publishers (poi_order_id intent)) w1 w2 ->
      coi_order_id cancel = poi_order_id intent ->
      peer_publishes publishers d2 (env_reply_partition (coi_envelope cancel)) ->
      wallet_outbox db2 !! funds_released_dedupe_key (margin_release dw intent) = None ->
      exists w3 p event res db3,
        handle_input hash_key publishers d2
          (EngineCommand_CancelOrder (into_engine_cancel_order cancel)) off2 w2 = (Ok tt, w3) /\
        p ∈ pp_producers (pb_events publishers) /\
        pe_events w3 = pe_events w2 ++ [mkPublished p (to_string (poi_market_id intent)) event] /\
        pe_replies w3 = pe_replies w2 ++
          [mkPublished (env_reply_partition (coi_envelope cancel)) (env_request_id (coi_envelope cancel))
             (cancel_reply (into_engine_cancel_order cancel) off2)] /\
        engine_wallet_commands_from_engine_event event
        = [EngineWalletCommand_ReleaseReservation (margin_release dw intent)] /\
        process_engine_command self d3
          (EngineWalletCommand_ReleaseReservation (margin_release dw intent)) db2 = (Ok res, db3) /\
        (let k := order_account intent in
         total_at (books db3) k - total_at (books db0) k
         = total_at (books db2) k - total_at (books db1) k /\
         locked_at (books db3) k - locked_at (books db0) k
         = locked_at (books db2) k - locked_at (books db1) k /\
         available_for intent db3 = available_for intent db2 + poi_required_margin intent /\
         (untouched (env_user_id (poi_envelope intent)) (books db1) (books db2) ->
          user_collaterals db3 !! k = user_collaterals db0 !! k)) /\
        exists row, wallet_reservations db3 !! ("res_" +:+ draw_uuid dw) = Some row /\
          row_status row = "RELEASED" /\ row_remaining row = 0.
Proof.
  intros [He _]%connected_producers Hok Hnew Hcov Hpub1.
  destruct (reserve_and_forward_granted self dw intent db0 (ok_wf _ Hok) Hnew Hcov)
    as (db1 & Hrun & Hav & Hin & _ & b & Hb & Hbk).
  destruct (place_input_answered hash_key publishers d1
    (into_reserved_order intent ("res_" +:+ draw_uuid dw)) off w0 He Hpub1) as (p1 & _ & Hplace).
  eexists db1, _. do 3 (split; [done|]). split; [exact Hplace|].
  intros db2 w2 d2 off2 d3 cancel Hdb Hw Hoid Hpub2 Hfresh.
  destruct (granted_account intent _ b db0 db1 Hb Hbk) as [Hrow1 Hb1].
  assert (wallet_step self db0 db1) as Hstep
    by by exists dw, (InCommand (WalletCommand_PlaceOrderIntent intent)), (Ok (granted dw intent)).
  destruct (steps_keeping_row _ _ _ _ _ Hdb (wallet_step_ok _ _ _ Hstep Hok) Hrow1) as [Hok2 Hrow2].
  apply input_sparing_kept in Hw. cbn in Hw. rewrite lookup_insert_eq in Hw.
  destruct (margin_released self dw d3 intent db2)
    as (b2 & res & db3 & Hrel & Hb2 & Hcoll & Hrow); [done|done|apply Hcov|done|].
  destruct (cancel_input_answered hash_key publishers d2 (into_engine_cancel_order cancel) off2 w2 He Hpub2)
    as (p & Hp & Hcancel).
  cbn [co_order_id into_engine_cancel_order] in Hcancel. rewrite Hoid, Hw in Hcancel. cbn [default] in Hcancel.
  eexists _, p, _, res, db3. split; [exact Hcancel|]. do 3 (split; [done|]). split.
  { cbn. rewrite Hoid. unfold release_reservation_command.
    destruct (Z.leb_spec (poi_required_margin intent) 0); [lia|done]. }
  split; [exact Hrel|]. split.
  - by apply (margin_back intent b b2 db0 db1 db2 db3).
  - eexists. split; [exact Hrow|]. unfold reservation_less, granted_row. cbn. by rewrite Z.sub_diag.
Qed.
End Margin.

(** ** An example *)

#[local] Transparent gmap_empty.
#[local] Existing Instance tagged_serde.
#[local] Existing Instance tagged_serde_laws.

Module PeerExample.
Import WalletExample.

Definition env : Env := fun name =>
  if bool_decide (name = "REDPANDA_BROKERS") then Some "broker:9092" else None.
Definition settings : PeerSettings := default_settings env.
Definition connect : Connect := fun _ =>
  Ok (mkCluster (Ok [("engine.input", [0]); ("engine.replies", [0; 1]); ("engine.events", [0; 1; 2])])
        (fun _ _ => Ok tt)).
Definition hash_key (key : string) : Z := Z.of_nat (String.length key).
Definition publishers : Publishers :=
  mkPublishers (mkPeerProducer "engine.replies" [0; 1]) (mkPeerProducer "engine.events" [0; 1; 2]).

Example settings_read : settings_from_args env ["--from-earliest"; "--brokers"; "other:9092"]
  = PeerArgs_Settings (mkPeerSettings "other:9092" "engine.input" "engine.replies" "engine.events" false).
Proof. vm_compute. reflexivity. Qed.
Example brokers_wanted : settings_from_args env ["--brokers"] = PeerArgs_Error "--brokers requires a value".
Proof. vm_compute. reflexivity. Qed.

Lemma connected : peer_connect connect settings = Ok ([0], publishers).
Proof. vm_compute. reflexivity. Qed.

(** 30 of the 40 that are free in [active], for an order that is cancelled again. *)
Definition intent : PlaceOrderIntent :=
  mkPlaceOrderIntent (mkCommandEnvelope "req-7" "order-7" 1 1) 99 7 "SOL-PERP"
    Side_LONG OrderType_LIMIT 10 30 Asset_USDC 30 10 false.
Definition draw_7 : Draw := mkDraw "u7" 2000.
Definition peer_draws : PeerDraws := mkPeerDraws 1700000000000 Publication_Produced Publication_Produced.
Definition idle : Peer := mkPeer EnginePeerState_default [] [].
Definition placed : WalletDb := (process_command self draw_7 (WalletCommand_PlaceOrderIntent intent) active).2.
Definition asked_to_cancel : WalletDb :=
  (process_command self draw (WalletCommand_CancelOrderIntent (cancel "req-8")) placed).2.

Lemma peer_serves : peer_publishes publishers peer_draws 1 /\ peer_publishes publishers peer_draws 0.
Proof. split; split; try reflexivity; cbn; set_solver. Qed.

Lemma intent_new : order_is_new draw_7 intent active.
Proof. split; [cbn; set_solver|vm_compute; reflexivity..]. Qed.

(** In between the user withdraws 5 of the 10 that are still free. *)
Definition withdrawal : Withdraw :=
  mkWithdraw (mkCommandEnvelope "req-9" "withdraw-9" 1 1) Asset_USDC 5 "elsewhere".
Definition withdrawn : WalletDb :=
  (process_command self draw (WalletCommand_Withdraw withdrawal) asked_to_cancel).2.

Lemma placed_ok : books_ok (books placed).
Proof.
  eapply wallet_step_ok; [|apply active_ok].
  eexists draw_7, (InCommand (WalletCommand_PlaceOrderIntent intent)), _. apply surjective_pairing.
Qed.
Lemma asked_to_cancel_ok : books_ok (books asked_to_cancel).
Proof.
  eapply wallet_step_ok; [|apply placed_ok].
  eexists draw, (InCommand (WalletCommand_CancelOrderIntent (cancel "req-8"))), _.
  apply surjective_pairing.
Qed.

Lemma between_keeps : rtc (step_keeping self "res_u7") placed withdrawn.
Proof.
  eapply rtc_l; [|apply rtc_once].
  - apply (input_keeping self draw (InCommand (WalletCommand_CancelOrderIntent (cancel "req-8"))));
      [apply placed_ok|done].
  - apply (input_keeping self draw (InCommand (WalletCommand_Withdraw withdrawal)));
      [apply asked_to_cancel_ok|done].
Qed.

(** What is free before, while the order is open, after the withdrawal, and after the
    cancellation: the withdrawal's 5 are what is missing in the end. *)
Lemma cancel_restores_funds_witness : exists w2 w3 res db3,
  available_for intent active = 40 /\ available_for intent placed = 10 /\
  available_for intent withdrawn = 5 /\
  handle_input hash_key publishers peer_draws
    (EngineCommand_CancelOrder (into_engine_cancel_order (cancel "req-8"))) 5 w2 = (Ok tt, w3) /\
  process_engine_command self draw
    (EngineWalletCommand_ReleaseReservation (margin_release draw_7 intent)) withdrawn = (Ok res, db3) /\
  available_for intent db3 = 35.
Proof.
  destruct (cancel_restores_funds hash_key connect settings [0] publishers self draw_7 peer_draws intent 4
    idle active connected active_ok intent_new) as (db1 & w1 & Hrun & _ & _ & _ & H);
    [vm_compute; split; [done|by intros [=]]|apply peer_serves|].
  assert (db1 = placed) as -> by (unfold placed; by rewrite Hrun).
  destruct (H withdrawn w1 peer_draws 5 draw (cancel "req-8")) as
    (w3 & p & event & res & db3 & Hcancel & _ & _ & _ & _ & Hrel & (_ & _ & Hav & _) & _).
  - exact between_keeps.
  - apply rtc_refl.
  - reflexivity.
  - apply peer_serves.
  - vm_compute. reflexivity.
  - exists w1, w3, res, db3. do 3 (split; [vm_compute; reflexivity|]). split; [exact Hcancel|].
    split; [exact Hrel|]. rewrite Hav. vm_compute. reflexivity.
Defined.
End PeerExample.
