(* ===== verification/DbCrate.v ===== *)
(** * DbCrate: the rest of [crates/db]

    The functions of the crate the services do not call: they create, update and
    delete orders, fills, positions, markets and balances, and read them in other
    ways than the handlers of the server do. Each runs one statement by itself,
    except [close_position], which is a transaction. The tables and their
    constraints are those of ProjectorDb, ProjectorPositions and WalletDb; the
    columns [created_at], [updated_at] and [closed_at] are not kept. *)

From S2P Require Import Prelude Query Protocol Postgres WalletDb ProjectorMath ProjectorPositions ProjectorBook ProjectorDb ProjectorTrades.
From S2P Require Import ServerReplies ServerHandlers ServerAuth ServerReads ProjectorPositions.

(** ** A statement by itself *)

Inductive DbError :=
| DbError_Statement (error : SqlError)
| DbError_Connection.

(** What becomes of the connection: it holds, it is lost before the statement gets
    to the database, or before its answer comes back. *)
Inductive Reach :=
| Reach_Through
| Reach_Lost
| Reach_AnswerLost.

Definition exec {S A} (reach : Reach) (m : M S SqlError A) : M S DbError A := fun s =>
  match reach with
  | Reach_Through => let '(r, s') := m s in (map_err DbError_Statement r, s')
  | Reach_Lost => (Err DbError_Connection, s)
  | Reach_AnswerLost => (Err DbError_Connection, (m s).2)
  end.

Definition check {S} (b : bool) (e : SqlError) : M S SqlError unit :=
  if b then ret tt else throw e.

(** [UPDATE ... WHERE key RETURNING ...] read with [fetch_one]. *)
Definition found {S A} (row : option A) : M S SqlError A :=
  match row with Some row => ret row | None => throw RowNotFound end.

(** ** Orders: [orders.rs] *)

Module DbOrders.
Section Orders.
Context {SD : Serde}.

Definition create_order (reach : Reach) (order_id user_id market_id : Z) (market_name : string)
    (side : SideType) (order_type : DbOrderType) (quantity price : Z) (status : OrderStatus)
    (margin : Z) : M ProjectorDb DbError OrderRow :=
  exec reach
    (do* check ((0 <? quantity) && (0 <=? price) && (0 <=? margin)) CheckViolation in
     let* db := gets id in
     do* check (negb (bool_decide (is_Some (orders db !! order_id)))) UniqueViolation in
     do* check_fk (bool_decide (user_id ∈ pj_users db)) in
     do* check_fk (bool_decide (is_Some (pj_markets db !! market_id))) in
     let row := mkProjectedOrder user_id market_id market_name side order_type quantity price
                  status margin false in
     do* modify (fun db => set_orders db (<[order_id := row]> (orders db))) in
     ret (order_id, row)).

(** The creation time of an order. *)
Variable created_at : Z -> Z.
#[local] Instance newest_order_dec a b : Decision (newest_order created_at a b) := desc_dec _ a b.

Definition orders_where (up : bool) (p : ProjectedOrder -> bool) (db : ProjectorDb)
    : Result SqlxError (list OrderRow) :=
  fetch_all up (order_by (newest_order created_at) (rows_where (fun row => p row.2) (orders db))).

Definition get_orders_by_user_id (up : bool) (user_id : Z) :=
  orders_where up (fun order => or_user_id order =? user_id).
Definition get_orders_by_market_id (up : bool) (market_id : Z) :=
  orders_where up (fun order => or_market_id order =? market_id).
Definition get_orders_by_market_status (up : bool) (market_id : Z) (status : OrderStatus) :=
  orders_where up (fun order =>
    (or_market_id order =? market_id) && bool_decide (or_status order = status)).
Definition get_user_market_orders_by_status (up : bool) (user_id market_id : Z) (status : OrderStatus) :=
  orders_where up (fun order =>
    (or_user_id order =? user_id) && (or_market_id order =? market_id)
    && bool_decide (or_status order = status)).

Definition update_order_status (reach : Reach) (order_id : Z) (status : OrderStatus)
    : M ProjectorDb DbError OrderRow :=
  exec reach
    (let* db := gets id in
     let* order := found (orders db !! order_id) in
     let row := mkProjectedOrder (or_user_id order) (or_market_id order) (or_market_name order)
                  (or_side order) (or_order_type order) (or_quantity order) (or_price order)
                  status (or_margin order) (or_reduce_only order) in
     do* modify (fun db => set_orders db (<[order_id := row]> (orders db))) in
     ret (order_id, row)).

Definition cancel_order (reach : Reach) (order_id : Z) : M ProjectorDb DbError OrderRow :=
  update_order_status reach order_id OrderStatus_CANCELLED.
End Orders.
End DbOrders.

(** ** Fills: [fills.rs] *)

Module DbFills.
Section Fills.
Context {SD : Serde}.

(** The primary key, and the unique pair of a market and its sequence. *)
Definition fill_clashes (fill_id market_id engine_sequence : Z) (m : gmap Z ProjectedFill) : bool :=
  bool_decide (is_Some (m !! fill_id))
  || existsb (fun '(_, r) => (fl_market_id r =? market_id) && (fl_engine_sequence r =? engine_sequence))
       (map_to_list m).

Definition create_fill (reach : Reach) (fill_id : Z) (row : ProjectedFill)
    : M ProjectorDb DbError FillRow :=
  exec reach
    (do* check ((0 <=? fl_price row) && (0 <? fl_quantity row) && (0 <? fl_engine_sequence row))
           CheckViolation in
     let* db := gets id in
     do* check (negb (fill_clashes fill_id (fl_market_id row) (fl_engine_sequence row) (fills db)))
           UniqueViolation in
     do* check_fk (bool_decide (fl_maker_id row ∈ pj_users db)) in
     do* check_fk (bool_decide (fl_taker_id row ∈ pj_users db)) in
     do* check_fk (bool_decide (is_Some (orders db !! fl_maker_order_id row))) in
     do* check_fk (bool_decide (is_Some (orders db !! fl_taker_order_id row))) in
     do* check_fk (bool_decide (is_Some (pj_markets db !! fl_market_id row))) in
     do* modify (fun db => set_fills db (<[fill_id := row]> (fills db))) in
     ret (fill_id, row)).

Definition get_fill_by_id (up : bool) (fill_id : Z) (db : ProjectorDb)
    : Result SqlxError (option FillRow) :=
  fetch_optional up (pair fill_id <$> fills db !! fill_id).
End Fills.
End DbFills.

(** ** Positions: [positions.rs], [closed_positions.rs] and their fills *)

Module DbPositions.
(** [SELECT fill_id FROM ... WHERE position_id=$1], or the other way round; the
    queries have no ORDER BY. *)
Definition linked_fills (up : bool) (position_id : Z) (links : gset (Z * Z)) : Result SqlxError (list Z) :=
  fetch_all up (map snd (filter (fun link => link.1 = position_id) (elements links))).
Definition linked_positions (up : bool) (fill_id : Z) (links : gset (Z * Z)) : Result SqlxError (list Z) :=
  fetch_all up (map fst (filter (fun link => link.2 = fill_id) (elements links))).

Definition get_fill_ids_by_position_id (up : bool) (position_id : Z) (t : PositionTables) :=
  linked_fills up position_id (position_fills t).
Definition get_position_ids_by_fill_id (up : bool) (fill_id : Z) (t : PositionTables) :=
  linked_positions up fill_id (position_fills t).
Definition get_fill_ids_by_closed_position_id (up : bool) (position_id : Z) (t : PositionTables) :=
  linked_fills up position_id (closed_position_fills t).
Definition get_closed_position_ids_by_fill_id (up : bool) (fill_id : Z) (t : PositionTables) :=
  linked_positions up fill_id (closed_position_fills t).

Definition newest_position : relation OpenRow := desc (fun row => ps_opened_at row.2).
#[local] Instance newest_position_dec a b : Decision (newest_position a b) := desc_dec _ a b.
Definition get_positions_by_user_id (up : bool) (user_id : Z) (t : PositionTables)
    : Result SqlxError (list OpenRow) :=
  fetch_all up (order_by newest_position (rows_where (fun row => row.1.1 =? user_id) (positions t))).

Section Closed.
(** The time a position was closed. *)
Variable closed_at : Z -> Z.
#[local] Instance last_closed_dec a b : Decision (last_closed closed_at a b) := desc_dec _ a b.

Definition closed_positions_where (up : bool) (p : ClosedPositionRow -> bool) (t : PositionTables)
    : Result SqlxError (list ClosedRow) :=
  fetch_all up (order_by (last_closed closed_at) (rows_where (fun row => p row.2) (closed_positions t))).
Definition get_closed_positions_by_user_id (up : bool) (user_id : Z) :=
  closed_positions_where up (fun row => cp_user_id row =? user_id).
Definition get_closed_positions_by_market_id (up : bool) (market_id : Z) :=
  closed_positions_where up (fun row => cp_market_id row =? market_id).
End Closed.

Section WithKnown.
Variable known : Known.

Definition create_position (reach : Reach) (position_id user_id market_id : Z) (market_name : string)
    (side : SideType) (quantity unrealized_pnl maintenance_margin initial_margin : Z)
    (margin_chosen : MarginType) (liquidation_price average_price opened_at : Z)
    : M PositionTables DbError OpenRow :=
  exec reach
    (do* check (0 <? quantity) CheckViolation in
     let* rows := gets positions in
     do* check (negb (bool_decide (is_Some (rows !! (user_id, market_id)))
                      || has_position_id position_id rows)) UniqueViolation in
     do* check_fk (bool_decide (user_id ∈ kn_users known)) in
     do* check_fk (bool_decide (market_id ∈ kn_markets known)) in
     let row := mkPositionRow position_id market_name side quantity unrealized_pnl initial_margin
                  maintenance_margin margin_chosen liquidation_price average_price opened_at None in
     do* modify (fun t => set_positions t (<[(user_id, market_id) := row]> (positions t))) in
     ret ((user_id, market_id), row)).

Definition position_with_id (position_id : Z) (t : PositionTables) : option OpenRow :=
  head (rows_where (fun row => ps_position_id row.2 =? position_id) (positions t)).

Definition update_position (reach : Reach) (position_id quantity unrealized_pnl maintenance_margin
    initial_margin : Z) (margin_chosen : MarginType) (liquidation_price average_price : Z)
    : M PositionTables DbError OpenRow :=
  exec reach
    (let* t := gets id in
     let* (key, row) := found (position_with_id position_id t) in
     do* check (0 <? quantity) CheckViolation in
     let row := mkPositionRow position_id (ps_market_name row) (ps_side row) quantity unrealized_pnl
                  initial_margin maintenance_margin margin_chosen liquidation_price average_price
                  (ps_opened_at row) (ps_open_order_id row) in
     do* modify (fun t => set_positions t (<[key := row]> (positions t))) in
     ret (key, row)).

(** [DELETE ...], with the number of rows; its fills go with it. *)
Definition delete_position (reach : Reach) (position_id : Z) : M PositionTables DbError nat :=
  exec reach
    (let* rows := gets (fun t => rows_where (fun row => ps_position_id row.2 =? position_id) (positions t)) in
     do* delete_open_position_in_tx position_id in
     ret (length rows)).

(** *** Links: a pair that is there already violates the primary key *)

Definition link_fill_to_position (reach : Reach) (position_id fill_id : Z) : M PositionTables DbError unit :=
  exec reach
    (let* t := gets id in
     do* check (negb (bool_decide ((position_id, fill_id) ∈ position_fills t))) UniqueViolation in
     do* check_fk (has_position_id position_id (positions t)) in
     do* check_fk (bool_decide (fill_id ∈ kn_fills known)) in
     modify (fun t => set_position_fills t ({[(position_id, fill_id)]} ∪ position_fills t))).

Definition insert_closed_fill (position_id fill_id : Z) : TM unit :=
  let* t := gets id in
  do* check (negb (bool_decide ((position_id, fill_id) ∈ closed_position_fills t))) UniqueViolation in
  do* check_fk (bool_decide (is_Some (closed_positions t !! position_id))) in
  do* check_fk (bool_decide (fill_id ∈ kn_fills known)) in
  modify (fun t => set_closed_position_fills t ({[(position_id, fill_id)]} ∪ closed_position_fills t)).

Definition link_fill_to_closed_position (reach : Reach) (position_id fill_id : Z)
    : M PositionTables DbError unit :=
  exec reach (insert_closed_fill position_id fill_id).

(** *** Closing *)

Definition insert_closed_position (position_id : Z) (row : ClosedPositionRow) : TM ClosedRow :=
  do* check (0 <? cp_quantity row) CheckViolation in
  let* rows := gets closed_positions in
  do* check (negb (bool_decide (is_Some (rows !! position_id)))) UniqueViolation in
  do* check_fk (bool_decide (cp_user_id row ∈ kn_users known)) in
  do* check_fk (bool_decide (cp_market_id row ∈ kn_markets known)) in
  do* check_fk (bool_decide (cp_open_order_id row ∈ kn_orders known)) in
  do* check_fk (bool_decide (cp_close_order_id row ∈ kn_orders known)) in
  do* modify (fun t => set_closed_positions t (<[position_id := row]> (closed_positions t))) in
  ret (position_id, row).

Definition create_closed_position (reach : Reach) (position_id : Z) (row : ClosedPositionRow)
    : M PositionTables DbError ClosedRow :=
  exec reach (insert_closed_position position_id row).

(** A statement inside the transaction: [alive i] says that the connection holds
    for the [i]-th. *)
Definition stmt {A} (alive : nat -> bool) (i : nat) (m : TM A) : M PositionTables DbError A :=
  exec (if alive i then Reach_Through else Reach_Lost) m.

Fixpoint link_closed_fills (alive : nat -> bool) (i : nat) (position_id : Z) (fill_ids : list Z)
    : M PositionTables DbError unit :=
  match fill_ids with
  | [] => ret tt
  | fill_id :: fill_ids =>
      do* stmt alive i (insert_closed_fill position_id fill_id) in
      link_closed_fills alive (S i) position_id fill_ids
  end.

Definition close_statements (alive : nat -> bool) (position_id : Z) (row : ClosedPositionRow)
    (fill_ids : list Z) : M PositionTables DbError ClosedRow :=
  let* closed_position := stmt alive 1 (insert_closed_position position_id row) in
  do* link_closed_fills alive 2 position_id fill_ids in
  do* stmt alive (2 + length fill_ids) (delete_open_position_in_tx position_id) in
  ret closed_position.

#[export] Instance PositionTables_rollback : Rollback PositionTables := fun before after =>
  set_position_seq before (projector_position_id_seq after).

(** The database may have committed although the answer was lost. *)
Definition close_position (alive : nat -> bool) (commit : Reach) (position_id : Z)
    (row : ClosedPositionRow) (fill_ids : list Z) : M PositionTables DbError ClosedRow := fun t =>
  if negb (alive O) then (Err DbError_Connection, t)
  else
    match close_statements alive position_id row fill_ids t with
    | (Err e, t') => (Err e, rollback t t')
    | (Ok closed_position, t') =>
        match commit with
        | Reach_Through => (Ok closed_position, t')
        | Reach_Lost => (Err DbError_Connection, rollback t t')
        | Reach_AnswerLost => (Err DbError_Connection, t')
        end
    end.
End WithKnown.
End DbPositions.

(** ** Markets: [markets.rs] *)

Module DbMarkets.
(** A row of [markets], without its id. *)
Record MarketRow := mkMarketRow {
  mk_market_name : string;
  mk_base_asset : AssetType;
  mk_quote_asset : AssetType;
  mk_decimal_base : Z;
  mk_decimal_quote : Z;
  mk_last_traded_price : Z
}.
Notation Markets := (gmap Z MarketRow).

Definition name_taken (market_name : string) (m : Markets) : bool :=
  existsb (fun '(_, row) => bool_decide (mk_market_name row = market_name)) (map_to_list m).

Definition create_market (reach : Reach) (market_id : Z) (row : MarketRow)
    : M Markets DbError (Z * MarketRow) :=
  exec reach
    (let* m := gets id in
     do* check (negb (bool_decide (is_Some (m !! market_id)) || name_taken (mk_market_name row) m))
           UniqueViolation in
     do* modify (fun m => <[market_id := row]> m) in
     ret (market_id, row)).

(** The query has no ORDER BY. *)
Definition get_all_markets (up : bool) (m : Markets) : Result SqlxError (list (Z * MarketRow)) :=
  fetch_all up (map_to_list m).
Definition get_market_by_id (up : bool) (market_id : Z) (m : Markets)
    : Result SqlxError (option (Z * MarketRow)) :=
  fetch_optional up (pair market_id <$> m !! market_id).
Definition get_market_by_market_name (up : bool) (market_name : string) (m : Markets)
    : Result SqlxError (option (Z * MarketRow)) :=
  fetch_optional up
    (head (rows_where (fun row => bool_decide (mk_market_name row.2 = market_name)) m)).

(** The number of rows the update met. *)
Definition update_last_traded_price (reach : Reach) (market_id price : Z) : M Markets DbError nat :=
  exec reach
    (let* m := gets id in
     match m !! market_id with
     | None => ret O
     | Some row =>
         do* modify (fun m => <[market_id :=
               mkMarketRow (mk_market_name row) (mk_base_asset row) (mk_quote_asset row)
                 (mk_decimal_base row) (mk_decimal_quote row) price]> m) in
         ret 1%nat
     end).
End DbMarkets.

(** ** Balances: [collaterals.rs] *)

Module DbCollaterals.
Section Collaterals.
Context {SD : Serde}.

(** Writing a row checks its columns. *)
Definition write_row (key : Z * AssetType) (b : BalanceSnapshot) : M WalletDb SqlError BalanceSnapshot :=
  do* lift (collateral_ok b) in
  do* modify (set_collaterals (fun m => <[key := b]> m)) in
  ret b.

(** [UPDATE ... WHERE user_id=$1 AND asset=$2 AND guard RETURNING ...]; the guard
    may overflow. *)
Definition update_row (key : Z * AssetType) (guarded : BalanceSnapshot -> Result SqlError bool)
    (set : BalanceSnapshot -> BalanceSnapshot) : M WalletDb SqlError BalanceSnapshot :=
  let* db := gets id in
  let* b := found (user_collaterals db !! key) in
  let* holds := lift (guarded b) in
  if holds : bool then write_row key (set b) else throw RowNotFound.

Definition create_user_collaterals (reach : Reach) (user_id : Z) (asset : AssetType) (total locked : Z)
    : M WalletDb DbError BalanceSnapshot :=
  exec reach
    (let b := mkBalanceSnapshot total locked in
     do* lift (collateral_ok b) in
     let* db := gets id in
     do* check (negb (bool_decide (is_Some (user_collaterals db !! (user_id, asset))))) UniqueViolation in
     do* check_fk (bool_decide (user_id ∈ users db)) in
     write_row (user_id, asset) b).

Definition add_total_collateral (reach : Reach) (asset : AssetType) (amount user_id : Z)
    : M WalletDb DbError Z :=
  let* b := exec reach
    (update_row (user_id, asset) (fun _ => Ok true)
       (fun b => mkBalanceSnapshot (bs_total b + amount) (bs_locked b))) in
  ret (bs_total b).
Definition update_collateral (reach : Reach) (asset : AssetType) (amount user_id : Z) :=
  add_total_collateral reach asset amount user_id.
Definition udpate_collateral (reach : Reach) (asset : AssetType) (amount user_id : Z) :=
  add_total_collateral reach asset amount user_id.

Definition add_locked_collateral (reach : Reach) (asset : AssetType) (amount user_id : Z)
    : M WalletDb DbError Z :=
  let* b := exec reach
    (update_row (user_id, asset) (fun _ => Ok true)
       (fun b => mkBalanceSnapshot (bs_total b) (bs_locked b + amount))) in
  ret (bs_locked b).
Definition update_locked (reach : Reach) (asset : AssetType) (amount user_id : Z) :=
  add_locked_collateral reach asset amount user_id.

Definition lock_collateral (reach : Reach) (asset : AssetType) (amount user_id : Z)
    : M WalletDb DbError BalanceSnapshot :=
  exec reach
    (update_row (user_id, asset)
       (fun b => let? locked := pg_int8 (bs_locked b + amount) in Ok (locked <=? bs_total b))
       (fun b => mkBalanceSnapshot (bs_total b) (bs_locked b + amount))).
Definition unlock_collateral (reach : Reach) (asset : AssetType) (amount user_id : Z)
    : M WalletDb DbError BalanceSnapshot :=
  exec reach
    (update_row (user_id, asset) (fun b => Ok (amount <=? bs_locked b))
       (fun b => mkBalanceSnapshot (bs_total b) (bs_locked b - amount))).
End Collaterals.
End DbCollaterals.
