(* ===== verification/DbCrateTheorems.v ===== *)
(** * DbCrateTheorems: closing a position, and the balances, through [crates/db]

    [close_position] is all or nothing, and which of the two is decided by the
    constraints of the tables; the updates of balances move what they are asked to
    or nothing, within the CHECKs of the table. *)

From S2P Require Import Prelude Query Protocol Postgres WalletDb WalletSpec ProjectorMath ProjectorDb ProjectorTrades.
From S2P Require Import ServerReplies ServerHandlers ServerAuth ServerReads ProjectorPositions DbCrate.

#[export] Hint Extern 2 (keeps _ (check ?b _)) => destruct b; apply keeps_result : keeps.
#[export] Hint Extern 2 (keeps _ (check_fk ?b)) => destruct b; apply keeps_result : keeps.

(** ** A position is closed entirely or not at all *)

Import DbPositions.

Section Closing.
Variable known : Known.
Implicit Types (t : PositionTables).

(** The tables with the position closed and its fills moved. *)
Definition closed_tables t (position_id : Z) (row : ClosedPositionRow) (fill_ids : list Z)
    : PositionTables :=
  mkPositionTables
    (filter (fun '(_, r) => ps_position_id r <> position_id) (positions t))
    (<[position_id := row]> (closed_positions t))
    (filter (fun '(id, _) => id <> position_id) (position_fills t))
    (list_to_set (pair position_id <$> fill_ids) ∪ closed_position_fills t)
    (projector_position_id_seq t).

(** What the constraints ask of a closing. *)
Definition closable t (position_id : Z) (row : ClosedPositionRow) (fill_ids : list Z) : Prop :=
  0 < cp_quantity row /\ closed_positions t !! position_id = None /\
  cp_user_id row ∈ kn_users known /\ cp_market_id row ∈ kn_markets known /\
  cp_open_order_id row ∈ kn_orders known /\ cp_close_order_id row ∈ kn_orders known /\
  NoDup fill_ids /\ Forall (fun fill_id => fill_id ∈ kn_fills known) fill_ids.
#[export] Instance closable_dec t position_id row fill_ids : Decision (closable t position_id row fill_ids).
Proof. unfold closable. apply _. Defined.

(** The foreign key of the links. *)
Definition links_known t : Prop :=
  forall link, link ∈ closed_position_fills t -> is_Some (closed_positions t !! link.1).

Lemma check_run {S} b e (s : S) : check b e s = (if b then Ok tt else Err e, s).
Proof. by destruct b. Qed.
Lemma fk_check_run {S} b (s : S) : check_fk b s = (if b then Ok tt else Err ForeignKeyViolation, s).
Proof. by destruct b. Qed.

Lemma bind_check {S E A} (c : M S E unit) b e (k : M S E A) (s : S) :
  c s = (if b : bool then Ok tt else Err e, s) ->
  (let* _ := c in k) s = if b then k s else (Err e, s).
Proof. unfold bind. intros ->. by destruct b. Qed.

Lemma insert_closed_position_run position_id row t :
  let ok := 0 < cp_quantity row /\ closed_positions t !! position_id = None /\
    cp_user_id row ∈ kn_users known /\ cp_market_id row ∈ kn_markets known /\
    cp_open_order_id row ∈ kn_orders known /\ cp_close_order_id row ∈ kn_orders known in
  (ok /\ insert_closed_position known position_id row t
     = (Ok (position_id, row), set_closed_positions t (<[position_id := row]> (closed_positions t)))) \/
  (~ ok /\ exists e, insert_closed_position known position_id row t = (Err e, t)).
Proof.
  intros ok. unfold insert_closed_position.
  rewrite (bind_check _ _ _ _ _ (check_run _ _ _)).
  destruct (0 <? cp_quantity row) eqn:Hq; [apply Z.ltb_lt in Hq|apply Z.ltb_ge in Hq; right; split; [unfold ok; lia|eauto]].
  rewrite (bind_run (gets _) _ t _ _ eq_refl), (bind_check _ _ _ _ _ (check_run _ _ _)).
  destruct (closed_positions t !! position_id) as [old|] eqn:Hold; rewrite ?Hold.
  { right. split; [by intros (_ & ? & _)|eauto]. }
  rewrite bool_decide_false by (by intros []). cbn [negb].
  do 4 (rewrite (bind_check _ _ _ _ _ (fk_check_run _ _));
        case_bool_decide; [|right; split; [unfold ok; naive_solver|eauto]]).
  left. split; [by unfold ok; split_and!|done].
Qed.

(** *** The links *)

Definition with_links t (position_id : Z) (fill_ids : list Z) : PositionTables :=
  set_closed_position_fills t (list_to_set (pair position_id <$> fill_ids) ∪ closed_position_fills t).

Lemma with_links_cons t position_id fill_id fill_ids :
  with_links (with_links t position_id [fill_id]) position_id fill_ids
  = with_links t position_id (fill_id :: fill_ids).
Proof.
  unfold with_links, set_closed_position_fills. destruct t; cbn. f_equal. apply leibniz_equiv. set_solver.
Qed.

Lemma insert_closed_fill_run position_id fill_id t :
  is_Some (closed_positions t !! position_id) ->
  let ok := (position_id, fill_id) ∉ closed_position_fills t /\ fill_id ∈ kn_fills known in
  (ok /\ insert_closed_fill known position_id fill_id t = (Ok tt, with_links t position_id [fill_id])) \/
  (~ ok /\ exists e, insert_closed_fill known position_id fill_id t = (Err e, t)).
Proof.
  intros Hp ok. unfold insert_closed_fill.
  rewrite (bind_run (gets _) _ t _ _ eq_refl), (bind_check _ _ _ _ _ (check_run _ _ _)). unfold id.
  case_bool_decide as Hl; cbn [negb]; [right; split; [by unfold ok; intros []|eauto]|].
  rewrite (bind_check _ _ _ _ _ (fk_check_run _ _)). rewrite bool_decide_true by done.
  rewrite (bind_check _ _ _ _ _ (fk_check_run _ _)).
  case_bool_decide as Hf; [|right; split; [by unfold ok; intros []|eauto]].
  left. split; [done|]. unfold modify, with_links. cbn [id fmap list_fmap list_to_set]. by rewrite union_empty_r_L.
Qed.

Lemma stmt_run {A} alive i (m : TM A) t :
  stmt alive i m t =
    if alive i then let '(r, t') := m t in (map_err DbError_Statement r, t') else (Err DbError_Connection, t).
Proof. unfold stmt, exec. by destruct (alive i). Qed.

Definition linkable t (position_id : Z) (fill_ids : list Z) : Prop :=
  NoDup fill_ids /\ Forall (fun fill_id => fill_id ∈ kn_fills known) fill_ids /\
  Forall (fun fill_id => (position_id, fill_id) ∉ closed_position_fills t) fill_ids.

Lemma linkable_cons t position_id fill_id fill_ids :
  linkable t position_id (fill_id :: fill_ids) <->
  ((position_id, fill_id) ∉ closed_position_fills t /\ fill_id ∈ kn_fills known) /\
  linkable (with_links t position_id [fill_id]) position_id fill_ids.
Proof.
  unfold linkable. rewrite NoDup_cons, !Forall_cons, !Forall_forall. cbn.
  split; [intros ([Hn Hnd] & [Hk Hks] & [Hl Hls])|intros ((Hl & Hk) & Hnd & Hks & Hls)]; split_and!; try done.
  - intros f Hf. specialize (Hls f Hf). set_unfold. naive_solver.
  - intros Hn. apply (Hls _ Hn). set_solver.
  - intros f Hf. specialize (Hls f Hf). set_solver.
Qed.

Lemma link_closed_fills_run position_id fill_ids alive : forall i t,
  is_Some (closed_positions t !! position_id) ->
  let held := forallb alive (seq i (length fill_ids)) = true in
  (held /\ linkable t position_id fill_ids /\
  link_closed_fills known alive i position_id fill_ids t = (Ok tt, with_links t position_id fill_ids)) \/
  (~ (held /\ linkable t position_id fill_ids) /\
  exists e, (link_closed_fills known alive i position_id fill_ids t).1 = Err e).
Proof.
  induction fill_ids as [|fill_id fill_ids IH]; intros i t Hp; cbn zeta.
  { left. split; [done|]. split; [by split_and!; constructor|].
    unfold with_links. destruct t; cbn. unfold ret, set_closed_position_fills. cbn. by rewrite union_empty_l_L. }
  cbn [length seq forallb link_closed_fills]. rewrite linkable_cons. unfold bind. rewrite stmt_run.
  destruct (alive i); [cbn [andb]|right; cbn; split; [naive_solver|eauto]].
  destruct (insert_closed_fill_run position_id fill_id t Hp) as [[Hok ->]|[Hno [e ->]]]; cbn [map_err].
  - destruct (IH (S i) (with_links t position_id [fill_id]) Hp) as [(Hh & Hl & ->)|[Hno He]].
    + left. rewrite with_links_cons. tauto.
    + right. split; [tauto|exact He].
  - right. split; [tauto|eauto].
Qed.
(** *** The transaction *)

Lemma keeps_exec {A T} (f : PositionTables -> T) reach (m : TM A) : keeps f m -> keeps f (exec reach m).
Proof. intros Hm t. specialize (Hm t). destruct reach; cbn; [|done|done]. by destruct (m t) as [[] ?]. Qed.

#[local] Hint Resolve keeps_exec : keeps.

Lemma insert_closed_position_seq position_id row :
  keeps projector_position_id_seq (insert_closed_position known position_id row).
Proof. unfold insert_closed_position. eauto 40 with keeps. Qed.
Lemma insert_closed_fill_seq position_id fill_id :
  keeps projector_position_id_seq (insert_closed_fill known position_id fill_id).
Proof. unfold insert_closed_fill. eauto 40 with keeps. Qed.
Lemma delete_open_position_seq position_id :
  keeps projector_position_id_seq (delete_open_position_in_tx position_id).
Proof. by intros t. Qed.
#[local] Hint Resolve insert_closed_position_seq insert_closed_fill_seq delete_open_position_seq : keeps.

Lemma close_statements_seq alive position_id row fill_ids :
  keeps projector_position_id_seq (close_statements known alive position_id row fill_ids).
Proof.
  unfold close_statements, stmt.
  assert (forall i, keeps projector_position_id_seq (link_closed_fills known alive i position_id fill_ids)).
  { induction fill_ids as [|fill_id fill_ids IH]; intros i; cbn; unfold stmt; eauto with keeps. }
  eauto 20 with keeps.
Qed.

(** The connection holds until the answer to the last statement. *)
Definition held (alive : nat -> bool) (fill_ids : list Z) : Prop :=
  forallb alive (seq 0 (3 + length fill_ids)) = true.
#[export] Instance held_dec alive fill_ids : Decision (held alive fill_ids).
Proof. unfold held. apply _. Defined.

Lemma held_cases alive fill_ids :
  held alive fill_ids <->
  alive O = true /\ alive 1%nat = true /\ forallb alive (seq 2 (length fill_ids)) = true /\
  alive (2 + length fill_ids)%nat = true.
Proof.
  unfold held. replace (3 + length fill_ids)%nat with (2 + (length fill_ids + 1))%nat by lia.
  rewrite !seq_app, !forallb_app. cbn. rewrite !andb_true_iff. tauto.
Qed.

Lemma close_statements_run alive position_id row fill_ids t :
  links_known t -> alive O = true ->
  let ok := held alive fill_ids /\ closable t position_id row fill_ids in
  (ok /\ close_statements known alive position_id row fill_ids t
         = (Ok (position_id, row), closed_tables t position_id row fill_ids)) \/
  (~ ok /\ exists e, (close_statements known alive position_id row fill_ids t).1 = Err e).
Proof.
  intros Hlinks H0 ok. destruct (close_statements known alive position_id row fill_ids t) as [r t'] eqn:E.
  unfold ok. rewrite held_cases. clear ok. unfold closable. cbn. revert E.
  unfold close_statements, bind. rewrite !stmt_run.
  destruct (alive 1%nat); [|intros [= <- <-]; right; split; [naive_solver|by eexists]].
  destruct (insert_closed_position_run position_id row t) as [[Hins ->]|[Hno [e ->]]]; cbn [map_err];
    [|intros [= <- <-]; right; split; [tauto|by eexists]].
  set (t1 := set_closed_positions t _).
  assert (is_Some (closed_positions t1 !! position_id)) as Hp by (cbn; by rewrite lookup_insert_eq).
  assert (linkable t1 position_id fill_ids <->
          NoDup fill_ids /\ Forall (fun fill_id => fill_id ∈ kn_fills known) fill_ids) as Hlinkable.
  { unfold linkable. split; [tauto|]. intros [Hnd Hk]. split_and!; [done..|].
    apply Forall_forall. intros f _ Hin. apply Hlinks in Hin as [r0 Hr]. cbn in Hr.
    destruct Hins as (_ & Hnone & _). congruence. }
  destruct (link_closed_fills_run position_id fill_ids alive 2 t1 Hp) as [(Hh & Hl & ->)|[Hno [e He]]].
  - rewrite stmt_run. apply Hlinkable in Hl.
    destruct (alive (2 + length fill_ids)%nat) eqn:Hlast; cbn in Hlast; rewrite Hlast;
      [|intros [= <- <-]; right; split; [naive_solver|by eexists]].
    intros [= <- <-]. left. split; [tauto|]. unfold closed_tables, with_links. by destruct t.
  - destruct (link_closed_fills _ _ _ _ _ _) as [r2 t2]. cbn in He. subst r2. intros [= <- <-].
    right. split; [rewrite <- Hlinkable; tauto|by eexists].
Qed.

(** Claim C31. Closing a position through [close_position] is all or nothing. When
    the connection holds until the commit and the constraints allow it (a positive
    quantity, an id never closed before, a user, market and orders that exist, and
    fills that exist and are named once), the closed position is there with exactly
    the fills the caller names, no open position is left under the id nor any of its
    links, and nothing else has changed, although the caller learns of it only when
    the answer to the commit arrives. In every other case the caller gets an error and
    the tables are as they were. The fills are the caller's word: they are never
    compared with the links the position had, which go with it; and a position that is
    not open is closed all the same. *)
Theorem close_position_all_or_nothing alive commit position_id row fill_ids t :
  links_known t ->
  if decide (held alive fill_ids /\ closable t position_id row fill_ids)
  then close_position known alive commit position_id row fill_ids t =
       match commit with
       | Reach_Through => (Ok (position_id, row), closed_tables t position_id row fill_ids)
       | Reach_Lost => (Err DbError_Connection, t)
       | Reach_AnswerLost => (Err DbError_Connection, closed_tables t position_id row fill_ids)
       end
  else exists e, close_position known alive commit position_id row fill_ids t = (Err e, t).
Proof.
  intros Hlinks. unfold close_position.
  destruct (alive O) eqn:H0; cbn [negb]; [|rewrite decide_False by (rewrite held_cases, H0; by intros [[? _] _]); eauto].
  pose proof (close_statements_seq alive position_id row fill_ids t) as Hseq.
  destruct (close_statements_run alive position_id row fill_ids t Hlinks H0) as [[Hok Hrun]|[Hno [e He]]].
  - rewrite decide_True, Hrun by done. destruct commit; [done| |done]. by destruct t.
  - rewrite decide_False by done. destruct (close_statements _ _ _ _ _ t) as [r t2]. cbn in *. subst r.
    exists e. unfold rollback, PositionTables_rollback. rewrite Hseq. by destruct t.
Qed.
End Closing.

(** ** Balances *)

Import DbCollaterals.

Section Balances.
Context {SD : Serde}.
Implicit Types (db : WalletDb).

Inductive BalanceWrite :=
| Write_Create (total locked : Z)
| Write_AddTotal (amount : Z)
| Write_AddLocked (amount : Z)
| Write_Lock (amount : Z)
| Write_Unlock (amount : Z).

Definition run_write (reach : Reach) (user_id : Z) (asset : AssetType) (w : BalanceWrite) db : WalletDb :=
  match w with
  | Write_Create total locked => (create_user_collaterals reach user_id asset total locked db).2
  | Write_AddTotal amount => (add_total_collateral reach asset amount user_id db).2
  | Write_AddLocked amount => (add_locked_collateral reach asset amount user_id db).2
  | Write_Lock amount => (lock_collateral reach asset amount user_id db).2
  | Write_Unlock amount => (unlock_collateral reach asset amount user_id db).2
  end.

(** What a write asks of a balance. *)
Definition asked_balance (w : BalanceWrite) (b : option BalanceSnapshot) : option BalanceSnapshot :=
  match w, b with
  | Write_Create total locked, None => Some (mkBalanceSnapshot total locked)
  | Write_AddTotal amount, Some b => Some (mkBalanceSnapshot (bs_total b + amount) (bs_locked b))
  | (Write_AddLocked amount | Write_Lock amount), Some b =>
      Some (mkBalanceSnapshot (bs_total b) (bs_locked b + amount))
  | Write_Unlock amount, Some b => Some (mkBalanceSnapshot (bs_total b) (bs_locked b - amount))
  | _, _ => None
  end.

Definition balance_fits (b : BalanceSnapshot) : Prop := 0 <= bs_locked b <= bs_total b /\ bs_total b <= i64_max.

Lemma collateral_ok_fits b : collateral_ok b = Ok tt <-> balance_fits b.
Proof.
  unfold collateral_ok, in_i64b, balance_fits, i64_min, i64_max.
  repeat case_match; split; intros; split_bool; try done; lia.
Qed.

(** A write leaves the table as it is, or puts the balance it asks for in the row
    it names, which fits the CHECKs; it can only do the latter for a known user. *)
Definition wrote (user_id : Z) (asset : AssetType) (w : BalanceWrite) db db' : Prop :=
  db' = db \/
  exists b, asked_balance w (user_collaterals db !! (user_id, asset)) = Some b /\ balance_fits b /\
    (user_collaterals db !! (user_id, asset) = None -> user_id ∈ users db) /\
    db' = set_collaterals (fun m => <[(user_id, asset) := b]> m) db.

Lemma write_row_run key b db :
  (balance_fits b /\ write_row key b db = (Ok b, set_collaterals (fun m => <[key := b]> m) db)) \/
  (~ balance_fits b /\ exists e, write_row key b db = (Err e, db)).
Proof.
  unfold write_row, bind, lift. rewrite <- collateral_ok_fits.
  destruct (collateral_ok b) as [[]|e]; [by left|]. right. split; [done|by exists e].
Qed.

Lemma update_row_run key guarded (set : BalanceSnapshot -> BalanceSnapshot) db :
  let r := update_row key guarded set db in
  (exists e, r = (Err e, db)) \/
  exists b, user_collaterals db !! key = Some b /\ balance_fits (set b) /\
    r = (Ok (set b), set_collaterals (fun m => <[key := set b]> m) db).
Proof.
  cbn zeta. unfold update_row. rewrite (bind_run (gets _) _ db _ _ eq_refl). unfold bind at 1, found, id.
  destruct (user_collaterals db !! key) as [b|]; [|left; by eexists]. cbn.
  unfold bind, lift. destruct (guarded b) as [[]|e]; [|left; by eexists..].
  destruct (write_row_run key (set b) db) as [[Hf ->]|[_ [e ->]]]; [right; by exists b|left; by eexists].
Qed.

Lemma exec_update_wrote {A} reach (m : M WalletDb SqlError A) user_id asset w db :
  wrote user_id asset w db (m db).2 -> wrote user_id asset w db (exec reach m db).2.
Proof. destruct reach; cbn; [|by left|done]. by destruct (m db). Qed.

Lemma bind_ret_snd {S E A B} (m : M S E A) (f : A -> B) s : (bind m (fun a => ret (f a)) s).2 = (m s).2.
Proof. unfold bind. by destruct (m s) as [[] ?]. Qed.

Lemma update_row_wrote user_id asset guarded set w db :
  (forall b, asked_balance w (Some b) = Some (set b)) ->
  wrote user_id asset w db (update_row (user_id, asset) guarded set db).2.
Proof.
  intros Hw. destruct (update_row_run (user_id, asset) guarded set db) as [[e ->]|(b & Hb & Hf & ->)]; [by left|].
  right. exists (set b). rewrite Hb. by split_and!.
Qed.

(** Whatever the connection does, each write does what it is asked or nothing. *)
Theorem balance_write_exact reach user_id asset w db :
  wrote user_id asset w db (run_write reach user_id asset w db).
Proof.
  destruct w; cbn [run_write]; unfold add_total_collateral, add_locked_collateral;
    rewrite ?bind_ret_snd; apply exec_update_wrote; try by apply update_row_wrote.
  unfold bind at 1, lift. destruct (collateral_ok _) as [[]|e]; [|by left].
  rewrite (bind_run (gets _) _ db _ _ eq_refl), (bind_check _ _ _ _ _ (check_run _ _ _)). unfold id.
  case_bool_decide as Hnew; cbn [negb]; [by left|].
  rewrite (bind_check _ _ _ _ _ (fk_check_run _ _)). case_bool_decide as Hu; [|by left].
  destruct (write_row_run (user_id, asset) (mkBalanceSnapshot total locked) db) as [[Hf ->]|[_ [e ->]]]; [|by left].
  right. exists (mkBalanceSnapshot total locked). apply eq_None_not_Some in Hnew. by rewrite Hnew.
Qed.

(** So the CHECKs hold of every row, whatever writes are made. *)
Definition balances_fit db : Prop :=
  forall key b, user_collaterals db !! key = Some b -> balance_fits b.

Lemma writes_fit reach writes : forall db,
  balances_fit db ->
  balances_fit (fold_left (fun db '(user_id, asset, w) => run_write reach user_id asset w db) writes db).
Proof.
  induction writes as [|[[user_id asset] w] writes IH]; intros db Hfit; [done|]. cbn. apply IH.
  destruct (balance_write_exact reach user_id asset w db) as [->|(b & _ & Hb & _ & ->)]; [done|].
  intros key b'. cbn. intros [[<- <-]|[_ H]]%lookup_insert_Some; [done|]. by eapply Hfit.
Qed.

(** Locking an amount and unlocking it again restores the balance. *)
Theorem lock_unlock_roundtrip asset amount user_id db b db' :
  lock_collateral Reach_Through asset amount user_id db = (Ok b, db') ->
  exists b0, user_collaterals db !! (user_id, asset) = Some b0 /\
    (balance_fits b0 ->
     unlock_collateral Reach_Through asset amount user_id db' = (Ok b0, db)).
Proof.
  unfold lock_collateral, exec. set (guarded := fun b => let? _ := _ in _).
  destruct (update_row_run (user_id, asset) guarded
    (fun b => mkBalanceSnapshot (bs_total b) (bs_locked b + amount)) db) as [[e ->]|(b0 & Hb0 & Hf & ->)]; [done|].
  intros [= <- <-]. exists b0. split; [done|]. intros Hfit. pose proof Hfit as [[Hl _] _].
  set (db1 := set_collaterals _ db). unfold unlock_collateral, exec, update_row.
  unfold bind at 1, gets. unfold bind at 1, found, id.
  assert (user_collaterals db1 !! (user_id, asset) = Some (mkBalanceSnapshot (bs_total b0) (bs_locked b0 + amount)))
    as -> by apply lookup_insert_eq.
  cbv beta iota delta [ret bind lift]. cbn [bs_total bs_locked].
  rewrite (proj2 (Z.leb_le _ _)) by lia.
  replace (bs_locked b0 + amount - amount) with (bs_locked b0) by lia.
  destruct (write_row_run (user_id, asset) (mkBalanceSnapshot (bs_total b0) (bs_locked b0)) db1)
    as [[_ ->]|[Hno _]]; [|by destruct Hno; destruct b0].
  unfold db1. destruct b0 as [total locked], db as [us m rs lg ids ob sq offsets]. cbn in *.
  unfold set_collaterals. cbn. by rewrite insert_insert_eq, insert_id.
Qed.
End Balances.

(** ** An example *)

Module DbCrateExample.
#[local] Transparent gmap_empty.

Definition known_1 : Known := mkKnown {[1]} {[7]} {[11; 12]} {[5; 6]}.
Definition open_1 : PositionRow :=
  mkPositionRow 3 "SOL-PERP" SideType_LONG 10 0 100 0 MarginType_ISOLATED 0 50 1000 (Some 11).
Definition tables_1 : PositionTables :=
  mkPositionTables {[(1, 7) := open_1]} ∅ {[(3, 5)]} ∅ 4.
Definition closed_1 : ClosedPositionRow :=
  mkClosedPositionRow 1 7 "SOL-PERP" SideType_LONG 10 50 60 100 100 0 1000 11 12 CloseType_TRADE.
Definition always (_ : nat) : bool := true.

Example close_moves_fills :
  let '(r, t') := close_position known_1 always Reach_Through 3 closed_1 [5; 6] tables_1 in
  is_ok r = true /\ map_to_list (positions t') = [] /\ elements (position_fills t') = [] /\
  elements (closed_position_fills t') = [(3, 5); (3, 6)].
Proof. vm_compute. by split_and!. Qed.
Example fill_named_twice :
  close_position known_1 always Reach_Through 3 closed_1 [5; 5] tables_1
  = (Err (DbError_Statement UniqueViolation), tables_1).
Proof. vm_compute. reflexivity. Qed.
Example answer_lost :
  is_ok (close_position known_1 always Reach_AnswerLost 3 closed_1 [5] tables_1).1 = false /\
  is_Some (closed_positions (close_position known_1 always Reach_AnswerLost 3 closed_1 [5] tables_1).2 !! 3).
Proof. vm_compute. split; [done|by eexists]. Qed.

Lemma close_position_all_or_nothing_witness :
  close_position known_1 always Reach_Through 3 closed_1 [5; 6] tables_1
  = (Ok (3, closed_1), closed_tables tables_1 3 closed_1 [5; 6]).
Proof.
  assert (links_known tables_1) as Hlinks by (intros link H; by apply not_elem_of_empty in H).
  pose proof (close_position_all_or_nothing known_1 always Reach_Through 3 closed_1 [5; 6] tables_1 Hlinks) as H.
  rewrite decide_True in H; [exact H|]. split; [done|]. by apply (bool_decide_unpack (closable _ _ _ _ _)).
Defined.
End DbCrateExample.
