(* ===== verification/Startup.v ===== *)
(** * Startup: the services connect and read their partitions

    The constructors and [run] of the queues of every service ([redpanda.rs] of
    [apps/ledger], [apps/timeseries], [apps/projector], [apps/wallet];
    [consumer.rs] of [apps/ws]; the consumers of replies of [apps/server]): which
    partitions of which topics they read and write, what stops them, and the loop
    over one partition, which is that of Broker over the handlers of the other
    files. *)

From S2P Require Import Prelude Text Protocol Settings Queue Broker Postgres WalletDb WalletProcessor WalletOutbox.
From S2P Require Import ServerReplies ServerHandlers WalletQueue Ledger Timeseries ProjectorDb ProjectorTrades WsHub WsRouter.

(** ** [apps/ledger] *)

Module LedgerQueue.
Inductive LedgerQueueError :=
| Client (error : string)
| EmptyBrokerList
| Task (error : string)
| TopicHasNoPartitions (topic : string)
| TopicNotFound (topic : string)
| Worker (error : string).

Definition ledger_error_text (e : LedgerQueueError) : string :=
  match e with
  | Client error => "redpanda client failed: " +:+ error
  | EmptyBrokerList => "redpanda broker list is empty"
  | Task error => "ledger queue task failed: " +:+ error
  | TopicHasNoPartitions topic => "redpanda topic '" +:+ topic +:+ "' has no partitions"
  | TopicNotFound topic => "redpanda topic '" +:+ topic +:+ "' was not found"
  | Worker error => "ledger worker failed: " +:+ error
  end.

Definition ledger_parse_brokers := brokers_in EmptyBrokerList.
Definition ledger_topic_partitions := partitions_in TopicNotFound TopicHasNoPartitions.
Definition ledger_partition_clients := clients_in Client TopicNotFound TopicHasNoPartitions.

Record LedgerQueue := mkLedgerQueue {
  wallet_events_topic : string;
  wallet_event_partitions : list Z
}.

Definition LedgerQueue_new (connect : Connect) (settings : LedgerSettings) : Result LedgerQueueError LedgerQueue :=
  let? brokers := ledger_parse_brokers (lse_redpanda_brokers settings) in
  let? client := map_err Client (connect brokers) in
  let? topics := map_err Client (list_topics client) in
  let? wallet_event_partitions := ledger_partition_clients client topics (lse_wallet_events_topic settings) in
  Ok (mkLedgerQueue (lse_wallet_events_topic settings) wallet_event_partitions).

(** One task for each partition. *)
Definition ledger_tasks (self : LedgerQueue) : list (string * Z) :=
  map (pair (wallet_events_topic self)) (wallet_event_partitions self).
Definition ledger_queue_run (self : LedgerQueue) (finished : list (Finished LedgerQueueError))
    : option (Result LedgerQueueError unit) :=
  join_tasks Task (length (ledger_tasks self)) finished.

Definition run_wallet_event_partition {SD : Serde} (parse : string -> option WalletEvent)
    (topic : string) (partition : Z) :=
  run_partition (handle_wallet_event_record parse topic partition) (fun _ => false)
    (ledger_load_queue_offset topic partition).
End LedgerQueue.

(** ** [apps/timeseries] *)

Module TimeseriesQueue.
Inductive TimeseriesQueueError :=
| Client (error : string)
| EmptyBrokerList
| Task (error : string)
| TopicHasNoPartitions (topic : string)
| TopicNotFound (topic : string)
| Worker (error : string).

Definition timeseries_error_text (e : TimeseriesQueueError) : string :=
  match e with
  | Client error => "redpanda client failed: " +:+ error
  | EmptyBrokerList => "redpanda broker list is empty"
  | Task error => "timeseries queue task failed: " +:+ error
  | TopicHasNoPartitions topic => "redpanda topic '" +:+ topic +:+ "' has no partitions"
  | TopicNotFound topic => "redpanda topic '" +:+ topic +:+ "' was not found"
  | Worker error => "timeseries worker failed: " +:+ error
  end.

Definition timeseries_parse_brokers := brokers_in EmptyBrokerList.
Definition timeseries_topic_partitions := partitions_in TopicNotFound TopicHasNoPartitions.
Definition timeseries_partition_clients := clients_in Client TopicNotFound TopicHasNoPartitions.

Record TimeseriesQueue := mkTimeseriesQueue {
  engine_events_topic : string;
  engine_event_partitions : list Z
}.

Definition TimeseriesQueue_new (connect : Connect) (settings : TimeseriesSettings)
    : Result TimeseriesQueueError TimeseriesQueue :=
  let? brokers := timeseries_parse_brokers (tse_redpanda_brokers settings) in
  let? client := map_err Client (connect brokers) in
  let? topics := map_err Client (list_topics client) in
  let? engine_event_partitions := timeseries_partition_clients client topics (tse_engine_events_topic settings) in
  Ok (mkTimeseriesQueue (tse_engine_events_topic settings) engine_event_partitions).

Definition timeseries_tasks (self : TimeseriesQueue) : list (string * Z) :=
  map (pair (engine_events_topic self)) (engine_event_partitions self).
Definition timeseries_queue_run (self : TimeseriesQueue) (finished : list (Finished TimeseriesQueueError))
    : option (Result TimeseriesQueueError unit) :=
  join_tasks Task (length (timeseries_tasks self)) finished.

Definition run_engine_event_partition (parse : string -> option EngineEvent) (topic : string)
    (partition : Z) :=
  run_partition (handle_engine_event_record parse topic partition) (fun _ => false)
    (timeseries_load_queue_offset topic partition).
End TimeseriesQueue.

(** ** [apps/projector] *)

Module ProjectorQueue.
Inductive ProjectorQueueError :=
| Client (error : string)
| EmptyBrokerList
| Task (error : string)
| TopicHasNoPartitions (topic : string)
| TopicNotFound (topic : string)
| Worker (error : string).

Definition projector_error_text (e : ProjectorQueueError) : string :=
  match e with
  | Client error => "redpanda client failed: " +:+ error
  | EmptyBrokerList => "redpanda broker list is empty"
  | Task error => "projector queue task failed: " +:+ error
  | TopicHasNoPartitions topic => "redpanda topic '" +:+ topic +:+ "' has no partitions"
  | TopicNotFound topic => "redpanda topic '" +:+ topic +:+ "' was not found"
  | Worker error => "projector worker failed: " +:+ error
  end.

Definition projector_source_kind_text (kind : ProjectorTrades.SourceKind) : string :=
  match kind with
  | SourceKind_EngineInput => "engine input"
  | SourceKind_EngineReply => "engine reply"
  | ProjectorTrades.SourceKind_EngineEvent => "engine event"
  | ProjectorTrades.SourceKind_WalletEvent => "wallet event"
  end.

Definition projector_parse_brokers := brokers_in EmptyBrokerList.
Definition projector_topic_partitions := partitions_in TopicNotFound TopicHasNoPartitions.
Definition projector_partition_clients := clients_in Client TopicNotFound TopicHasNoPartitions.

Record ProjectorSource := mkProjectorSource {
  source_kind : ProjectorTrades.SourceKind;
  source_topic : string;
  source_partitions : list Z
}.

(** [ProjectorQueue] has this one field. *)
Definition ProjectorQueue_new (connect : Connect) (settings : ProjectorSettings)
    : Result ProjectorQueueError (list ProjectorSource) :=
  let? brokers := projector_parse_brokers (pse_redpanda_brokers settings) in
  let? client := map_err Client (connect brokers) in
  let? topics := map_err Client (list_topics client) in
  let? inputs := projector_partition_clients client topics (pse_engine_input_topic settings) in
  let? replies := projector_partition_clients client topics (pse_engine_replies_topic settings) in
  let? events := projector_partition_clients client topics (pse_engine_events_topic settings) in
  let? wallet_events := projector_partition_clients client topics (pse_wallet_events_topic settings) in
  Ok [mkProjectorSource SourceKind_EngineInput (pse_engine_input_topic settings) inputs;
      mkProjectorSource SourceKind_EngineReply (pse_engine_replies_topic settings) replies;
      mkProjectorSource ProjectorTrades.SourceKind_EngineEvent (pse_engine_events_topic settings) events;
      mkProjectorSource ProjectorTrades.SourceKind_WalletEvent (pse_wallet_events_topic settings)
        wallet_events].

Definition projector_tasks (sources : list ProjectorSource)
    : list (ProjectorTrades.SourceKind * string * Z) :=
  sources ≫= fun source => map (pair (source_kind source, source_topic source)) (source_partitions source).
Definition projector_queue_run (sources : list ProjectorSource) (finished : list (Finished ProjectorQueueError))
    : option (Result ProjectorQueueError unit) :=
  join_tasks Task (length (projector_tasks sources)) finished.

(** On a missing context the rest of the fetch is dropped and read again. *)
Definition is_missing_context (error : ProjectorErrorKind) : bool :=
  match error with ProjectorErrorKind_MissingOrderContext => true | ProjectorErrorKind_Other => false end.

Definition run_source_partition {SD : Serde} (parsers : Parsers) (kind : ProjectorTrades.SourceKind)
    (topic : string) (partition : Z) :=
  run_partition (handle_source_record parsers kind topic partition) is_missing_context
    (projector_load_queue_offset topic partition).
End ProjectorQueue.

(** ** [apps/wallet] *)

Module WalletWorkers.
Record WalletQueue := mkWalletQueue {
  wallet_commands_topic : string;
  command_partitions : list Z;
  engine_events_topic : string;
  engine_event_partitions : list Z;
  wallet_replies_producer : TopicProducer
}.

Definition WalletQueue_new (connect : Connect) (settings : WalletSettings) : Result QueueError WalletQueue :=
  let? brokers := wallet_parse_brokers (wse_redpanda_brokers settings) in
  let? client := map_err QueueError_Client (connect brokers) in
  let? topics := map_err QueueError_Client (list_topics client) in
  let? command_partitions :=
    wallet_partition_clients client topics (wse_wallet_commands_topic settings) in
  let? engine_event_partitions :=
    wallet_partition_clients client topics (wse_engine_events_topic settings) in
  let? wallet_replies := TopicProducer_new client topics (wse_wallet_replies_topic settings) in
  Ok (mkWalletQueue (wse_wallet_commands_topic settings) command_partitions
        (wse_engine_events_topic settings) engine_event_partitions wallet_replies).

(** The wallet_tasks: the relay, and a consumer for each partition of the two topics. *)
Inductive WalletTask :=
| Task_Relay
| Task_Commands (topic : string) (partition : Z)
| Task_EngineEvents (topic : string) (partition : Z).

Definition wallet_tasks (self : WalletQueue) : list WalletTask :=
  Task_Relay :: map (Task_Commands (wallet_commands_topic self)) (command_partitions self)
  ++ map (Task_EngineEvents (engine_events_topic self)) (engine_event_partitions self).

(** The relay connects first: when it cannot, no task is spawned. *)
Definition wallet_queue_run (connect : Connect) (settings : WalletSettings) (self : WalletQueue)
    (finished : list (Finished QueueError)) : option (Result QueueError unit) :=
  match WalletOutboxRelay_new connect settings with
  | Err e => Some (Err e)
  | Ok relay => join_tasks QueueError_Task (length (wallet_tasks self)) finished
  end.

Section Loops.
Context {SD : Serde}.
Variable produce : list ReplyRecord -> ReplyRecord -> ProduceOutcome.
Variable wallet_replies_topic : TopicProducer.
Variable self : WalletProcessor.

Definition stored_offset (topic : string) (partition : Z) (s : QueueState) : option Z :=
  wallet_queue_offsets (qs_db s) !! (topic, partition).

(** A record comes with what its handling draws. *)
Definition run_command_partition (parse : string -> option WalletCommand) (topic : string)
    (partition : Z) :=
  run_partition
    (fun offset (record : Draw * option string) =>
       handle_wallet_command_record produce wallet_replies_topic self parse record.1 topic partition
         offset record.2)
    (fun _ => false) (stored_offset topic partition).

Definition run_wallet_engine_event_partition (parse : string -> option EngineEvent) (topic : string)
    (partition : Z) :=
  run_partition
    (fun offset (record : (nat -> Draw) * option string) =>
       handle_wallet_engine_record produce wallet_replies_topic self parse record.1 topic partition
         offset record.2)
    (fun _ => false) (stored_offset topic partition).
End Loops.
End WalletWorkers.

(** ** [apps/ws] *)

Module EventConsumers.
Inductive ConsumerError :=
| Client (error : string)
| EmptyBrokerList
| Task (error : string)
| TopicHasNoPartitions (topic : string)
| TopicNotFound (topic : string).

Definition ws_error_text (e : ConsumerError) : string :=
  match e with
  | Client error => "redpanda client failed: " +:+ error
  | EmptyBrokerList => "redpanda broker list is empty"
  | Task error => "websocket consumer task failed: " +:+ error
  | TopicHasNoPartitions topic => "redpanda topic '" +:+ topic +:+ "' has no partitions"
  | TopicNotFound topic => "redpanda topic '" +:+ topic +:+ "' was not found"
  end.

Definition ws_source_kind_text (kind : WsRouter.SourceKind) : string :=
  match kind with
  | SourceKind_EngineEvent => "engine event"
  | SourceKind_WalletEvent => "wallet event"
  end.

Definition ws_parse_brokers := brokers_in EmptyBrokerList.
Definition ws_topic_partitions := partitions_in TopicNotFound TopicHasNoPartitions.
Definition ws_partition_clients := clients_in Client TopicNotFound TopicHasNoPartitions.

Record EventSource := mkEventSource {
  source_kind : WsRouter.SourceKind;
  source_topic : string;
  source_partitions : list Z
}.

Definition EventConsumers_new (connect : Connect) (settings : WsSettings) : Result ConsumerError (list EventSource) :=
  let? brokers := ws_parse_brokers (sse_redpanda_brokers settings) in
  let? client := map_err Client (connect brokers) in
  let? topics := map_err Client (list_topics client) in
  let? events := ws_partition_clients client topics (sse_engine_events_topic settings) in
  let? wallet_events := ws_partition_clients client topics (sse_wallet_events_topic settings) in
  Ok [mkEventSource SourceKind_EngineEvent (sse_engine_events_topic settings) events;
      mkEventSource SourceKind_WalletEvent (sse_wallet_events_topic settings) wallet_events].

Definition ws_tasks (sources : list EventSource) : list (WsRouter.SourceKind * string * Z) :=
  sources ≫= fun source => map (pair (source_kind source, source_topic source)) (source_partitions source).
Definition ws_queue_run (sources : list EventSource) (finished : list (Finished ConsumerError))
    : option (Result ConsumerError unit) :=
  join_tasks Task (length (ws_tasks sources)) finished.

(** [run_event_partition]: nothing is stored, so it reads from the latest offset on. *)
Definition run_event_partition {Recipient Payload : Type} {SD : Serde} {WS : WsSerde}
    (iter : gset Z -> list Z) (accepts : list (Attempt Recipient) -> Recipient -> string -> bool)
    (engine_event_from_slice : Payload -> option EngineEvent)
    (wallet_event_from_slice : Payload -> option WalletEvent)
    (kind : WsRouter.SourceKind) (topic : string) (partition : Z) :=
  run_partition
    (route_record iter accepts engine_event_from_slice wallet_event_from_slice kind topic partition)
    (fun _ => false) (fun _ => None).
End EventConsumers.

(** ** [apps/server] *)

Module ReplyLoops.
Section Loops.
Context {Payload : Type}.

(** [consume_wallet_replies] and [consume_engine_replies], from the latest offset
    on. The task of one that ends prints the error; nothing starts it again. *)
Definition run_wallet_replies (wallet_reply_from_slice : Payload -> option WalletReply) :=
  run_partition
    (fun _ payload (state : ReplyState) =>
       (Ok tt : Result string unit, consume_wallet_reply wallet_reply_from_slice payload state))
    (fun _ => false) (fun _ => None).
Definition run_engine_replies (engine_reply_from_slice : Payload -> option EngineReply) :=
  run_partition
    (fun _ payload (state : ReplyState) =>
       (Ok tt : Result string unit, consume_engine_reply engine_reply_from_slice payload state))
    (fun _ => false) (fun _ => None).
End Loops.
End ReplyLoops.

(** ** A deployment *)

(** The services that were started in one environment, while the broker answered
    everyone the same. *)
Record deployed (env : Env) (connect : Connect) := mkDeployed {
  dp_config : Config;
  dp_timeseries_settings : TimeseriesSettings;
  dp_producer : ServerHandlers.RedpandaProducer;
  dp_consumers : ServerHandlers.ReplyConsumers;
  dp_relay : WalletOutboxRelay;
  dp_wallet : WalletWorkers.WalletQueue;
  dp_ledger : LedgerQueue.LedgerQueue;
  dp_projector : list ProjectorQueue.ProjectorSource;
  dp_timeseries : TimeseriesQueue.TimeseriesQueue;
  dp_ws : list EventConsumers.EventSource;
  dp_config_ok : Config_init env = Ok dp_config;
  dp_timeseries_settings_ok : TimeseriesSettings_from_env env = Ok dp_timeseries_settings;
  dp_producer_ok :
    ServerHandlers.RedpandaProducer_new connect (cfg_redpanda_brokers dp_config)
      (cfg_wallet_commands_topic dp_config) = Ok dp_producer;
  dp_consumers_ok :
    ServerHandlers.ReplyConsumers_new connect (cfg_redpanda_brokers dp_config)
      (cfg_wallet_replies_topic dp_config) (cfg_engine_replies_topic dp_config)
      (cfg_server_reply_partition dp_config) = Ok dp_consumers;
  dp_relay_ok : WalletOutboxRelay_new connect (WalletSettings_from_env env) = Ok dp_relay;
  dp_wallet_ok : WalletWorkers.WalletQueue_new connect (WalletSettings_from_env env) = Ok dp_wallet;
  dp_ledger_ok : LedgerQueue.LedgerQueue_new connect (LedgerSettings_from_env env) = Ok dp_ledger;
  dp_projector_ok : ProjectorQueue.ProjectorQueue_new connect (ProjectorSettings_from_env env) = Ok dp_projector;
  dp_timeseries_ok : TimeseriesQueue.TimeseriesQueue_new connect dp_timeseries_settings = Ok dp_timeseries;
  dp_ws_ok : EventConsumers.EventConsumers_new connect (WsSettings_from_env env) = Ok dp_ws
}.
