(* ===== verification/Processes.v ===== *)
(** * Processes: the services as processes

    [main.rs] of every service and of [tools/engine-ingress], [run] of the four
    [worker.rs], and the pools of [crates/db/src/pool.rs]: the order in which a
    process reads its settings, opens its databases, has them migrated and builds
    its queue, and what ends it. What connecting to a database, running its
    migrations and binding a port answer are parameters; of a panic the message
    the code gives is kept, of an error its text. A pool is the address it was
    opened for. The theorems on what a process that is up has done, and on six of
    them as a deployment, follow the definitions. *)

From S2P Require Import Prelude Text Protocol Settings Queue Broker Postgres WalletDb WalletRepository WalletProcessor.
From S2P Require Import WalletOutbox WalletQueue ServerReplies ServerHandlers ServerRoutes EngineIngress Startup.

(** The two directories of migrations. *)
Inductive Migrations := Migrations_Exchange | Migrations_Timeseries.

(** What is static in a process, and which migrations it has run on which
    database, in order. *)
Record Process := mkProcess {
  DB_POOL : option string;
  TIMESERIES_DB_POOL : option string;
  migrated : list (Migrations * string)
}.
Definition new_process : Process := mkProcess None None [].

(** How a process ends before its time. *)
Inductive Exit :=
| Exit_Error (error : string)
| Exit_Panic (message : string).

Definition Main (A : Type) : Type := M Process Exit A.

(** [?] and [expect] in a [main]. *)
Definition question {A} (r : Result string A) : Main A := lift (map_err Exit_Error r).
Definition expected {E A} (message : string) (r : Result E A) : Main A :=
  lift (map_err (fun _ => Exit_Panic message) r).

Section World.
Variable env : Env.
Variable connect_database : string -> Result string unit.
Variable run_migrator : Migrations -> string -> Result string unit.
Variable connect : Connect.
Variable bind_port : string -> Z -> Result string unit.

(** ** [crates/db/src/pool.rs] *)

Definition create_db_pool (database_url : string) : Result string string :=
  let? _ := connect_database database_url in Ok database_url.

Definition init_pool (pool : string) : Main unit :=
  let* set := gets DB_POOL in
  match set with
  | None => modify (fun p => mkProcess (Some pool) (TIMESERIES_DB_POOL p) (migrated p))
  | Some _ => throw (Exit_Panic "db_pool already exists")
  end.
Definition init_timeseries_pool (pool : string) : Main unit :=
  let* set := gets TIMESERIES_DB_POOL in
  match set with
  | None => modify (fun p => mkProcess (DB_POOL p) (Some pool) (migrated p))
  | Some _ => throw (Exit_Panic "timeseries_db_pool already exists")
  end.

Definition pool : Main string :=
  let* pool := gets DB_POOL in
  match pool with Some pool => ret pool | None => throw (Exit_Panic "db_pool is not initialized") end.
Definition timeseries_pool : Main string :=
  let* pool := gets TIMESERIES_DB_POOL in
  match pool with
  | Some pool => ret pool
  | None => throw (Exit_Panic "timeseries_db_pool is not initialized")
  end.

(** Their results are the caller's to look at. *)
Definition migrate (migrations : Migrations) (pool : string) : Main (Result string unit) :=
  match run_migrator migrations pool with
  | Ok _ =>
      do* modify (fun p => mkProcess (DB_POOL p) (TIMESERIES_DB_POOL p)
                             (migrated p ++ [(migrations, pool)])) in
      ret (Ok tt)
  | Err e => ret (Err e)
  end.
Definition run_migration : Main (Result string unit) :=
  let* pool := pool in migrate Migrations_Exchange pool.
Definition run_timeseries_migration (pool : string) : Main (Result string unit) :=
  migrate Migrations_Timeseries pool.

(** ** [run] of the workers *)

(** The queue is built, then run until a task of it ends: [None] while none has. *)
Definition worker_run {E Q} (error_text : E -> string) (queue : Result E Q)
    (run : Q -> option (Result E unit)) : Result string (option unit) :=
  let? queue := map_err error_text queue in
  match run queue with
  | None => Ok None
  | Some result => let? _ := map_err error_text result in Ok (Some tt)
  end.

Definition wallet_worker_run (settings : WalletSettings) (finished : list (Finished QueueError)) :=
  worker_run queue_error_text (WalletWorkers.WalletQueue_new connect settings)
    (fun queue => WalletWorkers.wallet_queue_run connect settings queue finished).
Definition ledger_worker_run (settings : LedgerSettings)
    (finished : list (Finished LedgerQueue.LedgerQueueError)) :=
  worker_run LedgerQueue.ledger_error_text (LedgerQueue.LedgerQueue_new connect settings)
    (fun queue => LedgerQueue.ledger_queue_run queue finished).
Definition projector_worker_run (settings : ProjectorSettings)
    (finished : list (Finished ProjectorQueue.ProjectorQueueError)) :=
  worker_run ProjectorQueue.projector_error_text (ProjectorQueue.ProjectorQueue_new connect settings)
    (fun queue => ProjectorQueue.projector_queue_run queue finished).
Definition timeseries_worker_run (settings : TimeseriesSettings)
    (finished : list (Finished TimeseriesQueue.TimeseriesQueueError)) :=
  worker_run TimeseriesQueue.timeseries_error_text (TimeseriesQueue.TimeseriesQueue_new connect settings)
    (fun queue => TimeseriesQueue.timeseries_queue_run queue finished).

(** ** The mains

    [dotenvy] has filled the environment; [finished] are the tasks that have ended
    so far, and the answer is [None] while the process runs on. *)

(** The wallet, the ledger and the projector open the exchange's database alike. *)
Definition open_exchange (connect_error migrate_error : string -> string) (database_url : string) : Main unit :=
  let* pool := question (map_err connect_error (create_db_pool database_url)) in
  do* init_pool pool in
  let* result := run_migration in
  question (map_err migrate_error result).

Definition wallet_main (finished : list (Finished QueueError)) : Main (option unit) :=
  let settings := WalletSettings_from_env env in
  do* open_exchange id id (wse_database_url settings) in
  question (wallet_worker_run settings finished).

Definition ledger_main (finished : list (Finished LedgerQueue.LedgerQueueError)) : Main (option unit) :=
  let settings := LedgerSettings_from_env env in
  do* open_exchange id id (lse_database_url settings) in
  question (ledger_worker_run settings finished).

Definition projector_main (finished : list (Finished ProjectorQueue.ProjectorQueueError)) : Main (option unit) :=
  let settings := ProjectorSettings_from_env env in
  do* open_exchange id id (pse_database_url settings) in
  question (projector_worker_run settings finished).

Definition timeseries_main (finished : list (Finished TimeseriesQueue.TimeseriesQueueError))
    : Main (option unit) :=
  let* settings := lift (map_err Exit_Panic (TimeseriesSettings_from_env env)) in
  let* pool := question (create_db_pool (tse_database_url settings)) in
  let* result := run_timeseries_migration pool in
  do* question result in
  question (timeseries_worker_run settings finished).

(** What the handlers of the HTTP server are given, once it listens. *)
Definition server_main : Main (AppData * ServerHandlers.ReplyConsumers) :=
  let* config := lift (map_err Exit_Panic (Config_init env)) in
  let* pool := expected "Database connection not established" (create_db_pool (cfg_database_url config)) in
  do* init_pool pool in
  let* result := run_migration in
  do* expected "migrations failed" result in
  let* timeseries_database_url :=
    expected "TIMESERIES_DATABASE_URL must be set" (ok_or tt (cfg_timeseries_database_url config)) in
  let* timeseries_pool :=
    expected "Timeseries database connection not established" (create_db_pool timeseries_database_url) in
  let* result := run_timeseries_migration timeseries_pool in
  do* expected "timeseries migrations failed" result in
  do* init_timeseries_pool timeseries_pool in
  let* redpanda_producer :=
    expected "Redpanda producer not initialized"
      (ServerHandlers.RedpandaProducer_new connect (cfg_redpanda_brokers config)
         (cfg_wallet_commands_topic config)) in
  let* reply_consumers :=
    expected "Redpanda reply consumers not initialized"
      (ServerHandlers.ReplyConsumers_new connect (cfg_redpanda_brokers config)
         (cfg_wallet_replies_topic config) (cfg_engine_replies_topic config)
         (cfg_server_reply_partition config)) in
  do* question (bind_port (cfg_server_host config) (cfg_server_port config)) in
  ret (mkAppData config redpanda_producer, reply_consumers).

(** The websocket server has no database; its consumers are spawned before it
    listens. *)
Definition ws_main : Main (list EventConsumers.EventSource) :=
  let settings := WsSettings_from_env env in
  let* consumers :=
    question (map_err EventConsumers.ws_error_text (EventConsumers.EventConsumers_new connect settings)) in
  do* question (bind_port (sse_ws_host settings) (sse_ws_port settings)) in
  ret consumers.

(** *** The engine ingress *)

Section Ingress.
Context {SD : Serde}.
Variable engine_command_from_str : string -> Result string EngineCommand.
Variable debug_error : WalletRepositoryError -> string.

(** The command line and the message come first, the database after them. *)
Definition ingress_main (now : Z) (args : list string) (stdin : string)
    : M (Process * WalletDb) Exit (option Z) :=
  let topic := wse_engine_input_topic (WalletSettings_from_env env) in
  let message :=
    let? command := read_command engine_command_from_str args stdin in
    ingress_outbox_message debug_error command topic in
  let* _ := lift (map_err Exit_Error message) in
  fun '(p, db) =>
    match open_exchange (fun error => "failed to connect to database: " +:+ error)
            (fun error => "failed to run database migrations: " +:+ error)
            (wse_database_url (WalletSettings_from_env env)) p with
    | (Err e, p') => (Err e, (p', db))
    | (Ok _, p') =>
        let '(result, db') :=
          run_ingress engine_command_from_str debug_error now args stdin topic db in
        (map_err Exit_Error result, (p', db'))
    end.
End Ingress.
End World.

(** ** The steps of a main *)

Lemma map_err_is_ok {E E' A} (f : E -> E') (r : Result E A) a : map_err f r = Ok a -> r = Ok a.
Proof. destruct r; [by intros [= <-]|done]. Qed.

Lemma question_bind {A B} (r : Result string A) (k : A -> Main B) p b p' :
  bind (question r) k p = (Ok b, p') -> exists a, r = Ok a /\ k a p = (Ok b, p').
Proof. unfold question. intros (a & Hr%map_err_is_ok & H)%bind_lift_ok. eauto. Qed.

Lemma expected_bind {E A B} message (r : Result E A) (k : A -> Main B) p b p' :
  bind (expected message r) k p = (Ok b, p') -> exists a, r = Ok a /\ k a p = (Ok b, p').
Proof. unfold expected. intros (a & Hr%map_err_is_ok & H)%bind_lift_ok. eauto. Qed.

Lemma question_ok {A} (r : Result string A) p a p' : question r p = (Ok a, p') -> r = Ok a /\ p' = p.
Proof. unfold question, lift. intros [= Hr%map_err_is_ok ->]. done. Qed.

Lemma worker_run_ok {E Q} (text : E -> string) (queue : Result E Q) run r :
  worker_run text queue run = Ok r ->
  exists q, queue = Ok q /\ (run q = None \/ exists result, run q = Some (Ok result)).
Proof.
  unfold worker_run. intros (q & Hq%map_err_is_ok & H)%rbind_ok. exists q. split; [done|].
  destruct (run q) as [[result|e]|]; [right; eauto|done|by left].
Qed.

(** The panics of [pool.rs]. *)
Definition pool_panic (e : Exit) : Prop :=
  e = Exit_Panic "db_pool already exists" \/ e = Exit_Panic "timeseries_db_pool already exists" \/
  e = Exit_Panic "db_pool is not initialized" \/ e = Exit_Panic "timeseries_db_pool is not initialized".

Section World.
Variable env : Env.
Variable connect_database : string -> Result string unit.
Variable run_migrator : Migrations -> string -> Result string unit.
Variable connect : Connect.
Variable bind_port : string -> Z -> Result string unit.

(** A process with the exchange's database open and migrated. *)
Definition exchange_process (url : string) : Process :=
  mkProcess (Some url) None [(Migrations_Exchange, url)].
(** One that has migrated the candles' database. *)
Definition timeseries_process (url : string) : Process :=
  mkProcess None None [(Migrations_Timeseries, url)].
(** The HTTP server: both, and both pools. *)
Definition server_process (url timeseries_url : string) : Process :=
  mkProcess (Some url) (Some timeseries_url)
    [(Migrations_Exchange, url); (Migrations_Timeseries, timeseries_url)].

Lemma create_db_pool_ok url pool :
  create_db_pool connect_database url = Ok pool -> pool = url /\ connect_database url = Ok tt.
Proof. unfold create_db_pool. intros ([] & Hc & [= <-])%rbind_ok. done. Qed.

Lemma open_exchange_run connect_error migrate_error url :
  (open_exchange connect_database run_migrator connect_error migrate_error url new_process
   = match connect_database url with
     | Err e => (Err (Exit_Error (connect_error e)), new_process)
     | Ok _ =>
         match run_migrator Migrations_Exchange url with
         | Err e => (Err (Exit_Error (migrate_error e)), mkProcess (Some url) None [])
         | Ok _ => (Ok tt, exchange_process url)
         end
     end).
Proof.
  unfold open_exchange, create_db_pool, question, bind, lift, init_pool, run_migration, pool, migrate, gets,
    modify, ret.
  destruct (connect_database url) as [[]|e]; cbn; [|done].
  unfold bind, gets, ret. cbn. by destruct (run_migrator Migrations_Exchange url).
Qed.

Lemma open_exchange_bind {B} url (k : unit -> Main B) b p :
  bind (open_exchange connect_database run_migrator id id url) k new_process = (Ok b, p) ->
  k tt (exchange_process url) = (Ok b, p).
Proof.
  intros (u & p1 & Ho & Hk)%bind_ok. rewrite open_exchange_run in Ho.
  destruct (connect_database url); [|done]. destruct (run_migrator _ url); [|done]. by simplify_eq.
Qed.

(** ** The mains that get up *)

Notation main_of_wallet := (wallet_main env connect_database run_migrator connect).
Notation main_of_ledger := (ledger_main env connect_database run_migrator connect).
Notation main_of_projector := (projector_main env connect_database run_migrator connect).
Notation main_of_timeseries := (timeseries_main env connect_database run_migrator connect).
Notation main_of_server := (server_main env connect_database run_migrator connect bind_port).
Notation main_of_ws := (ws_main env connect bind_port).

Lemma wallet_main_up finished r p :
  main_of_wallet finished new_process = (Ok r, p) ->
  p = exchange_process (wse_database_url (WalletSettings_from_env env)) /\
  (exists queue, WalletWorkers.WalletQueue_new connect (WalletSettings_from_env env) = Ok queue) /\
  exists relay, WalletOutboxRelay_new connect (WalletSettings_from_env env) = Ok relay.
Proof.
  intros (Hr & ->)%open_exchange_bind%question_ok. split; [done|].
  apply worker_run_ok in Hr as (queue & Hq & Hrun). split; [by exists queue|].
  unfold WalletWorkers.wallet_queue_run in Hrun.
  destruct (WalletOutboxRelay_new connect _) as [relay|e]; [by exists relay|].
  by destruct Hrun as [Hrun|(result & [=])].
Qed.

Lemma ledger_main_up finished r p :
  main_of_ledger finished new_process = (Ok r, p) ->
  p = exchange_process (lse_database_url (LedgerSettings_from_env env)) /\
  exists queue, LedgerQueue.LedgerQueue_new connect (LedgerSettings_from_env env) = Ok queue.
Proof.
  intros (Hr & ->)%open_exchange_bind%question_ok. split; [done|].
  apply worker_run_ok in Hr as (queue & Hq & _). by exists queue.
Qed.

Lemma projector_main_up finished r p :
  main_of_projector finished new_process = (Ok r, p) ->
  p = exchange_process (pse_database_url (ProjectorSettings_from_env env)) /\
  exists queue, ProjectorQueue.ProjectorQueue_new connect (ProjectorSettings_from_env env) = Ok queue.
Proof.
  intros (Hr & ->)%open_exchange_bind%question_ok. split; [done|].
  apply worker_run_ok in Hr as (queue & Hq & _). by exists queue.
Qed.

Lemma migrate_bind {B} migrations url (k : Result string unit -> Main B) b p p' :
  bind (migrate run_migrator migrations url) k p = (Ok b, p') ->
  exists result p1, k result p1 = (Ok b, p') /\
    match result with
    | Ok _ => p1 = mkProcess (DB_POOL p) (TIMESERIES_DB_POOL p) (migrated p ++ [(migrations, url)])
    | Err _ => p1 = p
    end.
Proof.
  intros (result & p1 & Hm & Hk)%bind_ok. exists result, p1. split; [done|]. unfold migrate in Hm.
  destruct (run_migrator migrations url); unfold bind, modify, ret in Hm; by simplify_eq.
Qed.

Lemma timeseries_main_up finished r p :
  main_of_timeseries finished new_process = (Ok r, p) ->
  exists settings queue, TimeseriesSettings_from_env env = Ok settings /\
    TimeseriesQueue.TimeseriesQueue_new connect settings = Ok queue /\
    p = timeseries_process (tse_database_url settings).
Proof.
  intros (settings & Hs%map_err_is_ok & H)%bind_lift_ok. apply question_bind in H as (pool & Hp & H).
  apply create_db_pool_ok in Hp as [-> _]. apply migrate_bind in H as (result & p1 & H & Hp1).
  apply question_bind in H as (u & -> & H). apply question_ok in H as [H ->]. subst p1.
  apply worker_run_ok in H as (queue & Hq & _). by exists settings, queue.
Qed.

(** The pool is set once, and the migrations run on it. *)
Lemma init_pool_bind {B} url ts ms (k : unit -> Main B) r :
  bind (init_pool url) k (mkProcess None ts ms) = r -> k tt (mkProcess (Some url) ts ms) = r.
Proof. done. Qed.
Lemma init_timeseries_pool_bind {B} url pool ms (k : unit -> Main B) r :
  bind (init_timeseries_pool url) k (mkProcess pool None ms) = r -> k tt (mkProcess pool (Some url) ms) = r.
Proof. done. Qed.
Lemma run_migration_bind {B} url ts ms (k : Result string unit -> Main B) r :
  bind (run_migration run_migrator) k (mkProcess (Some url) ts ms) = r ->
  bind (migrate run_migrator Migrations_Exchange url) k (mkProcess (Some url) ts ms) = r.
Proof. done. Qed.

Lemma server_main_up app consumers p :
  main_of_server new_process = (Ok (app, consumers), p) ->
  exists timeseries_url,
    Config_init env = Ok (ap_config app) /\
    cfg_timeseries_database_url (ap_config app) = Some timeseries_url /\
    p = server_process (cfg_database_url (ap_config app)) timeseries_url /\
    ServerHandlers.RedpandaProducer_new connect (cfg_redpanda_brokers (ap_config app))
      (cfg_wallet_commands_topic (ap_config app)) = Ok (ap_producer app) /\
    ServerHandlers.ReplyConsumers_new connect (cfg_redpanda_brokers (ap_config app))
      (cfg_wallet_replies_topic (ap_config app)) (cfg_engine_replies_topic (ap_config app))
      (cfg_server_reply_partition (ap_config app)) = Ok consumers.
Proof.
  intros (config & Hc%map_err_is_ok & H)%bind_lift_ok. apply expected_bind in H as (pool & Hp & H).
  apply create_db_pool_ok in Hp as [-> _]. apply init_pool_bind, run_migration_bind in H.
  apply migrate_bind in H as (result & p1 & H & Hp1). apply expected_bind in H as (u & -> & H). subst p1.
  apply expected_bind in H as (ts & Hts & H). apply expected_bind in H as (pool & Hp & H).
  apply create_db_pool_ok in Hp as [-> _]. apply migrate_bind in H as (result & p1 & H & Hp1).
  apply expected_bind in H as (u' & -> & H). subst p1. apply init_timeseries_pool_bind in H.
  apply expected_bind in H as (producer & Hproducer & H). apply expected_bind in H as (cs & Hcs & H).
  apply question_bind in H as (u'' & _ & H). injection H as <- <- <-. cbn in *.
  exists ts. split_and!; try done. by destruct (cfg_timeseries_database_url config); [injection Hts as ->|].
Qed.

Lemma ws_main_up sources p :
  main_of_ws new_process = (Ok sources, p) ->
  EventConsumers.EventConsumers_new connect (WsSettings_from_env env) = Ok sources /\ p = new_process.
Proof.
  intros (consumers & Hc%map_err_is_ok & H)%question_bind. apply question_bind in H as (u & _ & H).
  by injection H as <- <-.
Qed.

(** ** Six processes *)

(** Claim C32. Six processes of one environment that are up are a deployment: their
    settings and queues are those the services of [deployed] have, so that what holds
    of a deployment holds of them. On the way there each has opened and migrated
    exactly the databases it works on, once and before it connected to the broker:
    the wallet, the ledger, the projector and the server the very same one, the
    server also that of the candles, which the timeseries service has migrated too;
    the pools the server's handlers use are these two, and the websocket server has
    none. *)
Theorem processes_deployed fw fl fp ft rw rl rp rt app consumers sources pw pl pp pt ps pws :
  main_of_wallet fw new_process = (Ok rw, pw) ->
  main_of_ledger fl new_process = (Ok rl, pl) ->
  main_of_projector fp new_process = (Ok rp, pp) ->
  main_of_timeseries ft new_process = (Ok rt, pt) ->
  main_of_server new_process = (Ok (app, consumers), ps) ->
  main_of_ws new_process = (Ok sources, pws) ->
  let url := cfg_database_url (ap_config app) in
  exists (D : deployed env connect) timeseries_url,
    dp_config _ _ D = ap_config app /\ dp_producer _ _ D = ap_producer app /\
    dp_consumers _ _ D = consumers /\ dp_ws _ _ D = sources /\
    pw = exchange_process url /\ pl = exchange_process url /\ pp = exchange_process url /\
    pt = timeseries_process timeseries_url /\ ps = server_process url timeseries_url /\
    pws = new_process.
Proof.
  intros (-> & (wallet & Hwallet) & relay & Hrelay)%wallet_main_up (-> & ledger & Hledger)%ledger_main_up
    (-> & projector & Hprojector)%projector_main_up
    (settings & timeseries & Hsettings & Htimeseries & ->)%timeseries_main_up
    (ts & Hconfig & Hts & -> & Hproducer & Hconsumers)%server_main_up (Hws & ->)%ws_main_up url.
  destruct (services_agree env (ap_config app) Hconfig) as (settings' & Hs & Hagree).
  rewrite Hsettings in Hs. injection Hs as <-.
  destruct (ag_databases _ _ _ _ _ _ Hagree) as (Hdw & Hdl & Hdp).
  pose proof (ag_timeseries _ _ _ _ _ _ Hagree) as Hdt. rewrite Hts in Hdt. injection Hdt as ->.
  exists (mkDeployed env connect (ap_config app) settings (ap_producer app) consumers relay wallet ledger
            projector timeseries sources Hconfig Hsettings Hproducer Hconsumers Hrelay Hwallet Hledger
            Hprojector Htimeseries Hws), (tse_database_url settings).
  cbn [dp_config dp_producer dp_consumers dp_ws]. rewrite Hdw, Hdl, Hdp. by split_and!.
Qed.

(** ** What never happens *)

(** A first step that fails with an error or a message of its own is no panic of a
    pool. *)
Lemma question_no_panic {A B} (r : Result string A) (k : A -> Main B) p e p' :
  bind (question r) k p = (Err e, p') ->
  (forall a, r = Ok a -> k a p = (Err e, p') -> ~ pool_panic e) -> ~ pool_panic e.
Proof.
  unfold question, bind, lift. destruct r as [a|text]; cbn; [eauto|].
  intros [= <- _] _ [H|[H|[H|H]]]; discriminate.
Qed.

Lemma open_exchange_no_panic {B} url (k : unit -> Main B) p e :
  bind (open_exchange connect_database run_migrator id id url) k new_process = (Err e, p) ->
  (k tt (exchange_process url) = (Err e, p) -> ~ pool_panic e) -> ~ pool_panic e.
Proof.
  intros [H|(u & p1 & H & Hk)]%bind_err Hn; rewrite open_exchange_run in H;
    (destruct (connect_database url); [destruct (run_migrator _ url)|]); simplify_eq; auto;
    by intros [|[|[|]]].
Qed.

Lemma question_only_no_panic {A} (r : Result string A) p e p' :
  question r p = (Err e, p') -> ~ pool_panic e.
Proof.
  unfold question, lift. destruct r as [a|text]; [done|]. intros [= <- _] [H|[H|[H|H]]]; discriminate.
Qed.

(** No worker sets its pool twice or uses it unset. *)
Lemma workers_no_pool_panic fw fl fp e p :
  main_of_wallet fw new_process = (Err e, p) \/ main_of_ledger fl new_process = (Err e, p) \/
  main_of_projector fp new_process = (Err e, p) -> ~ pool_panic e.
Proof.
  intros [H|[H|H]]; eapply open_exchange_no_panic; [exact H| |exact H| |exact H|];
    apply question_only_no_panic.
Qed.
End World.

(** ** The engine ingress *)

(** A command line that is refused leaves no trace: no pool, no migration, no row. *)
Lemma ingress_refused {SD : Serde} env connect_database run_migrator from_str debug now args stdin st error :
  read_command from_str args stdin = Err error ->
  ingress_main env connect_database run_migrator from_str debug now args stdin st = (Err (Exit_Error error), st).
Proof. intros Hr. unfold ingress_main. cbv zeta. unfold bind, lift. rewrite Hr. by cbn. Qed.
