(* ===== verification/StartupTheorems.v ===== *)
(** * StartupTheorems: the services of a deployment fit together *)

From S2P Require Import Prelude Text Protocol Settings Queue Broker Postgres WalletDb WalletProcessor WalletOutbox WalletOutboxTheorems.
From S2P Require Import ServerReplies ServerRepliesTheorems ServerHandlers ServerHandlersTheorems WalletQueue Ledger LedgerTheorems Timeseries TimeseriesTheorems.
From S2P Require Import ProjectorDb ProjectorTrades ProjectorClaims WsHub WsRouter Startup.

(** ** What a service finds at the broker *)

(** The partitions of a topic at these brokers, whoever asks. *)
Definition listed (connect : Connect) (brokers topic : string) (partitions : list Z) : Prop :=
  exists l cluster topics,
    brokers_in tt brokers = Ok l /\ connect l = Ok cluster /\ list_topics cluster = Ok topics /\
    partitions_in (fun _ => tt) (fun _ => tt) topics topic = Ok partitions.

Lemma listed_unique connect brokers topic l1 l2 :
  listed connect brokers topic l1 -> listed connect brokers topic l2 -> l1 = l2.
Proof.
  intros (b1 & c1 & t1 & Hb1 & Hc1 & Ht1 & H1) (b2 & c2 & t2 & Hb2 & Hc2 & Ht2 & H2).
  congruence.
Qed.

Lemma listed_not_empty connect brokers topic l : listed connect brokers topic l -> l <> [].
Proof. intros (? & ? & ? & _ & _ & _ & H). by apply partitions_in_ok in H as [? _]. Qed.

(** The beginning of every constructor. *)
Lemma connected_ok {E A} (ce : string -> E) (ee : E) connect brokers
    (k : Cluster -> Topics -> Result E A) a :
  (let? brokers := brokers_in ee brokers in
   let? client := map_err ce (connect brokers) in
   let? topics := map_err ce (list_topics client) in
   k client topics) = Ok a ->
  exists l cluster topics,
    brokers_in tt brokers = Ok l /\ connect l = Ok cluster /\ list_topics cluster = Ok topics /\
    k cluster topics = Ok a.
Proof.
  destruct (brokers_in ee brokers) as [l|] eqn:Hl; [|done]. cbn.
  destruct (connect l) as [cluster|] eqn:Hc; [|done]. cbn.
  destruct (list_topics cluster) as [topics|] eqn:Ht; [|done]. cbn. intros H.
  exists l, cluster, topics. split; [by eapply brokers_in_any|]. done.
Qed.

Lemma clients_listed {E} (ce nf np : string -> E) connect brokers l cluster topics topic ps :
  brokers_in tt brokers = Ok l -> connect l = Ok cluster -> list_topics cluster = Ok topics ->
  clients_in ce nf np cluster topics topic = Ok ps -> listed connect brokers topic ps.
Proof.
  intros Hb Hc Ht H%clients_in_ok. exists l, cluster, topics.
  do 3 (split; [done|]). by eapply partitions_in_any.
Qed.

Lemma producer_listed connect brokers l cluster topics topic producer :
  brokers_in tt brokers = Ok l -> connect l = Ok cluster -> list_topics cluster = Ok topics ->
  TopicProducer_new cluster topics topic = Ok producer ->
  tp_topic producer = topic /\ listed connect brokers topic (tp_producers producer).
Proof.
  intros Hb Hc Ht [Htopic H]%topic_producer_topic. split; [done|]. exists l, cluster, topics.
  do 3 (split; [done|]). by eapply partitions_in_any.
Qed.

(** ** What each constructor gives *)

Lemma ledger_listed connect settings queue :
  LedgerQueue.LedgerQueue_new connect settings = Ok queue ->
  LedgerQueue.wallet_events_topic queue = lse_wallet_events_topic settings /\
  listed connect (lse_redpanda_brokers settings) (lse_wallet_events_topic settings)
    (LedgerQueue.wallet_event_partitions queue).
Proof.
  intros (l & cluster & topics & Hb & Hc & Ht & H)%connected_ok.
  apply rbind_ok in H as (ps & Hps & [= <-]). split; [done|]. by eapply clients_listed.
Qed.

Lemma timeseries_listed connect settings queue :
  TimeseriesQueue.TimeseriesQueue_new connect settings = Ok queue ->
  TimeseriesQueue.engine_events_topic queue = tse_engine_events_topic settings /\
  listed connect (tse_redpanda_brokers settings) (tse_engine_events_topic settings)
    (TimeseriesQueue.engine_event_partitions queue).
Proof.
  intros (l & cluster & topics & Hb & Hc & Ht & H)%connected_ok.
  apply rbind_ok in H as (ps & Hps & [= <-]). split; [done|]. by eapply clients_listed.
Qed.

Lemma projector_listed connect settings sources :
  ProjectorQueue.ProjectorQueue_new connect settings = Ok sources ->
  exists inputs replies events wallet_events,
    sources =
      [ProjectorQueue.mkProjectorSource SourceKind_EngineInput (pse_engine_input_topic settings) inputs;
       ProjectorQueue.mkProjectorSource SourceKind_EngineReply (pse_engine_replies_topic settings) replies;
       ProjectorQueue.mkProjectorSource ProjectorTrades.SourceKind_EngineEvent
         (pse_engine_events_topic settings) events;
       ProjectorQueue.mkProjectorSource ProjectorTrades.SourceKind_WalletEvent
         (pse_wallet_events_topic settings) wallet_events] /\
    let at_topic := listed connect (pse_redpanda_brokers settings) in
    at_topic (pse_engine_input_topic settings) inputs /\
    at_topic (pse_engine_replies_topic settings) replies /\
    at_topic (pse_engine_events_topic settings) events /\
    at_topic (pse_wallet_events_topic settings) wallet_events.
Proof.
  intros (l & cluster & topics & Hb & Hc & Ht & H)%connected_ok.
  apply rbind_ok in H as (p1 & H1 & H). apply rbind_ok in H as (p2 & H2 & H).
  apply rbind_ok in H as (p3 & H3 & H). apply rbind_ok in H as (p4 & H4 & [= <-]).
  exists p1, p2, p3, p4. split; [done|]. split_and!; by eapply clients_listed.
Qed.

Lemma ws_listed connect settings sources :
  EventConsumers.EventConsumers_new connect settings = Ok sources ->
  exists events wallet_events,
    sources =
      [EventConsumers.mkEventSource SourceKind_EngineEvent (sse_engine_events_topic settings) events;
       EventConsumers.mkEventSource SourceKind_WalletEvent (sse_wallet_events_topic settings)
         wallet_events] /\
    listed connect (sse_redpanda_brokers settings) (sse_engine_events_topic settings) events /\
    listed connect (sse_redpanda_brokers settings) (sse_wallet_events_topic settings) wallet_events.
Proof.
  intros (l & cluster & topics & Hb & Hc & Ht & H)%connected_ok.
  apply rbind_ok in H as (p1 & H1 & H). apply rbind_ok in H as (p2 & H2 & [= <-]).
  exists p1, p2. split; [done|]. split; by eapply clients_listed.
Qed.

Lemma wallet_listed connect settings queue :
  WalletWorkers.WalletQueue_new connect settings = Ok queue ->
  let at_topic := listed connect (wse_redpanda_brokers settings) in
  WalletWorkers.wallet_commands_topic queue = wse_wallet_commands_topic settings /\
  WalletWorkers.engine_events_topic queue = wse_engine_events_topic settings /\
  tp_topic (WalletWorkers.wallet_replies_producer queue) = wse_wallet_replies_topic settings /\
  at_topic (wse_wallet_commands_topic settings) (WalletWorkers.command_partitions queue) /\
  at_topic (wse_engine_events_topic settings) (WalletWorkers.engine_event_partitions queue) /\
  at_topic (wse_wallet_replies_topic settings)
    (tp_producers (WalletWorkers.wallet_replies_producer queue)).
Proof.
  intros (l & cluster & topics & Hb & Hc & Ht & H)%connected_ok.
  apply rbind_ok in H as (p1 & H1 & H). apply rbind_ok in H as (p2 & H2 & H).
  apply rbind_ok in H as (p3 & H3 & [= <-]).
  destruct (producer_listed _ _ _ _ _ _ _ Hb Hc Ht H3) as [? ?].
  split_and!; try done; by eapply clients_listed.
Qed.

Lemma relay_listed connect settings relay :
  WalletOutboxRelay_new connect settings = Ok relay ->
  let at_topic := listed connect (wse_redpanda_brokers settings) in
  relay_wallet_events_topic relay = wse_wallet_events_topic settings /\
  relay_engine_input_topic relay = wse_engine_input_topic settings /\
  tp_topic (relay_wallet_events relay) = wse_wallet_events_topic settings /\
  tp_topic (relay_engine_inputs relay) = wse_engine_input_topic settings /\
  at_topic (wse_wallet_events_topic settings) (tp_producers (relay_wallet_events relay)) /\
  at_topic (wse_engine_input_topic settings) (tp_producers (relay_engine_inputs relay)).
Proof.
  intros (l & cluster & topics & Hb & Hc & Ht & H)%connected_ok.
  apply rbind_ok in H as (p1 & H1 & H). apply rbind_ok in H as (p2 & H2 & [= <-]).
  destruct (producer_listed _ _ _ _ _ _ _ Hb Hc Ht H1) as [? ?].
  by destruct (producer_listed _ _ _ _ _ _ _ Hb Hc Ht H2) as [? ?].
Qed.

Lemma server_producer_listed connect brokers topic producer :
  RedpandaProducer_new connect brokers topic = Ok producer ->
  listed connect brokers topic (rp_wallet_commands producer).
Proof.
  intros (l & cluster & topics & Hb & Hc & Ht & H)%connected_ok.
  apply rbind_ok in H as (ps & Hps & H). apply rbind_ok in H as (cs & Hcs & [= <-]).
  apply clients_for_ok in Hcs as ->. exists l, cluster, topics.
  do 3 (split; [done|]). by eapply partitions_in_any.
Qed.

Lemma ensured_partition topics topic partition :
  ensure_topic_partition topics topic partition = Ok tt ->
  exists ps, partitions_in (fun _ => tt) (fun _ => tt) topics topic = Ok ps /\ partition ∈ ps.
Proof.
  unfold ensure_topic_partition, partitions_in.
  destruct (List.find _ topics) as [[t ps]|]; [|done].
  destruct (bool_decide (ps = [])); [done|]. case_bool_decide as Hp; [|done]. intros _.
  by exists ps.
Qed.

Lemma consumers_listed connect brokers wallet_topic engine_topic partition consumers :
  ReplyConsumers_new connect brokers wallet_topic engine_topic partition = Ok consumers ->
  consumers = mkReplyConsumers wallet_topic engine_topic partition /\
  (exists ps, listed connect brokers wallet_topic ps /\ partition ∈ ps) /\
  (exists ps, listed connect brokers engine_topic ps /\ partition ∈ ps).
Proof.
  intros (l & cluster & topics & Hb & Hc & Ht & H)%connected_ok.
  apply rbind_ok in H as ([] & (ps1 & Hps1 & Hin1)%ensured_partition & H).
  apply rbind_ok in H as ([] & (ps2 & Hps2 & Hin2)%ensured_partition & H).
  apply rbind_ok in H as (? & _ & H). apply rbind_ok in H as (? & _ & [= <-]).
  split; [done|]. split; [exists ps1|exists ps2]; (split; [|done]); by exists l, cluster, topics.
Qed.

(** ** The whole deployment *)

Lemma stable_partition_in key (l : list Z) :
  l <> [] -> exists p, l !! Z.to_nat (stable_partition key (Z.of_nat (length l))) = Some p /\ p ∈ l.
Proof.
  intros Hl. unfold stable_partition.
  assert (0 < Z.of_nat (length l)) as Hlen by (destruct l; cbn; [done|lia]).
  pose proof (Z.mod_pos_bound (fnv1a key) _ Hlen).
  destruct (lookup_lt_is_Some_2 l (Z.to_nat (fnv1a key mod Z.of_nat (length l)))) as [p Hp]; [lia|].
  exists p. split; [done|]. by eapply list_elem_of_lookup_2.
Qed.

Lemma find_partition p (l : list Z) : p ∈ l -> List.find (Z.eqb p) l = Some p.
Proof.
  induction l as [|q l IH]; [by intros ?%elem_of_nil|]. cbn.
  destruct (p =? q) eqn:E; [by apply Z.eqb_eq in E as ->|].
  intros [->|Hin]%elem_of_cons; [by rewrite Z.eqb_refl in E|by apply IH].
Qed.

Section WithSerde.
Context {SD : Serde}.

Lemma publish_target_in relay message topic p :
  publish_target relay message = Ok (topic, p) ->
  exists producer, producer_for_topic relay (om_topic message) = Ok producer /\
    topic = tp_topic producer /\ p ∈ tp_producers producer.
Proof.
  unfold publish_target. intros (producer & Hp & H)%rbind_ok. exists producer. split; [done|].
  destruct (om_partition message) as [q|].
  - apply rbind_ok in H as (r & Hr & [= <- <-]). split; [done|].
    unfold producer_for_partition in Hr. destruct (List.find _ _) as [c|] eqn:Hf; [|done].
    injection Hr as <-. apply find_some in Hf as [Hin _]. by apply list_elem_of_In.
  - unfold producer_for_key in H. destruct (_ !! _) as [q|] eqn:Hq; [|done].
    injection H as <- <-. split; [done|]. by eapply list_elem_of_lookup_2.
Qed.

(** A source among those of a service, and its tasks. *)
Lemma in_projector_tasks sources kind topic partitions p :
  ProjectorQueue.mkProjectorSource kind topic partitions ∈ sources -> p ∈ partitions ->
  (kind, topic, p) ∈ ProjectorQueue.projector_tasks sources.
Proof.
  intros Hs Hp. unfold ProjectorQueue.projector_tasks. apply list_elem_of_bind.
  eexists. split; [|exact Hs]. cbn. apply list_elem_of_fmap. by exists p.
Qed.
Lemma in_ws_tasks sources kind topic partitions p :
  EventConsumers.mkEventSource kind topic partitions ∈ sources -> p ∈ partitions ->
  (kind, topic, p) ∈ EventConsumers.ws_tasks sources.
Proof.
  intros Hs Hp. unfold EventConsumers.ws_tasks. apply list_elem_of_bind.
  eexists. split; [|exact Hs]. cbn. apply list_elem_of_fmap. by exists p.
Qed.

(** The partitions every service of a deployment found: one list for each topic. *)
Lemma deployed_partitions env connect (D : deployed env connect) :
  let c := dp_config _ _ D in
  let w := WalletSettings_from_env env in
  let wallet := dp_wallet _ _ D in
  let at_topic := listed connect (cfg_redpanda_brokers c) in
  exists inputs replies events wallet_events,
    dp_projector _ _ D =
      [ProjectorQueue.mkProjectorSource SourceKind_EngineInput (wse_engine_input_topic w) inputs;
       ProjectorQueue.mkProjectorSource SourceKind_EngineReply (cfg_engine_replies_topic c) replies;
       ProjectorQueue.mkProjectorSource ProjectorTrades.SourceKind_EngineEvent
         (wse_engine_events_topic w) events;
       ProjectorQueue.mkProjectorSource ProjectorTrades.SourceKind_WalletEvent
         (wse_wallet_events_topic w) wallet_events] /\
    dp_ws _ _ D =
      [EventConsumers.mkEventSource SourceKind_EngineEvent (wse_engine_events_topic w) events;
       EventConsumers.mkEventSource SourceKind_WalletEvent (wse_wallet_events_topic w) wallet_events] /\
    dp_ledger _ _ D = LedgerQueue.mkLedgerQueue (wse_wallet_events_topic w) wallet_events /\
    dp_timeseries _ _ D = TimeseriesQueue.mkTimeseriesQueue (wse_engine_events_topic w) events /\
    relay_wallet_events (dp_relay _ _ D) = mkTopicProducer (wse_wallet_events_topic w) wallet_events /\
    relay_engine_inputs (dp_relay _ _ D) = mkTopicProducer (wse_engine_input_topic w) inputs /\
    wallet = WalletWorkers.mkWalletQueue (cfg_wallet_commands_topic c)
      (rp_wallet_commands (dp_producer _ _ D)) (wse_engine_events_topic w) events
      (mkTopicProducer (cfg_wallet_replies_topic c)
         (tp_producers (WalletWorkers.wallet_replies_producer wallet))) /\
    dp_consumers _ _ D = mkReplyConsumers (cfg_wallet_replies_topic c) (cfg_engine_replies_topic c)
      (cfg_server_reply_partition c) /\
    rp_wallet_commands (dp_producer _ _ D) <> [] /\
    cfg_server_reply_partition c ∈ tp_producers (WalletWorkers.wallet_replies_producer wallet) /\
    cfg_server_reply_partition c ∈ replies.
Proof.
  destruct D as [c t producer consumers relay wallet ledger projector timeseries ws
                 Hc Htc Hproducer Hconsumers Hrelay Hwallet Hledger Hprojector Hts Hws]. cbn zeta.
  cbn [dp_config dp_producer dp_wallet dp_consumers dp_projector dp_relay dp_ledger dp_ws dp_timeseries].
  destruct (services_agree env c Hc) as (t' & Ht' & Hagree).
  rewrite Htc in Ht'. injection Ht' as <-.
  set (w := WalletSettings_from_env env) in *.
  destruct Hagree as [(Hb1 & Hb2 & Hb3 & Hb4 & Hb5) Hcmd Hwr Her Hei (He1 & He2 & He3) (Hw1 & Hw2 & Hw3) _ _ _].
  apply ledger_listed in Hledger as [Hlt Hl]. apply timeseries_listed in Hts as [Htt Ht].
  apply projector_listed in Hprojector as (inputs & replies & events & wevents & -> & Hp1 & Hp2 & Hp3 & Hp4).
  apply ws_listed in Hws as (wsev & wswe & -> & Hs1 & Hs2).
  apply wallet_listed in Hwallet as (Hwc & Hwe & Hrt & Hcl & Hel & Hrl).
  apply relay_listed in Hrelay as (Hrw & Hre & Htw & Hte & Hlw & Hli).
  apply server_producer_listed in Hproducer. pose proof (listed_not_empty _ _ _ _ Hproducer).
  apply consumers_listed in Hconsumers as (-> & (ps1 & Hr1 & Hin1) & (ps2 & Hr2 & Hin2)).
  rewrite ?Hb1, ?Hb2, ?Hb3, ?Hb4, ?Hb5, ?Hcmd, ?Hwr, ?Her, ?Hei, ?He1, ?He2, ?He3, ?Hw1, ?Hw2, ?Hw3 in *.
  destruct ledger, timeseries, wallet as [? ? ? ? []], relay as [? [] ? [] ? ? ? ? ?]. cbn in *. subst.
  repeat match goal with
         | H1 : listed ?cn ?b ?topic ?x, H2 : listed ?cn ?b ?topic ?y |- _ =>
             pose proof (listed_unique _ _ _ _ _ H1 H2); subst; clear H1
         end.
  eexists _, _, _, _. split; [reflexivity|]. by split_and!.
Qed.

(** Claim C33. In one environment, with the broker's answers the same for all, the
    services that start fit together: whatever key the server publishes a command
    under, it has a partition for it and a task of the wallet reads that partition;
    the wallet can answer on the partition the server waits on, and the projector
    reads the engine's replies there too; every message the relay can publish goes
    to a partition of its topic that a task of the ledger, the projector and the
    websocket server reads, if it is a wallet event, or a task of the projector, if
    it is an input of the engine; and the wallet, the projector, the candles and
    the websocket server read the very same partitions of the engine's events. *)
Theorem deployment_connected env connect (D : deployed env connect) :
  let c := dp_config _ _ D in
  let w := WalletSettings_from_env env in
  (forall key, exists p,
     wallet_producer_for_key (dp_producer _ _ D) key = Some p /\
     WalletWorkers.Task_Commands (cfg_wallet_commands_topic c) p
       ∈ WalletWorkers.wallet_tasks (dp_wallet _ _ D)) /\
  (let replies := WalletWorkers.wallet_replies_producer (dp_wallet _ _ D) in
   tp_topic replies = rc_wallet_replies_topic (dp_consumers _ _ D) /\
   producer_for_partition replies (rc_partition (dp_consumers _ _ D))
     = Ok (cfg_server_reply_partition c)) /\
  (SourceKind_EngineReply, rc_engine_replies_topic (dp_consumers _ _ D), cfg_server_reply_partition c)
    ∈ ProjectorQueue.projector_tasks (dp_projector _ _ D) /\
  (forall message topic p, publish_target (dp_relay _ _ D) message = Ok (topic, p) ->
     topic = om_topic message /\
     (((topic, p) ∈ LedgerQueue.ledger_tasks (dp_ledger _ _ D) /\
       (ProjectorTrades.SourceKind_WalletEvent, topic, p) ∈ ProjectorQueue.projector_tasks (dp_projector _ _ D) /\
       (SourceKind_WalletEvent, topic, p) ∈ EventConsumers.ws_tasks (dp_ws _ _ D)) \/
      (topic = wse_engine_input_topic w /\
       (SourceKind_EngineInput, topic, p) ∈ ProjectorQueue.projector_tasks (dp_projector _ _ D)))) /\
  (let topic := wse_engine_events_topic w in
   forall p, WalletWorkers.Task_EngineEvents topic p ∈ WalletWorkers.wallet_tasks (dp_wallet _ _ D) ->
     (topic, p) ∈ TimeseriesQueue.timeseries_tasks (dp_timeseries _ _ D) /\
     (ProjectorTrades.SourceKind_EngineEvent, topic, p) ∈ ProjectorQueue.projector_tasks (dp_projector _ _ D) /\
     (SourceKind_EngineEvent, topic, p) ∈ EventConsumers.ws_tasks (dp_ws _ _ D)).
Proof.
  destruct (deployed_partitions env connect D)
    as (inputs & replies & events & wevents & Hp & Hs & Hl & Ht & Hre & Hri & Hw & Hc & Hne & Hr1 & Hr2).
  cbn zeta. split_and!.
  - intros key. destruct (stable_partition_in key _ Hne) as (p & Hp1 & Hin). exists p.
    split; [exact Hp1|]. rewrite Hw. right. apply elem_of_app. left. by apply list_elem_of_fmap_2.
  - by rewrite Hw, Hc.
  - rewrite Hc. unfold producer_for_partition. cbn [rc_partition]. by rewrite (find_partition _ _ Hr1).
  - rewrite Hp, Hc. eapply in_projector_tasks; [|exact Hr2]. set_solver.
  - intros message topic p (producer & Hprod & -> & Hin)%publish_target_in.
    destruct (relay_new_topics _ _ _ (dp_relay_ok _ _ D)) as [[Hte Hti] _].
    revert Hprod. unfold producer_for_topic.
    case_bool_decide as Ht1; [|case_bool_decide as Ht2; [|done]]; intros [= <-];
      [rewrite Hte|rewrite Hti]; (split; [done|]); [left|right].
    + rewrite <- Hte, Hre in *. rewrite Hp, Hs, Hl. cbn [tp_topic tp_producers] in *.
      split; [by apply list_elem_of_fmap_2|].
      split; [eapply in_projector_tasks|eapply in_ws_tasks]; try exact Hin; set_solver.
    + rewrite <- Hti, Hri in *. cbn [tp_topic tp_producers] in *. split; [done|].
      rewrite Hp. eapply in_projector_tasks; [|exact Hin]. set_solver.
  - intros p. rewrite Hp, Hs, Ht, Hw. unfold WalletWorkers.wallet_tasks.
    cbn [WalletWorkers.wallet_commands_topic WalletWorkers.command_partitions
         WalletWorkers.engine_events_topic WalletWorkers.engine_event_partitions].
    intros [[=]|[Hin|Hin]%elem_of_app]%elem_of_cons.
    + by apply list_elem_of_fmap in Hin as (? & [=] & _).
    + apply list_elem_of_fmap in Hin as (q & [= <-] & Hin). split; [by apply list_elem_of_fmap_2|].
      split; [eapply in_projector_tasks|eapply in_ws_tasks]; try exact Hin; set_solver.
Qed.
End WithSerde.

(** ** The loops *)

Section Loops.
Context {SD : Serde}.

(** Claim C34. What the loops of the ledger, of the candles and of the projector do
    over one partition, in all their runs, is what the consumers of Queue do: from
    the stored offset or the earliest one, record by record, an error or a failed
    fetch ends a run and a missing order context only has the record read again.
    The exactly-once theorems on those consumers therefore hold of the loops. *)
Theorem loops_are_consumers topic partition (log : list (Z * option string)) earliest :
  (forall parse db db',
     rtc (one_run (ledger_handle parse topic partition) (fun _ => false)
            (ledger_stored topic partition) log earliest
            (LedgerQueue.run_wallet_event_partition parse topic partition)) db db' ->
     rtc (consumer_step ledger_same_tables (ledger_stored topic partition)
            (ledger_handle parse topic partition) log earliest) (db, Stopped) (db', Stopped)) /\
  (forall parse db db',
     rtc (one_run (timeseries_handle parse topic partition) (fun _ => false)
            (timeseries_stored topic partition) log earliest
            (TimeseriesQueue.run_engine_event_partition parse topic partition)) db db' ->
     rtc (consumer_step eq (timeseries_stored topic partition)
            (timeseries_handle parse topic partition) log earliest) (db, Stopped) (db', Stopped)) /\
  (forall parsers kind db db',
     rtc (one_run (projector_handle parsers kind topic partition) ProjectorQueue.is_missing_context
            (projector_stored topic partition) log earliest
            (ProjectorQueue.run_source_partition parsers kind topic partition)) db db' ->
     rtc (consumer_step (rtc (between_step parsers kind topic partition))
            (projector_stored topic partition) (projector_handle parsers kind topic partition)
            log earliest) (db, Stopped) (db', Stopped)).
Proof.
  split_and!; intros *; apply runs_are_consumers; intros o p db1 e db2 He.
  - apply ledger_handle_err in He as (? & ? & ? & Hoff).
    split; [unfold ledger_stored, ledger_load_queue_offset; by rewrite Hoff|by split_and!].
  - by apply timeseries_handle_err in He as ->.
  - split; [unfold projector_stored, projector_load_queue_offset; by erewrite handle_err_offsets|].
    apply rtc_once. by eapply between_failure.
Qed.

(** A record the ledger can book: an offset that leaves room for the next one, and no
    event that is not [bookable]. *)
Definition record_bookable (parse : string -> option WalletEvent) (us : gset Z)
    (record : Z * option string) : Prop :=
  record.1 < i64_max /\ forall e, parsed parse record.2 = Some e -> bookable us e.

Section Ledger.
Context {LAWS : SerdeLaws}.
Variable parse : string -> option WalletEvent.
Variable topic : string.
Variable partition : Z.
Variable us : gset Z.
Variable log : list (Z * option string).
Variable earliest : Z.
Hypothesis log_ordered : offsets_from earliest log.

Notation ledger_step := (consumer_step ledger_same_tables (ledger_stored topic partition)
  (ledger_handle parse topic partition) log earliest).

Lemma ledger_error_atomic o value db e db' :
  ledger_handle parse topic partition o value db = (Err e, db') ->
  ledger_stored topic partition db' = ledger_stored topic partition db /\ ledger_same_tables db db'.
Proof.
  intros H%ledger_handle_err. split; [|done]. destruct H as (_ & _ & _ & Hoff).
  unfold ledger_stored, ledger_load_queue_offset. by rewrite Hoff.
Qed.

Lemma ledger_users_kept s s' : rtc ledger_step s s' -> ld_users s'.1 = ld_users s.1.
Proof.
  induction 1 as [|s1 s2 s3 H _ IH]; [done|]. rewrite IH. clear IH.
  destruct H as [? ? ? Hsame|?|db n o v db' _ Hd|db n o v e db' _ Hd|?|db n o v db' _ Hd]; cbn; try done.
  1: by destruct Hsame as [-> _].
  all: pose proof (ledger_handle_users parse topic partition o v db) as Hu; by rewrite Hd in Hu.
Qed.

(** Where the loop stands, it has the journal of the records before it. *)
Lemma ledger_standing db m :
  rtc ledger_step (empty_ledger us, Stopped) (db, Running m) ->
  exists done rest, log = done ++ rest /\ m = offset_after earliest done /\
    next_record m log = head rest /\
    default earliest (ledger_stored topic partition db) = offset_after earliest done /\
    entries_text db = journal [] (events_of parse done) ≫= entries_of.
Proof.
  intros Hs.
  destruct (ledger_exactly_once parse topic partition us log earliest _ log_ordered Hs)
    as (done & rest & [Hl _ Hst Hrun] & Hent). cbn in *.
  exists done, rest. rewrite (Hrun m eq_refl). split_and!; [done..| |done|done].
  rewrite Hl. apply next_record_at. by rewrite <- Hl.
Qed.

(** A record at which the ledger fails is one it cannot book. *)
Lemma ledger_failed_unbookable o value db e db' :
  0 <= o -> ledger_handle parse topic partition o value db = (Err e, db') -> ld_users db = us ->
  ~ record_bookable parse us (o, value).
Proof.
  intros Ho H Hu [Hmax Hb].
  destruct (ledger_handle_runs parse topic partition wallet_event_total us o value db) as (? & ? & E & _);
    [cbn in *; lia|done|done|congruence].
Qed.

Lemma log_offset_nonneg o value : (o, value) ∈ log -> 0 <= o.
Proof.
  revert log_ordered. generalize earliest. clear. induction log as [|[o' v'] l IH]; intros n; cbn.
  - by intros _ ?%elem_of_nil.
  - intros (_ & Ho & Hl) [[= -> ->]|Hin]%elem_of_cons; [lia|by eapply IH].
Qed.
End Ledger.

(** Claim C29. The ledger catches up, or stops at a record it cannot book. Take any
    log, and the ledger in any state that crashes and restarts while reading the log
    have left it in. Let the broker then answer its fetches, with a record at least
    while there is one. After at most as many fetches as the log has records, either
    the loop stands behind the last record, without an error, or it has ended with
    the error of a record that is not bookable (an event of a user the ledger does not
    know, an empty id or kind, an amount or offset out of range). Either way the
    stored offset is right behind the records before that place, and the entries are
    those of their events, each logical event once. *)
Theorem ledger_catches_up {LAWS : SerdeLaws} parse topic partition us
    (log : list (Z * option string)) earliest db answers :
  offsets_from earliest log ->
  rtc (consumer_step ledger_same_tables (ledger_stored topic partition) (ledger_handle parse topic partition)
         log earliest) (empty_ledger us, Stopped) (db, Stopped) ->
  served log (default earliest (ledger_stored topic partition db)) answers ->
  (length log <= length answers)%nat ->
  exists r db' done rest,
    LedgerQueue.run_wallet_event_partition parse topic partition (Ok earliest) answers db = (r, db') /\
    log = done ++ rest /\
    default earliest (ledger_stored topic partition db') = offset_after earliest done /\
    entries_text db' = journal [] (events_of parse done) ≫= entries_of /\
    match rest with
    | [] => r = Ok (offset_after earliest done)
    | record :: _ => (exists e, r = Err (TaskError_Worker e)) /\ ~ record_bookable parse us record
    end.
Proof.
  intros Hlog Hreach Hserved Hlen.
  destruct (run_partition_ends (ledger_handle parse topic partition) (fun _ => false) ledger_same_tables
    (ledger_stored topic partition) log earliest (fun _ => eq_refl) answers db Hserved Hlen)
    as [(m & db' & Hrun & Hm & Hs)|(e & db' & m & o & p & db1 & Hrun & Hs & Hnext & Hfail)];
    pose proof (transitivity Hreach Hs) as Hall;
    destruct (ledger_standing parse topic partition us log earliest Hlog _ _ Hall)
      as (done & rest & Hl & -> & Hhead & Hst & Hent).
  - rewrite Hhead in Hm. destruct rest; [|done].
    exists (Ok (offset_after earliest done)), db', done, []. by split_and!.
  - pose proof (next_record_some _ _ _ _ Hnext) as [_ Hin].
    rewrite Hnext in Hhead. destruct rest as [|record rest]; [done|]. injection Hhead as <-.
    destruct (ledger_error_atomic parse topic partition _ _ _ _ _ Hfail) as [Hst' (_ & _ & Hen & _)].
    exists (Err (TaskError_Worker e)), db', done, ((o, p) :: rest). split_and!; [done|done| | | |].
    + by rewrite Hst'.
    + unfold entries_text in *. by rewrite Hen.
    + by exists e.
    + eapply ledger_failed_unbookable; [by eapply log_offset_nonneg|exact Hfail|].
      exact (ledger_users_kept _ _ _ _ _ _ _ Hall).
Qed.
End Loops.

(** ** Readers from the latest offset on *)

Section Tail.
Context {Db Payload Error : Type}.
Variable handle : Z -> Payload -> Db -> Result Error unit * Db.
Variable f : Z -> Payload -> Db -> Db.
Hypothesis handle_ok : forall o p db, handle o p db = (Ok tt, f o p db).
Variable log : list (Z * Payload).
Variable first : Z.
Hypothesis log_sorted : offsets_from first log.

Notation read := (fold_left (fun db record => f record.1 record.2 db)).

Lemma offsets_from_le n (l : list (Z * Payload)) r : offsets_from n l -> r ∈ l -> n <= r.1.
Proof.
  revert n. induction l as [|[o p] l IH]; cbn; intros n Hl Hr; [by apply elem_of_nil in Hr|].
  destruct Hl as (? & _ & Hl). apply elem_of_cons in Hr as [->|Hr]; cbn; [lia|].
  specialize (IH _ Hl Hr). lia.
Qed.

Lemma pending_all n m (l : list (Z * Payload)) : offsets_from n l -> m <= n -> pending l m = l.
Proof.
  intros Hl Hm. unfold pending. assert (forall r, r ∈ l -> m <= r.1) as Hall.
  { intros r Hr. pose proof (offsets_from_le _ _ _ Hl Hr). lia. }
  clear Hl. induction l as [|r l IH]; [done|]. rewrite filter_cons, decide_True.
  - f_equal. apply IH. intros r' Hr. by apply Hall, list_elem_of_further.
  - by apply Hall, list_elem_of_here.
Qed.

Lemma pending_next n o p :
  next_record n log = Some (o, p) -> pending log n = (o, p) :: pending log (o + 1).
Proof.
  revert first log_sorted. induction log as [|[o' p'] l IH]; intros e; cbn [offsets_from next_record]; [done|].
  intros (_ & _ & Hl). unfold pending. rewrite !filter_cons. cbn [fst].
  fold (pending l n) (pending l (o + 1)). case_if.
  - intros [= -> ->]. rewrite decide_True, decide_False by lia.
    by rewrite !(pending_all (o + 1)) by (done || lia).
  - intros Hn. rewrite decide_False by lia. rewrite (IH (o' + 1)) by done.
    rewrite decide_False; [done|]. apply next_record_some in Hn as [? Hin].
    pose proof (offsets_from_le _ _ _ Hl Hin). cbn in *. lia.
Qed.

Lemma pending_read : forall records n,
  fetched log n records -> pending log n = records ++ pending log (offset_after n records).
Proof.
  induction records as [|[o p] records IH]; intros n; cbn; [done|].
  intros [Hn Hf]. by rewrite (pending_next n o p Hn), (IH (o + 1) Hf).
Qed.

Lemma tail_records retry : forall records n db,
  handle_records handle retry n records db = (Ok (offset_after n records), read records db).
Proof. induction records as [|[o p] records IH]; intros n db; cbn; [done|]. rewrite handle_ok. apply IH. Qed.

(** A loop that keeps no offset handles the records from where it began, each once
    and in order, and reads to the end. *)
Lemma tail_reads retry : forall answers n db,
  served log n answers -> (length (pending log n) <= length answers)%nat ->
  exists m, handle_fetches handle retry n answers db = (Ok m, read (pending log n) db) /\
    next_record m log = None.
Proof.
  induction answers as [|[records|e] answers IH]; intros n db; cbn [served length]; [| |done].
  - intros _ Hl. exists n. rewrite next_record_pending. by destruct (pending log n); [|cbn in Hl; lia].
  - intros (Hf & Hmore & Hs) Hl.
    destruct (IH (offset_after n records) (read records db)) as (m & Hm & Hend); [done|..].
    + pose proof (pending_fetched _ _ _ Hf) as Hle.
      destruct records as [|r records]; cbn [length] in *; [|lia]. cbn. rewrite (Hmore eq_refl). cbn. lia.
    + exists m. split; [|done]. cbn [handle_fetches]. rewrite tail_records, Hm.
      by rewrite (pending_read records n Hf), fold_left_app.
Qed.
End Tail.

(** ** The replies of the server *)

(** The replies among the records of a topic. *)
Definition replies_among {Payload Reply} (from_slice : Payload -> option Reply) (op : Reply -> ReplyOp)
    (records : list (Z * option Payload)) : list ReplyOp :=
  omap (fun record => op <$> (record.2 ≫= from_slice)) records.

Lemma consumed_replies {Payload Reply} (from_slice : Payload -> option Reply) (op : Reply -> ReplyOp)
    consume :
  (forall payload state, consume payload state =
     match payload ≫= from_slice with Some reply => apply_op state (op reply) | None => state end) ->
  forall (records : list (Z * option Payload)) state,
  fold_left (fun state record => consume record.2 state) records state
  = apply_ops (replies_among from_slice op records) state.
Proof.
  intros Hc. induction records as [|[o payload] records IH]; intros state; [done|]. cbn.
  rewrite Hc, IH. by destruct (payload ≫= from_slice).
Qed.

(** What a reply topic got after the server began to read it reaches its waiters: the
    table is that of the operations its replies stand for, in their order. *)
Theorem reply_loops_are_operations {Payload} (wallet_reply : Payload -> option WalletReply)
    (engine_reply : Payload -> option EngineReply) (log : list (Z * option Payload)) first latest answers state :
  offsets_from first log -> served log latest answers ->
  (length (pending log latest) <= length answers)%nat ->
  (exists n, ReplyLoops.run_wallet_replies wallet_reply (Ok latest) answers state =
     (Ok n, apply_ops (replies_among wallet_reply ReplyOp_Wallet (pending log latest)) state)) /\
  (exists n, ReplyLoops.run_engine_replies engine_reply (Ok latest) answers state =
     (Ok n, apply_ops (replies_among engine_reply ReplyOp_Engine (pending log latest)) state)).
Proof.
  intros Hlog Hs Hl. split.
  - destruct (tail_reads (Error := string) _ (fun _ payload => consume_wallet_reply wallet_reply payload)
      (fun _ _ _ => eq_refl) log first Hlog (fun _ => false) answers latest state Hs Hl) as (n & Hn & _).
    exists n. rewrite <- (consumed_replies wallet_reply ReplyOp_Wallet (consume_wallet_reply wallet_reply)).
    + exact Hn.
    + intros payload st. unfold consume_wallet_reply. by destruct (payload ≫= wallet_reply).
  - destruct (tail_reads (Error := string) _ (fun _ payload => consume_engine_reply engine_reply payload)
      (fun _ _ _ => eq_refl) log first Hlog (fun _ => false) answers latest state Hs Hl) as (n & Hn & _).
    exists n. rewrite <- (consumed_replies engine_reply ReplyOp_Engine (consume_engine_reply engine_reply)).
    + exact Hn.
    + intros payload st. unfold consume_engine_reply. by destruct (payload ≫= engine_reply).
Qed.

(** So a caller that waits gets the first final reply the topic got for its request
    since, and no other. *)
Theorem reply_in_topic_reaches_waiter {Payload} (engine_reply : Payload -> option EngineReply)
    (log : list (Z * option Payload)) first latest answers before id u k :
  offsets_from first log -> served log latest answers ->
  (length (pending log latest) <= length answers)%nat ->
  let '(channel, st1) := register_waiter id u k (apply_ops before ReplyState_default) in
  let ops := replies_among engine_reply ReplyOp_Engine (pending log latest) in
  exists n st, ReplyLoops.run_engine_replies engine_reply (Ok latest) answers st1 = (Ok n, st) /\
    rs_sent st !! channel =
      (fun result => ServerReplies.mkReplyRecord id (Some k) true result) <$> first_final k (replies_to id ops).
Proof.
  intros Hlog Hs Hl. set (st0 := apply_ops before ReplyState_default).
  set (ops := replies_among engine_reply ReplyOp_Engine (pending log latest)).
  assert (replies_ok st0) as Hok by apply replies_ok_ops, replies_ok_default.
  assert (Forall (leaves_request id) ops) as Hleaves.
  { apply Forall_forall. intros op ([o payload] & _ & Hop)%list_elem_of_omap.
    cbn in Hop. destruct (payload ≫= engine_reply); [|done]. by injection Hop as <-. }
  pose proof (tracked_ops _ _ _ _ ops _ _ Hleaves (tracked_register id u k st0 Hok)) as Htr.
  destruct (register_waiter id u k st0) as [c st1]. cbn in Htr. cbn zeta.
  destruct (tail_reads (Error := string) _ (fun _ payload => consume_engine_reply engine_reply payload)
    (fun _ _ _ => eq_refl) log first Hlog (fun _ => false) answers latest st1 Hs Hl) as (n & Hn & _).
  exists n, (apply_ops ops st1). split; [|by destruct Htr as [_ Hsent _ _]].
  unfold ops. rewrite <- (consumed_replies engine_reply ReplyOp_Engine (consume_engine_reply engine_reply)).
  - exact Hn.
  - intros payload st. unfold consume_engine_reply. by destruct (payload ≫= engine_reply).
Qed.

(** What the services log of a command and of a reply names the request it answers,
    and server and wallet log the same key. *)
Lemma traces_name_the_request command reply :
  (forall id, wct_request_id (wallet_command_trace command) = Some id ->
     reply_key (from_command command) = id) /\
  wct_idempotency_key (wallet_command_trace command) = command_idempotency_key command /\
  ert_request_id (engine_reply_trace reply) = engine_reply_request_id reply.
Proof.
  repeat split; [|by destruct command|by destruct reply].
  destruct command; intros id [= <-]; done.
Qed.

(** A broker that fails one fetch ends the loop of the server, and no later reply
    reaches a waiter, while the server goes on taking commands. *)
Lemma failed_fetch_ends_replies {Payload} (wallet_reply : Payload -> option WalletReply) latest e answers state :
  ReplyLoops.run_wallet_replies wallet_reply (Ok latest) (Err e :: answers) state
  = (Err (TaskError_Client e), state).
Proof. done. Qed.

(** ** The events of the websocket server *)

(** Every event a topic got after the loop began is routed, once and in order,
    whatever becomes of the others. *)
Theorem ws_loop_routes {Recipient Payload} {SD : Serde} {WS : WsSerde} iter
    (accepts : list (Attempt Recipient) -> Recipient -> string -> bool)
    (engine_event wallet_event : Payload -> option _) kind topic partition
    (log : list (Z * option Payload)) first latest answers st :
  offsets_from first log -> served log latest answers ->
  (length (pending log latest) <= length answers)%nat ->
  exists n,
    EventConsumers.run_event_partition iter accepts engine_event wallet_event kind topic partition
      (Ok latest) answers st
    = (Ok n, fold_left (fun st record =>
               (route_record iter accepts engine_event wallet_event kind topic partition record.1 record.2 st).2)
               (pending log latest) st) /\
    next_record n log = None.
Proof.
  intros Hlog Hs Hl. refine (tail_reads _
    (fun o payload st => (route_record iter accepts engine_event wallet_event kind topic partition o payload st).2)
    _ log first Hlog _ answers latest st Hs Hl).
  intros o payload st'. unfold route_record. destruct payload as [payload|]; [|done].
  destruct kind; [destruct (engine_event payload)|destruct (wallet_event payload)]; done.
Qed.
