(* ===== verification/StartupExamples.v ===== *)
(** * StartupExamples: one deployment, and one record through a loop *)

From S2P Require Import Prelude Text Protocol Settings Queue Broker Postgres WalletDb WalletProcessor WalletOutbox.
From S2P Require Import ServerReplies ServerHandlers WalletQueue Ledger LedgerTheorems Timeseries TimeseriesTheorems.
From S2P Require Import ProjectorDb ProjectorTrades ProjectorClaims WsHub WsRouter FeedExamples Startup StartupTheorems.
From S2P Require Import WalletRepository ServerRoutes EngineIngress Processes.

#[local] Existing Instance tagged_serde.
#[local] Existing Instance tagged_serde_laws.

Module StartupExample.
(** The variables the server cannot start without, and one topic renamed. *)
Definition env : Env := fun key =>
  list_to_map (M := gmap string string)
    [("DATABASE_URL", "postgres://db/exchange"); ("TIMESERIES_DATABASE_URL", "postgres://ts/candles");
     ("SERVER_URL", "http://localhost"); ("SERVER_PORT", "8080"); ("SERVER_HOST", "0.0.0.0");
     ("JWT_SECRET", "s3cret"); ("SERVER_REPLY_PARTITION", "1"); ("ENGINE_INPUT_TOPIC", "inputs")]
  !! key.

Definition topics : Topics :=
  [("wallet.commands", [0; 1; 2]); ("wallet.replies", [0; 1]); ("wallet.events", [0; 1]);
   ("inputs", [0; 3]); ("engine.replies", [0; 1]); ("engine.events", [0; 3])].
Definition connect : Connect := fun _ => Ok (mkCluster (Ok topics) (fun _ _ => Ok tt)).

Definition deployment : deployed env connect.
Proof. eapply mkDeployed; vm_compute; reflexivity. Defined.

Example reply_partition_of_deployment : cfg_server_reply_partition (dp_config _ _ deployment) = 1.
Proof. vm_compute. reflexivity. Qed.

(** A fetch that gives the record of the log, and one that fails. *)
Definition answers : list (Result string (list (Z * option string))) := [Ok FeedExample.log; Err "gone"].

Lemma one_run_of_log db :
  timeseries_handle FeedExample.parse "t" 0 0 (Some "x") empty_timeseries = (Ok tt, db) ->
  one_run (timeseries_handle FeedExample.parse "t" 0) (fun _ => false) (timeseries_stored "t" 0)
    FeedExample.log 0 (TimeseriesQueue.run_engine_event_partition FeedExample.parse "t" 0)
    empty_timeseries db.
Proof.
  intros Hdb. exists (Ok 0), answers, (Err (TaskError_Client "gone")).
  split; [by intros _ n [= <-]|]. split.
  - unfold answered, answers, FeedExample.log. split; [done|].
    cbn [handle_records]. by rewrite Hdb.
  - unfold TimeseriesQueue.run_engine_event_partition, run_partition.
    change (timeseries_load_queue_offset "t" 0 empty_timeseries) with (@None Z). cbv iota.
    cbn [handle_fetches handle_records answers FeedExample.log].
    change (handle_engine_event_record FeedExample.parse "t" 0) with
      (timeseries_handle FeedExample.parse "t" 0). by rewrite Hdb.
Qed.
End StartupExample.
Import StartupExample.

Lemma deployment_connected_witness : exists p,
  wallet_producer_for_key (dp_producer _ _ deployment) "42" = Some p /\
  WalletWorkers.Task_Commands "wallet.commands" p ∈ WalletWorkers.wallet_tasks (dp_wallet _ _ deployment).
Proof. exact (proj1 (deployment_connected env connect deployment) "42"). Defined.

Lemma loops_are_consumers_witness : exists db,
  rtc (consumer_step eq (timeseries_stored "t" 0) (timeseries_handle FeedExample.parse "t" 0)
         FeedExample.log 0) (empty_timeseries, Stopped) (db, Stopped) /\
  timeseries_stored "t" 0 db = Some 1.
Proof.
  destruct FeedExample.one_bucket_run as (db & Hdb). exists db. split.
  - apply (proj1 (proj2 (loops_are_consumers "t" 0 FeedExample.log 0)) FeedExample.parse).
    apply rtc_once, one_run_of_log, Hdb.
  - apply (timeseries_handle_saves FeedExample.parse "t" 0 0 0 (Some "x") empty_timeseries);
      [unfold i64_max; lia|done|exact Hdb].
Defined.

(** A deposit that is in the log twice: read in two fetches, booked once. *)
Definition deposit_log : list (Z * option string) := [(3, Some "x"); (8, Some "y")].
Definition parse_deposit (_ : string) : option WalletEvent := Some FeedExample.deposit.

(** The same log with a deposit of a user the ledger does not know at its end. *)
Definition stranger_log : list (Z * option string) := deposit_log ++ [(9, Some "z")].
Definition parse_stranger (payload : string) : option WalletEvent :=
  if bool_decide (payload = "z")
  then Some (WalletEvent_DepositApplied
               (mkWalletDepositApplied (Some "e9") "r9" 2 Asset_USDC 5 "ref-9" 5 0))
  else Some FeedExample.deposit.

Lemma ledger_catches_up_witness :
  (exists db, LedgerQueue.run_wallet_event_partition parse_deposit "t" 0 (Ok 0)
     [Ok [(3, Some "x")]; Ok [(8, Some "y")]] (empty_ledger {[1]}) = (Ok 9, db) /\
   length (ledger_entries db) = 1%nat) /\
  (exists e db, LedgerQueue.run_wallet_event_partition parse_stranger "t" 0 (Ok 0)
     [Ok [(3, Some "x"); (8, Some "y")]; Ok [(9, Some "z")]; Ok []] (empty_ledger {[1]})
     = (Err (TaskError_Worker e), db) /\
   ledger_stored "t" 0 db = Some 9 /\ length (ledger_entries db) = 1%nat).
Proof.
  split.
  - destruct (ledger_catches_up parse_deposit "t" 0 {[1]} deposit_log 0 (empty_ledger {[1]})
      [Ok [(3, Some "x")]; Ok [(8, Some "y")]]) as (r & db & done & rest & Hrun & Hl & _ & Hent & Hend).
    + cbn. unfold i64_max. lia.
    + apply rtc_refl.
    + cbn. split; [done|]. split; [done|]. done.
    + cbn. lia.
    + pose proof (f_equal fst Hrun) as Hm. vm_compute in Hm. subst r.
      exists db. split; [exact Hrun|]. pose proof (f_equal snd Hrun) as Hdb. cbn [snd] in Hdb.
      rewrite <- Hdb. vm_compute. reflexivity.
  - destruct (ledger_catches_up parse_stranger "t" 0 {[1]} stranger_log 0 (empty_ledger {[1]})
      [Ok [(3, Some "x"); (8, Some "y")]; Ok [(9, Some "z")]; Ok []])
      as (r & db & done & rest & Hrun & Hl & _ & Hent & Hend).
    + cbn. unfold i64_max. lia.
    + apply rtc_refl.
    + vm_compute. split_and!; done.
    + cbn. lia.
    + pose proof (f_equal fst Hrun) as Hm. vm_compute in Hm. subst r. eexists _, db.
      split; [exact Hrun|]. pose proof (f_equal snd Hrun) as Hdb. cbn [snd] in Hdb.
      rewrite <- Hdb. split; vm_compute; reflexivity.
Defined.

(** ** Examples *)

#[local] Existing Instance tagged_serde.

Module ProcessesExample.
Import StartupExample.

Definition database (_ : string) : Result string unit := Ok tt.
Definition migrator (_ : Migrations) (_ : string) : Result string unit := Ok tt.
Definition no_candles (migrations : Migrations) (_ : string) : Result string unit :=
  match migrations with Migrations_Timeseries => Err "relation exists" | Migrations_Exchange => Ok tt end.
Definition port (_ : string) (_ : Z) : Result string unit := Ok tt.

(** A server whose second migration fails has run the first one. *)
Example server_half_migrated :
  server_main env database no_candles connect port new_process
  = (Err (Exit_Panic "timeseries migrations failed"),
     mkProcess (Some "postgres://db/exchange") None [(Migrations_Exchange, "postgres://db/exchange")]).
Proof. vm_compute. reflexivity. Qed.

(** A wallet's task that fails ends the wallet. *)
Example wallet_ends :
  (wallet_main env database migrator connect [Finished_Ok; Finished_Panic "boom"] new_process).1
  = Err (Exit_Error "wallet queue task failed: boom").
Proof. vm_compute. reflexivity. Qed.

(** Without a price nothing is opened. *)
Example ingress_without_price : forall st,
  ingress_main env database migrator (fun _ => Err "no") (fun _ => "") 0 ["mark-price"; "--market-id"; "1"] "" st
  = (Err (Exit_Error "missing required flag '--mark-price'"), st).
Proof. intros st. apply ingress_refused. vm_compute. reflexivity. Qed.

Definition up {A} (result : Result Exit A * Process) : bool :=
  match result.1 with Ok _ => true | Err _ => false end.

Lemma up_runs {A} (m : Main A) : up (m new_process) = true -> exists a p, m new_process = (Ok a, p).
Proof. unfold up. destruct (m new_process) as [[a|e] p]; [by exists a, p|done]. Qed.

Lemma processes_deployed_witness : exists D : deployed env connect,
  cfg_database_url (dp_config _ _ D) = "postgres://db/exchange" /\
  (wallet_main env database migrator connect [] new_process).2 = exchange_process "postgres://db/exchange".
Proof.
  destruct (up_runs (wallet_main env database migrator connect [])) as (rw & pw & Hw); [by vm_compute|].
  destruct (up_runs (ledger_main env database migrator connect [])) as (rl & pl & Hl); [by vm_compute|].
  destruct (up_runs (projector_main env database migrator connect [])) as (rp & pp & Hp); [by vm_compute|].
  destruct (up_runs (timeseries_main env database migrator connect [])) as (rt & pt & Ht); [by vm_compute|].
  destruct (up_runs (server_main env database migrator connect port)) as ([app cs] & ps & Hs); [by vm_compute|].
  destruct (up_runs (ws_main env connect port)) as (sources & pws & Hws); [by vm_compute|].
  destruct (processes_deployed env database migrator connect port [] [] [] [] rw rl rp rt app cs sources
              pw pl pp pt ps pws Hw Hl Hp Ht Hs Hws) as (D & ts & Hc & _ & _ & _ & Hpw & _).
  assert (cfg_database_url (ap_config app) = "postgres://db/exchange") as Hurl.
  { apply (f_equal (fun r => match r.1 with Ok (a, _) => cfg_database_url (ap_config a) | Err _ => "" end)) in Hs.
    cbn [fst] in Hs. rewrite <- Hs. vm_compute. reflexivity. }
  exists D. rewrite Hc, Hurl. split; [done|]. rewrite Hw. cbn [snd]. by rewrite Hpw, Hurl.
Defined.
End ProcessesExample.
