(* ===== verification/UnitTests.v ===== *)
(** * UnitTests: the repository's own tests, run against the definitions

    The [#[cfg(test)]] modules under [src/]: each test is a proposition over the
    definitions its functions are modelled by, and each module's tests hold, by
    evaluation. Where a test leaves a state open (a handler that answers before it
    reads the database), the proposition holds for every state. Left out are the
    tests of JSON texts and of phrases in a statement: a JSON value is abstract
    here, and a statement is what it does. *)

From S2P Require Import Prelude Text Protocol Settings Broker Postgres WalletDb WalletRepository WalletProcessor.
From S2P Require Import WalletOutbox WalletQueue Ledger Timeseries EngineIngress.
From S2P Require Import ProjectorMath ProjectorPositions ProjectorDb Projector ProjectorTrades.
From S2P Require Import WsHub WsRouter WsSession ServerReplies ServerHandlers ServerAuth ServerReads Startup.

#[local] Transparent gmap_empty.
#[local] Existing Instance tagged_serde.

(** ** What a test is made of *)

(** [expect], and an assertion on the value. *)
Definition expect {E A} (r : Result E A) (assertion : A -> Prop) : Prop :=
  match r with Ok a => assertion a | Err _ => False end.
Definition expect_err {E A} (r : Result E A) (assertion : E -> Prop) : Prop :=
  match r with Ok _ => False | Err e => assertion e end.

(** The tests of a module pass. *)
Definition pass (tests : list Prop) : Prop := Forall (fun test => test) tests.

(** A test is evaluated; what it leaves are closed equations and inequalities. *)
Ltac assertion :=
  lazymatch goal with
  | |- _ /\ _ => split; assertion
  | |- True => exact I
  | |- _ = _ => reflexivity
  | |- _ -> False => intros [=]
  | |- Forall _ _ => constructor; vm_compute; assertion
  | |- forall _, _ => intro; assertion
  end.
Ltac run_test := first [vm_compute; assertion | intros; vm_compute; assertion].
Ltac run_all :=
  lazymatch goal with
  | |- Forall _ [] => apply Forall_nil_2
  | |- Forall _ _ => apply Forall_cons_2; [run_test | run_all]
  end.
Ltac run_tests := unfold pass; run_all.

Definition envelope (idempotency_key : string) : CommandEnvelope :=
  mkCommandEnvelope "req-1" idempotency_key 42 0.

(** The order intent of the tests, with what differs between them. *)
Definition test_intent (idempotency_key : string) (market_id leverage : Z) (reduce_only : bool)
    : PlaceOrderIntent :=
  mkPlaceOrderIntent (envelope idempotency_key) 99 market_id "SOL-PERP" Side_LONG OrderType_LIMIT
    10 20 Asset_USDC 200 leverage reduce_only.
Definition test_cancel : CancelOrderIntent := mkCancelOrderIntent (envelope "cancel-1") 1 99.

(** ** [crates/protocol] *)

Module ProtocolTests.
Definition engine_input_topic_is_stable : Prop := ENGINE_INPUT_TOPIC = "engine.input".

Definition place_order_intent_becomes_reserved_engine_order : Prop :=
  let order := into_reserved_order (test_intent "order-1" 1 10 true) "res-1" in
  env_request_id (rpo_envelope order) = "req-1" /\ rpo_order_id order = 99 /\
  rpo_reservation_id order = "res-1" /\ rpo_market_id order = 1 /\ rpo_quantity order = 10 /\
  rpo_price order = 20 /\ rpo_reduce_only order = true /\ rpo_margin_asset order = Asset_USDC /\
  rpo_reserved_margin_amount order = 200 /\ rpo_leverage order = 10.

Definition cancel_order_intent_becomes_engine_cancel_order : Prop :=
  let cancel := into_engine_cancel_order test_cancel in
  env_request_id (co_envelope cancel) = "req-1" /\ co_market_id cancel = 1 /\ co_order_id cancel = 99.

Lemma protocol_tests_pass :
  pass [engine_input_topic_is_stable; place_order_intent_becomes_reserved_engine_order;
        cancel_order_intent_becomes_engine_cancel_order].
Proof. run_tests. Qed.
End ProtocolTests.

(** ** [crates/config] and the settings of the services *)

Module SettingsTests.
Definition no_env : Env := fun _ => None.

Definition required_value_accepts_timeseries_database_url : Prop :=
  required_value "TIMESERIES_DATABASE_URL" (Some "postgres://localhost/timeseries")
  = Ok "postgres://localhost/timeseries".
Definition required_value_rejects_missing_timeseries_database_url : Prop :=
  required_value "TIMESERIES_DATABASE_URL" None = Err "TIMESERIES_DATABASE_URL must be set".
Definition required_value_rejects_blank_timeseries_database_url : Prop :=
  required_value "TIMESERIES_DATABASE_URL" (Some "  ") = Err "TIMESERIES_DATABASE_URL must be set".

Definition timeseries_env_or_default_uses_default_for_missing_key : Prop :=
  env_or_default no_env "__EXCHANGE_TIMESERIES_TEST_MISSING_TOPIC__" ENGINE_EVENTS_TOPIC
  = ENGINE_EVENTS_TOPIC.
Definition projector_env_or_default_uses_default_for_missing_key : Prop :=
  env_or_default no_env "__EXCHANGE_PROJECTOR_TEST_MISSING_TOPIC__" ENGINE_EVENTS_TOPIC
  = ENGINE_EVENTS_TOPIC.
Definition wallet_env_or_default_uses_default_for_missing_key : Prop :=
  env_or_default no_env "__EXCHANGE_WALLET_TEST_MISSING_TOPIC__" WALLET_COMMANDS_TOPIC
  = WALLET_COMMANDS_TOPIC.
Definition ledger_env_or_default_uses_default_for_missing_key : Prop :=
  env_or_default no_env "__EXCHANGE_LEDGER_TEST_MISSING_TOPIC__" WALLET_EVENTS_TOPIC
  = WALLET_EVENTS_TOPIC.
Definition ws_env_or_default_uses_default_for_missing_key : Prop :=
  env_or_default no_env "__EXCHANGE_WS_TEST_MISSING_TOPIC__" ENGINE_EVENTS_TOPIC
  = ENGINE_EVENTS_TOPIC.
Definition env_u16_or_default_uses_default_for_missing_key : Prop :=
  env_u16_or_default no_env "__EXCHANGE_WS_TEST_MISSING_PORT__" 8081 = 8081.

Lemma settings_tests_pass :
  pass [required_value_accepts_timeseries_database_url;
        required_value_rejects_missing_timeseries_database_url;
        required_value_rejects_blank_timeseries_database_url;
        timeseries_env_or_default_uses_default_for_missing_key;
        projector_env_or_default_uses_default_for_missing_key;
        wallet_env_or_default_uses_default_for_missing_key;
        ledger_env_or_default_uses_default_for_missing_key;
        ws_env_or_default_uses_default_for_missing_key;
        env_u16_or_default_uses_default_for_missing_key].
Proof. run_tests. Qed.
End SettingsTests.

(** ** The broker lists of every service *)

Module BrokerTests.
Section Tests.
Context {E : Type} (empty_broker_list : E) (parse_brokers : string -> Result E (list string)).
Definition parse_brokers_ignores_empty_entries : Prop :=
  parse_brokers "localhost:9092, ,redpanda:9092" = Ok ["localhost:9092"; "redpanda:9092"].
Definition parse_brokers_rejects_empty_entries : Prop :=
  parse_brokers " , " = Err empty_broker_list.
End Tests.

(** Each service has the two tests for its own copy. *)
Lemma broker_tests_pass :
  pass [parse_brokers_ignores_empty_entries wallet_parse_brokers;
        parse_brokers_rejects_empty_entries QueueError_EmptyBrokerList wallet_parse_brokers;
        parse_brokers_ignores_empty_entries LedgerQueue.ledger_parse_brokers;
        parse_brokers_rejects_empty_entries LedgerQueue.EmptyBrokerList
          LedgerQueue.ledger_parse_brokers;
        parse_brokers_ignores_empty_entries TimeseriesQueue.timeseries_parse_brokers;
        parse_brokers_rejects_empty_entries TimeseriesQueue.EmptyBrokerList
          TimeseriesQueue.timeseries_parse_brokers;
        parse_brokers_ignores_empty_entries ProjectorQueue.projector_parse_brokers;
        parse_brokers_rejects_empty_entries ProjectorQueue.EmptyBrokerList
          ProjectorQueue.projector_parse_brokers;
        parse_brokers_ignores_empty_entries EventConsumers.ws_parse_brokers;
        parse_brokers_rejects_empty_entries EventConsumers.EmptyBrokerList
          EventConsumers.ws_parse_brokers;
        parse_brokers_ignores_empty_entries ServerHandlers.parse_brokers;
        parse_brokers_rejects_empty_entries PublishError_EmptyBrokerList
          ServerHandlers.parse_brokers].
Proof. run_tests. Qed.
End BrokerTests.

(** ** [apps/wallet] *)

Module WalletTests.
(** *** [redpanda.rs] *)

Definition stable_partition_keeps_key_on_same_partition : Prop :=
  let first := stable_partition "user-42" 3 in
  let second := stable_partition "user-42" 3 in
  first = second /\ (first <? 3) = true.
Definition stable_partition_can_separate_market_keys : Prop :=
  let sol_partition := stable_partition "1" 8 in
  let btc_partition := stable_partition "2" 8 in
  (sol_partition <? 8) = true /\ (btc_partition <? 8) = true /\ sol_partition <> btc_partition.

Definition command_metadata_uses_user_key_and_request_reply_key : Prop :=
  let metadata :=
    from_command (WalletCommand_Deposit (mkDeposit (envelope "deposit-1") Asset_USDC 100 "ref-1")) in
  wallet_key metadata = "42" /\ reply_key metadata = "req-1" /\ reply_partition metadata = Some 0.

Definition engine_input_key_uses_market_id : Prop :=
  let command :=
    EngineCommand_PlaceOrder (into_reserved_order (test_intent "order-1" 7 3 false) "res-1") in
  eip_key (EngineInputPublication_new command) = "7".

(** [command.input_id = Some(...)] *)
Definition with_input_id (input_id : string) (command : ReservedPlaceOrder) : ReservedPlaceOrder :=
  mkReservedPlaceOrder (Some input_id) (rpo_envelope command) (rpo_order_id command)
    (rpo_reservation_id command) (rpo_market_id command) (rpo_market_name command)
    (rpo_side command) (rpo_order_type command) (rpo_quantity command) (rpo_price command)
    (rpo_reduce_only command) (rpo_margin_asset command) (rpo_reserved_margin_amount command)
    (rpo_leverage command).
Definition engine_input_key_ignores_input_id_for_market_partitioning : Prop :=
  let command :=
    with_input_id "input-1" (into_reserved_order (test_intent "order-1" 7 3 false) "res-1") in
  eip_key (EngineInputPublication_new (EngineCommand_PlaceOrder command)) = "7".

Definition mark_price_input (market_id : Z) (input_id : string) : MarkPriceUpdatedInput :=
  mkMarkPriceUpdatedInput (Some input_id) market_id 100 99 1710000000000 1710000000100
    1710000005100 45001 "VALID".
Definition engine_input_market_keys_route_same_market_to_same_partition : Prop :=
  let first := mark_price_updated (mark_price_input 7 "mark-1") in
  let second := mark_price_updated (mark_price_input 7 "mark-2") in
  eip_key first = "7" /\ eip_key second = "7" /\
  stable_partition (eip_key first) 8 = stable_partition (eip_key second) 8.
Definition engine_input_market_keys_can_route_different_markets_to_different_partitions : Prop :=
  let sol := mark_price_updated (mark_price_input 7 "mark-sol") in
  let btc := mark_price_updated (mark_price_input 8 "mark-btc") in
  eip_key sol = "7" /\ eip_key btc = "8" /\
  stable_partition (eip_key sol) 8 <> stable_partition (eip_key btc) 8.

Definition engine_cancel_event_releases_reservation : Prop :=
  engine_wallet_commands_from_engine_event (EngineEvent_OrderCancelled
    (mkOrderCancelled (Some "eng-1") 1 1710000000000 None None 99 "res-1" 42 1 50))
  = [EngineWalletCommand_ReleaseReservation (mkReleaseReservation "res-1" 50 "order_cancelled:99")].
Definition engine_order_expired_event_releases_positive_amount : Prop :=
  engine_wallet_commands_from_engine_event (EngineEvent_OrderExpired
    (mkOrderExpired (Some "eng-2") 1 2 1710000000001 None None 100 "res-2" 42 4 25 "TTL"))
  = [EngineWalletCommand_ReleaseReservation
       (mkReleaseReservation "res-2" 25 "order_expired:100:TTL")].
Definition engine_order_expired_event_ignores_zero_release : Prop :=
  engine_wallet_commands_from_engine_event (EngineEvent_OrderExpired
    (mkOrderExpired (Some "eng-3") 1 3 1710000000002 None None 101 "res-3" 42 4 0
       "REDUCE_ONLY_REMAINDER"))
  = [].
Definition engine_reservation_released_event_releases_reservation : Prop :=
  engine_wallet_commands_from_engine_event (EngineEvent_ReservationReleased
    (mkReservationReleased (Some "eng-4") 1 4 1710000000003 None None "res-4" 42 Asset_USDC 12
       "ORDER_REJECTED_AFTER_RESERVATION"))
  = [EngineWalletCommand_ReleaseReservation
       (mkReleaseReservation "res-4" 12 "reservation_released:ORDER_REJECTED_AFTER_RESERVATION")].
Definition engine_trade_event_becomes_settlement_and_fee_commands : Prop :=
  engine_wallet_commands_from_engine_event (EngineEvent_TradeExecuted
    (mkTradeExecuted (Some "eng-5") 5 1710000000004 None None 7 1 100 2 10 11 42 43
       (Some "res-maker") (Some "res-taker") ExecutionReason_TRADE None None None None
       [mkFeeDelta 43 Asset_USDC 3 "TAKER"]
       [mkTradeSettlement "res-maker" Asset_USDC 25 Asset_USDC 1]))
  = [EngineWalletCommand_SettleTrade (mkSettleTrade 7 "res-maker" Asset_USDC 25 Asset_USDC 1);
     EngineWalletCommand_ApplyAccountDelta
       (mkApplyAccountDelta 43 Asset_USDC (-3) 0 "TRADE_FEE" "fill:7:fee:0:43:TAKER")].
Definition funding_payment_event_becomes_account_delta_commands : Prop :=
  engine_wallet_commands_from_engine_event (EngineEvent_FundingPaymentApplied
    (mkFundingPaymentApplied (Some "eng-6") 1 6 1710000000005 None None "funding-1"
       [mkFundingPayment 42 "pos-42-1" PositionSide_LONG Asset_USDC (-2)]))
  = [EngineWalletCommand_ApplyAccountDelta
       (mkApplyAccountDelta 42 Asset_USDC (-2) 0 "FUNDING_PAYMENT" "eng-6:payment:0:pos-42-1")].
Definition account_delta_event_becomes_account_delta_command : Prop :=
  engine_wallet_commands_from_engine_event (EngineEvent_AccountDelta
    (mkAccountDelta (Some "eng-8") 1 8 1710000000007 None None "acct-1" 42 Asset_USDC (-205) (-100)
       "LIQUIDATION_SETTLEMENT" "liq-1"))
  = [EngineWalletCommand_ApplyAccountDelta
       (mkApplyAccountDelta 42 Asset_USDC (-205) (-100) "ACCOUNT_DELTA" "acct-1")].

Lemma wallet_redpanda_tests_pass :
  pass [stable_partition_keeps_key_on_same_partition; stable_partition_can_separate_market_keys;
        command_metadata_uses_user_key_and_request_reply_key; engine_input_key_uses_market_id;
        engine_input_key_ignores_input_id_for_market_partitioning;
        engine_input_market_keys_route_same_market_to_same_partition;
        engine_input_market_keys_can_route_different_markets_to_different_partitions;
        engine_cancel_event_releases_reservation;
        engine_order_expired_event_releases_positive_amount;
        engine_order_expired_event_ignores_zero_release;
        engine_reservation_released_event_releases_reservation;
        engine_trade_event_becomes_settlement_and_fee_commands;
        funding_payment_event_becomes_account_delta_commands;
        account_delta_event_becomes_account_delta_command].
Proof. run_tests. Qed.

(** *** [repository.rs] *)

Definition asset_mapping_round_trips_all_known_assets : Prop :=
  Forall (fun asset => asset_from_db (asset_to_db asset) = asset)
    [Asset_USDC; Asset_USDT; Asset_SOL; Asset_ETH; Asset_BTC; Asset_PERP; Asset_HYP] /\
  asset_from_db AssetType_BTC = Asset_BTC.

Definition test_settle (credit_asset : Asset) (credit_amount : Z) : SettleTrade :=
  mkSettleTrade 7 "res-1" Asset_USDC 100 credit_asset credit_amount.
Definition exact_same_asset_settlement_unlocks_reserved_collateral : Prop :=
  let settle := test_settle Asset_USDC 100 in
  is_same_asset_reservation_consumption settle = true /\
  settlement_collateral_effect settle = UnlockReservedOnly 100.
Definition cross_asset_settlement_keeps_spot_like_collateral_path : Prop :=
  let settle := test_settle Asset_SOL 10 in
  is_same_asset_reservation_consumption settle = false /\
  settlement_collateral_effect settle = TransferDebitToCredit 100 10.
Definition same_asset_unequal_amount_settlement_keeps_spot_like_collateral_path : Prop :=
  let settle := test_settle Asset_USDC 99 in
  is_same_asset_reservation_consumption settle = false /\
  settlement_collateral_effect settle = TransferDebitToCredit 100 99.

Lemma wallet_repository_tests_pass :
  pass [asset_mapping_round_trips_all_known_assets;
        exact_same_asset_settlement_unlocks_reserved_collateral;
        cross_asset_settlement_keeps_spot_like_collateral_path;
        same_asset_unequal_amount_settlement_keeps_spot_like_collateral_path].
Proof. run_tests. Qed.

(** *** [processor.rs] *)

Definition storage_error_reply_contains_request_context : Prop :=
  match storage_error_reply "req-1" "db unavailable" with
  | WalletReply_CommandRejected rejected =>
      cr_request_id rejected = "req-1" /\ cr_reason rejected = "db unavailable"
  | _ => False
  end.
Definition reserved_order_keeps_original_idempotency_envelope : Prop :=
  let order := into_reserved_order (test_intent "client-order-1" 1 2 true) "res-1" in
  env_idempotency_key (rpo_envelope order) = "client-order-1" /\ rpo_order_id order = 99 /\
  rpo_reservation_id order = "res-1" /\ rpo_reduce_only order = true /\ rpo_leverage order = 2.
Definition replayed_idempotent_reply_uses_current_request_id : Prop :=
  let reply := WalletReply_InsufficientFunds (mkInsufficientFunds "old-req" Asset_USDC 200 100) in
  expect (reply_value reply) (fun value =>
    expect (existing_reply (Some value) "new-req") (fun replayed =>
      match replayed with
      | Some (WalletReply_InsufficientFunds insufficient) =>
          inf_request_id insufficient = "new-req" /\ inf_required insufficient = 200 /\
          inf_available insufficient = 100
      | _ => False
      end)).

(** *** [router.rs] *)

Definition place_order_intent_routes_to_reserve_and_forward : Prop :=
  match route_command (WalletCommand_PlaceOrderIntent (test_intent "order-1" 1 1 false)) with
  | WalletAction_ReserveAndForward _ => True
  | _ => False
  end.
Definition cancel_order_intent_routes_to_forward_cancel : Prop :=
  match route_command (WalletCommand_CancelOrderIntent test_cancel) with
  | WalletAction_ForwardCancel _ => True
  | _ => False
  end.

(** *** [engine_inputs.rs] *)

Definition funding_interval : string := "funding_SOL-PERP_1710000000_1710028800".
Definition settlement_tick (input_id : option string) (market_id : Z) : FundingSettlementTickInput :=
  mkFundingSettlementTickInput input_id market_id funding_interval 1710028800000.
Definition mark_price_update_publication_wraps_input_and_uses_market_id_key : Prop :=
  let input := mark_price_input 7 "input_mark_001" in
  let publication := mark_price_updated input in
  eip_key publication = "7" /\ eip_input publication = EngineCommand_MarkPriceUpdated input.
Definition funding_rate_publication_wraps_input_and_uses_market_id_key : Prop :=
  let input := mkFundingRateUpdatedInput (Some "input_funding_rate_001") 8 funding_interval 25
                 1000000 1710000000000 1710028800000 1710000001000 in
  let publication := funding_rate_updated input in
  eip_key publication = "8" /\ eip_input publication = EngineCommand_FundingRateUpdated input.
Definition funding_settlement_tick_publication_wraps_input_and_uses_market_id_key : Prop :=
  let input := settlement_tick (Some "input_funding_settle_001") 9 in
  let publication := funding_settlement_tick input in
  eip_key publication = "9" /\ eip_input publication = EngineCommand_FundingSettlementTick input.
Definition publication_still_uses_market_id_without_input_id : Prop :=
  eip_key (funding_settlement_tick (settlement_tick None 10)) = "10".
Definition market_id_key_is_stable_across_commands_for_same_market : Prop :=
  let mark := EngineCommand_MarkPriceUpdated (mark_price_input 11 "mark-1") in
  let funding := EngineCommand_FundingSettlementTick (settlement_tick (Some "settle-1") 11) in
  engine_input_key mark = "11" /\ engine_input_key funding = "11".
Definition engine_command_outbox_message_wraps_command_payload : Prop :=
  let command :=
    EngineCommand_FundingSettlementTick (settlement_tick (Some "input_funding_settle_001") 1) in
  expect (engine_command_outbox_message "engine.input" "engine-input:funding:settle-1" command)
    (fun message =>
       new_dedupe_key message = "engine-input:funding:settle-1" /\
       new_topic message = "engine.input" /\ new_partition message = None /\
       new_message_key message = "1" /\ new_payload_type message = "EngineCommand" /\
       Some (new_payload message) = engine_command_to_value command).

Lemma wallet_processor_tests_pass :
  pass [storage_error_reply_contains_request_context;
        reserved_order_keeps_original_idempotency_envelope;
        replayed_idempotent_reply_uses_current_request_id;
        place_order_intent_routes_to_reserve_and_forward;
        cancel_order_intent_routes_to_forward_cancel;
        mark_price_update_publication_wraps_input_and_uses_market_id_key;
        funding_rate_publication_wraps_input_and_uses_market_id_key;
        funding_settlement_tick_publication_wraps_input_and_uses_market_id_key;
        publication_still_uses_market_id_without_input_id;
        market_id_key_is_stable_across_commands_for_same_market;
        engine_command_outbox_message_wraps_command_payload].
Proof. run_tests. Qed.
End WalletTests.

(** ** [apps/ledger] *)

Module LedgerTests.
(** [expect(...)] on a record, and the entry at an index. *)
Definition mapped (event : WalletEvent) (assertion : LedgerRecord -> Prop) : Prop :=
  match ledger_record_from_wallet_event event with
  | Some record => assertion record
  | None => False
  end.
Definition entry (record : LedgerRecord) (i : nat) (assertion : LedgerEntryDraft -> Prop) : Prop :=
  match lr_entries record !! i with Some entry => assertion entry | None => False end.

Definition deposit_event_maps_to_total_increase : Prop :=
  mapped (WalletEvent_DepositApplied
    (mkWalletDepositApplied (Some "wallet-event:deposit-applied:42:deposit-1") "req-1" 42 Asset_USDC
       100 "deposit-1" 100 0)) (fun record =>
    lr_event_type record = "DepositApplied" /\
    lr_logical_event_id record = Some "wallet-event:deposit-applied:42:deposit-1" /\
    lr_user_id record = 42 /\
    entry record 0 (fun entry =>
      led_kind entry = "DEPOSIT" /\ led_total_delta entry = 100 /\ led_locked_delta entry = 0 /\
      led_reference_id entry = "deposit-1")).
Definition withdrawal_event_maps_to_total_decrease : Prop :=
  mapped (WalletEvent_WithdrawalApplied
    (mkWalletWithdrawalApplied None "req-2" 42 Asset_USDC 50 "bank" 50 0)) (fun record =>
    lr_event_type record = "WithdrawalApplied" /\
    entry record 0 (fun entry =>
      led_kind entry = "WITHDRAWAL" /\ led_total_delta entry = -50 /\
      led_reference_id entry = "req-2")).
Definition reservation_event_maps_to_locked_increase : Prop :=
  mapped (WalletEvent_FundsReserved
    (mkWalletFundsReserved None "req-3" 42 "res-1" Asset_USDC 70)) (fun record =>
    entry record 0 (fun entry =>
      led_kind entry = "RESERVE" /\ led_total_delta entry = 0 /\ led_locked_delta entry = 70 /\
      led_reference_id entry = "res-1")).
Definition release_event_maps_to_locked_decrease : Prop :=
  mapped (WalletEvent_FundsReleased
    (mkWalletFundsReleased None 42 "res-1" Asset_USDC 70 "cancel")) (fun record =>
    entry record 0 (fun entry => led_kind entry = "RELEASE" /\ led_locked_delta entry = -70)).

Definition test_settled (credit_asset : Asset) (credit_amount : Z) : WalletEvent :=
  WalletEvent_TradeSettled
    (mkWalletTradeSettled None 42 7 "res-1" Asset_USDC 100 credit_asset credit_amount).
Definition debit_and_credit (record : LedgerRecord) (credit : Z) : Prop :=
  length (lr_entries record) = 2%nat /\
  entry record 0 (fun entry =>
    led_kind entry = "TRADE_DEBIT" /\ led_total_delta entry = -100 /\
    led_locked_delta entry = -100) /\
  entry record 1 (fun entry =>
    led_kind entry = "TRADE_CREDIT" /\ led_total_delta entry = credit /\
    led_locked_delta entry = 0).
Definition trade_event_maps_to_debit_and_credit_entries : Prop :=
  mapped (test_settled Asset_SOL 10) (fun record => debit_and_credit record 10).
Definition same_asset_trade_event_reports_locked_decrease : Prop :=
  mapped (test_settled Asset_USDC 100) (fun record => debit_and_credit record 100).
Definition same_asset_unequal_trade_event_keeps_spot_like_locked_decrease : Prop :=
  mapped (test_settled Asset_USDC 99) (fun record =>
    entry record 0 (fun entry => led_kind entry = "TRADE_DEBIT" /\ led_locked_delta entry = -100)).
Definition account_delta_event_maps_to_dynamic_kind_entry : Prop :=
  mapped (WalletEvent_AccountDeltaApplied
    (mkWalletAccountDeltaApplied None 42 Asset_USDC (-3) 0 "TRADE_FEE" "fill:7:fee:0:42:TAKER" 997 0))
    (fun record =>
       lr_event_type record = "AccountDeltaApplied" /\ lr_user_id record = 42 /\
       entry record 0 (fun entry =>
         led_kind entry = "TRADE_FEE" /\ led_total_delta entry = -3 /\
         led_locked_delta entry = 0 /\ led_reference_id entry = "fill:7:fee:0:42:TAKER")).
(** The copy of the mapping in [repository.rs] of the ledger. *)
Definition ledger_asset_mapping_covers_known_assets : Prop :=
  asset_to_db Asset_USDC = AssetType_USDC /\ asset_to_db Asset_SOL = AssetType_SOL /\
  asset_to_db Asset_HYP = AssetType_HYP.

Lemma ledger_tests_pass :
  pass [deposit_event_maps_to_total_increase; withdrawal_event_maps_to_total_decrease;
        reservation_event_maps_to_locked_increase; release_event_maps_to_locked_decrease;
        trade_event_maps_to_debit_and_credit_entries;
        same_asset_trade_event_reports_locked_decrease;
        same_asset_unequal_trade_event_keeps_spot_like_locked_decrease;
        account_delta_event_maps_to_dynamic_kind_entry; ledger_asset_mapping_covers_known_assets].
Proof. run_tests. Qed.
End LedgerTests.

(** ** [apps/timeseries] *)

Module TimeseriesTests.
Definition bucket_start_floors_to_interval : Prop :=
  bucket_start_ms 1710000123456 MINUTE_MS = 1710000120000 /\
  bucket_start_ms 1710000123456 (5 * MINUTE_MS) = 1710000000000 /\
  bucket_start_ms 1710000123456 HOUR_MS = 1710000000000.

Definition trade (execution_reason : ExecutionReason) : TradeExecuted :=
  let is_liquidation := bool_decide (execution_reason = ExecutionReason_LIQUIDATION) in
  mkTradeExecuted None 12 1710000123456 None None 1 7 100 5 10 11 42 43 None None execution_reason
    (if is_liquidation then Some "liq-1" else None) (if is_liquidation then Some 42 else None)
    (if is_liquidation then Some Side_LONG else None) None [] [].
Definition candle_drafts_include_core_intervals : Prop :=
  let drafts := candle_drafts_from_trade (trade ExecutionReason_TRADE) in
  map cd_interval drafts = ["1m"; "5m"; "15m"; "1h"; "1d"] /\
  Forall (fun draft => cd_market_id draft = 7) drafts /\
  Forall (fun draft => cd_engine_sequence draft = 12) drafts.
Definition liquidation_trades_are_candle_sources : Prop :=
  let trade := trade ExecutionReason_LIQUIDATION in
  let drafts := candle_drafts_from_trade trade in
  length drafts = length CANDLE_INTERVALS /\
  Forall (fun draft => cd_price draft = te_price trade) drafts /\
  Forall (fun draft => cd_quantity draft = te_quantity trade) drafts.

Lemma timeseries_tests_pass :
  pass [bucket_start_floors_to_interval; candle_drafts_include_core_intervals;
        liquidation_trades_are_candle_sources].
Proof. run_tests. Qed.
End TimeseriesTests.

(** ** [apps/projector] *)

Module ProjectorTests.
Definition order_status_after_fill_marks_partial_before_target_quantity : Prop :=
  order_status_after_fill 10 4 = OrderStatus_PARTIAL.
Definition order_status_after_fill_marks_filled_at_or_above_target_quantity : Prop :=
  order_status_after_fill 10 10 = OrderStatus_FILLED /\
  order_status_after_fill 10 12 = OrderStatus_FILLED.
Definition protocol_side_mapping_matches_db_names : Prop :=
  side_to_db Side_LONG = SideType_LONG /\ side_to_db Side_SHORT = SideType_SHORT.
Definition protocol_order_type_mapping_matches_db_names : Prop :=
  order_type_to_db OrderType_LIMIT = DbOrderType_LIMIT /\
  order_type_to_db OrderType_MARKET = DbOrderType_MARKET.
Definition execution_reason_maps_to_closed_position_reason : Prop :=
  close_type_from_execution_reason ExecutionReason_TRADE = CloseType_TRADE /\
  close_type_from_execution_reason ExecutionReason_LIQUIDATION = CloseType_LIQUIDATION.

(** The liquidation of the tests, with the fields they change. *)
Definition liquidation_trade_event_with (maker_reservation_id : option string)
    (execution_reason : ExecutionReason) (liquidation_id : option string)
    (liquidated_user_id : option Z) (position_side : option Side) : TradeExecuted :=
  mkTradeExecuted (Some "eng-7-11") 11 1710000000000 (Some "mark-1") (Some 10) 7002 7 95 5 9001 9003
    43 42 maker_reservation_id (Some "liq-1") execution_reason liquidation_id liquidated_user_id
    position_side None [] [].
Definition liquidation_trade_event : TradeExecuted :=
  liquidation_trade_event_with (Some "res-maker") ExecutionReason_LIQUIDATION (Some "liq-1")
    (Some 42) (Some Side_LONG).

Definition synthetic_liquidation_context_closes_liquidated_taker_side : Prop :=
  expect (synthetic_liquidation_context liquidation_trade_event TradeParticipant_Taker "SOL-PERP"
            (Some SideType_LONG)) (fun context =>
    soc_reservation_id context = Some "liq-1" /\ soc_order_id context = Some 9003 /\
    soc_user_id context = 42 /\ soc_market_id context = 7 /\
    soc_market_name context = "SOL-PERP" /\ soc_side context = SideType_SHORT /\
    soc_order_type context = DbOrderType_MARKET /\ soc_quantity context = 5 /\
    soc_price context = 95 /\ soc_margin context = 0 /\ soc_reduce_only context = true).
Definition synthetic_liquidation_context_uses_position_side_for_counterparty : Prop :=
  let event :=
    liquidation_trade_event_with None ExecutionReason_LIQUIDATION (Some "liq-1") (Some 42)
      (Some Side_LONG) in
  expect (synthetic_liquidation_context event TradeParticipant_Maker "SOL-PERP"
            (Some SideType_SHORT)) (fun context =>
    soc_reservation_id context = Some "liq-1:maker" /\ soc_order_id context = Some 9001 /\
    soc_user_id context = 43 /\ soc_side context = SideType_LONG /\
    soc_reduce_only context = true).
Definition event_without_sides : TradeExecuted :=
  liquidation_trade_event_with (Some "res-maker") ExecutionReason_LIQUIDATION (Some "liq-1") None None.
Definition synthetic_liquidation_side_can_fall_back_to_counterpart_side : Prop :=
  synthetic_liquidation_side event_without_sides TradeParticipant_Maker (Some SideType_SHORT)
  = Some SideType_LONG.
Definition synthetic_liquidation_side_uses_stable_default_without_side_hints : Prop :=
  synthetic_liquidation_side event_without_sides TradeParticipant_Maker None = Some SideType_LONG /\
  synthetic_liquidation_side event_without_sides TradeParticipant_Taker None = Some SideType_SHORT.
Definition synthetic_context_fallback_is_not_enabled_for_plain_trades : Prop :=
  let plain_trade :=
    liquidation_trade_event_with (Some "res-maker") ExecutionReason_TRADE None None None in
  let adl_like_trade :=
    liquidation_trade_event_with (Some "res-maker") ExecutionReason_TRADE (Some "liq-adl-1")
      (Some 42) (Some Side_LONG) in
  is_synthetic_liquidation_or_adl_trade plain_trade = false /\
  is_synthetic_liquidation_or_adl_trade adl_like_trade = true.

Definition proportional_margin_slices_source_margin : Prop :=
  proportional_margin 1000 10 4 = 400 /\ proportional_margin 1000 10 10 = 1000 /\
  proportional_margin 0 10 4 = 0.
Definition weighted_average_price_uses_position_notional : Prop :=
  weighted_average_price 100 10 120 10 = 110 /\ weighted_average_price 100 3 101 1 = 100.
Definition realized_pnl_uses_position_side : Prop :=
  realized_pnl SideType_LONG 100 120 10 = 200 /\ realized_pnl SideType_LONG 100 90 10 = -100 /\
  realized_pnl SideType_SHORT 100 80 10 = 200 /\ realized_pnl SideType_SHORT 100 110 10 = -100.
Definition unrealized_pnl_uses_mark_price_and_position_side : Prop :=
  unrealized_pnl SideType_LONG 100 120 10 = 200 /\ unrealized_pnl SideType_LONG 100 90 10 = -100 /\
  unrealized_pnl SideType_SHORT 100 80 10 = 200 /\ unrealized_pnl SideType_SHORT 100 110 10 = -100.
Definition unrealized_pnl_clamps_large_values : Prop :=
  unrealized_pnl SideType_LONG 0 i64_max i64_max = i64_max.

Definition engine_event_log_entry_uses_engine_event_id : Prop :=
  let event :=
    EngineEvent_RiskStateUpdated
      (mkRiskStateUpdated (Some "eng-1") 7 42 1710000000000 (Some "input-1") None 99 "pos-1" 100 1000
         100 10 "HEALTHY") in
  expect (engine_event_log_entry event) (fun entry =>
    ele_engine_event_id entry = "eng-1" /\ ele_event_type entry = "RiskStateUpdated" /\
    ele_market_id entry = Some 7 /\ ele_engine_sequence entry = Some 42 /\
    ele_engine_timestamp_ms entry = 1710000000000 /\
    Some (ele_payload entry) = engine_event_to_value event).
Definition engine_event_log_entry_falls_back_for_legacy_event_without_id : Prop :=
  expect (engine_event_log_entry (EngineEvent_FundingRateUpdated
            (mkFundingRateUpdated None 7 43 1710000000001 None (Some 123) "funding-1" 12 1000000
               1710000000000 1710003600000))) (fun entry =>
    ele_engine_event_id entry = "FundingRateUpdated:7:43" /\
    ele_event_type entry = "FundingRateUpdated" /\ ele_market_id entry = Some 7 /\
    ele_engine_sequence entry = Some 43).

Definition source_kind_display_names_are_stable : Prop :=
  ProjectorQueue.projector_source_kind_text ProjectorTrades.SourceKind_EngineInput = "engine input" /\
  ProjectorQueue.projector_source_kind_text ProjectorTrades.SourceKind_WalletEvent = "wallet event".

Lemma projector_context_tests_pass :
  pass [order_status_after_fill_marks_partial_before_target_quantity;
        order_status_after_fill_marks_filled_at_or_above_target_quantity;
        protocol_side_mapping_matches_db_names; protocol_order_type_mapping_matches_db_names;
        execution_reason_maps_to_closed_position_reason;
        synthetic_liquidation_context_closes_liquidated_taker_side;
        synthetic_liquidation_context_uses_position_side_for_counterparty;
        synthetic_liquidation_side_can_fall_back_to_counterpart_side;
        synthetic_liquidation_side_uses_stable_default_without_side_hints;
        synthetic_context_fallback_is_not_enabled_for_plain_trades].
Proof. run_tests. Qed.
Lemma projector_math_tests_pass :
  pass [proportional_margin_slices_source_margin; weighted_average_price_uses_position_notional;
        realized_pnl_uses_position_side; unrealized_pnl_uses_mark_price_and_position_side;
        unrealized_pnl_clamps_large_values; engine_event_log_entry_uses_engine_event_id;
        engine_event_log_entry_falls_back_for_legacy_event_without_id;
        source_kind_display_names_are_stable].
Proof. run_tests. Qed.
End ProjectorTests.

(** ** [apps/ws] *)

Module WsTests.
(** *** [router.rs]; the events its JSON texts stand for *)

Definition trade_users_deduplicate_self_trade : Prop := trade_users 42 42 = [42].
Definition trade_users_are_stable : Prop := trade_users 43 42 = [42; 43].

(** The answers of [is_duplicate] to a sequence of ids. *)
Fixpoint duplicates (ids : list (option string)) (dedupe : EventDedupe) : list bool :=
  match ids with
  | [] => []
  | id :: ids => let '(answer, dedupe) := is_duplicate id dedupe in answer :: duplicates ids dedupe
  end.
Definition event_dedupe_rejects_repeated_event_id : Prop :=
  duplicates [Some "wallet-event-1"; Some "wallet-event-1"; Some "wallet-event-2"; None]
    (EventDedupe_new 10)
  = [false; true; false; false].
Definition event_dedupe_expires_old_event_ids : Prop :=
  duplicates [Some "wallet-event-1"; Some "wallet-event-2"; Some "wallet-event-3";
              Some "wallet-event-1"; Some "wallet-event-3"] (EventDedupe_new 2)
  = [false; false; false; false; true].

Definition trade_routing_includes_nested_account_users : Prop :=
  let event :=
    EngineEvent_TradeExecuted
      (mkTradeExecuted None 4 1710000003000 None None 7002 1 95 10 9001 9003 43 42
         (Some "res_maker_002") (Some "liq_001") ExecutionReason_TRADE None (Some 44) None None
         [mkFeeDelta 45 Asset_USDC 5 "LIQUIDATION"] []) in
  engine_event_market_id event = Some 1 /\ engine_event_account_user_ids event = [42; 43; 44; 45].
Definition funding_payment_routing_includes_payment_users : Prop :=
  let event :=
    EngineEvent_FundingPaymentApplied
      (mkFundingPaymentApplied None 1 103 1710028800000 None None
         "funding_SOL-PERP_1710000000_1710028800"
         [mkFundingPayment 42 "pos_42_1" PositionSide_LONG Asset_USDC (-2);
          mkFundingPayment 43 "pos_43_1" PositionSide_SHORT Asset_USDC 2]) in
  engine_event_market_id event = Some 1 /\ engine_event_account_user_ids event = [42; 43].
Definition adl_routing_includes_both_impacted_users : Prop :=
  let event :=
    EngineEvent_AdlExecuted
      (mkAdlExecuted None 1 113 1710000007200 None None "adl_001" "liq_002" 42 44 Side_LONG 5 75 1
         "INSURANCE_FUND_INSUFFICIENT") in
  engine_event_market_id event = Some 1 /\ engine_event_account_user_ids event = [42; 44].

(** *** [hub.rs]: the mailboxes are numbered, and take every push *)

Definition text_serde : WsSerde := {|
  server_message_to_string message :=
    match message with
    | ServerMessage_Error payload => Some (error_message payload)
    | _ => None
    end;
  client_message_from_str _ := None
|}.
#[local] Existing Instance text_serde.
Definition deliver {R} (_ : list (Attempt R)) (_ : R) (_ : string) : bool := true.
Definition inbox (log : list (Attempt Z)) (recipient : Z) : list string :=
  map at_text (filter (fun attempt => at_recipient attempt = recipient) log).

Definition broadcast_account_only_reaches_matching_user : Prop :=
  let hub := register_session 2 7 1 (register_session 1 42 0 HubState_default) in
  match broadcast_account elements deliver 42 (error "account") hub [] with
  | Some (delivered, _, log) => delivered = 1 /\ length (inbox log 0) = 1%nat /\ inbox log 1 = []
  | None => False
  end.
Definition broadcast_market_reaches_subscribed_session : Prop :=
  let hub := subscribe_markets 1 [9] (register_session 1 42 0 HubState_default) in
  match broadcast_market elements deliver 9 (error "market") hub [] with
  | Some (delivered, _, log) => delivered = 1 /\ length (inbox log 0) = 1%nat
  | None => False
  end.

(** *** [session.rs] *)

Definition normalize_markets_deduplicates_and_sorts : Prop := normalize_markets [3; 1; 3] = Ok [1; 3].
Definition normalize_markets_rejects_non_positive_ids : Prop :=
  expect_err (normalize_markets [1; 0]) (fun _ => True).

Lemma ws_tests_pass :
  pass [trade_users_deduplicate_self_trade; trade_users_are_stable;
        event_dedupe_rejects_repeated_event_id; event_dedupe_expires_old_event_ids;
        trade_routing_includes_nested_account_users;
        funding_payment_routing_includes_payment_users; adl_routing_includes_both_impacted_users;
        broadcast_account_only_reaches_matching_user; broadcast_market_reaches_subscribed_session;
        normalize_markets_deduplicates_and_sorts; normalize_markets_rejects_non_positive_ids].
Proof. run_tests. Qed.
End WsTests.

(** ** [apps/server] *)

Module ServerTests.
(** *** [replies.rs] *)

(** A request of user 42, and its channel. *)
Definition registered_request (kind : RequestKind) : Z * ReplyState :=
  register_waiter "req-1" 42 kind ReplyState_default.
Definition wallet_final_reply_resolves_waiter_for_owner : Prop :=
  let '(receiver, state) := registered_request RequestKind_Deposit in
  let state :=
    resolve_wallet_reply (WalletReply_BalanceUpdated (mkBalanceUpdated "req-1" Asset_USDC 100 0))
      state in
  match rs_sent state !! receiver, get_for_user "req-1" 42 state with
  | Some reply, Some _ =>
      rpr_complete reply = true /\
      match rpr_result reply with ReplyResult_Wallet _ => True | _ => False end
  | _, _ => False
  end.
Definition registered_reply_is_hidden_from_other_users : Prop :=
  let '(_, state) := registered_request RequestKind_Deposit in get_for_user "req-1" 7 state = None.
Definition place_order_waiter_ignores_wallet_funds_reserved : Prop :=
  let '(receiver, state) := registered_request RequestKind_PlaceOrder in
  let state :=
    resolve_wallet_reply
      (WalletReply_FundsReserved (mkFundsReserved "req-1" "res-1" Asset_USDC 100)) state in
  rs_sent state !! receiver = None /\
  match get_for_user "req-1" 42 state with
  | Some record =>
      rpr_complete record = false /\
      match rpr_result record with ReplyResult_Wallet _ => True | _ => False end
  | None => False
  end.
Definition place_order_waiter_resolves_on_engine_reply : Prop :=
  let '(receiver, state) := registered_request RequestKind_PlaceOrder in
  let state :=
    resolve_engine_reply (EngineReply_OrderAccepted (mkOrderAccepted "req-1" None None 99 "res-1"))
      state in
  match rs_sent state !! receiver with
  | Some reply =>
      rpr_complete reply = true /\
      match rpr_result reply with ReplyResult_Engine _ => True | _ => False end
  | None => False
  end.

Lemma replies_tests_pass :
  pass [wallet_final_reply_resolves_waiter_for_owner; registered_reply_is_hidden_from_other_users;
        place_order_waiter_ignores_wallet_funds_reserved;
        place_order_waiter_resolves_on_engine_reply].
Proof. run_tests. Qed.

(** *** [middlewares/auth.rs], with a library that takes the tokens it encoded *)

Definition one_token : AuthLibraries := {|
  hash password := Some password;
  verify password hashed := Some (bool_decide (password = hashed));
  encode_token claim secret := Some ("jwt." +:+ secret +:+ "." +:+ cl_username claim);
  decode_token token secret now :=
    if bool_decide (token = "jwt." +:+ secret +:+ ".alice") then Some (mkClaim 42 "alice" (now + 3600))
    else None
|}.
#[local] Existing Instance one_token.
Definition refused (authorization : option (option string)) : Prop :=
  expect_err (auth_middleware "test-secret" 0 authorization) (fun response => hr_status response = 401).
Definition rejects_missing_authorization_header : Prop := refused None.
Definition rejects_non_bearer_authorization_header : Prop := refused (Some (Some "Token abc")).
Definition rejects_invalid_bearer_token : Prop := refused (Some (Some "Bearer not-a-jwt")).
Definition accepts_valid_bearer_token_and_inserts_claim : Prop :=
  match encode_token (mkClaim 42 "alice" 3600) "test-secret" with
  | Some token =>
      expect (auth_middleware "test-secret" 0 (Some (Some ("Bearer " +:+ token))))
        (fun claim => cl_username claim = "alice")
  | None => False
  end.

(** [apps/ws/src/auth.rs] *)
Definition authenticates_bearer_token : Prop :=
  match encode_token (mkClaim 42 "alice" 4102444800) "test-secret" with
  | Some token =>
      expect (authenticate_request "test-secret" 0 (Some (Some ("Bearer " +:+ token))) "")
        (fun claim => cl_userid claim = 42 /\ cl_username claim = "alice")
  | None => False
  end.
Definition authenticates_query_token : Prop :=
  match encode_token (mkClaim 42 "alice" 4102444800) "test-secret" with
  | Some token =>
      expect (authenticate_request "test-secret" 0 None ("token=" +:+ token))
        (fun claim => cl_userid claim = 42)
  | None => False
  end.
Definition rejects_missing_token : Prop :=
  authenticate_request "test-secret" 0 None "" = Err AuthError_MissingToken.

Lemma auth_tests_pass :
  pass [rejects_missing_authorization_header; rejects_non_bearer_authorization_header;
        rejects_invalid_bearer_token; accepts_valid_bearer_token_and_inserts_claim;
        authenticates_bearer_token; authenticates_query_token; rejects_missing_token].
Proof. run_tests. Qed.

(** *** [hot_path.rs] *)

Definition test_claim : Claim := mkClaim 42 "alice" 1.
Definition test_request (idempotency_key : option (option string)) : HttpRequest :=
  mkHttpRequest None idempotency_key (Some (mkCommandConfig 2 5000)) None false.
Definition command_context_uses_idempotency_header_and_reply_partition : Prop :=
  forall uuid, expect (command_context (test_request (Some (Some "client-key-1"))) test_claim uuid)
    (fun context =>
       env_idempotency_key (ctx_envelope context) = "client-key-1" /\
       env_user_id (ctx_envelope context) = 42 /\
       env_reply_partition (ctx_envelope context) = 2 /\
       ack_status (ctx_ack context) = "queued").
Definition command_context_requires_idempotency_header : Prop :=
  forall uuid, expect_err (command_context (test_request None) test_claim uuid)
    (fun response => hr_status response = 400).

(** *** [protocol_map.rs] *)

Definition asset_mapping_covers_known_assets : Prop :=
  map asset_to_protocol [AssetType_USDC; AssetType_USDT; AssetType_SOL; AssetType_ETH;
                         AssetType_BTC; AssetType_PERP; AssetType_HYP]
  = [Asset_USDC; Asset_USDT; Asset_SOL; Asset_ETH; Asset_BTC; Asset_PERP; Asset_HYP].
Definition side_mapping_covers_known_sides : Prop :=
  side_to_protocol SideType_LONG = Side_LONG /\ side_to_protocol SideType_SHORT = Side_SHORT.
Definition order_type_mapping_covers_known_types : Prop :=
  order_type_to_protocol DbOrderType_LIMIT = OrderType_LIMIT /\
  order_type_to_protocol DbOrderType_MARKET = OrderType_MARKET.

(** *** [modules/orders] and [modules/positions]: the validations *)

Definition valid_order (margin leverage : Z) : PlaceOrder :=
  mkPlaceOrder 1 " SOL-PERP " SideType_LONG DbOrderType_LIMIT 10 100 margin AssetType_USDC leverage.
Definition validate_place_order_computes_required_margin_from_leverage : Prop :=
  expect (validate_place_order (valid_order 1000 10)) (fun validated =>
    vp_market_name validated = "SOL-PERP" /\ vp_required_margin validated = 100).
Definition validate_place_order_rejects_margin_below_computed_requirement : Prop :=
  validate_place_order (valid_order 99 10) = Err "margin must be at least required margin (100)".
Definition validate_place_order_rejects_invalid_leverage : Prop :=
  validate_place_order (valid_order 1000 (MAX_LEVERAGE + 1))
  = Err "leverage must be between 1 and 100".

Definition close_position_rejects_non_positive_margin : Prop :=
  close_required_margin (Some 0) = Err "margin must be greater than zero" /\
  close_required_margin (Some (-1)) = Err "margin must be greater than zero".
Definition close_position_rejects_invalid_leverage : Prop :=
  validate_close_leverage (MAX_LEVERAGE + 1) = Err "leverage must be between 1 and 100".

(** The creation times are not columns of [ProjectedOrder]. *)
Definition public_open_order_excludes_private_order_fields : Prop :=
  let order :=
    mkProjectedOrder 42 1 "SOL-PERP" SideType_LONG DbOrderType_LIMIT 10 100 OrderStatus_OPEN 50
      false in
  let public := PublicOpenOrder_from (99, order) in
  pub_market_id public = 1 /\ pub_market_name public = "SOL-PERP" /\
  pub_side public = SideType_LONG /\ pub_order_type public = DbOrderType_LIMIT /\
  pub_quantity public = 10 /\ pub_price public = 100.
Definition user_profile_uses_public_user_fields : Prop :=
  let profile := UserProfile_from (42, mkUserRow "alice" "not-public") in
  up_user_id profile = 42 /\ up_username profile = "alice".

Lemma server_pure_tests_pass :
  pass [command_context_uses_idempotency_header_and_reply_partition;
        command_context_requires_idempotency_header; asset_mapping_covers_known_assets;
        side_mapping_covers_known_sides; order_type_mapping_covers_known_types;
        validate_place_order_computes_required_margin_from_leverage;
        validate_place_order_rejects_margin_below_computed_requirement;
        validate_place_order_rejects_invalid_leverage; close_position_rejects_non_positive_margin;
        close_position_rejects_invalid_leverage; public_open_order_excludes_private_order_fields;
        user_profile_uses_public_user_fields].
Proof. run_tests. Qed.

(** *** Handlers without a claim, whatever the state of the databases *)

Definition bare_request : HttpRequest := mkHttpRequest None None None None false.
Definition unauthorized_command (handler : Handler Waiting) : Prop :=
  forall st, expect_err (handler st).1 (fun response => hr_status response = 401).
Definition place_order_rejects_requests_without_claim : Prop :=
  forall d, unauthorized_command (place_order d bare_request
    (mkPlaceOrder 1 "SOL-PERP" SideType_LONG DbOrderType_LIMIT 10 100 50 AssetType_USDC
       DEFAULT_LEVERAGE)).
Definition cancel_order_rejects_requests_without_claim : Prop :=
  forall d, unauthorized_command (cancel_order d bare_request (mkCancelOrderBody 1 10)).
Definition add_balance_rejects_requests_without_claim : Prop :=
  forall d, unauthorized_command (add_balance d bare_request (mkDepositBalance AssetType_USDC 100 None)).
Definition withdraw_balance_rejects_requests_without_claim : Prop :=
  forall d, unauthorized_command
    (withdraw_balance d bare_request (mkWithdrawBalance AssetType_USDC 100 "bank-1")).
Definition close_position_rejects_requests_without_claim : Prop :=
  forall d positions, unauthorized_command (close_position d positions bare_request
    (mkClosePositionRequest 1 None None None AssetType_USDC DEFAULT_CLOSE_LEVERAGE)).
Definition get_request_status_rejects_requests_without_claim : Prop :=
  forall st, hr_status (get_request_status bare_request "req-1" st) = 401.

Definition get_all_orders_rejects_requests_without_claim : Prop :=
  forall created_at up db, rsp_status (get_all_orders created_at up None 1 db) = 401.
Definition get_open_positions_rejects_requests_without_claim : Prop :=
  forall up t, rsp_status (get_open_positions up None 1 t) = 401.
Definition get_closed_positions_rejects_requests_without_claim : Prop :=
  forall closed_at up t, rsp_status (get_closed_positions closed_at up None 1 t) = 401.
Definition get_balance_rejects_requests_without_claim : Prop :=
  forall up db, rsp_status (get_balance up None db) = 401.
Definition get_currency_balance_rejects_requests_without_claim : Prop :=
  forall up db, rsp_status (get_currency_balance up None AssetType_USDC db) = 401.
Definition get_fills_rejects_requests_without_claim : Prop :=
  forall up db, rsp_status (get_fills up None db) = 401.
Definition get_orders_fills_rejects_requests_without_claim : Prop :=
  forall owner_up up db db', rsp_status (get_orders_fills owner_up up None 1 db db') = 401.
Definition get_positions_fills_rejects_requests_without_claim : Prop :=
  forall owner_up up db db', rsp_status (get_positions_fills owner_up up None 1 db db') = 401.
Definition get_closed_positions_fills_rejects_requests_without_claim : Prop :=
  forall owner_up up db db', rsp_status (get_closed_positions_fills owner_up up None 1 db db') = 401.
Definition get_all_users_rejects_requests_without_claim : Prop :=
  forall joined_at up users, rsp_status (get_all_users joined_at up None users) = 401.
Definition get_user_details_rejects_requests_without_claim : Prop :=
  forall up users, rsp_status (get_user_details up None users) = 401.

Lemma unauthorized_tests_pass :
  pass [place_order_rejects_requests_without_claim; cancel_order_rejects_requests_without_claim;
        add_balance_rejects_requests_without_claim;
        withdraw_balance_rejects_requests_without_claim;
        close_position_rejects_requests_without_claim;
        get_request_status_rejects_requests_without_claim;
        get_all_orders_rejects_requests_without_claim;
        get_open_positions_rejects_requests_without_claim;
        get_closed_positions_rejects_requests_without_claim;
        get_balance_rejects_requests_without_claim;
        get_currency_balance_rejects_requests_without_claim;
        get_fills_rejects_requests_without_claim;
        get_orders_fills_rejects_requests_without_claim;
        get_positions_fills_rejects_requests_without_claim;
        get_closed_positions_fills_rejects_requests_without_claim;
        get_all_users_rejects_requests_without_claim;
        get_user_details_rejects_requests_without_claim].
Proof. run_tests. Qed.

(** *** [modules/markets] and [crates/db/src/candles.rs] *)

Definition supported_intervals_are_explicit : Prop :=
  is_supported_interval "1m" = true /\ is_supported_interval "1d" = true /\
  is_supported_interval "2m" = false.
Definition get_candles_rejects_invalid_interval : Prop :=
  forall valid_millis up db,
    get_candles valid_millis up 1 "2m" None None None db = Err MarketServiceError_InvalidInterval.
Definition get_candles_rejects_invalid_limit : Prop :=
  forall valid_millis up db,
    get_candles valid_millis up 1 "1m" None None (Some (MAX_CANDLE_LIMIT + 1)) db
    = Err MarketServiceError_InvalidLimit.
Definition get_orderbook_rejects_invalid_depth : Prop :=
  forall state_up bids_up asks_up t t_bids t_asks,
    get_orderbook state_up bids_up asks_up 1 (Some (MAX_ORDERBOOK_DEPTH + 1)) t t_bids t_asks
    = Err MarketServiceError_InvalidDepth.
Definition get_market_candles_rejects_invalid_interval : Prop :=
  forall valid_millis up db,
    rsp_status (get_market_candles valid_millis up 1 "2m" None None None db) = 400.
Definition get_market_candles_rejects_invalid_limit : Prop :=
  forall valid_millis up db,
    rsp_status (get_market_candles valid_millis up 1 "1m" None None (Some 1001) db) = 400.
Definition get_orderbook_snapshot_rejects_invalid_depth : Prop :=
  forall state_up bids_up asks_up t t_bids t_asks,
    rsp_status (get_orderbook_snapshot state_up bids_up asks_up 1 (Some 201) t t_bids t_asks) = 400.

Lemma market_tests_pass :
  pass [supported_intervals_are_explicit; get_candles_rejects_invalid_interval;
        get_candles_rejects_invalid_limit; get_orderbook_rejects_invalid_depth;
        get_market_candles_rejects_invalid_interval; get_market_candles_rejects_invalid_limit;
        get_orderbook_snapshot_rejects_invalid_depth].
Proof. run_tests. Qed.
End ServerTests.

(** ** [tools/engine-ingress] *)

Module IngressTests.
Import WalletTests.

Definition mark_price_command : EngineCommand :=
  EngineCommand_MarkPriceUpdated (mark_price_input 1 "mark-001").
Definition funding_rate_command : EngineCommand :=
  EngineCommand_FundingRateUpdated
    (mkFundingRateUpdatedInput None 1 funding_interval 25 1000000 1710000000000 1710028800000
       1710000001000).
Definition settlement_command : EngineCommand :=
  EngineCommand_FundingSettlementTick (settlement_tick (Some "settle-001") 1).

Definition parses_mark_price_args : Prop :=
  parse_engine_command_args
    ["mark-price"; "--input-id"; "mark-001"; "--market-id"; "1"; "--mark-price"; "100";
     "--index-price"; "99"; "--source-timestamp-ms"; "1710000000000"; "--published-at-ms";
     "1710000000100"; "--valid-until-ms"; "1710000005100"; "--source-sequence"; "45001";
     "--source-status"; "VALID"]
  = Ok mark_price_command.
Definition parses_funding_rate_args : Prop :=
  parse_engine_command_args
    ["funding-rate"; "--market-id"; "1"; "--funding-interval-id";
     "funding_SOL-PERP_1710000000_1710028800"; "--rate"; "25"; "--rate-scale"; "1000000";
     "--interval-start-ms"; "1710000000000"; "--interval-end-ms"; "1710028800000";
     "--source-timestamp-ms"; "1710000001000"]
  = Ok funding_rate_command.
(** What the JSON parser answers is the command its text stands for. *)
Definition parses_funding_settlement_tick_json : Prop :=
  forall text engine_command_from_str, engine_command_from_str text = Ok settlement_command ->
    parse_engine_command_json engine_command_from_str text = Ok settlement_command.
Definition rejects_order_json : Prop :=
  forall text engine_command_from_str,
    engine_command_from_str text
      = Ok (EngineCommand_CancelOrder (mkCancelOrder None (mkCommandEnvelope "req" "idem" 1 0) 1 9)) ->
    parse_engine_command_json engine_command_from_str text
      = Err "unsupported engine input 'CancelOrder'; engine-ingress only queues mark/funding inputs".
Definition mark_price_dedupe_key_uses_input_id_when_present : Prop :=
  engine_command_dedupe_key mark_price_command = Ok "engine-input:mark-price:mark-001".
Definition funding_rate_dedupe_key_uses_source_identity_without_input_id : Prop :=
  engine_command_dedupe_key funding_rate_command
  = Ok "engine-input:funding-rate:1:funding_SOL-PERP_1710000000_1710028800:1710000001000".
Definition outbox_message_targets_engine_input_topic : Prop :=
  forall debug_error,
    expect (ingress_outbox_message debug_error settlement_command "engine.input") (fun message =>
      new_dedupe_key message = "engine-input:funding-settlement-tick:settle-001" /\
      new_topic message = "engine.input" /\ new_message_key message = "1" /\
      new_payload_type message = "EngineCommand" /\
      Some (new_payload message) = engine_command_to_value settlement_command).

Lemma ingress_tests_pass :
  pass [parses_mark_price_args; parses_funding_rate_args;
        mark_price_dedupe_key_uses_input_id_when_present;
        funding_rate_dedupe_key_uses_source_identity_without_input_id;
        outbox_message_targets_engine_input_topic].
Proof. run_tests. Qed.
Lemma ingress_json_tests_pass : pass [parses_funding_settlement_tick_json; rejects_order_json].
Proof.
  unfold pass. repeat apply Forall_cons_2; [..|apply Forall_nil_2]; intros text parse Hparse;
    unfold parse_engine_command_json; by rewrite Hparse.
Qed.
End IngressTests.
